(** * tamwoil: the data-consistency layer, embedded in Rocq

    The development follows the two source files of the core:
    - [lib/db-adapter.ts]: the document-style access shim over the relational
      client ([dbAdapter], [where], [increment], [arrayUnion]);
    - [lib/actions.ts]: the server actions built on the shim.

    Modelling conventions.
    - A JSON document is an association list [object]; a table is a list of
      rows; the store maps a collection name to its table.
    - JavaScript numbers are doubles.  The embedding covers the whole
      numbers among them, modelled by [Z]: the actions compute sums,
      differences and products of amounts, which doubles give without
      rounding on whole numbers up to 2^53.  A fractional amount or rate is
      outside the embedding: on such numbers the code rounds, and what is
      proved here of an equation between amounts is proved of whole numbers.
    - [undefined] and [null] are identified: a relational row read back by
      [select('*')] carries [null] in every column that was never written.
    - Asynchronous code is modelled by a state-and-exception monad over the
      store: every request to the relational client is one atomic step, and
      requests take effect in the order in which the code issues them.  A
      promise that is not awaited still performs its writes, but its
      rejection is not seen by the function that created it ([detach]).
    - The relational client may report an error on any request; the schedule
      of such errors is part of the state ([faults]). *)

From Stdlib Require Import ZArith List String Ascii Bool Lia DecimalString.
From Stdlib Require Import Permutation Sorted.
Import ListNotations.
Open Scope string_scope.
Open Scope Z_scope.

Set Implicit Arguments.
Set Warnings "-register-all".

(* ------------------------------------------------------------------ *)
(** ** JSON values *)

(** A number is a whole number: [VNum] carries a [Z].  The doubles of the
    code that are not whole (a weight of 2.5, a rate of 4.85) have no image
    here, and neither has the rounding of their arithmetic. *)
Inductive value : Type :=
| VNull
| VBool (b : bool)
| VNum (n : Z)
| VStr (s : string)
| VArr (xs : list value)
| VObj (fields : list (string * value)).

Definition object : Type := list (string * value).

(** JavaScript truthiness. *)
Definition truthy (v : value) : bool :=
  match v with
  | VNull => false
  | VBool b => b
  | VNum n => negb (n =? 0)
  | VStr s => negb (s =? "")%string
  | VArr _ | VObj _ => true
  end.

(** [===] (and SameValueZero, which agrees with it away from NaN): primitives
    are compared by value; two objects or arrays that went through the store
    are never the same reference. *)
Definition strict_eqb (a b : value) : bool :=
  match a, b with
  | VNull, VNull => true
  | VBool x, VBool y => Bool.eqb x y
  | VNum x, VNum y => x =? y
  | VStr x, VStr y => (x =? y)%string
  | _, _ => false
  end.

(** [o[k]]; an absent key reads as [null]. *)
Fixpoint obj_get (k : string) (o : object) : value :=
  match o with
  | [] => VNull
  | (k', v) :: o' => if (k =? k')%string then v else obj_get k o'
  end.

(** [o[k] = v]. *)
Fixpoint obj_set (k : string) (v : value) (o : object) : object :=
  match o with
  | [] => [(k, v)]
  | (k', v') :: o' =>
      if (k =? k')%string then (k, v) :: o' else (k', v') :: obj_set k v o'
  end.

(** [{...o, ...data}]: the keys of [data] are written over [o] in order.
    An object has each key once; should a list bind a key twice, the
    binding that [obj_get] reads is the one that counts. *)
Definition obj_merge (o data : object) : object :=
  fold_left (fun acc kv => obj_set (fst kv) (obj_get (fst kv) data) acc) data o.

(** Reading a field at a TypeScript type. *)
Definition get_num (k : string) (o : object) : option Z :=
  match obj_get k o with VNum n => Some n | _ => None end.

(** [(o.k as number) || 0]. *)
Definition num_or0 (k : string) (o : object) : Z :=
  match get_num k o with Some n => n | None => 0 end.

(** [Number(v)], [None] standing for NaN.  Strings are read as decimal
    integer literals. *)
Fixpoint digits_value (acc : Z) (s : string) : option Z :=
  match s with
  | EmptyString => Some acc
  | String c s' =>
      let d := Z.of_nat (nat_of_ascii c) - 48 in
      if (0 <=? d) && (d <=? 9) then digits_value (10 * acc + d) s' else None
  end.

Definition parse_decimal (s : string) : option Z :=
  match s with
  | EmptyString => Some 0
  | String "-"%char (String c s') =>
      match digits_value 0 (String c s') with
      | Some n => Some (- n)
      | None => None
      end
  | _ => digits_value 0 s
  end.

Definition js_Number (v : value) : option Z :=
  match v with
  | VNull => Some 0
  | VBool b => Some (if b then 1 else 0)
  | VNum n => Some n
  | VStr s => parse_decimal s
  | VArr [] => Some 0
  | VArr _ | VObj _ => None
  end.

(** [Number(v) || 0]. *)
Definition number_or0 (v : value) : Z :=
  match js_Number v with Some n => n | None => 0 end.

(** [key.includes('.')] and [key.split('.')]. *)
Fixpoint has_dot (s : string) : bool :=
  match s with
  | EmptyString => false
  | String c s' => if Ascii.eqb c "."%char then true else has_dot s'
  end.

Fixpoint split_dot_aux (cur : string) (s : string) : list string :=
  match s with
  | EmptyString => [cur]
  | String c s' =>
      if Ascii.eqb c "."%char then cur :: split_dot_aux "" s'
      else split_dot_aux (cur ++ String c "") s'
  end.

Definition split_dot (s : string) : list string := split_dot_aux "" s.

(* ------------------------------------------------------------------ *)
(** ** The store and the monad of asynchronous actions *)

Definition table : Type := list object.

Record world : Type := mkWorld {
  tables : string -> table;      (* the relational store, by table name *)
  faults : list bool;            (* error schedule of the coming requests *)
  entropy : nat -> string;       (* results of Math.random().toString(36) *)
  clock : nat -> string;         (* results of new Date().toISOString() *)
  ticks : nat                    (* oracle reads so far *)
}.

Inductive error : Type :=
| StoreError                     (* the [error] of a client response *)
| JsError (msg : string).        (* [new Error(msg)] *)

Inductive outcome (A : Type) : Type :=
| Ok (a : A)
| Throw (e : error).

Arguments Throw {A} e.

Definition M (A : Type) : Type := world -> outcome A * world.

Definition ret {A} (a : A) : M A := fun w => (Ok a, w).

Definition bind {A B} (m : M A) (k : A -> M B) : M B :=
  fun w =>
    match m w with
    | (Ok a, w') => k a w'
    | (Throw e, w') => (Throw e, w')
    end.

Definition throw {A} (e : error) : M A := fun w => (Throw e, w).

(** [try { m } catch (error) { h error }]: the writes made before the
    exception stay in the store. *)
Definition try_catch {A} (m : M A) (h : error -> M A) : M A :=
  fun w =>
    match m w with
    | (Ok a, w') => (Ok a, w')
    | (Throw e, w') => h e w'
    end.

(** A call whose promise is dropped: it runs, and its rejection is lost. *)
Definition detach (m : M unit) : M unit :=
  fun w => (Ok tt, snd (m w)).

Declare Scope action_scope.
Delimit Scope action_scope with action.
Notation "x <- m ;; k" := (bind m (fun x => k))
  (at level 61, m at next level, right associativity) : action_scope.
Notation "m ;;; k" := (bind m (fun _ => k))
  (at level 61, right associativity) : action_scope.
Open Scope action_scope.

Definition set_table (c : string) (t : table) (w : world) : world :=
  mkWorld (fun c' => if (c' =? c)%string then t else tables w c')
          (faults w) (entropy w) (clock w) (ticks w).

Definition read_table (c : string) : M table := fun w => (Ok (tables w c), w).

Definition write_table (c : string) (t : table) : M unit :=
  fun w => (Ok tt, set_table c t w).

(** Whether the coming request is answered with an error. *)
Definition sb_fault : M bool :=
  fun w =>
    match faults w with
    | [] => (Ok false, w)
    | b :: fs => (Ok b, mkWorld (tables w) fs (entropy w) (clock w) (ticks w))
    end.

(** [Math.random().toString(36)] and [new Date().toISOString()]: one more
    reading of the oracles. *)
Definition tick (w : world) : world :=
  mkWorld (tables w) (faults w) (entropy w) (clock w) (S (ticks w)).

Definition random_base36 : M string :=
  fun w => (Ok (entropy w (ticks w)), tick w).

Definition now_iso : M string :=
  fun w => (Ok (clock w (ticks w)), tick w).

(* ------------------------------------------------------------------ *)
(** ** The relational client, as far as the shim uses it *)

Definition has_id (id : string) (r : object) : bool :=
  strict_eqb (obj_get "id" r) (VStr id).

(** A comparison of a column with a value of the request.  The value
    [null] goes into the request as the operand of a comparison
    ([.eq(field, null)] is sent as [eq.null]), not as a test for NULL, which
    is [.is(field, null)]: a comparison with it holds for no row, also not
    for a row whose column holds [null]. *)
Definition column_eqb (column v : value) : bool :=
  match v with
  | VNull => false
  | _ => strict_eqb column v
  end.

(** A filter of the query builder. *)
Inductive sb_filter : Type :=
| FEq (field : string) (v : value)          (* .eq(field, v) *)
| FIn (field : string) (vs : list value)    (* .in(field, vs) *)
| FContains (field : string) (vs : list value). (* .contains(field, vs) *)

Definition filter_holds (f : sb_filter) (r : object) : bool :=
  match f with
  | FEq k v => column_eqb (obj_get k r) v
  | FIn k vs => existsb (column_eqb (obj_get k r)) vs
  | FContains k vs =>
      match obj_get k r with
      | VArr xs => forallb (fun v => existsb (strict_eqb v) xs) vs
      | _ => false
      end
  end.

Definition filters_hold (fs : list sb_filter) (r : object) : bool :=
  forallb (fun f => filter_holds f r) fs.

(** [await supabase.from(c).select('*') ... filters]: [None] is an error
    response, [Some rows] the data. *)
Definition sb_select (c : string) (fs : list sb_filter) : M (option table) :=
  bad <- sb_fault ;;
  if bad then ret None
  else t <- read_table c ;; ret (Some (filter (filters_hold fs) t)).

(** [.select('*').eq('id', id).single()]: an error unless exactly one row
    matches. *)
Definition sb_select_single (c id : string) : M (option object) :=
  bad <- sb_fault ;;
  if bad then ret None
  else t <- read_table c ;;
       match filter (has_id id) t with
       | [r] => ret (Some r)
       | _ => ret None
       end.

(** The remaining requests answer [true] when the response carries an
    error.  The tables have [id] as primary key. *)
Definition sb_insert (c : string) (payload : object) : M bool :=
  bad <- sb_fault ;;
  if bad then ret true
  else t <- read_table c ;;
       if existsb (fun r => strict_eqb (obj_get "id" r) (obj_get "id" payload)) t
       then ret true
       else write_table c (t ++ [payload])%list ;;; ret false.

(** [upsert]: a row with the identifier of the payload takes the columns of
    the payload; without such a row the payload is inserted. *)
Definition upsert_row (payload : object) (t : table) : table :=
  if existsb (fun r => strict_eqb (obj_get "id" r) (obj_get "id" payload)) t
  then map (fun r => if strict_eqb (obj_get "id" r) (obj_get "id" payload)
                     then obj_merge r payload else r) t
  else (t ++ [payload])%list.

Definition sb_upsert (c : string) (payload : object) : M bool :=
  bad <- sb_fault ;;
  if bad then ret true
  else t <- read_table c ;; write_table c (upsert_row payload t) ;;; ret false.

Definition update_rows (id : string) (data : object) (t : table) : table :=
  map (fun r => if has_id id r then obj_merge r data else r) t.

Definition sb_update (c id : string) (data : object) : M bool :=
  bad <- sb_fault ;;
  if bad then ret true
  else t <- read_table c ;; write_table c (update_rows id data t) ;;; ret false.

Definition delete_rows (id : string) (t : table) : table :=
  filter (fun r => negb (has_id id r)) t.

Definition sb_delete (c id : string) : M bool :=
  bad <- sb_fault ;;
  if bad then ret true
  else t <- read_table c ;; write_table c (delete_rows id t) ;;; ret false.

(* ------------------------------------------------------------------ *)
(** ** db-adapter.ts: [dbAdapter] *)

(** A document handle, [dbAdapter.doc(collectionName, id)]. *)
Record docref : Type := mkRef { ref_collection : string; ref_id : string }.

(** The snapshot of [doc.get()]: [None] when [exists()] is false. *)
Definition snapshot : Type := option object.

(** A query snapshot: the rows of [docs], in order; [size] is their number. *)
Definition query_snapshot : Type := list object.

(** [where(field, op, value)], [increment(value)], [arrayUnion(value)]. *)
Record condition : Type := mkCond {
  cond_field : string; cond_op : string; cond_value : value }.

Definition where_ (field op : string) (v : value) : condition :=
  mkCond field op v.

Definition increment (n : Z) : value :=
  VObj [("__op", VStr "increment"); ("value", VNum n)].

Definition arrayUnion (v : value) : value :=
  VObj [("__op", VStr "arrayUnion"); ("value", v)].

(** [collection(name).getDocs()]: an error response yields the empty
    snapshot. *)
Definition collection_getDocs (c : string) : M query_snapshot :=
  res <- sb_select c [] ;;
  match res with
  | None => ret []
  | Some rows => ret rows
  end.

(** [collection(name).add(data)]: answers [{ id, ...data }]. *)
Definition collection_add (c : string) (data : object) : M object :=
  idv <- (if truthy (obj_get "id" data) then ret (obj_get "id" data)
          else r <- random_base36 ;; ret (VStr (substring 2 13 r))) ;;
  bad <- sb_insert c (obj_set "id" idv data) ;;
  if bad then throw StoreError
  else ret (obj_merge [("id", idv)] data).

Definition doc_get (d : docref) : M snapshot :=
  sb_select_single (ref_collection d) (ref_id d).

(** [set(data, options)]: the two branches on [options?.merge] issue the
    same upsert. *)
Definition doc_set (d : docref) (data : object) (merge : bool) : M unit :=
  if merge then
    bad <- sb_upsert (ref_collection d) (obj_set "id" (VStr (ref_id d)) data) ;;
    if bad then throw StoreError else ret tt
  else
    bad <- sb_upsert (ref_collection d) (obj_set "id" (VStr (ref_id d)) data) ;;
    if bad then throw StoreError else ret tt.

(** [val && typeof val === 'object' && val.__op]. *)
Definition is_special_op (v : value) : bool :=
  match v with
  | VObj o => truthy (obj_get "__op" o)
  | _ => false
  end.

Definition op_is (name : string) (v : value) : bool :=
  match v with
  | VObj o => strict_eqb (obj_get "__op" o) (VStr name)
  | _ => false
  end.

Definition op_value (v : value) : value :=
  match v with
  | VObj o => obj_get "value" o
  | _ => VNull
  end.

(** The walk of a dotted key: missing or falsy steps are replaced by [{}];
    assigning into a truthy primitive is a [TypeError] ([None]); a named
    property put on an array is lost when the row is serialised. *)
Fixpoint set_path (parts : list string) (v : value) (target : object)
  : option object :=
  match parts with
  | [] => Some target
  | [leaf] => Some (obj_set leaf v target)
  | p :: rest =>
      let child := obj_get p target in
      if truthy child then
        match child with
        | VObj o =>
            match set_path rest v o with
            | Some o' => Some (obj_set p (VObj o') target)
            | None => None
            end
        | VArr _ => Some target
        | _ => None
        end
      else
        match set_path rest v [] with
        | Some o' => Some (obj_set p (VObj o') target)
        | None => None
        end
  end.

(** One turn of [for (const key in data)]. *)
Definition apply_key (updated : object) (kv : string * value)
  : option object :=
  let (key, v) := kv in
  if has_dot key then set_path (split_dot key) v updated
  else if op_is "increment" v then
    match op_value v with
    | VNum n => Some (obj_set key (VNum (number_or0 (obj_get key updated) + n)) updated)
    | _ => Some (obj_set key VNull updated)
    end
  else if op_is "arrayUnion" v then
    let arr := match obj_get key updated with VArr xs => xs | _ => [] end in
    if existsb (strict_eqb (op_value v)) arr then Some (obj_set key (VArr arr) updated)
    else Some (obj_set key (VArr (arr ++ [op_value v])%list) updated)
  else Some (obj_set key v updated).

Fixpoint apply_keys (updated : object) (data : object) : option object :=
  match data with
  | [] => Some updated
  | kv :: rest =>
      match apply_key updated kv with
      | Some u => apply_keys u rest
      | None => None
      end
  end.

Definition doc_update (d : docref) (data : object) : M unit :=
  let hasSpecialOps := existsb (fun kv => is_special_op (snd kv)) data in
  let hasDotNotation := existsb (fun kv => has_dot (fst kv)) data in
  if hasSpecialOps || hasDotNotation then
    current <- sb_select_single (ref_collection d) (ref_id d) ;;
    match current with
    | None => throw (JsError "Document not found for update")
    | Some cur =>
        match apply_keys cur data with
        | None => throw (JsError "TypeError")
        | Some updated =>
            bad <- sb_update (ref_collection d) (ref_id d) updated ;;
            if bad then throw StoreError else ret tt
        end
    end
  else
    bad <- sb_update (ref_collection d) (ref_id d) data ;;
    if bad then throw StoreError else ret tt.

Definition doc_delete (d : docref) : M unit :=
  bad <- sb_delete (ref_collection d) (ref_id d) ;;
  if bad then throw StoreError else ret tt.

(** [dbAdapter.query]: the loop over the conditions; an operator that is
    none of the three adds no filter. *)
Fixpoint build_filters (conditions : list condition) : list sb_filter :=
  match conditions with
  | [] => []
  | cond :: rest =>
      if (cond_op cond =? "==")%string then
        FEq (cond_field cond) (cond_value cond) :: build_filters rest
      else if (cond_op cond =? "in")%string then
        FIn (cond_field cond)
            (match cond_value cond with VArr xs => xs | _ => [] end)
          :: build_filters rest
      else if (cond_op cond =? "array-contains")%string then
        FContains (cond_field cond) [cond_value cond] :: build_filters rest
      else build_filters rest
  end.

Definition adapter_query (c : string) (conditions : list condition)
  : M query_snapshot :=
  res <- sb_select c (build_filters conditions) ;;
  match res with
  | None => ret []
  | Some rows => ret rows
  end.

(** [dbAdapter.runTransaction]: the handle given to the caller's function,
    and the runner, which only calls that function. *)
Record transaction : Type := mkTransaction {
  tx_get : docref -> M snapshot;
  tx_set : docref -> object -> bool -> M unit;
  tx_update : docref -> object -> M unit
}.

Definition the_transaction : transaction :=
  mkTransaction doc_get doc_set doc_update.

Definition runTransaction {A} (updateFunction : transaction -> M A) : M A :=
  updateFunction the_transaction.

(* ------------------------------------------------------------------ *)
(** ** actions.ts: the Firebase-named helpers *)

Definition USERS_COLLECTION := "users_v4".
Definition REPRESENTATIVES_COLLECTION := "representatives_v4".
Definition ORDERS_COLLECTION := "orders_v4".
Definition TEMP_ORDERS_COLLECTION := "tempOrders_v4".
Definition TRANSACTIONS_COLLECTION := "transactions_v4".
Definition SETTINGS_COLLECTION := "settings_v4".
Definition CREDITORS_COLLECTION := "creditors_v4".

(** Identifiers are strings (the tables have a TEXT primary key); a field
    holding anything else is read as the empty, falsy identifier. *)
Definition as_id (v : value) : string :=
  match v with VStr s => s | _ => "" end.

(** A field read at the TypeScript type [number]. *)
Definition as_num (v : value) : Z :=
  match v with VNum n => n | _ => 0 end.

(** [doc(db, col, id)]: refuses a falsy collection or identifier. *)
Definition doc (col id : string) : M docref :=
  if negb (col =? "")%string && negb (id =? "")%string
  then ret (mkRef col id)
  else throw (JsError "Invalid doc usage").

(** [doc(collection(db, name))]: a handle with a generated identifier. *)
Definition doc_auto (col : string) : M docref :=
  r <- random_base36 ;; ret (mkRef col (substring 2 13 r)).

(** The argument of [getDocs]: a collection name or a [query(...)]. *)
Inductive queryable : Type :=
| QCollection (name : string)
| QQuery (name : string) (conditions : list condition).

Definition collection (name : string) : queryable := QCollection name.
Definition query (name : string) (conditions : list condition) : queryable :=
  QQuery name conditions.

Definition getDocs (q : queryable) : M query_snapshot :=
  match q with
  | QCollection c => collection_getDocs c
  | QQuery c conds => adapter_query c conds
  end.

Definition getDoc (ref : docref) : M snapshot := doc_get ref.
Definition addDoc (c : string) (data : object) : M object := collection_add c data.
Definition updateDoc (ref : docref) (data : object) : M unit := doc_update ref data.
Definition setDoc (ref : docref) (data : object) (merge : bool) : M unit :=
  doc_set ref data merge.
Definition deleteDoc (ref : docref) : M unit := doc_delete ref.

(** [writeBatch]: [update], [set] and [delete] start their request at once
    and keep the promise; [commit] awaits them all and rethrows a
    rejection.  The batch value records the rejections so far. *)
Definition batch : Type := list error.

Definition writeBatch : batch := [].

Definition batch_push (b : batch) (m : M unit) : M batch :=
  fun w =>
    match m w with
    | (Ok _, w') => (Ok b, w')
    | (Throw e, w') => (Ok (b ++ [e])%list, w')
    end.

Definition batch_update (b : batch) (ref : docref) (data : object) : M batch :=
  batch_push b (doc_update ref data).

Definition batch_delete (b : batch) (ref : docref) : M batch :=
  batch_push b (doc_delete ref).

Definition batch_set (b : batch) (ref : docref) (data : object) (merge : bool)
  : M batch :=
  batch_push b (doc_set ref data merge).

Definition batch_commit (b : batch) : M unit :=
  match b with
  | [] => ret tt
  | e :: _ => throw e
  end.

(** A [for ... of] loop threading a value. *)
Fixpoint foldM {A B} (f : A -> B -> M A) (a : A) (xs : list B) : M A :=
  match xs with
  | [] => ret a
  | x :: rest => a' <- f a x ;; foldM f a' rest
  end.

(** [docSnap.ref] of a row of a query snapshot. *)
Definition row_ref (c : string) (row : object) : docref :=
  mkRef c (as_id (obj_get "id" row)).

(* ------------------------------------------------------------------ *)
(** ** actions.ts: recalculation *)

Definition activeStatuses : list value :=
  [VStr "pending"; VStr "processed"; VStr "ready"; VStr "shipped";
   VStr "arrived_dubai"; VStr "arrived_benghazi"; VStr "arrived_tobruk";
   VStr "out_for_delivery"; VStr "delivered"; VStr "paid"].

Definition recalculateUserStats (userId : string) : M unit :=
  try_catch
    (userRef <- doc USERS_COLLECTION userId ;;
     let totalDebt := 0 in
     let orderCount := 0 in
     (* 1. debt from regular orders *)
     orderQuerySnapshot <-
       getDocs (query ORDERS_COLLECTION
                  [where_ "userId" "==" (VStr userId);
                   where_ "status" "in" (VArr activeStatuses)]) ;;
     let orderCount := orderCount + Z.of_nat (List.length orderQuerySnapshot) in
     let totalDebt :=
       fold_left (fun acc d => acc + num_or0 "remainingAmount" d)
                 orderQuerySnapshot totalDebt in
     (* 2. temp orders assigned directly to the user and not converted *)
     tempOrdersDirectSnapshot <-
       getDocs (query TEMP_ORDERS_COLLECTION
                  [where_ "assignedUserId" "==" (VStr userId);
                   where_ "parentInvoiceId" "==" VNull]) ;;
     let totalDebt :=
       fold_left (fun acc d =>
                    if negb (strict_eqb (obj_get "status" d) (VStr "cancelled"))
                    then acc + num_or0 "remainingAmount" d
                    else acc)
                 tempOrdersDirectSnapshot totalDebt in
     (* 3. update the user document *)
     updateDoc userRef [("debt", VNum totalDebt); ("orderCount", VNum orderCount)])
    (fun e => throw e).

(* ------------------------------------------------------------------ *)
(** ** actions.ts: settings and users *)

(** [a ?? b]. *)
Definition nullish_or (a b : value) : value :=
  match a with VNull => b | _ => a end.

Definition default_settings : object :=
  [("exchangeRate", VNum 1); ("pricePerKiloLYD", VNum 0); ("pricePerKiloUSD", VNum 0)].

Definition getAppSettings : M object :=
  try_catch
    (settingsRef <- doc SETTINGS_COLLECTION "main" ;;
     docSnap <- getDoc settingsRef ;;
     match docSnap with
     | Some data =>
         ret [("exchangeRate", nullish_or (obj_get "exchangeRate" data) (VNum 1));
              ("pricePerKiloLYD", nullish_or (obj_get "pricePerKiloLYD" data) (VNum 0));
              ("pricePerKiloUSD", nullish_or (obj_get "pricePerKiloUSD" data) (VNum 0))]
     | None =>
         setDoc settingsRef default_settings false ;;; ret default_settings
     end)
    (fun _ => ret default_settings).

(** [xs.length] on a field that should hold an array. *)
Definition js_length (v : value) : M value :=
  match v with
  | VArr xs => ret (VNum (Z.of_nat (List.length xs)))
  | VStr s => ret (VNum (Z.of_nat (String.length s)))
  | VNull => throw (JsError "TypeError")
  | _ => ret VNull
  end.

Definition getUserById (userId : string) : M (option object) :=
  try_catch
    ((* make sure the data is up to date before fetching *)
     recalculateUserStats userId ;;;
     userRef <- doc USERS_COLLECTION userId ;;
     docSnap <- getDoc userRef ;;
     match docSnap with
     | Some data => ret (Some (obj_merge [("id", VStr (ref_id userRef))] data))
     | None =>
         (* fallback: temporary users of imported invoices *)
         tempOrderRef <- doc TEMP_ORDERS_COLLECTION userId ;;
         tempOrderSnap <- getDoc tempOrderRef ;;
         match tempOrderSnap with
         | Some tempData =>
             n <- js_length (obj_get "subOrders" tempData) ;;
             ret (Some [("id", obj_get "id" tempData);
                        ("name", obj_get "invoiceName" tempData);
                        ("username", obj_get "invoiceName" tempData);
                        ("phone", VStr "");
                        ("orderCount", n);
                        ("debt", obj_get "remainingAmount" tempData)])
         | None => ret None
         end
     end)
    (fun _ => ret None).

(* ------------------------------------------------------------------ *)
(** ** actions.ts: text helpers *)

Definition string_of_Z (n : Z) : string :=
  NilZero.string_of_int (Z.to_int n).

(** [s.padStart(2, '0')]. *)
Definition padStart2 (s : string) : string :=
  match String.length s with
  | O => "00"
  | S O => "0" ++ s
  | _ => s
  end.

Definition upper_ascii (c : ascii) : ascii :=
  let n := nat_of_ascii c in
  if (Nat.leb 97 n && Nat.leb n 122)%bool then ascii_of_nat (n - 32) else c.

Fixpoint toUpperCase (s : string) : string :=
  match s with
  | EmptyString => EmptyString
  | String c s' => String (upper_ascii c) (toUpperCase s')
  end.

(** A value inside a template literal. *)
Definition js_String (v : value) : string :=
  match v with
  | VNull => "undefined"
  | VBool true => "true"
  | VBool false => "false"
  | VNum n => string_of_Z n
  | VStr s => s
  | VArr _ => ""
  | VObj _ => "[object Object]"
  end.

(** [(num / den).toFixed(2)] for an exact quotient. *)
Definition toFixed2 (num den : Z) : string :=
  let h := (2 * 100 * Z.abs num + Z.abs den) / (2 * Z.abs den) in
  let neg := negb (h =? 0) && ((num <? 0) && (0 <? den) || (0 <? num) && (den <? 0)) in
  (if neg then "-" else "") ++ string_of_Z (h / 100) ++ "."
    ++ (if h mod 100 <? 10 then "0" else "") ++ string_of_Z (h mod 100).

(* ------------------------------------------------------------------ *)
(** ** actions.ts: orders *)

(** The values that [addOrder] builds inside its transaction. *)
Definition invoice_number (userData : object) : string :=
  let newOrderCount := num_or0 "orderCounter" userData + 1 in
  js_String (obj_get "username" userData) ++ "-"
    ++ padStart2 (string_of_Z newOrderCount).

Definition final_order_data (orderData userData settings : object)
    (finalTrackingId : value) : object :=
  (* remainingAmount at creation *)
  let remainingAmount :=
    num_or0 "sellingPriceLYD" orderData - num_or0 "downPaymentLYD" orderData in
  obj_merge orderData
    [("invoiceNumber", VStr (invoice_number userData));
     ("trackingId", finalTrackingId);
     ("exchangeRate", obj_get "exchangeRate" settings);
     ("remainingAmount", VNum remainingAmount)].

Definition order_transaction (orderRef : docref) (finalOrderData : object)
    (invoiceNumber : string) : object :=
  [("orderId", VStr (ref_id orderRef));
   ("customerId", obj_get "userId" finalOrderData);
   ("customerName", obj_get "customerName" finalOrderData);
   ("date", obj_get "operationDate" finalOrderData);
   ("type", VStr "order");
   ("status", obj_get "status" finalOrderData);
   ("amount", obj_get "sellingPriceLYD" finalOrderData);
   ("description", VStr ("إنشاء طلب جديد " ++ invoiceNumber))].

Definition down_payment_transaction (orderRef : docref) (finalOrderData : object)
    (invoiceNumber : string) : object :=
  [("orderId", VStr (ref_id orderRef));
   ("customerId", obj_get "userId" finalOrderData);
   ("customerName", obj_get "customerName" finalOrderData);
   ("date", obj_get "operationDate" finalOrderData);
   ("type", VStr "payment");
   ("status", VStr "paid");
   ("amount", obj_get "downPaymentLYD" finalOrderData);
   ("description", VStr ("دفعة مقدمة للطلب " ++ invoiceNumber))].

(** [finalOrderData.downPaymentLYD && finalOrderData.downPaymentLYD > 0]. *)
Definition has_down_payment (finalOrderData : object) : bool :=
  truthy (obj_get "downPaymentLYD" finalOrderData)
  && (0 <? as_num (obj_get "downPaymentLYD" finalOrderData)).

Definition addOrder (orderData : object) : M (option object) :=
  try_catch
    (newDocRef <-
       runTransaction (fun transaction =>
         userRef <- doc USERS_COLLECTION (as_id (obj_get "userId" orderData)) ;;
         userDoc <- tx_get transaction userRef ;;
         match userDoc with
         | None => throw (JsError "User does not exist!")
         | Some userData =>
             settings <- getAppSettings ;;
             finalTrackingId <-
               (if truthy (obj_get "trackingId" orderData)
                then ret (obj_get "trackingId" orderData)
                else r <- random_base36 ;;
                     ret (VStr (toUpperCase (substring 2 8 r)))) ;;
             let finalOrderData :=
               final_order_data orderData userData settings finalTrackingId in
             orderRef <- doc_auto ORDERS_COLLECTION ;;
             detach (tx_set transaction orderRef finalOrderData false) ;;;
             (* main transaction for the order's full value *)
             orderTransactionRef <- doc_auto TRANSACTIONS_COLLECTION ;;
             detach (tx_set transaction orderTransactionRef
                       (order_transaction orderRef finalOrderData
                          (invoice_number userData))
                       false) ;;;
             (* a separate payment transaction for a down payment *)
             (if has_down_payment finalOrderData then
                paymentTransactionRef <- doc_auto TRANSACTIONS_COLLECTION ;;
                detach (tx_set transaction paymentTransactionRef
                          (down_payment_transaction orderRef finalOrderData
                             (invoice_number userData))
                          false)
              else ret tt) ;;;
             detach (tx_update transaction userRef [("orderCounter", increment 1)]) ;;;
             ret orderRef
         end) ;;
     (* after the transaction: update stats and return the created order *)
     newOrderSnap <- getDoc newDocRef ;;
     match newOrderSnap with
     | Some data =>
         let newOrderData := obj_merge [("id", VStr (ref_id newDocRef))] data in
         recalculateUserStats (as_id (obj_get "userId" newOrderData)) ;;;
         ret (Some newOrderData)
     | None => ret None
     end)
    (fun _ => ret None).

(** After a weight or shipping adjustment: recalculate the order's user. *)
Definition recalc_order_user (orderRef : docref) : M unit :=
  orderSnap <- getDoc orderRef ;;
  match orderSnap with
  | Some data =>
      if truthy (obj_get "userId" data)
      then recalculateUserStats (as_id (obj_get "userId" data))
      else ret tt
  | None => ret tt
  end.

Definition addCustomerShippingCost (orderId : string) (costInUSD : Z) : M bool :=
  if costInUSD <? 0 then ret false
  else
    orderRef <- doc ORDERS_COLLECTION orderId ;;
    try_catch
      (runTransaction (fun transaction =>
         orderDoc <- tx_get transaction orderRef ;;
         match orderDoc with
         | None => throw (JsError "Order document does not exist!")
         | Some orderData =>
             let currentCustomerWeightCostUSD := num_or0 "customerWeightCostUSD" orderData in
             let currentSellingPrice := num_or0 "sellingPriceLYD" orderData in
             exchangeRate <-
               (if truthy (obj_get "exchangeRate" orderData)
                then ret (obj_get "exchangeRate" orderData)
                else s <- getAppSettings ;; ret (obj_get "exchangeRate" s)) ;;
             let costDifferenceUSD := costInUSD - currentCustomerWeightCostUSD in
             let costDifferenceLYD := costDifferenceUSD * as_num exchangeRate in
             let newSellingPrice := currentSellingPrice + costDifferenceLYD in
             detach (tx_update transaction orderRef
                       [("sellingPriceLYD", VNum newSellingPrice);
                        ("remainingAmount", increment costDifferenceLYD);
                        ("customerWeightCostUSD", VNum costInUSD)])
         end) ;;;
       recalc_order_user orderRef ;;;
       ret true)
      (fun _ => ret false).

Definition setCustomerWeightDetails (orderId : string)
    (weight companyPricePerKiloUSD customerPricePerKilo : Z) : M bool :=
  if weight <? 0 then ret false
  else
    orderRef <- doc ORDERS_COLLECTION orderId ;;
    try_catch
      (runTransaction (fun transaction =>
         orderDoc <- tx_get transaction orderRef ;;
         match orderDoc with
         | None => throw (JsError "Order document does not exist!")
         | Some orderData =>
             let currentSellingPrice := num_or0 "sellingPriceLYD" orderData in
             let currentRemaining := num_or0 "remainingAmount" orderData in
             let oldCustomerWeightCost := num_or0 "customerWeightCost" orderData in
             let newCustomerTotalCostLYD := weight * customerPricePerKilo in
             let newCompanyTotalCostUSD := weight * companyPricePerKiloUSD in
             let costDifference := newCustomerTotalCostLYD - oldCustomerWeightCost in
             detach (tx_update transaction orderRef
                       [("sellingPriceLYD", VNum (currentSellingPrice + costDifference));
                        ("remainingAmount", VNum (currentRemaining + costDifference));
                        ("weightKG", VNum weight);
                        ("companyPricePerKiloUSD", VNum companyPricePerKiloUSD);
                        ("customerPricePerKilo", VNum customerPricePerKilo);
                        ("customerWeightCost", VNum newCustomerTotalCostLYD);
                        ("companyWeightCostUSD", VNum newCompanyTotalCostUSD)]) ;;;
             (* log a transaction when there is a difference *)
             if negb (costDifference =? 0) then
               transactionRef <- doc_auto TRANSACTIONS_COLLECTION ;;
               date <- now_iso ;;
               detach (tx_set transaction transactionRef
                         [("orderId", VStr orderId);
                          ("customerId", obj_get "userId" orderData);
                          ("customerName", obj_get "customerName" orderData);
                          ("date", VStr date);
                          ("type", VStr "order");
                          ("status", VStr "completed");
                          ("amount", VNum costDifference);
                          ("description",
                           VStr ("تعديل وزن الزبون: " ++ string_of_Z weight
                                 ++ " كجم (السابق: "
                                 ++ toFixed2 oldCustomerWeightCost
                                      (if customerPricePerKilo =? 0 then 1
                                       else customerPricePerKilo)
                                 ++ " كجم)"))]
                         false)
             else ret tt
         end) ;;;
       recalc_order_user orderRef ;;;
       ret true)
      (fun _ => ret false).

(* ------------------------------------------------------------------ *)
(** ** actions.ts: representatives and order deletion *)

Definition assignRepresentativeToOrder (orderId : string) (rep : object) : M bool :=
  try_catch
    (let batch := writeBatch in
     orderRef <- doc ORDERS_COLLECTION orderId ;;
     orderSnap <- getDoc orderRef ;;
     match orderSnap with
     | None => throw (JsError "Order to assign not found")
     | Some orderData =>
         batch <-
           (if truthy (obj_get "representativeId" orderData) then
              oldRepRef <- doc REPRESENTATIVES_COLLECTION
                             (as_id (obj_get "representativeId" orderData)) ;;
              batch_update batch oldRepRef [("assignedOrders", increment (-1))]
            else ret batch) ;;
         batch <- batch_update batch orderRef
                    [("representativeId", obj_get "id" rep);
                     ("representativeName", obj_get "name" rep);
                     ("status", VStr "out_for_delivery")] ;;
         newRepRef <- doc REPRESENTATIVES_COLLECTION (as_id (obj_get "id" rep)) ;;
         batch <- batch_update batch newRepRef [("assignedOrders", increment 1)] ;;
         batch_commit batch ;;;
         ret true
     end)
    (fun _ => ret false).

Definition unassignRepresentativeFromOrder (orderId : string) : M bool :=
  try_catch
    (orderRef <- doc ORDERS_COLLECTION orderId ;;
     orderSnap <- getDoc orderRef ;;
     match orderSnap with
     | None => throw (JsError "Order not found")
     | Some orderData =>
         let currentRepId := obj_get "representativeId" orderData in
         if negb (truthy currentRepId) then ret true
         else
           let batch := writeBatch in
           repRef <- doc REPRESENTATIVES_COLLECTION (as_id currentRepId) ;;
           batch <- batch_update batch repRef [("assignedOrders", increment (-1))] ;;
           batch <- batch_update batch orderRef
                      [("representativeId", VNull);
                       ("representativeName", VNull);
                       ("status", VStr "ready")] ;;
           batch_commit batch ;;;
           ret true
     end)
    (fun _ => ret false).

Definition deleteOrder (orderId : string) : M bool :=
  try_catch
    (orderRef <- doc ORDERS_COLLECTION orderId ;;
     orderSnap <- getDoc orderRef ;;
     match orderSnap with
     | None => throw (JsError "Order to delete not found")
     | Some orderData =>
         let userId := obj_get "userId" orderData in
         let batch := writeBatch in
         batch <-
           (if truthy (obj_get "representativeId" orderData) then
              repRef <- doc REPRESENTATIVES_COLLECTION
                          (as_id (obj_get "representativeId" orderData)) ;;
              batch_update batch repRef [("assignedOrders", increment (-1))]
            else ret batch) ;;
         transactionsSnapshot <-
           getDocs (query TRANSACTIONS_COLLECTION
                      [where_ "orderId" "==" (VStr orderId)]) ;;
         batch <- foldM (fun b d => batch_delete b (row_ref TRANSACTIONS_COLLECTION d))
                        batch transactionsSnapshot ;;
         batch <- batch_delete batch orderRef ;;
         batch_commit batch ;;;
         (if truthy userId then recalculateUserStats (as_id userId) else ret tt) ;;;
         ret true
     end)
    (fun _ => ret false).

Definition bulkAssignRepresentative (orderIds : list string) (rep : object) : M bool :=
  if (List.length orderIds =? 0)%nat then ret true
  else
    try_catch
      (let batch := writeBatch in
       repRef <- doc REPRESENTATIVES_COLLECTION (as_id (obj_get "id" rep)) ;;
       batch <- foldM (fun b orderId =>
                         orderRef <- doc ORDERS_COLLECTION orderId ;;
                         batch_update b orderRef
                           [("representativeId", obj_get "id" rep);
                            ("representativeName", obj_get "name" rep);
                            ("status", VStr "out_for_delivery")])
                      batch orderIds ;;
       batch <- batch_update batch repRef
                  [("assignedOrders", increment (Z.of_nat (List.length orderIds)))] ;;
       batch_commit batch ;;;
       ret true)
      (fun _ => ret false).

(* ------------------------------------------------------------------ *)
(** ** actions.ts: temporary orders (the read used by the admin list) *)

(** Insertion of a row by decreasing date, as the stable
    [sort((a, b) => t b - t a)] does; [time] stands for
    [new Date(x).getTime()]. *)
Fixpoint insert_desc (time : value -> Z) (key : string) (r : object)
    (rows : list object) : list object :=
  match rows with
  | [] => [r]
  | r' :: rest =>
      if time (obj_get key r') <=? time (obj_get key r)
      then r :: r' :: rest
      else r' :: insert_desc time key r rest
  end.

Definition sort_desc (time : value -> Z) (key : string) (rows : list object)
  : list object :=
  fold_right (insert_desc time key) [] rows.

Definition getTempOrders (time : value -> Z) : M (list object) :=
  try_catch
    (querySnapshot <-
       getDocs (query TEMP_ORDERS_COLLECTION
                  [where_ "status" "!=" (VStr "cancelled")]) ;;
     ret (sort_desc time "createdAt"
            (map (fun data =>
                    obj_merge (obj_merge [("id", obj_get "id" data)] data)
                      [("subOrders",
                        match obj_get "subOrders" data with
                        | VArr xs => VArr xs
                        | _ => VArr []
                        end)])
                 querySnapshot)))
    (fun _ => ret []).

(* ------------------------------------------------------------------ *)
(** ** actions.ts: transactions *)

(** [userId && !userId.startsWith('TEMP-')]: recalculation for a real
    customer; a truthy value that is not a string has no [startsWith]. *)
Definition recalc_customer (customerId : value) : M unit :=
  if truthy customerId then
    match customerId with
    | VStr s => if negb (prefix "TEMP-" s) then recalculateUserStats s else ret tt
    | _ => throw (JsError "TypeError")
    end
  else ret tt.

Definition addTransaction (transactionData : object) : M (option string) :=
  try_catch
    (newTransactionRef <-
       runTransaction (fun transaction =>
         newDocRef <- doc_auto TRANSACTIONS_COLLECTION ;;
         (if strict_eqb (obj_get "type" transactionData) (VStr "payment")
             && truthy (obj_get "orderId" transactionData)
          then
            orderRef <- doc ORDERS_COLLECTION (as_id (obj_get "orderId" transactionData)) ;;
            orderDoc <- tx_get transaction orderRef ;;
            match orderDoc with
            | Some orderData =>
                let newRemaining :=
                  num_or0 "remainingAmount" orderData
                  - as_num (obj_get "amount" transactionData) in
                detach (tx_update transaction orderRef
                          [("remainingAmount",
                            VNum (if newRemaining <? 0 then 0 else newRemaining))])
            | None => ret tt
            end
          else ret tt) ;;;
         detach (tx_set transaction newDocRef transactionData false) ;;;
         ret newDocRef) ;;
     recalc_customer (obj_get "customerId" transactionData) ;;;
     ret (Some (ref_id newTransactionRef)))
    (fun _ => ret None).

Definition updateTransaction (transactionId : string) (newAmount : Z) : M bool :=
  transactionRef <- doc TRANSACTIONS_COLLECTION transactionId ;;
  try_catch
    (runTransaction (fun transaction =>
       txDoc <- tx_get transaction transactionRef ;;
       match txDoc with
       | None => throw (JsError "Transaction not found!")
       | Some txData =>
           let oldAmount := as_num (obj_get "amount" txData) in
           let amountDifference := newAmount - oldAmount in
           detach (tx_update transaction transactionRef [("amount", VNum newAmount)]) ;;;
           if truthy (obj_get "orderId" txData) then
             orderRef <- doc ORDERS_COLLECTION (as_id (obj_get "orderId" txData)) ;;
             detach (tx_update transaction orderRef
                       [("remainingAmount", increment (- amountDifference))])
           else ret tt
       end) ;;;
     finalTxDoc <- getDoc transactionRef ;;
     match finalTxDoc with
     | Some data => recalc_customer (obj_get "customerId" data)
     | None => ret tt
     end ;;;
     ret true)
    (fun _ => ret false).

Definition deleteTransaction (transactionId : string) : M bool :=
  transactionRef <- doc TRANSACTIONS_COLLECTION transactionId ;;
  try_catch
    (txDoc <- getDoc transactionRef ;;
     match txDoc with
     | None => throw (JsError "Transaction to delete not found")
     | Some txData =>
         let amountToReturn := as_num (obj_get "amount" txData) in
         let orderId := obj_get "orderId" txData in
         let userId := obj_get "customerId" txData in
         let batch := writeBatch in
         batch <-
           (if truthy orderId then
              orderRef <- doc ORDERS_COLLECTION (as_id orderId) ;;
              batch_update batch orderRef [("remainingAmount", increment amountToReturn)]
            else ret batch) ;;
         batch <- batch_delete batch transactionRef ;;
         batch_commit batch ;;;
         recalc_customer userId ;;;
         ret true
     end)
    (fun _ => ret false).

(* ------------------------------------------------------------------ *)
(** ** actions.ts: creditors *)

Definition getCreditors : M (list object) :=
  querySnapshot <- getDocs (collection CREDITORS_COLLECTION) ;;
  ret (map (fun data => obj_merge [("id", obj_get "id" data)] data) querySnapshot).

Definition updateCreditor (creditorId : string) (data : object) : M bool :=
  ref <- doc CREDITORS_COLLECTION creditorId ;;
  updateDoc ref data ;;;
  ret true.

(* ------------------------------------------------------------------ *)
(** ** Vocabulary of the properties *)

(** The binding of a key, when there is one. *)
Fixpoint obj_find (k : string) (o : object) : option value :=
  match o with
  | [] => None
  | (k', v) :: o' => if (k =? k')%string then Some v else obj_find k o'
  end.

(** A store without request errors. *)
Definition reliable (w : world) : Prop := faults w = [].

(** The rows of a table that carry a given identifier. *)
Definition rows_with_id (w : world) (c id : string) : list object :=
  filter (has_id id) (tables w c).

(** The operators that [dbAdapter.query] translates. *)
Definition supported_op (op : string) : bool :=
  (op =? "==")%string || (op =? "in")%string || (op =? "array-contains")%string.

Definition supported_cond (cond : condition) : bool := supported_op (cond_op cond).

(** The reading of the specification: a query with an unsupported operator
    raises an error. *)
Definition unsupported_operator_fails_loudly : Prop :=
  forall (c : string) (conditions : list condition) (w : world),
    existsb (fun cond => negb (supported_cond cond)) conditions = true ->
    exists e, fst (adapter_query c conditions w) = Throw e.

(* ------------------------------------------------------------------ *)
(** ** Sample states used in worked examples *)

Definition store_of (l : list (string * table)) : string -> table :=
  fun c =>
    match find (fun p => (fst p =? c)%string) l with
    | Some p => snd p
    | None => []
    end.

Definition sample_entropy (n : nat) : string :=
  "0.k" ++ string_of_Z (Z.of_nat n) ++ "q7x2m9d4".

Definition sample_clock (n : nat) : string := "2024-05-01T10:00:00.000Z".

Definition sample_world (l : list (string * table)) (fs : list bool) : world :=
  mkWorld (store_of l) fs sample_entropy sample_clock 0.

Definition temp_rows : table :=
  [ [("id", VStr "t1"); ("status", VStr "cancelled"); ("remainingAmount", VNum 40)];
    [("id", VStr "t2"); ("status", VStr "pending"); ("remainingAmount", VNum 60)] ].

Definition world_temp : world :=
  sample_world [(TEMP_ORDERS_COLLECTION, temp_rows)] [].

Definition world_one_order : world :=
  sample_world
    [(ORDERS_COLLECTION,
      [ [("id", VStr "o1"); ("userId", VStr "u1"); ("sellingPriceLYD", VNum 1000);
         ("remainingAmount", VNum 800); ("status", VStr "pending")] ])]
    [].

(** A caller's function for the transaction runner: a write, then an
    increment on a document that does not exist, then another write. *)
Definition three_steps (transaction : transaction) : M unit :=
  tx_set transaction (mkRef "orders_v4" "a") [("status", VStr "pending")] false ;;;
  tx_update transaction (mkRef "users_v4" "ghost") [("orderCounter", increment 1)] ;;;
  tx_set transaction (mkRef "orders_v4" "b") [("status", VStr "pending")] false.

(** A document with a numeric field [f = 5], alone in its table. *)
Definition world_counter : world :=
  sample_world [("counters", [ [("id", VStr "c1"); ("f", VNum 5)] ])] [].

(** Whether [doc.update] takes the fetch-modify-write path. *)
Definition needs_fetch (data : object) : bool :=
  existsb (fun kv => is_special_op (snd kv)) data
  || existsb (fun kv => has_dot (fst kv)) data.

(** The order statuses of the application. *)
Inductive OrderStatus : Type :=
| pending | processed | ready | shipped
| arrived_dubai | arrived_benghazi | arrived_tobruk
| out_for_delivery | delivered | cancelled | paid.

Definition status_name (s : OrderStatus) : string :=
  match s with
  | pending => "pending" | processed => "processed" | ready => "ready"
  | shipped => "shipped" | arrived_dubai => "arrived_dubai"
  | arrived_benghazi => "arrived_benghazi" | arrived_tobruk => "arrived_tobruk"
  | out_for_delivery => "out_for_delivery" | delivered => "delivered"
  | cancelled => "cancelled" | paid => "paid"
  end.

Definition sum_remaining (rows : list object) : Z :=
  fold_right Z.add 0 (map (num_or0 "remainingAmount") rows).

Definition active_order_of (U : string) (o : object) : bool :=
  strict_eqb (obj_get "userId" o) (VStr U)
  && existsb (strict_eqb (obj_get "status" o)) activeStatuses.

(** The remaining amounts of the user's orders with an active status. *)
Definition orders_debt (w : world) (U : string) : Z :=
  sum_remaining (filter (active_order_of U) (tables w ORDERS_COLLECTION)).

(** The temporary orders that the specification adds to the debt: those
    assigned directly to the user that are neither cancelled nor
    converted. *)
Definition counted_temp_order_of (U : string) (t : object) : bool :=
  strict_eqb (obj_get "assignedUserId" t) (VStr U)
  && strict_eqb (obj_get "parentInvoiceId" t) VNull
  && negb (strict_eqb (obj_get "status" t) (VStr "cancelled")).

(** The debt of a user in the words of the specification: the remaining
    amounts of the user's active orders, plus those of the temporary orders
    above. *)
Definition spec_debt (w : world) (U : string) : Z :=
  orders_debt w U
  + sum_remaining (filter (counted_temp_order_of U) (tables w TEMP_ORDERS_COLLECTION)).

Definition spec_orderCount (w : world) (U : string) : Z :=
  Z.of_nat (List.length (filter (active_order_of U) (tables w ORDERS_COLLECTION))).

(** The state after [n] recalculations in a row. *)
Fixpoint recalculated (n : nat) (U : string) (w : world) : world :=
  match n with
  | O => w
  | S n' => snd (recalculateUserStats U (recalculated n' U w))
  end.

(** A user with a pending order, a cancelled order, a direct temporary
    order and a converted one; the stored aggregates are stale. *)
Definition world_user : world :=
  sample_world
    [(USERS_COLLECTION,
      [ [("id", VStr "u1"); ("name", VStr "Salem"); ("username", VStr "salem");
         ("phone", VStr "0910000000"); ("debt", VNum 0); ("orderCount", VNum 0);
         ("orderCounter", VNum 2)] ]);
     (ORDERS_COLLECTION,
      [ [("id", VStr "o1"); ("userId", VStr "u1"); ("sellingPriceLYD", VNum 1000);
         ("remainingAmount", VNum 800); ("status", VStr "pending")];
        [("id", VStr "o2"); ("userId", VStr "u1"); ("sellingPriceLYD", VNum 300);
         ("remainingAmount", VNum 300); ("status", VStr "cancelled")] ]);
     (TEMP_ORDERS_COLLECTION,
      [ [("id", VStr "t1"); ("assignedUserId", VStr "u1"); ("status", VStr "pending");
         ("remainingAmount", VNum 60)];
        [("id", VStr "t2"); ("assignedUserId", VStr "u1"); ("status", VStr "pending");
         ("parentInvoiceId", VStr "o1"); ("remainingAmount", VNum 500)] ])]
    [].

(** An action that throws on no state. *)
Definition never_throws {A} (m : M A) : Prop :=
  forall w : world, exists a, fst (m w) = Ok a.

(** The sample user on a store that answers the two queries of the
    recalculation and fails the update that follows. *)
Definition world_user_failing_update : world :=
  mkWorld (tables world_user) [false; false; true] sample_entropy sample_clock 0.

(** A store whose next request fails. *)
Definition world_failing : world := sample_world [] [true].

(** What [getAppSettings] answers and leaves on a reliable store. *)
Definition settings_of (data : object) : object :=
  [("exchangeRate", nullish_or (obj_get "exchangeRate" data) (VNum 1));
   ("pricePerKiloLYD", nullish_or (obj_get "pricePerKiloLYD" data) (VNum 0));
   ("pricePerKiloUSD", nullish_or (obj_get "pricePerKiloUSD" data) (VNum 0))].

Definition settings_read (w : world) : object * world :=
  match rows_with_id w SETTINGS_COLLECTION "main" with
  | [data] => (settings_of data, w)
  | _ => (default_settings,
          set_table SETTINGS_COLLECTION
            (upsert_row (obj_set "id" (VStr "main") default_settings)
                        (tables w SETTINGS_COLLECTION)) w)
  end.

(** The identifiers that [addOrder] draws: for the order, for the order
    transaction and for the down-payment transaction. *)
Definition addOrder_first_draw (w : world) (orderData : object) : nat :=
  if truthy (obj_get "trackingId" orderData) then ticks w else S (ticks w).

Definition addOrder_order_id (w : world) (orderData : object) : string :=
  substring 2 13 (entropy w (addOrder_first_draw w orderData)).

Definition addOrder_order_tx_id (w : world) (orderData : object) : string :=
  substring 2 13 (entropy w (S (addOrder_first_draw w orderData))).

Definition addOrder_payment_tx_id (w : world) (orderData : object) : string :=
  substring 2 13 (entropy w (S (S (addOrder_first_draw w orderData)))).

(** The order of the specification's scenario: selling price 1000, down
    payment 200, for the sample user. *)
Definition order_1000_200 : object :=
  [("userId", VStr "u1"); ("customerName", VStr "Salem");
   ("operationDate", VStr "2024-05-01T09:00:00.000Z");
   ("sellingPriceLYD", VNum 1000); ("downPaymentLYD", VNum 200);
   ("status", VStr "pending"); ("trackingId", VStr "")].

Definition sample_user : object :=
  [("id", VStr "u1"); ("name", VStr "Salem"); ("username", VStr "salem");
   ("phone", VStr "0910000000"); ("debt", VNum 0); ("orderCount", VNum 0);
   ("orderCounter", VNum 2)].

(** The sample user alone, with no order yet. *)
Definition world_new_user : world :=
  sample_world [(USERS_COLLECTION, [sample_user])] [].

(** The assignment count of a representative as the specification defines
    it: the number of orders whose [representativeId] is the
    representative's identifier. *)
Definition assigned_to (R : value) (o : object) : bool :=
  strict_eqb (obj_get "representativeId" o) R.

Definition orders_assigned_to (w : world) (R : value) : Z :=
  Z.of_nat (List.length (filter (assigned_to R) (tables w ORDERS_COLLECTION))).

Definition rep_count_consistent (w : world) (rep : object) : bool :=
  strict_eqb (obj_get "assignedOrders" rep)
             (VNum (orders_assigned_to w (obj_get "id" rep))).

Definition rep_counts_consistent (w : world) : bool :=
  forallb (rep_count_consistent w) (tables w REPRESENTATIVES_COLLECTION).

(** Two representatives; one order, assigned to the first. *)
Definition rep1 : object :=
  [("id", VStr "r1"); ("name", VStr "Ali"); ("assignedOrders", VNum 1)].

Definition rep2 : object :=
  [("id", VStr "r2"); ("name", VStr "Omar"); ("assignedOrders", VNum 0)].

Definition world_assigned : world :=
  sample_world
    [(REPRESENTATIVES_COLLECTION, [rep1; rep2]);
     (ORDERS_COLLECTION,
      [ [("id", VStr "o1"); ("userId", VStr "u1"); ("status", VStr "out_for_delivery");
         ("representativeId", VStr "r1"); ("representativeName", VStr "Ali");
         ("remainingAmount", VNum 800)] ]);
     (USERS_COLLECTION, [sample_user])]
    [].

(* ------------------------------------------------------------------ *)
(** ** The ledger of an order *)

(** The payment transactions of an order and their total. *)
Definition payment_of (oid : string) (t : object) : bool :=
  strict_eqb (obj_get "orderId" t) (VStr oid)
  && strict_eqb (obj_get "type" t) (VStr "payment").

Definition paid_in (txs : table) (oid : string) : Z :=
  fold_right Z.add 0
    (map (fun t => as_num (obj_get "amount" t)) (filter (payment_of oid) txs)).

Definition paid_total (w : world) (oid : string) : Z :=
  paid_in (tables w TRANSACTIONS_COLLECTION) oid.

(** The equation of the specification, for the orders of a state: selling
    price, less down payment, less payments, equals the remaining amount. *)
Definition spec_equation_holds (w : world) (o : object) : bool :=
  num_or0 "sellingPriceLYD" o - num_or0 "downPaymentLYD" o
    - paid_total w (as_id (obj_get "id" o))
  =? num_or0 "remainingAmount" o.

(** The equation that the actions maintain: the down payment is one of the
    recorded payments. *)
Definition balanced_in (orders txs : table) : Prop :=
  forall (o : object) (oid : string),
    In o orders -> obj_get "id" o = VStr oid -> oid <> "" ->
    obj_get "remainingAmount" o
    = VNum (num_or0 "sellingPriceLYD" o - paid_in txs oid).

Definition ledger_balanced (w : world) : Prop :=
  balanced_in (tables w ORDERS_COLLECTION) (tables w TRANSACTIONS_COLLECTION).

(** [id] is a key of the table. *)
Definition unique_ids (t : table) : Prop :=
  forall id : string, (List.length (filter (has_id id) t) <= 1)%nat.

(** The operations on the ledger. *)
Inductive ledger_op : Type :=
| CreateOrder (orderData : object)
| WeightAdjustment (orderId : string) (weight companyPricePerKiloUSD customerPricePerKilo : Z)
| ShippingAdjustment (orderId : string) (costInUSD : Z)
| AddTransaction (transactionData : object)
| UpdatePayment (transactionId : string) (newAmount : Z)
| DeletePayment (transactionId : string).

Definition after (op : ledger_op) (w : world) : world :=
  match op with
  | CreateOrder orderData => snd (addOrder orderData w)
  | WeightAdjustment orderId weight a b =>
      snd (setCustomerWeightDetails orderId weight a b w)
  | ShippingAdjustment orderId cost => snd (addCustomerShippingCost orderId cost w)
  | AddTransaction transactionData => snd (addTransaction transactionData w)
  | UpdatePayment transactionId newAmount =>
      snd (updateTransaction transactionId newAmount w)
  | DeletePayment transactionId => snd (deleteTransaction transactionId w)
  end.

(** The next generated identifier. *)
Definition next_id (w : world) : string := substring 2 13 (entropy w (ticks w)).

(** What an operation needs for the ledger equation to survive it:
    generated identifiers are new; a down payment is not negative; a
    payment does not exceed what remains; the transaction that is amended
    or deleted is a payment. *)
Definition admissible (w : world) (op : ledger_op) : Prop :=
  match op with
  | CreateOrder orderData =>
      0 <= num_or0 "downPaymentLYD" orderData
      /\ rows_with_id w ORDERS_COLLECTION (addOrder_order_id w orderData) = []
      /\ filter (payment_of (addOrder_order_id w orderData))
                (tables w TRANSACTIONS_COLLECTION) = []
      /\ rows_with_id w TRANSACTIONS_COLLECTION (addOrder_order_tx_id w orderData) = []
      /\ rows_with_id w TRANSACTIONS_COLLECTION (addOrder_payment_tx_id w orderData) = []
      /\ addOrder_order_tx_id w orderData <> addOrder_payment_tx_id w orderData
  | WeightAdjustment _ _ _ _ =>
      rows_with_id w TRANSACTIONS_COLLECTION (next_id w) = []
  | ShippingAdjustment _ _ => True
  | AddTransaction transactionData =>
      rows_with_id w TRANSACTIONS_COLLECTION (next_id w) = []
      /\ (obj_get "type" transactionData = VStr "payment" ->
          forall o, rows_with_id w ORDERS_COLLECTION
                      (as_id (obj_get "orderId" transactionData)) = [o] ->
                    as_num (obj_get "amount" transactionData)
                    <= num_or0 "remainingAmount" o)
  | UpdatePayment transactionId _ | DeletePayment transactionId =>
      forall tx, rows_with_id w TRANSACTIONS_COLLECTION transactionId = [tx] ->
                 obj_get "type" tx = VStr "payment"
  end.

(** The numbers of the embedding are whole.  The code computes with
    doubles, on which a sum, a difference and a product of whole numbers are
    exact as long as they stay below 2^53.  A selling price or a remaining
    amount that an operation of the ledger writes is a sum of a stored
    number and of a difference, one term of which may be a product of two
    numbers; with the numbers of the store and of the operation below 2^25
    it stays below 2^52. *)
Definition small (n : Z) : Prop := Z.abs n <= 2 ^ 25.

Definition small_numbers (r : object) : Prop :=
  forall k n, obj_get k r = VNum n -> small n.

Definition exact_amounts (w : world) (op : ledger_op) : Prop :=
  (forall c r, In r (tables w c) -> small_numbers r)
  /\ match op with
     | CreateOrder orderData => small_numbers orderData
     | WeightAdjustment _ weight companyPricePerKiloUSD customerPricePerKilo =>
         small weight /\ small companyPricePerKiloUSD /\ small customerPricePerKilo
     | ShippingAdjustment _ costInUSD => small costInUSD
     | AddTransaction transactionData => small_numbers transactionData
     | UpdatePayment _ newAmount => small newAmount
     | DeletePayment _ => True
     end.

(** The state of the ledger: the equation on every order, identifiers that
    are keys of the orders table, a store that answers. *)
Definition ledger_ok (w : world) : Prop :=
  ledger_balanced w /\ unique_ids (tables w ORDERS_COLLECTION) /\ reliable w.

(** Two states with the same orders and transactions. *)
Definition same_ledger (w w' : world) : Prop :=
  reliable w'
  /\ tables w' ORDERS_COLLECTION = tables w ORDERS_COLLECTION
  /\ tables w' TRANSACTIONS_COLLECTION = tables w TRANSACTIONS_COLLECTION.

(** A payment of 300, and one of 900, against the order that [addOrder]
    creates in the sample state. *)
Definition payment_300 : object :=
  [("orderId", VStr "k1q7x2m9d4"); ("customerId", VStr "u1");
   ("type", VStr "payment"); ("status", VStr "paid"); ("amount", VNum 300)].

Definition payment_900 : object :=
  [("orderId", VStr "k1q7x2m9d4"); ("customerId", VStr "u1");
   ("type", VStr "payment"); ("status", VStr "paid"); ("amount", VNum 900)].

(** Selling price, down payment, recorded payments and remaining amount of
    every order. *)
Definition ledger_lines (w : world) : list (Z * Z * Z * Z) :=
  map (fun o => (num_or0 "sellingPriceLYD" o, num_or0 "downPaymentLYD" o,
                 paid_total w (as_id (obj_get "id" o)),
                 num_or0 "remainingAmount" o))
      (tables w ORDERS_COLLECTION).

(* ------------------------------------------------------------------ *)
(** ** Assignment counts *)

Definition count_assigned (orders : table) (rid : string) : Z :=
  Z.of_nat (List.length (filter (assigned_to (VStr rid)) orders)).

(** Every representative with a non-empty identifier carries the number of
    orders assigned to that identifier. *)
Definition reps_consistent_in (reps orders : table) : Prop :=
  forall (rep : object) (rid : string),
    In rep reps -> obj_get "id" rep = VStr rid -> rid <> "" ->
    obj_get "assignedOrders" rep = VNum (count_assigned orders rid).

Definition assignments_ok (w : world) : Prop :=
  reps_consistent_in (tables w REPRESENTATIVES_COLLECTION) (tables w ORDERS_COLLECTION)
  /\ unique_ids (tables w REPRESENTATIVES_COLLECTION)
  /\ unique_ids (tables w ORDERS_COLLECTION)
  /\ reliable w.

(** The operations that move one order between representatives. *)
Inductive assignment_op : Type :=
| Assign (orderId : string) (rep : object)
| Unassign (orderId : string)
| DeleteOrder (orderId : string).

Definition after_assignment (op : assignment_op) (w : world) : world :=
  match op with
  | Assign orderId rep => snd (assignRepresentativeToOrder orderId rep w)
  | Unassign orderId => snd (unassignRepresentativeFromOrder orderId w)
  | DeleteOrder orderId => snd (deleteOrder orderId w)
  end.

Definition b2z (b : bool) : Z := if b then 1 else 0.

(** The representative handed to [assignRepresentativeToOrder] is a plain
    record: its [id] and [name] are not operator sentinels. *)
Definition plain_representative (rep : object) : Prop :=
  is_special_op (obj_get "id" rep) = false
  /\ is_special_op (obj_get "name" rep) = false.

Definition admissible_assignment (op : assignment_op) : Prop :=
  match op with
  | Assign _ rep => plain_representative rep
  | Unassign _ | DeleteOrder _ => True
  end.

(** The sample user on a store that fails the first request: the query of
    the user's orders. *)
Definition world_user_failing_query : world :=
  mkWorld (tables world_user) [true] sample_entropy sample_clock 0.

(* ================================================================== *)
(** * The rest of the actions *)

Definition MANAGERS_COLLECTION := "managers_v4".
Definition CONVERSATIONS_COLLECTION := "conversations_v4".
Definition NOTIFICATIONS_COLLECTION := "notifications_v4".
Definition EXPENSES_COLLECTION := "expenses_v4".
Definition DEPOSITS_COLLECTION := "deposits_v4".
Definition EXTERNAL_DEBTS_COLLECTION := "externalDebts_v4".
Definition MANUAL_LABELS_COLLECTION := "manual_labels_v4".
Definition INSTANT_SALES_COLLECTION := "instant_sales_v4".

(** [{ id: doc.id, ...doc.data() }] for a row of a query snapshot. *)
Definition with_id (data : object) : object :=
  obj_merge [("id", obj_get "id" data)] data.

(* ------------------------------------------------------------------ *)
(** ** actions.ts: settings and the default administrator *)

Definition updateAppSettings (data : object) : M bool :=
  try_catch
    (settingsRef <- doc SETTINGS_COLLECTION "main" ;;
     (* set with merge: creates the document or updates it *)
     setDoc settingsRef data true ;;;
     ret true)
    (fun _ => ret false).

Definition defaultUsername : string := "admin@tamweelsys.app".

Definition defaultAdmin : object :=
  [("name", VStr "المدير العام");
   ("username", VStr defaultUsername);
   ("password", VStr "0920064400");
   ("phone", VStr "0920064400");
   ("permissions",
    VArr [VStr "users"; VStr "employees"; VStr "representatives"; VStr "orders";
          VStr "shipping_label"; VStr "temporary_users"; VStr "financial_reports";
          VStr "instant_sales"; VStr "deposits"; VStr "expenses"; VStr "creditors";
          VStr "support"; VStr "notifications"; VStr "exchange_rate";
          VStr "data_export"])].

Definition ensureDefaultAdminExists : M unit :=
  docRef <- doc MANAGERS_COLLECTION defaultUsername ;;
  docSnap <- getDoc docRef ;;
  match docSnap with
  | Some _ => ret tt
  | None => try_catch (setDoc docRef defaultAdmin false) (fun _ => ret tt)
  end.

(* ------------------------------------------------------------------ *)
(** ** actions.ts: plain reads and writes of users and orders *)

Definition getUserByPhone (phone : string) : M (option object) :=
  try_catch
    (querySnapshot <-
       getDocs (query USERS_COLLECTION [where_ "phone" "==" (VStr phone)]) ;;
     match querySnapshot with
     | d :: _ => ret (Some (with_id d))
     | [] => ret None
     end)
    (fun _ => ret None).

Definition getOrderById (orderId : string) : M (option object) :=
  try_catch
    (orderRef <- doc ORDERS_COLLECTION orderId ;;
     docSnap <- getDoc orderRef ;;
     match docSnap with
     | Some data => ret (Some (obj_merge [("id", VStr (ref_id orderRef))] data))
     | None => ret None
     end)
    (fun _ => ret None).

Definition getOrdersByUserId (time : value -> Z) (userId : string)
  : M (list object) :=
  try_catch
    (querySnapshot <-
       getDocs (query ORDERS_COLLECTION [where_ "userId" "==" (VStr userId)]) ;;
     let orders := map with_id querySnapshot in
     ret (sort_desc time "operationDate" orders))
    (fun _ => ret []).

Definition updateOrder (orderId : string) (data : object) : M bool :=
  try_catch
    (orderRef <- doc ORDERS_COLLECTION orderId ;;
     orderSnap <- getDoc orderRef ;;
     match orderSnap with
     | None => ret false
     | Some old =>
         let userId := obj_get "userId" old in
         updateDoc orderRef data ;;;
         (if truthy userId then recalculateUserStats (as_id userId) else ret tt) ;;;
         ret true
     end)
    (fun _ => ret false).

Definition recordRepresentativePayment (orderId : string) (collectedAmount : Z)
  : M bool :=
  try_catch
    (orderRef <- doc ORDERS_COLLECTION orderId ;;
     deliveryDate <- now_iso ;;
     updateDoc orderRef
       [("status", VStr "delivered");
        ("deliveryDate", VStr deliveryDate);
        ("collectedAmount", VNum collectedAmount)] ;;;
     ret true)
    (fun _ => ret false).

Definition bulkUpdateOrdersStatus (orderIds : list string) (status : OrderStatus)
  : M bool :=
  if (List.length orderIds =? 0)%nat then ret true
  else
    try_catch
      (let batch := writeBatch in
       batch <- foldM (fun b id =>
                         orderRef <- doc ORDERS_COLLECTION id ;;
                         batch_update b orderRef
                           [("status", VStr (status_name status))])
                      batch orderIds ;;
       batch_commit batch ;;;
       ret true)
      (fun _ => ret false).

(** [usersToRecalculate.add(userId)] on a [Set], kept in insertion
    order. *)
Definition set_add (x : value) (s : list value) : list value :=
  if existsb (strict_eqb x) s then s else (s ++ [x])%list.

(** One turn of [for (const orderId of orderIds)]: the users to recalculate
    and the batch. *)
Definition bulk_delete_one (st : list value * batch) (orderId : string)
  : M (list value * batch) :=
  let (usersToRecalculate, batch) := st in
  orderRef <- doc ORDERS_COLLECTION orderId ;;
  orderSnap <- getDoc orderRef ;;
  match orderSnap with
  | Some orderData =>
      let usersToRecalculate :=
        if truthy (obj_get "userId" orderData)
        then set_add (obj_get "userId" orderData) usersToRecalculate
        else usersToRecalculate in
      batch <-
        (if truthy (obj_get "representativeId" orderData) then
           repRef <- doc REPRESENTATIVES_COLLECTION
                       (as_id (obj_get "representativeId" orderData)) ;;
           batch_update batch repRef [("assignedOrders", increment (-1))]
         else ret batch) ;;
      batch <- batch_delete batch orderRef ;;
      transactionsSnapshot <-
        getDocs (query TRANSACTIONS_COLLECTION
                   [where_ "orderId" "==" (VStr orderId)]) ;;
      batch <- foldM (fun b d => batch_delete b (row_ref TRANSACTIONS_COLLECTION d))
                     batch transactionsSnapshot ;;
      ret (usersToRecalculate, batch)
  | None => ret (usersToRecalculate, batch)
  end.

Definition bulkDeleteOrders (orderIds : list string) : M bool :=
  if (List.length orderIds =? 0)%nat then ret true
  else
    try_catch
      (st <- foldM bulk_delete_one ([], writeBatch) orderIds ;;
       batch_commit (snd st) ;;;
       foldM (fun (_ : unit) userId => recalculateUserStats (as_id userId))
             tt (fst st) ;;;
       ret true)
      (fun _ => ret false).

(* ------------------------------------------------------------------ *)
(** ** actions.ts: creditors and external debts *)

Definition recalculateCreditorDebt (creditorId : string) : M unit :=
  try_catch
    (creditorRef <- doc CREDITORS_COLLECTION creditorId ;;
     creditorSnap <- getDoc creditorRef ;;
     match creditorSnap with
     | None => ret tt
     | Some _ =>
         querySnapshot <-
           getDocs (query EXTERNAL_DEBTS_COLLECTION
                      [where_ "creditorId" "==" (VStr creditorId)]) ;;
         let totalDebt :=
           fold_left (fun sum debt => sum + as_num (obj_get "amount" debt))
                     querySnapshot 0 in
         updateDoc creditorRef [("totalDebt", VNum totalDebt)]
     end)
    (fun _ => ret tt).

Definition getCreditorById (creditorId : string) : M (option object) :=
  docRef <- doc CREDITORS_COLLECTION creditorId ;;
  docSnap <- getDoc docRef ;;
  ret (match docSnap with
       | Some data => Some (obj_merge [("id", VStr (ref_id docRef))] data)
       | None => None
       end).

Definition addExternalDebt (debt : object) : M (option object) :=
  docRef <- addDoc EXTERNAL_DEBTS_COLLECTION debt ;;
  recalculateCreditorDebt (as_id (obj_get "creditorId" debt)) ;;;
  ret (Some (obj_merge [("id", obj_get "id" docRef)] debt)).

Definition addCreditor (creditorData : object) (initialBalance : Z)
  : M (option object) :=
  let creditorWithDefaults := obj_merge creditorData [("totalDebt", VNum 0)] in
  docRef <- addDoc CREDITORS_COLLECTION creditorWithDefaults ;;
  let newCreditor := obj_merge [("id", obj_get "id" docRef)] creditorWithDefaults in
  (if negb (initialBalance =? 0) then
     date <- now_iso ;;
     addExternalDebt
       [("creditorId", obj_get "id" newCreditor);
        ("creditorName", obj_get "name" newCreditor);
        ("amount", VNum initialBalance);
        ("date", VStr date);
        ("status", VStr "pending");
        ("notes", VStr "رصيد افتتاحي")] ;;;
     ret tt
   else recalculateCreditorDebt (as_id (obj_get "id" newCreditor))) ;;;
  (* fetch the creditor again, after the debt calculation *)
  getCreditorById (as_id (obj_get "id" newCreditor)).

Definition deleteCreditor (creditorId : string) : M bool :=
  let batch := writeBatch in
  creditorRef <- doc CREDITORS_COLLECTION creditorId ;;
  batch <- batch_delete batch creditorRef ;;
  debtsSnapshot <-
    getDocs (query EXTERNAL_DEBTS_COLLECTION
               [where_ "creditorId" "==" (VStr creditorId)]) ;;
  batch <- foldM (fun b d => batch_delete b (row_ref EXTERNAL_DEBTS_COLLECTION d))
                 batch debtsSnapshot ;;
  batch_commit batch ;;;
  ret true.

Definition updateExternalDebt (debtId : string) (data : object) : M bool :=
  debtRef <- doc EXTERNAL_DEBTS_COLLECTION debtId ;;
  docSnap <- getDoc debtRef ;;
  match docSnap with
  | None => ret false
  | Some old =>
      updateDoc debtRef data ;;;
      recalculateCreditorDebt (as_id (obj_get "creditorId" old)) ;;;
      ret true
  end.

Definition deleteExternalDebt (debtId : string) : M bool :=
  debtRef <- doc EXTERNAL_DEBTS_COLLECTION debtId ;;
  docSnap <- getDoc debtRef ;;
  match docSnap with
  | None => ret false
  | Some old =>
      deleteDoc debtRef ;;;
      recalculateCreditorDebt (as_id (obj_get "creditorId" old)) ;;;
      ret true
  end.

(* ------------------------------------------------------------------ *)
(** ** actions.ts: conversations and notifications *)

Definition sendMessage (conversationId : string) (message : object) : M bool :=
  try_catch
    (conversationRef <- doc CONVERSATIONS_COLLECTION conversationId ;;
     now <- now_iso ;;
     r <- random_base36 ;;
     let messageWithId := obj_merge message [("id", VStr (now ++ substring 2 9 r))] in
     let updateData :=
       [("messages", arrayUnion (VObj messageWithId));
        ("lastMessage", obj_get "text" message);
        ("lastMessageTime", obj_get "timestamp" message)] in
     let updateData :=
       if strict_eqb (obj_get "sender" message) (VStr "user")
       then obj_set "unreadCount" (increment 1) updateData
       else if strict_eqb (obj_get "sender" message) (VStr "support")
       then obj_set "unreadCount" (VNum 0) updateData
       else updateData in
     updateDoc conversationRef updateData ;;;
     ret true)
    (fun _ => ret false).

(** [or(...args)] answers the array of its arguments.  Handed to [query]
    the array is one condition; [dbAdapter.query] reads its [op], [field]
    and [value], which an array does not have: they read as [undefined],
    here the empty string and [null]. *)
Definition or_ (args : list condition) : condition := mkCond "" "" VNull.

Definition getNotificationsForUser (time : value -> Z) (userId : string)
  : M (list object) :=
  try_catch
    (let notificationsRef := NOTIFICATIONS_COLLECTION in
     let q := query notificationsRef
                [or_ [where_ "target" "==" (VStr "all");
                      where_ "userId" "==" (VStr userId)]] in
     querySnapshot <- getDocs q ;;
     let notifications := map with_id querySnapshot in
     ret (sort_desc time "timestamp" notifications))
    (fun _ => ret []).

(* ------------------------------------------------------------------ *)
(** ** actions.ts: the transactions of a user *)

(** [v.map(...)] and [v.flatMap(...)] for a field read at an array type: a
    value that is no array has no such method. *)
Definition js_array (v : value) : M (list value) :=
  match v with
  | VArr xs => ret xs
  | _ => throw (JsError "TypeError")
  end.

(** [`TEMP-${so.subOrderId}`]. *)
Definition temp_customer_id (so : value) : M value :=
  match so with
  | VNull => throw (JsError "TypeError")
  | VObj o => ret (VStr ("TEMP-" ++ js_String (obj_get "subOrderId" o)))
  | _ => ret (VStr "TEMP-undefined")
  end.

Fixpoint mapM {A B} (f : A -> M B) (xs : list A) : M (list B) :=
  match xs with
  | [] => ret []
  | x :: rest => y <- f x ;; ys <- mapM f rest ;; ret (y :: ys)
  end.

(** [for (let i = 0; i < xs.length; i += chunkSize) xs.slice(i, i + chunkSize)];
    the loop runs at most [xs.length] times. *)
Fixpoint chunks_of (turns chunkSize : nat) (xs : list value) : list (list value) :=
  match turns with
  | O => []
  | S turns' =>
      match xs with
      | [] => []
      | _ => firstn chunkSize xs :: chunks_of turns' chunkSize (skipn chunkSize xs)
      end
  end.

Definition getTransactionsByUserId (time : value -> Z) (userId : string)
  : M (list object) :=
  try_catch
    ((* the temporary orders of the user, for their sub-order identifiers *)
     tempOrdersSnapshot <-
       getDocs (query TEMP_ORDERS_COLLECTION
                  [where_ "assignedUserId" "==" (VStr userId)]) ;;
     perOrder <- mapM (fun d =>
                         subOrders <- js_array (obj_get "subOrders" d) ;;
                         mapM temp_customer_id subOrders)
                      tempOrdersSnapshot ;;
     let tempSubOrderCustomerIds := List.concat perOrder in
     let customerIdClauses :=
       (where_ "customerId" "==" (VStr userId)
        :: map (fun chunk => where_ "customerId" "in" (VArr chunk))
             (chunks_of (List.length tempSubOrderCustomerIds) 30
                tempSubOrderCustomerIds))%list in
     querySnapshot <-
       getDocs (query TRANSACTIONS_COLLECTION [or_ customerIdClauses]) ;;
     let transactions := map with_id querySnapshot in
     ret (sort_desc time "date" transactions))
    (fun _ => ret []).

(* ------------------------------------------------------------------ *)
(** ** actions.ts: deleting a temporary order *)

Definition deleteTempOrder (orderId : string) : M bool :=
  try_catch
    (orderRef <- doc TEMP_ORDERS_COLLECTION orderId ;;
     docSnap <- getDoc orderRef ;;
     match docSnap with
     | None => throw (JsError "TempOrder to delete not found")
     | Some data =>
         let userIdToRecalculate :=
           if truthy (obj_get "assignedUserId" data)
           then obj_get "assignedUserId" data else VNull in
         userIdToRecalculate <-
           (if truthy (obj_get "parentInvoiceId" data) then
              mainOrderDoc <- getOrderById (as_id (obj_get "parentInvoiceId" data)) ;;
              let userIdToRecalculate :=
                match mainOrderDoc with
                | Some mainOrder => obj_get "userId" mainOrder
                | None => userIdToRecalculate
                end in
              (* the answer of [deleteOrder] is not looked at *)
              deleteOrder (as_id (obj_get "parentInvoiceId" data)) ;;;
              ret userIdToRecalculate
            else ret userIdToRecalculate) ;;
         deleteDoc orderRef ;;;
         (if truthy userIdToRecalculate
          then recalculateUserStats (as_id userIdToRecalculate)
          else ret tt) ;;;
         ret true
     end)
    (fun _ => ret false).

(* ------------------------------------------------------------------ *)
(** ** actions.ts: a payment on a temporary order *)

(** A computation that reads no state. *)
Definition settle {A} (o : outcome A) : M A := fun w => (o, w).

(** [subOrders.findIndex(so => so.subOrderId === subOrderId)], [None] for
    -1; reading the field of [null] or [undefined] throws. *)
Fixpoint findIndex_subOrder (subOrderId : string) (subOrders : list value)
  : outcome (option nat) :=
  match subOrders with
  | [] => Ok None
  | so :: rest =>
      match so with
      | VNull => Throw (JsError "TypeError")
      | _ =>
          if match so with
             | VObj o => strict_eqb (obj_get "subOrderId" o) (VStr subOrderId)
             | _ => false
             end
          then Ok (Some O)
          else match findIndex_subOrder subOrderId rest with
               | Ok (Some i) => Ok (Some (S i))
               | other => other
               end
      end
  end.

(** [subOrders.find(so => so.subOrderId === subOrderId)]. *)
Definition find_subOrder (subOrderId : string) (subOrders : list value)
  : outcome (option value) :=
  match findIndex_subOrder subOrderId subOrders with
  | Ok (Some i) => Ok (nth_error subOrders i)
  | Ok None => Ok None
  | Throw e => Throw e
  end.

(** [xs[i] = v] for an index within the array. *)
Fixpoint set_nth (i : nat) (v : value) (xs : list value) : list value :=
  match xs, i with
  | [], _ => []
  | _ :: rest, O => v :: rest
  | x :: rest, S i' => x :: set_nth i' v rest
  end.

(** [newSubOrders[subOrderIndex].remainingAmount =
     Math.max(0, (newSubOrders[subOrderIndex].remainingAmount || 0) - amount)]
    on the copy of the array. *)
Definition pay_subOrder (subOrderIndex : nat) (amount : Z) (subOrders : list value)
  : outcome (list value) :=
  match nth_error subOrders subOrderIndex with
  | Some (VObj so) =>
      let currentSubOrderRemaining := num_or0 "remainingAmount" so in
      Ok (set_nth subOrderIndex
            (VObj (obj_set "remainingAmount"
                     (VNum (Z.max 0 (currentSubOrderRemaining - amount))) so))
            subOrders)
  | _ => Throw (JsError "TypeError")
  end.

(** [a || b]. *)
Definition or_else (a b : value) : value := if truthy a then a else b.

(** [s.slice(-n)]. *)
Definition slice_last (n : nat) (s : string) : string :=
  substring (String.length s - n) n s.

(** The description of the payment, with the optional notes. *)
Definition payment_description (customerName : value) (tempOrderId : string)
    (notes : option string) : string :=
  let description :=
    "دفعة من " ++ js_String customerName
    ++ " (فاتورة مجمعة #" ++ slice_last 6 tempOrderId ++ ")" in
  match notes with
  | Some n => if (n =? "")%string then description else description ++ " | " ++ n
  | None => description
  end.

(** The record of the payment that is added to the transactions. *)
Definition temp_payment_row (finalTempOrderData : object) (subOrder : option value)
    (tempOrderId subOrderId : string) (amount : Z) (notes : option string)
    (date : string) : object :=
  let customerName :=
    or_else (match subOrder with
             | Some (VObj so) => obj_get "customerName" so
             | _ => VNull
             end) (VStr "عميل") in
  [("orderId", or_else (obj_get "parentInvoiceId" finalTempOrderData) (VStr tempOrderId));
   ("customerId", or_else (obj_get "assignedUserId" finalTempOrderData)
                    (VStr ("TEMP-" ++ subOrderId)));
   ("customerName", customerName);
   ("date", VStr date);
   ("type", VStr "payment");
   ("status", VStr "paid");
   ("amount", VNum amount);
   ("description", VStr (payment_description customerName tempOrderId notes))].

Definition addTempOrderPayment (tempOrderId subOrderId : string) (amount : Z)
    (notes : option string) : M bool :=
  try_catch
    (tempOrderRef <- doc TEMP_ORDERS_COLLECTION tempOrderId ;;
     (* the updates of the temporary order and of the main order *)
     runTransaction (fun transaction =>
       tempOrderDoc <- tx_get transaction tempOrderRef ;;
       match tempOrderDoc with
       | None => throw (JsError "TempOrder not found!")
       | Some tempOrderData =>
           subOrders <- js_array (obj_get "subOrders" tempOrderData) ;;
           subOrderIndex <- settle (findIndex_subOrder subOrderId subOrders) ;;
           match subOrderIndex with
           | None => throw (JsError "SubOrder not found!")
           | Some i =>
               newSubOrders <- settle (pay_subOrder i amount subOrders) ;;
               let newTotalRemaining :=
                 num_or0 "remainingAmount" tempOrderData - amount in
               detach (tx_update transaction tempOrderRef
                         [("subOrders", VArr newSubOrders);
                          ("remainingAmount", VNum (Z.max 0 newTotalRemaining))]) ;;;
               if truthy (obj_get "parentInvoiceId" tempOrderData) then
                 mainOrderRef <-
                   doc ORDERS_COLLECTION
                       (as_id (obj_get "parentInvoiceId" tempOrderData)) ;;
                 detach (tx_update transaction mainOrderRef
                           [("remainingAmount", increment (- amount))])
               else ret tt
           end
       end) ;;;
     (* the record of the payment and the recalculation *)
     finalTempOrderSnap <- getDoc tempOrderRef ;;
     match finalTempOrderSnap with
     | None => throw (JsError "Could not retrieve TempOrder after update.")
     | Some finalTempOrderData =>
         finalSubOrders <- js_array (obj_get "subOrders" finalTempOrderData) ;;
         subOrder <- settle (find_subOrder subOrderId finalSubOrders) ;;
         date <- now_iso ;;
         addDoc TRANSACTIONS_COLLECTION
           (temp_payment_row finalTempOrderData subOrder tempOrderId subOrderId
              amount notes date) ;;;
         (if truthy (obj_get "assignedUserId" finalTempOrderData)
          then recalculateUserStats (as_id (obj_get "assignedUserId" finalTempOrderData))
          else ret tt) ;;;
         ret true
     end)
    (fun _ => ret false).

(* ------------------------------------------------------------------ *)
(** ** actions.ts: resetting the financial reports *)

Definition getUsers : M (list object) :=
  try_catch
    (querySnapshot <- getDocs (collection USERS_COLLECTION) ;;
     ret (map with_id querySnapshot))
    (fun _ => ret []).

Definition MAX_BATCH_SIZE : nat := 500.

(** One turn of [for (const doc of querySnapshot.docs)]: the batch in use
    and the number of deletions that it holds. *)
Definition reset_delete (collectionName : string) (st : batch * nat) (d : object)
  : M (batch * nat) :=
  let (batch, count) := st in
  batch <- batch_delete batch (row_ref collectionName d) ;;
  let count := S count in
  if (count =? MAX_BATCH_SIZE)%nat
  then batch_commit batch ;;; ret (writeBatch, O)
  else ret (batch, count).

(** [while (hasMore)] for one collection.  The loop has no bound of its
    own: [turns] bounds the number of its turns, and [None] says that the
    bound was reached with [hasMore] still set.  [lastVisible] has no
    effect, both branches of its test building the same query. *)
Fixpoint reset_collection (turns : nat) (collectionName : string)
  : M (option unit) :=
  match turns with
  | O => ret None
  | S turns' =>
      querySnapshot <- getDocs (query collectionName []) ;;
      if (List.length querySnapshot =? 0)%nat then ret (Some tt)
      else
        st <- foldM (reset_delete collectionName) (writeBatch, O) querySnapshot ;;
        (if (0 <? snd st)%nat then batch_commit (fst st) else ret tt) ;;;
        if (List.length querySnapshot <? MAX_BATCH_SIZE)%nat then ret (Some tt)
        else reset_collection turns' collectionName
  end.

Definition resetFinancialReports (turns : nat) : M (option bool) :=
  try_catch
    (let collectionsToReset := [TRANSACTIONS_COLLECTION; EXPENSES_COLLECTION] in
     done <- foldM (fun (done : option unit) collectionName =>
                      match done with
                      | None => ret None
                      | Some _ => reset_collection turns collectionName
                      end)
                   (Some tt) collectionsToReset ;;
     match done with
     | None => ret None
     | Some _ =>
         users <- getUsers ;;
         foldM (fun (_ : unit) user =>
                  recalculateUserStats (as_id (obj_get "id" user)))
               tt users ;;;
         ret (Some true)
     end)
    (fun _ => ret (Some false)).

(* ------------------------------------------------------------------ *)
(** ** actions.ts: bulk import *)

Record import_result : Type := mkImport {
  import_success : bool;
  import_count : Z;
  import_error : option string
}.

Definition CollectionMap : list (string * string) :=
  [("users", USERS_COLLECTION);
   ("orders", ORDERS_COLLECTION);
   ("transactions", TRANSACTIONS_COLLECTION);
   ("representatives", REPRESENTATIVES_COLLECTION);
   ("managers", MANAGERS_COLLECTION);
   ("deposits", DEPOSITS_COLLECTION);
   ("expenses", EXPENSES_COLLECTION);
   ("creditors", CREDITORS_COLLECTION);
   ("tempOrders", TEMP_ORDERS_COLLECTION);
   ("conversations", CONVERSATIONS_COLLECTION);
   ("externalDebts", EXTERNAL_DEBTS_COLLECTION);
   ("settings", SETTINGS_COLLECTION);
   ("instantSales", INSTANT_SALES_COLLECTION)].

(** The names that every object literal answers besides its own keys. *)
Definition inherited_names : list string :=
  ["constructor"; "toString"; "toLocaleString"; "valueOf"; "hasOwnProperty";
   "isPrototypeOf"; "propertyIsEnumerable"; "__proto__"; "__defineGetter__";
   "__defineSetter__"; "__lookupGetter__"; "__lookupSetter__"].

(** Whether [CollectionMap[collectionName]] is truthy. *)
Definition has_table_name (collectionName : string) : bool :=
  existsb (fun p => (fst p =? collectionName)%string) CollectionMap
  || existsb (String.eqb collectionName) inherited_names.

(** [e.message]. *)
Definition error_message (e : error) : string :=
  match e with
  | StoreError => "store error"
  | JsError msg => msg
  end.

(** The module does not import [supabase], the name that [bulkImport]
    uses for its upsert: reading it throws a [ReferenceError]. *)
Definition supabase_upsert (tableName : string) (data : list object)
  : M (option string) :=
  throw (JsError "supabase is not defined").

Definition bulkImport (collectionName : string) (data : list object)
  : M import_result :=
  try_catch
    (if (List.length data =? 0)%nat then
       ret (mkImport false 0 (Some "No data provided or invalid format"))
     else
       if negb (has_table_name collectionName) then
         ret (mkImport false 0 (Some ("Unknown collection: " ++ collectionName)))
       else
         (* perform upsert *)
         error <- supabase_upsert collectionName data ;;
         match error with
         | Some message => ret (mkImport false 0 (Some message))
         | None => ret (mkImport true (Z.of_nat (List.length data)) None)
         end)
    (fun e => ret (mkImport false 0 (Some (error_message e)))).

(* ------------------------------------------------------------------ *)
(** ** app/admin/orders/page.tsx: the weight dialog *)

(** What the page shows when a handler ends. *)
Inductive toast : Type :=
| ToastSuccess
| ToastError
| NoToast.

(** The row that [handleAddWeightCost] puts in the page's list in place of
    the current order. *)
Definition page_weight_row (o : object)
    (weightKg companyKiloPriceUSD customerKiloPrice : Z) : object :=
  let customerTotalLYD := weightKg * customerKiloPrice in
  let companyTotalUSD := weightKg * companyKiloPriceUSD in
  obj_merge o
    [("sellingPriceLYD", VNum (as_num (obj_get "sellingPriceLYD" o) + customerTotalLYD));
     ("remainingAmount", VNum (as_num (obj_get "remainingAmount" o) + customerTotalLYD));
     ("customerWeightCost", VNum (num_or0 "customerWeightCost" o + customerTotalLYD));
     ("companyWeightCostUSD", VNum (num_or0 "companyWeightCostUSD" o + companyTotalUSD));
     ("weightKG", VNum weightKg);
     ("companyPricePerKiloUSD", VNum companyKiloPriceUSD);
     ("customerPricePerKilo", VNum customerKiloPrice)].

(** [handleAddWeightCost], on the page's list of orders: the new list and
    the toast. *)
Definition handleAddWeightCost (orders : list object) (currentOrder : option object)
    (weightKg companyKiloPriceUSD customerKiloPrice : Z)
  : M (list object * toast) :=
  match currentOrder with
  | None => ret (orders, NoToast)
  | Some current =>
      if weightKg <=? 0 then ret (orders, NoToast)
      else
        try_catch
          (setCustomerWeightDetails (as_id (obj_get "id" current)) weightKg
             companyKiloPriceUSD customerKiloPrice ;;;
           ret (map (fun o =>
                       if strict_eqb (obj_get "id" o) (obj_get "id" current)
                       then page_weight_row o weightKg companyKiloPriceUSD
                              customerKiloPrice
                       else o)
                    orders,
                ToastSuccess))
          (fun _ => ret (orders, ToastError))
  end.

(* ------------------------------------------------------------------ *)
(** ** app/login/page.tsx: the login form *)

Inductive login_outcome : Type :=
| MissingInput                       (* the input toast; no request *)
| LoggedIn (id name : value)         (* the session is stored, the dashboard opened *)
| WrongCredentials                   (* the failure toast *)
| ServerError.                       (* the toast of the catch clause *)

Definition handleLogin (phone password : string) : M login_outcome :=
  if (phone =? "")%string || (password =? "")%string then ret MissingInput
  else
    try_catch
      (user <- getUserByPhone phone ;;
       match user with
       | Some u =>
           if strict_eqb (obj_get "password" u) (VStr password)
           then ret (LoggedIn (obj_get "id" u) (obj_get "name" u))
           else ret WrongCredentials
       | None => ret WrongCredentials
       end)
      (fun _ => ret ServerError).

(* ------------------------------------------------------------------ *)
(** ** Vocabulary of the further properties *)

(** Values compared by content by [===] and [includes]. *)
Definition is_primitive (v : value) : bool :=
  match v with
  | VArr _ | VObj _ => false
  | _ => true
  end.

(** The array held by a field; a field that holds no array counts as
    empty. *)
Definition array_or_empty (v : value) : list value :=
  match v with
  | VArr xs => xs
  | _ => []
  end.

(** The object held by a field; a field that holds no object counts as
    empty. *)
Definition object_or_empty (v : value) : object :=
  match v with
  | VObj o => o
  | _ => []
  end.

(** An array after [arrayUnion(v)]. *)
Definition union_step (v : value) (arr : list value) : list value :=
  if existsb (strict_eqb v) arr then arr else (arr ++ [v])%list.

(** The row of a document after an update, the other rows being kept. *)
Definition replace_row (id : string) (row : object) (t : table) : table :=
  map (fun r => if has_id id r then row else r) t.

(** The state once the coming request has been answered with its scheduled
    error flag. *)
Definition after_fault (w : world) : world :=
  mkWorld (tables w) (tl (faults w)) (entropy w) (clock w) (ticks w).

(** A store whose coming request fails and whose later requests succeed. *)
Definition fails_once (w : world) : Prop := faults w = [true].

(** The value of a field in the stored row of a document, [null] when the
    document does not exist. *)
Definition stored (w : world) (c id k : string) : value :=
  match rows_with_id w c id with
  | old :: _ => obj_get k old
  | [] => VNull
  end.

(** Stored settings with an exchange rate of 5, and an administrator whose
    password was changed. *)
Definition world_settings : world :=
  sample_world
    [(SETTINGS_COLLECTION,
      [ [("id", VStr "main"); ("exchangeRate", VNum 5); ("pricePerKiloLYD", VNum 30)] ]);
     (MANAGERS_COLLECTION,
      [ [("id", VStr defaultUsername); ("name", VStr "Admin");
         ("username", VStr defaultUsername); ("password", VStr "s3cret")] ])]
    [].

Definition world_settings_failing : world :=
  mkWorld (tables world_settings) [true] sample_entropy sample_clock 0.

(** The debts of a creditor and their total. *)
Definition debt_of (cid : string) (debt : object) : bool :=
  strict_eqb (obj_get "creditorId" debt) (VStr cid).

Definition debts_total (debts : table) (cid : string) : Z :=
  fold_right Z.add 0
    (map (fun debt => as_num (obj_get "amount" debt)) (filter (debt_of cid) debts)).

(** Every creditor with a non-empty identifier carries the total of the
    debts that name it. *)
Definition creditors_consistent_in (creditors debts : table) : Prop :=
  forall (c : object) (cid : string),
    In c creditors -> obj_get "id" c = VStr cid -> cid <> "" ->
    obj_get "totalDebt" c = VNum (debts_total debts cid).

(** The rows of a table carry strings as identifiers. *)
Definition string_ids (t : table) : Prop :=
  forall r, In r t -> exists s, obj_get "id" r = VStr s.

Definition creditors_ok (w : world) : Prop :=
  creditors_consistent_in (tables w CREDITORS_COLLECTION)
                          (tables w EXTERNAL_DEBTS_COLLECTION)
  /\ unique_ids (tables w CREDITORS_COLLECTION)
  /\ unique_ids (tables w EXTERNAL_DEBTS_COLLECTION)
  /\ string_ids (tables w EXTERNAL_DEBTS_COLLECTION)
  /\ reliable w.

(** The operations on creditors and their debts. *)
Inductive creditor_op : Type :=
| AddDebt (debt : object)
| UpdateDebt (debtId : string) (data : object)
| DeleteDebt (debtId : string)
| AddCreditor (creditorData : object) (initialBalance : Z)
| DeleteCreditor (creditorId : string).

Definition after_creditor_op (op : creditor_op) (w : world) : world :=
  match op with
  | AddDebt debt => snd (addExternalDebt debt w)
  | UpdateDebt debtId data => snd (updateExternalDebt debtId data w)
  | DeleteDebt debtId => snd (deleteExternalDebt debtId w)
  | AddCreditor creditorData initialBalance =>
      snd (addCreditor creditorData initialBalance w)
  | DeleteCreditor creditorId => snd (deleteCreditor creditorId w)
  end.

(** What the callers owe to an operation: a new record comes without an
    identifier, as its type says; an amendment of a debt is plain data that
    leaves the identifier and the creditor of the debt alone; no debt names
    the identifier that a new creditor is about to get. *)
Definition admissible_creditor_op (w : world) (op : creditor_op) : Prop :=
  match op with
  | AddDebt debt => obj_find "id" debt = None
  | UpdateDebt _ data =>
      needs_fetch data = false
      /\ obj_find "id" data = None
      /\ obj_find "creditorId" data = None
  | DeleteDebt _ => True
  | AddCreditor creditorData _ =>
      obj_find "id" creditorData = None
      /\ filter (debt_of (next_id w)) (tables w EXTERNAL_DEBTS_COLLECTION) = []
  | DeleteCreditor _ => True
  end.

(** A creditor with two debts. *)
Definition world_creditor : world :=
  sample_world
    [(CREDITORS_COLLECTION,
      [ [("id", VStr "c1"); ("name", VStr "Supplier"); ("totalDebt", VNum 150)] ]);
     (EXTERNAL_DEBTS_COLLECTION,
      [ [("id", VStr "d1"); ("creditorId", VStr "c1"); ("amount", VNum 100)];
        [("id", VStr "d2"); ("creditorId", VStr "c1"); ("amount", VNum 50)] ])]
    [].

(** The state in the middle of an operation on the debts of the creditor
    [C]: every other creditor is consistent; [C] is about to be
    recalculated. *)
Definition creditors_ok_except (C : string) (w : world) : Prop :=
  (forall (c : object) (cid : string),
     In c (tables w CREDITORS_COLLECTION) ->
     obj_get "id" c = VStr cid -> cid <> "" -> cid <> C ->
     obj_get "totalDebt" c = VNum (debts_total (tables w EXTERNAL_DEBTS_COLLECTION) cid))
  /\ unique_ids (tables w CREDITORS_COLLECTION)
  /\ unique_ids (tables w EXTERNAL_DEBTS_COLLECTION)
  /\ string_ids (tables w EXTERNAL_DEBTS_COLLECTION)
  /\ reliable w.

(** A debt of 25 for the sample creditor, and a new creditor. *)
Definition debt_25 : object :=
  [("creditorId", VStr "c1"); ("creditorName", VStr "Supplier"); ("amount", VNum 25)].

Definition new_creditor : object := [("name", VStr "Carrier")].

(** The identifier of the opening debt of a new creditor: the third
    reading of the oracles, after the creditor's identifier and the date. *)
Definition opening_debt_id (w : world) : string :=
  substring 2 13 (entropy w (S (S (ticks w)))).

(** A conversation with one message and one unread message. *)
Definition world_conversation : world :=
  sample_world
    [(CONVERSATIONS_COLLECTION,
      [ [("id", VStr "cv1"); ("userId", VStr "u1"); ("unreadCount", VNum 1);
         ("messages", VArr [VObj [("id", VStr "m0"); ("text", VStr "hello");
                                  ("sender", VStr "user")]])] ])]
    [].

Definition user_message : object :=
  [("text", VStr "hello"); ("sender", VStr "user");
   ("timestamp", VStr "2024-05-01T10:00:00.000Z")].

(** The unread counter after a message of a given sender. *)
Definition unread_after (sender unread : value) : value :=
  if strict_eqb sender (VStr "user") then VNum (number_or0 unread + 1)
  else if strict_eqb sender (VStr "support") then VNum 0
  else unread.

(** What one undotted key of an update makes of the current value of the
    field: an [increment] adds to its number, an [arrayUnion] extends its
    array, any other value replaces it. *)
Definition key_effect (v old : value) : value :=
  if op_is "increment" v then
    match op_value v with
    | VNum n => VNum (number_or0 old + n)
    | _ => VNull
    end
  else if op_is "arrayUnion" v then
    VArr (union_step (op_value v) (array_or_empty old))
  else v.

(** Rows in the order of [sort((a, b) => t b - t a)]: no row is followed
    by a later one. *)
Definition newest_first (time : value -> Z) (key : string) (rows : list object)
  : Prop :=
  StronglySorted (fun a b => time (obj_get key b) <= time (obj_get key a)) rows.

(** The row that [getTempOrders] answers for a stored row. *)
Definition temp_order_view (data : object) : object :=
  obj_merge (obj_merge [("id", obj_get "id" data)] data)
    [("subOrders",
      match obj_get "subOrders" data with
      | VArr xs => VArr xs
      | _ => VArr []
      end)].

(** The temporary orders of a user carry arrays of sub-order records. *)
Definition suborders_well_formed (w : world) (userId : string) : Prop :=
  forall d, In d (tables w TEMP_ORDERS_COLLECTION) ->
    obj_get "assignedUserId" d = VStr userId ->
    exists xs, obj_get "subOrders" d = VArr xs /\ Forall (fun so => so <> VNull) xs.

(** Notifications for all users, for the user [u1] and for the user [u2];
    transactions of two customers. *)
Definition world_notifications : world :=
  sample_world
    [(NOTIFICATIONS_COLLECTION,
      [ [("id", VStr "n1"); ("target", VStr "all"); ("timestamp", VNum 1)];
        [("id", VStr "n2"); ("target", VStr "specific"); ("userId", VStr "u1");
         ("timestamp", VNum 3)];
        [("id", VStr "n3"); ("target", VStr "specific"); ("userId", VStr "u2");
         ("timestamp", VNum 2)] ]);
     (TRANSACTIONS_COLLECTION,
      [ [("id", VStr "x1"); ("customerId", VStr "u1"); ("date", VNum 1)];
        [("id", VStr "x2"); ("customerId", VStr "u2"); ("date", VNum 2)] ])]
    [].

(** The transactions of an order. *)
Definition transaction_of (orderId : string) (t : object) : bool :=
  strict_eqb (obj_get "orderId" t) (VStr orderId).

(** An order handed to a representative whose record is gone. *)
Definition world_orphan_order : world :=
  sample_world
    [(ORDERS_COLLECTION,
      [ [("id", VStr "o1"); ("userId", VStr "u1"); ("status", VStr "out_for_delivery");
         ("representativeId", VStr "r9"); ("remainingAmount", VNum 800)] ]);
     (TRANSACTIONS_COLLECTION,
      [ [("id", VStr "x1"); ("orderId", VStr "o1"); ("type", VStr "order");
         ("amount", VNum 800)] ]);
     (USERS_COLLECTION,
      [ [("id", VStr "u1"); ("debt", VNum 800); ("orderCount", VNum 1)] ])]
    [].

(** An imported invoice without a user of its own. *)
Definition world_invoice : world :=
  sample_world
    [(TEMP_ORDERS_COLLECTION,
      [ [("id", VStr "inv7"); ("invoiceName", VStr "Batch 7");
         ("remainingAmount", VNum 120);
         ("subOrders", VArr [VObj [("subOrderId", VStr "s1")];
                             VObj [("subOrderId", VStr "s2")]])] ])]
    [].

(** An order that already carries a customer weight cost of 90 and a
    company weight cost of 20, as the page holds it and as the store
    does. *)
Definition weighed_order : object :=
  [("id", VStr "o1"); ("userId", VStr "u1"); ("sellingPriceLYD", VNum 1090);
   ("remainingAmount", VNum 890); ("status", VStr "pending");
   ("customerWeightCost", VNum 90); ("companyWeightCostUSD", VNum 20)].

Definition world_weighed : world :=
  sample_world
    [(ORDERS_COLLECTION, [weighed_order]);
     (USERS_COLLECTION, [sample_user])]
    [].

(** The users that share a phone number, for the login form. *)
Definition world_login : world :=
  sample_world
    [(USERS_COLLECTION,
      [ [("id", VStr "u1"); ("name", VStr "Salem"); ("phone", VStr "0910000000");
         ("password", VStr "abc")];
        [("id", VStr "u2"); ("name", VStr "Sami"); ("phone", VStr "0910000000");
         ("password", VStr "xyz")] ])]
    [].

(** The users with a given phone number, in the order of the table. *)
Definition users_with_phone (w : world) (phone : string) : list object :=
  filter (fun u => strict_eqb (obj_get "phone" u) (VStr phone))
         (tables w USERS_COLLECTION).

(** The rows of a table carry non-empty strings as identifiers. *)
Definition named_rows (t : table) : Prop :=
  forall r, In r t -> exists s, obj_get "id" r = VStr s /\ s <> "".

(** What [recalculateUserStats] writes for the user [U], from the orders
    of [w]. *)
Definition user_stats (w : world) (U : string) : object :=
  [("debt", VNum (orders_debt w U)); ("orderCount", VNum (spec_orderCount w U))].

(** A user with an order of 1000 of which 200 are paid, the payment and an
    expense. *)
Definition world_paid : world :=
  sample_world
    [(USERS_COLLECTION,
      [ [("id", VStr "u1"); ("name", VStr "Salem"); ("debt", VNum 800);
         ("orderCount", VNum 1)] ]);
     (ORDERS_COLLECTION,
      [ [("id", VStr "o1"); ("userId", VStr "u1"); ("sellingPriceLYD", VNum 1000);
         ("remainingAmount", VNum 800); ("status", VStr "pending")] ]);
     (TRANSACTIONS_COLLECTION,
      [ [("id", VStr "t1"); ("orderId", VStr "o1"); ("customerId", VStr "u1");
         ("type", VStr "payment"); ("amount", VNum 200)] ]);
     (EXPENSES_COLLECTION,
      [ [("id", VStr "e1"); ("amount", VNum 15)] ])]
    [].

(** A row of the users after the recalculations of the users [us], one
    after the other. *)
Definition recalculated_row (w : world) (us : list object) (r : object) : object :=
  fold_left (fun r u =>
               if has_id (as_id (obj_get "id" u)) r
               then obj_merge r (user_stats w (as_id (obj_get "id" u)))
               else r)
            us r.

(** The identifier of the record of a payment on a temporary order: the
    second reading of the oracles, after the date. *)
Definition temp_payment_id (w : world) : string :=
  substring 2 13 (entropy w (S (ticks w))).

(** The sub-order after a payment. *)
Definition paid_subOrder (amount : Z) (so : object) : value :=
  VObj (obj_set "remainingAmount"
          (VNum (Z.max 0 (num_or0 "remainingAmount" so - amount))) so).

(** An invoice of two sub-orders, converted into the order [o1] of the
    user [u1]; 100 are still to pay. *)
Definition world_batch : world :=
  sample_world
    [(USERS_COLLECTION,
      [ [("id", VStr "u1"); ("name", VStr "Salem"); ("debt", VNum 100);
         ("orderCount", VNum 1)] ]);
     (TEMP_ORDERS_COLLECTION,
      [ [("id", VStr "inv7"); ("invoiceName", VStr "Batch 7");
         ("assignedUserId", VStr "u1");
         ("parentInvoiceId", VStr "o1"); ("remainingAmount", VNum 100);
         ("subOrders",
          VArr [VObj [("subOrderId", VStr "s1"); ("customerName", VStr "Ali");
                      ("remainingAmount", VNum 60)];
                VObj [("subOrderId", VStr "s2"); ("customerName", VStr "Omar");
                      ("remainingAmount", VNum 40)]])] ]);
     (ORDERS_COLLECTION,
      [ [("id", VStr "o1"); ("userId", VStr "u1"); ("sellingPriceLYD", VNum 500);
         ("remainingAmount", VNum 100); ("status", VStr "pending")] ])]
    [].

(** The main order of an invoice can be deleted without an update of a
    representative, or is handed to a representative whose record is
    gone. *)
Definition free_or_orphan (w : world) (o : object) : Prop :=
  truthy (obj_get "representativeId" o) = false
  \/ exists R, obj_get "representativeId" o = VStr R /\ R <> ""
                /\ rows_with_id w REPRESENTATIVES_COLLECTION R = [].

(** The sample invoice, its order handed to a representative whose record
    is gone, and a payment on the order. *)
Definition world_batch_orphan : world :=
  sample_world
    [(USERS_COLLECTION,
      [ [("id", VStr "u1"); ("name", VStr "Salem"); ("debt", VNum 100);
         ("orderCount", VNum 1)] ]);
     (TEMP_ORDERS_COLLECTION,
      [ [("id", VStr "inv7"); ("invoiceName", VStr "Batch 7");
         ("assignedUserId", VStr "u1");
         ("parentInvoiceId", VStr "o1"); ("remainingAmount", VNum 100);
         ("subOrders", VArr [VObj [("subOrderId", VStr "s1")]])] ]);
     (ORDERS_COLLECTION,
      [ [("id", VStr "o1"); ("userId", VStr "u1"); ("representativeId", VStr "r9");
         ("sellingPriceLYD", VNum 500); ("remainingAmount", VNum 100);
         ("status", VStr "pending")] ]);
     (TRANSACTIONS_COLLECTION,
      [ [("id", VStr "t1"); ("orderId", VStr "o1"); ("customerId", VStr "u1");
         ("type", VStr "payment"); ("amount", VNum 400)] ])]
    [].

(** The listed orders that exist are handed to no representative and have
    an owner. *)
Definition free_owned_orders (w : world) (orderIds : list string) : Prop :=
  forall id o, In id orderIds -> rows_with_id w ORDERS_COLLECTION id = [o] ->
    truthy (obj_get "representativeId" o) = false
    /\ exists U, obj_get "userId" o = VStr U /\ U <> "".

(** The values of a set of user identifiers, as rows that carry them. *)
Definition as_user (userId : value) : object := [("id", userId)].

(* ================================================================== *)
(** * Properties *)

Unset Implicit Arguments.

(* ------------------------------------------------------------------ *)
(** ** Objects *)

Lemma obj_get_find (k : string) (o : object) :
  obj_get k o = match obj_find k o with Some v => v | None => VNull end.
Proof.
  induction o as [|[k' v] o IH]; simpl; [reflexivity|].
  destruct (k =? k')%string; auto.
Qed.

Lemma obj_find_set_eq (k : string) (v : value) (o : object) :
  obj_find k (obj_set k v o) = Some v.
Proof.
  induction o as [|[k' v'] o IH]; simpl.
  - now rewrite String.eqb_refl.
  - destruct (k =? k')%string eqn:E; simpl.
    + now rewrite String.eqb_refl.
    + now rewrite E.
Qed.

Lemma obj_find_set_neq (k k' : string) (v : value) (o : object) :
  k <> k' -> obj_find k (obj_set k' v o) = obj_find k o.
Proof.
  intros Hne. induction o as [|[k2 v2] o IH]; simpl.
  - destruct (k =? k')%string eqn:E; [apply String.eqb_eq in E; contradiction|reflexivity].
  - destruct (k' =? k2)%string eqn:E2; simpl.
    + apply String.eqb_eq in E2. subst k2.
      destruct (k =? k')%string eqn:E; [apply String.eqb_eq in E; contradiction|reflexivity].
    + destruct (k =? k2)%string; auto.
Qed.

Lemma obj_get_set_eq (k : string) (v : value) (o : object) :
  obj_get k (obj_set k v o) = v.
Proof. now rewrite obj_get_find, obj_find_set_eq. Qed.

Lemma obj_get_set_neq (k k' : string) (v : value) (o : object) :
  k <> k' -> obj_get k (obj_set k' v o) = obj_get k o.
Proof. intros H. now rewrite !obj_get_find, obj_find_set_neq. Qed.

Lemma obj_set_same (k : string) (v : value) (o : object) :
  obj_find k o = Some v -> obj_set k v o = o.
Proof.
  induction o as [|[k' v'] o IH]; simpl; [discriminate|].
  destruct (k =? k')%string eqn:E.
  - apply String.eqb_eq in E. subst k'. now intros [= ->].
  - intros H. now rewrite IH.
Qed.

Lemma obj_find_in_keys (k : string) (o : object) :
  In k (map fst o) -> exists v, obj_find k o = Some v.
Proof.
  induction o as [|[k' v'] o IH]; simpl; [tauto|].
  intros [->|Hin].
  - rewrite String.eqb_refl. eauto.
  - destruct (k =? k')%string; eauto.
Qed.

Lemma obj_find_fold_set (k : string) (d part o : object) :
  (forall k', In k' (map fst part) -> In k' (map fst d)) ->
  obj_find k (fold_left (fun acc kv => obj_set (fst kv) (obj_get (fst kv) d) acc) part o)
  = if existsb (String.eqb k) (map fst part) then obj_find k d else obj_find k o.
Proof.
  revert o. induction part as [|[k' v] part IH]; intros o Hsub; [reflexivity|].
  simpl. rewrite IH by (intros k2 H2; apply Hsub; now right).
  destruct (existsb (String.eqb k) (map fst part)) eqn:E.
  - now rewrite orb_true_r.
  - rewrite orb_false_r. destruct (k =? k')%string eqn:E'.
    + apply String.eqb_eq in E'. subst k'.
      rewrite obj_find_set_eq, obj_get_find.
      destruct (obj_find_in_keys k d) as [v' Hv]; [apply Hsub; now left|].
      now rewrite Hv.
    + apply obj_find_set_neq. intros ->. now rewrite String.eqb_refl in E'.
Qed.

(** Reading a merged object: the data wins where it binds the key. *)
Lemma obj_find_merge (k : string) (o d : object) :
  obj_find k (obj_merge o d)
  = match obj_find k d with Some v => Some v | None => obj_find k o end.
Proof.
  unfold obj_merge. rewrite obj_find_fold_set by auto.
  destruct (existsb (String.eqb k) (map fst d)) eqn:E.
  - apply existsb_exists in E. destruct E as [k' [Hin Hk]].
    apply String.eqb_eq in Hk. subst k'.
    destruct (obj_find_in_keys k d Hin) as [v Hv]. now rewrite Hv.
  - destruct (obj_find k d) as [v|] eqn:Hf; [|reflexivity].
    exfalso. assert (Hin : In k (map fst d)).
    { clear E. induction d as [|[k' v'] d IH]; simpl in *; [discriminate|].
      destruct (k =? k')%string eqn:E'.
      - left. symmetry. now apply String.eqb_eq.
      - right. auto. }
    assert (Ht : existsb (String.eqb k) (map fst d) = true).
    { apply existsb_exists. exists k. split; [exact Hin|apply String.eqb_refl]. }
    congruence.
Qed.

Lemma obj_get_merge (k : string) (o d : object) :
  obj_get k (obj_merge o d)
  = match obj_find k d with Some v => v | None => obj_get k o end.
Proof.
  rewrite !obj_get_find, obj_find_merge. now destruct (obj_find k d).
Qed.

(* ------------------------------------------------------------------ *)
(** ** Stepping through the monad *)

Lemma bind_ok {A B} {m : M A} (k : A -> M B) {w w' : world} {a : A} :
  m w = (Ok a, w') -> bind m k w = k a w'.
Proof. unfold bind. now intros ->. Qed.

Lemma bind_throw {A B} {m : M A} (k : A -> M B) {w w' : world} {e : error} :
  m w = (Throw e, w') -> bind m k w = (Throw e, w').
Proof. unfold bind. now intros ->. Qed.

Lemma try_catch_total {A} (m : M A) (sentinel : A) (w : world) :
  exists a, fst (try_catch m (fun _ => ret sentinel) w) = Ok a.
Proof.
  unfold try_catch. destruct (m w) as [[a|e] w']; simpl; eauto.
Qed.

Lemma reliable_set_table (c : string) (t : table) (w : world) :
  reliable w -> reliable (set_table c t w).
Proof. exact (fun H => H). Qed.

Lemma tables_set_table_eq (c : string) (t : table) (w : world) :
  tables (set_table c t w) c = t.
Proof. simpl. now rewrite String.eqb_refl. Qed.

Lemma tables_set_table_neq (c c' : string) (t : table) (w : world) :
  c' <> c -> tables (set_table c t w) c' = tables w c'.
Proof.
  intros H. simpl. destruct (c' =? c)%string eqn:E; [|reflexivity].
  apply String.eqb_eq in E. contradiction.
Qed.

Lemma sb_fault_reliable (w : world) : reliable w -> sb_fault w = (Ok false, w).
Proof. unfold reliable, sb_fault. now intros ->. Qed.

Lemma sb_select_reliable (c : string) (fs : list sb_filter) (w : world) :
  reliable w ->
  sb_select c fs w = (Ok (Some (filter (filters_hold fs) (tables w c))), w).
Proof.
  intros H. unfold sb_select. now rewrite (bind_ok _ (sb_fault_reliable w H)).
Qed.

Lemma sb_select_single_reliable (c id : string) (w : world) :
  reliable w ->
  sb_select_single c id w =
    (Ok (match rows_with_id w c id with [r] => Some r | _ => None end), w).
Proof.
  intros H. unfold sb_select_single, rows_with_id.
  rewrite (bind_ok _ (sb_fault_reliable w H)). unfold bind, read_table.
  destruct (filter (has_id id) (tables w c)) as [|r [|r' l]]; reflexivity.
Qed.

Lemma sb_update_reliable (c id : string) (data : object) (w : world) :
  reliable w ->
  sb_update c id data w =
    (Ok false, set_table c (update_rows id data (tables w c)) w).
Proof.
  intros H. unfold sb_update. now rewrite (bind_ok _ (sb_fault_reliable w H)).
Qed.

Lemma sb_upsert_reliable (c : string) (payload : object) (w : world) :
  reliable w ->
  sb_upsert c payload w =
    (Ok false, set_table c (upsert_row payload (tables w c)) w).
Proof.
  intros H. unfold sb_upsert. now rewrite (bind_ok _ (sb_fault_reliable w H)).
Qed.

Lemma sb_delete_reliable (c id : string) (w : world) :
  reliable w ->
  sb_delete c id w = (Ok false, set_table c (delete_rows id (tables w c)) w).
Proof.
  intros H. unfold sb_delete. now rewrite (bind_ok _ (sb_fault_reliable w H)).
Qed.

(* ------------------------------------------------------------------ *)
(** ** The shim: queries *)

Lemma build_filters_supported (conditions : list condition) :
  build_filters (filter supported_cond conditions) = build_filters conditions.
Proof.
  induction conditions as [|cond rest IH]; [reflexivity|].
  unfold supported_cond, supported_op in *. simpl.
  destruct (cond_op cond =? "==")%string eqn:E1; simpl.
  - rewrite E1. now rewrite IH.
  - destruct (cond_op cond =? "in")%string eqn:E2; simpl.
    + rewrite E1, E2. now rewrite IH.
    + destruct (cond_op cond =? "array-contains")%string eqn:E3; simpl.
      * rewrite E1, E2, E3. now rewrite IH.
      * exact IH.
Qed.

Lemma sb_select_never_throws (c : string) (fs : list sb_filter) (w : world) :
  exists res, fst (sb_select c fs w) = Ok res.
Proof.
  unfold sb_select, bind, sb_fault, read_table, ret.
  destruct (faults w) as [|[|] l]; simpl; eauto.
Qed.

Lemma adapter_query_never_throws (c : string) (conditions : list condition)
    (w : world) :
  exists rows, fst (adapter_query c conditions w) = Ok rows.
Proof.
  unfold adapter_query, bind, sb_select, sb_fault, bind, read_table, ret.
  destruct (faults w) as [|[|] l]; simpl; eauto.
Qed.

(** C6, as the specification words it, does not hold: on a table holding a
    cancelled and a pending temporary order, the query of [getTempOrders],
    whose only condition uses the operator [!=], raises no error. *)
Lemma unsupported_operator_not_loud : ~ unsupported_operator_fails_loudly.
Proof.
  intros H.
  destruct (H TEMP_ORDERS_COLLECTION
              [where_ "status" "!=" (VStr "cancelled")] world_temp eq_refl)
    as [e He].
  vm_compute in He. discriminate He.
Qed.

(** C6 (amended): a condition whose operator is not [==], [in] or
    [array-contains] is dropped by [dbAdapter.query]: the query raises no
    error and answers exactly what the query without these conditions
    answers. *)
Theorem unsupported_operators_are_dropped :
  forall (c : string) (conditions : list condition) (w : world),
    adapter_query c conditions w
      = adapter_query c (filter supported_cond conditions) w
    /\ (forall e, fst (adapter_query c conditions w) <> Throw e).
Proof.
  intros c conditions w. split.
  - unfold adapter_query. now rewrite build_filters_supported.
  - intros e He.
    destruct (adapter_query_never_throws c conditions w) as [rows Hr].
    rewrite Hr in He. discriminate He.
Qed.

(** The query of [getTempOrders] on the sample table: the cancelled row is
    part of the answer. *)
Example getTempOrders_query_keeps_cancelled :
  fst (getDocs (query TEMP_ORDERS_COLLECTION
                  [where_ "status" "!=" (VStr "cancelled")]) world_temp)
  = Ok temp_rows.
Proof. reflexivity. Qed.

(* ------------------------------------------------------------------ *)
(** ** Validation before any request *)

(** C9: with a negative weight [setCustomerWeightDetails] answers [false]
    and leaves the whole state as it was (tables, and the request schedule:
    no request was issued); so does [addCustomerShippingCost] with a
    negative cost. *)
Theorem negative_input_rejected_without_store_call :
  forall (orderId : string) (x a b : Z) (w : world),
    x < 0 ->
    setCustomerWeightDetails orderId x a b w = (Ok false, w)
    /\ addCustomerShippingCost orderId x w = (Ok false, w).
Proof.
  intros orderId x a b w Hneg.
  unfold setCustomerWeightDetails, addCustomerShippingCost.
  apply Z.ltb_lt in Hneg. rewrite Hneg. split; reflexivity.
Qed.

Lemma negative_input_rejected_witness :
  -1 < 0
  /\ setCustomerWeightDetails "o1" (-1) 3 4 world_one_order = (Ok false, world_one_order)
  /\ addCustomerShippingCost "o1" (-1) world_one_order = (Ok false, world_one_order).
Proof.
  split; [lia|].
  apply (negative_input_rejected_without_store_call "o1" (-1) 3 4 world_one_order).
  lia.
Defined.

(* ------------------------------------------------------------------ *)
(** ** The shim: documents *)

Lemma doc_get_reliable (d : docref) (w : world) :
  reliable w ->
  doc_get d w =
    (Ok (match rows_with_id w (ref_collection d) (ref_id d) with
         | [r] => Some r
         | _ => None
         end), w).
Proof. intros H. unfold doc_get. now apply sb_select_single_reliable. Qed.

Lemma doc_update_fetch_reliable (d : docref) (data cur updated : object) (w : world) :
  reliable w ->
  needs_fetch data = true ->
  rows_with_id w (ref_collection d) (ref_id d) = [cur] ->
  apply_keys cur data = Some updated ->
  doc_update d data w =
    (Ok tt, set_table (ref_collection d)
              (update_rows (ref_id d) updated (tables w (ref_collection d))) w).
Proof.
  intros Hr Hn Hrows Hk. unfold doc_update. unfold needs_fetch in Hn. rewrite Hn.
  rewrite (bind_ok _ (sb_select_single_reliable _ _ w Hr)). rewrite Hrows, Hk.
  now rewrite (bind_ok _ (sb_update_reliable _ _ _ w Hr)).
Qed.

Lemma doc_update_fetch_missing (d : docref) (data : object) (w : world) :
  reliable w ->
  needs_fetch data = true ->
  rows_with_id w (ref_collection d) (ref_id d) = [] ->
  doc_update d data w = (Throw (JsError "Document not found for update"), w).
Proof.
  intros Hr Hn Hrows. unfold doc_update. unfold needs_fetch in Hn. rewrite Hn.
  rewrite (bind_ok _ (sb_select_single_reliable _ _ w Hr)). now rewrite Hrows.
Qed.

Lemma doc_update_plain_reliable (d : docref) (data : object) (w : world) :
  reliable w ->
  needs_fetch data = false ->
  doc_update d data w =
    (Ok tt, set_table (ref_collection d)
              (update_rows (ref_id d) data (tables w (ref_collection d))) w).
Proof.
  intros Hr Hn. unfold doc_update. unfold needs_fetch in Hn. rewrite Hn.
  now rewrite (bind_ok _ (sb_update_reliable _ _ _ w Hr)).
Qed.

Lemma doc_set_reliable (d : docref) (data : object) (merge : bool) (w : world) :
  reliable w ->
  doc_set d data merge w =
    (Ok tt, set_table (ref_collection d)
              (upsert_row (obj_set "id" (VStr (ref_id d)) data)
                          (tables w (ref_collection d))) w).
Proof.
  intros Hr. unfold doc_set.
  destruct merge; now rewrite (bind_ok _ (sb_upsert_reliable _ _ w Hr)).
Qed.

Lemma doc_delete_reliable (d : docref) (w : world) :
  reliable w ->
  doc_delete d w =
    (Ok tt, set_table (ref_collection d)
              (delete_rows (ref_id d) (tables w (ref_collection d))) w).
Proof.
  intros Hr. unfold doc_delete.
  now rewrite (bind_ok _ (sb_delete_reliable _ _ w Hr)).
Qed.

Lemma adapter_query_reliable (c : string) (conditions : list condition) (w : world) :
  reliable w ->
  adapter_query c conditions w =
    (Ok (filter (filters_hold (build_filters conditions)) (tables w c)), w).
Proof.
  intros Hr. unfold adapter_query.
  now rewrite (bind_ok _ (sb_select_reliable _ _ w Hr)).
Qed.

(** Rows and identifiers under an update. *)
Lemma filter_update_rows (id id' : string) (data : object) (t : table) :
  (forall r, has_id id' (obj_merge r data) = has_id id' r) ->
  filter (has_id id') (update_rows id data t)
  = map (fun r => if has_id id r then obj_merge r data else r)
        (filter (has_id id') t).
Proof.
  intros Hid. unfold update_rows.
  induction t as [|r t IH]; [reflexivity|]. simpl.
  destruct (has_id id r) eqn:E.
  - rewrite Hid. destruct (has_id id' r); simpl; [rewrite E|]; now rewrite IH.
  - destruct (has_id id' r); simpl; [rewrite E|]; now rewrite IH.
Qed.

Lemma has_id_merge_keeps (id : string) (r data : object) :
  obj_find "id" data = None \/ obj_find "id" data = obj_find "id" r ->
  forall id', has_id id' (obj_merge r data) = has_id id' r.
Proof.
  intros H id'. unfold has_id. rewrite obj_get_merge.
  destruct H as [H|H]; rewrite H; [reflexivity|].
  rewrite (obj_get_find "id" r). now destruct (obj_find "id" r).
Qed.

(** One turn of the update loop on an undotted key rewrites that key only. *)
Lemma apply_key_plain (updated : object) (k : string) (v : value) :
  has_dot k = false ->
  exists x, apply_key updated (k, v) = Some (obj_set k x updated).
Proof.
  intros Hd. unfold apply_key. rewrite Hd.
  destruct (op_is "increment" v).
  - destruct (op_value v); eauto.
  - destruct (op_is "arrayUnion" v); [|eauto].
    destruct (existsb _ _); eauto.
Qed.

Lemma apply_keys_plain (data updated : object) :
  (forall k, In k (map fst data) -> has_dot k = false) ->
  exists u, apply_keys updated data = Some u
            /\ forall f, ~ In f (map fst data) -> obj_find f u = obj_find f updated.
Proof.
  revert updated. induction data as [|[k v] data IH]; intros updated Hd.
  - exists updated. split; reflexivity.
  - destruct (apply_key_plain updated k v) as [x Hx]; [apply Hd; now left|].
    destruct (IH (obj_set k x updated)) as [u [Hu Hfu]].
    + intros k' Hk'. apply Hd. now right.
    + exists u. cbn [apply_keys]. rewrite Hx. split; [exact Hu|].
      intros f Hf. rewrite Hfu by (intros Hin; apply Hf; now right).
      apply obj_find_set_neq. intros ->. apply Hf. now left.
Qed.

Lemma apply_keys_app (a b updated : object) :
  apply_keys updated (a ++ b)%list
  = match apply_keys updated a with
    | Some u => apply_keys u b
    | None => None
    end.
Proof.
  revert updated. induction a as [|kv a IH]; intros updated; [reflexivity|].
  simpl. destruct (apply_key updated kv); [apply IH|reflexivity].
Qed.

Lemma apply_keys_increment (f : string) (n : Z) (before after cur : object) :
  (forall k, In k (map fst (before ++ (f, increment n) :: after)%list) ->
             has_dot k = false) ->
  ~ In f (map fst before) -> ~ In f (map fst after) ->
  exists updated,
    apply_keys cur (before ++ (f, increment n) :: after)%list = Some updated
    /\ obj_find f updated = Some (VNum (number_or0 (obj_get f cur) + n))
    /\ forall k, ~ In k (map fst (before ++ (f, increment n) :: after)%list) ->
                 obj_find k updated = obj_find k cur.
Proof.
  intros Hd Hb Ha.
  assert (Hdf : has_dot f = false).
  { apply Hd. rewrite map_app, in_app_iff. right. now left. }
  destruct (apply_keys_plain before cur) as [u1 [Hu1 Hf1]].
  { intros k Hk. apply Hd. rewrite map_app, in_app_iff. now left. }
  destruct (apply_keys_plain after
              (obj_set f (VNum (number_or0 (obj_get f u1) + n)) u1))
    as [u2 [Hu2 Hf2]].
  { intros k Hk. apply Hd. rewrite map_app, in_app_iff. right. now right. }
  exists u2. rewrite apply_keys_app, Hu1. cbn [apply_keys].
  unfold apply_key. rewrite Hdf. simpl. split; [exact Hu2|]. split.
  - rewrite (Hf2 f Ha), obj_find_set_eq.
    now rewrite (obj_get_find f u1), (Hf1 f Hb), <- obj_get_find.
  - intros k Hk. rewrite map_app, in_app_iff in Hk. simpl in Hk.
    rewrite Hf2 by tauto. rewrite obj_find_set_neq by (intros ->; tauto).
    apply Hf1. tauto.
Qed.

Lemma rows_with_id_unique (w : world) (c id : string) (cur r : object) :
  rows_with_id w c id = [cur] ->
  In r (tables w c) -> has_id id r = true -> r = cur.
Proof.
  unfold rows_with_id. intros Hrows Hin Hid.
  assert (H : In r (filter (has_id id) (tables w c))) by (apply filter_In; auto).
  rewrite Hrows in H. destruct H as [H|[]]. now symmetry.
Qed.

Lemma rows_with_id_in (w : world) (c id : string) (cur : object) :
  rows_with_id w c id = [cur] -> In cur (tables w c) /\ has_id id cur = true.
Proof.
  unfold rows_with_id. intros Hrows.
  apply filter_In. rewrite Hrows. now left.
Qed.

Lemma update_rows_single (w : world) (c id : string) (cur data : object) :
  rows_with_id w c id = [cur] ->
  update_rows id data (tables w c)
  = map (fun r => if has_id id r then obj_merge cur data else r) (tables w c).
Proof.
  intros Hrows. unfold update_rows. apply map_ext_in. intros r Hin.
  destruct (has_id id r) eqn:E; [|reflexivity].
  now rewrite (rows_with_id_unique w c id cur r Hrows Hin E).
Qed.

Lemma filter_replace_single (id : string) (cur row : object) (t : table) :
  filter (has_id id) t = [cur] ->
  has_id id row = true ->
  filter (has_id id) (map (fun r => if has_id id r then row else r) t) = [row].
Proof.
  intros Hf Hrow. induction t as [|r t IH] in Hf |- *; [discriminate|].
  simpl in *. destruct (has_id id r) eqn:E.
  - rewrite Hrow. injection Hf as -> Hnil. f_equal.
    clear IH. induction t as [|r' t IH]; [reflexivity|]. simpl in *.
    destruct (has_id id r') eqn:E'; [discriminate|]. rewrite E'. auto.
  - rewrite E. auto.
Qed.

(** The result of an update that carries [f: increment(n)], on a reliable
    store holding the document: the document's row is replaced by a row
    whose [f] is the old number (or 0) plus [n], and whose fields outside
    the update are kept. *)
Lemma doc_update_increment (w : world) (d : docref) (cur before after : object)
    (f : string) (n : Z) :
  reliable w ->
  rows_with_id w (ref_collection d) (ref_id d) = [cur] ->
  (forall k, In k (map fst (before ++ (f, increment n) :: after)%list) ->
             has_dot k = false) ->
  ~ In f (map fst before) -> ~ In f (map fst after) ->
  exists row,
    doc_update d (before ++ (f, increment n) :: after)%list w
      = (Ok tt, set_table (ref_collection d)
                  (map (fun r => if has_id (ref_id d) r then row else r)
                       (tables w (ref_collection d))) w)
    /\ obj_get f row = VNum (number_or0 (obj_get f cur) + n)
    /\ forall k, ~ In k (map fst (before ++ (f, increment n) :: after)%list) ->
                 obj_get k row = obj_get k cur.
Proof.
  intros Hr Hrows Hd Hb Ha.
  destruct (apply_keys_increment f n before after cur Hd Hb Ha)
    as [updated [Hk [Hf Hframe]]].
  exists (obj_merge cur updated). split; [|split].
  - rewrite (doc_update_fetch_reliable d _ cur updated w Hr); auto.
    + now rewrite (update_rows_single w _ _ cur updated Hrows).
    + unfold needs_fetch. rewrite existsb_app. simpl.
      now rewrite orb_true_r.
  - now rewrite obj_get_merge, Hf.
  - intros k Hk'. rewrite obj_get_merge, (Hframe k Hk'), (obj_get_find k cur).
    now destruct (obj_find k cur).
Qed.

(** C8: on a reliable store, for a document [cur] and an undotted field [f]
    that holds a number or is absent, an update carrying
    [f: increment(n)] replaces the document's row by one whose [f] is the
    current number (0 when absent) plus [n]; and two such updates in a row,
    by [n1] then [n2], leave [f] at the start value plus [n1 + n2]
    (from 5, by 3 and 3: 11). *)
Theorem increment_adds_to_current_number :
  (forall (w : world) (d : docref) (cur before after : object) (f : string) (n : Z),
      reliable w ->
      rows_with_id w (ref_collection d) (ref_id d) = [cur] ->
      (forall k, In k (map fst (before ++ (f, increment n) :: after)%list) ->
                 has_dot k = false) ->
      ~ In f (map fst before) -> ~ In f (map fst after) ->
      obj_get f cur = VNull \/ (exists m, obj_get f cur = VNum m) ->
      exists row,
        doc_update d (before ++ (f, increment n) :: after)%list w
          = (Ok tt, set_table (ref_collection d)
                      (map (fun r => if has_id (ref_id d) r then row else r)
                           (tables w (ref_collection d))) w)
        /\ obj_get f row = VNum (as_num (obj_get f cur) + n))
  /\
  (forall (w : world) (d : docref) (cur : object) (f : string) (n1 n2 : Z),
      reliable w ->
      rows_with_id w (ref_collection d) (ref_id d) = [cur] ->
      has_dot f = false -> f <> "id" ->
      obj_get f cur = VNull \/ (exists m, obj_get f cur = VNum m) ->
      exists row,
        fst (doc_update d [(f, increment n1)] w) = Ok tt
        /\ fst (doc_update d [(f, increment n2)]
                  (snd (doc_update d [(f, increment n1)] w))) = Ok tt
        /\ rows_with_id
             (snd (doc_update d [(f, increment n2)]
                     (snd (doc_update d [(f, increment n1)] w))))
             (ref_collection d) (ref_id d) = [row]
        /\ obj_get f row = VNum (as_num (obj_get f cur) + n1 + n2)).
Proof.
  assert (Hnum : forall v, v = VNull \/ (exists m, v = VNum m) -> number_or0 v = as_num v).
  { intros v [->|[m ->]]; reflexivity. }
  split.
  - intros w d cur before after f n Hr Hrows Hd Hb Ha Hcur.
    destruct (doc_update_increment w d cur before after f n Hr Hrows Hd Hb Ha)
      as [row [Hrun [Hf _]]].
    exists row. split; [exact Hrun|]. now rewrite Hf, (Hnum _ Hcur).
  - intros w d cur f n1 n2 Hr Hrows Hdot Hid Hcur.
    assert (Hd : forall n k, In k (map fst ([] ++ (f, increment n) :: [])%list) ->
                             has_dot k = false).
    { intros n k [<-|[]]. exact Hdot. }
    destruct (doc_update_increment w d cur [] [] f n1 Hr Hrows (Hd n1)
                (fun H => H) (fun H => H)) as [row1 [Hrun1 [Hf1 Hfr1]]].
    simpl app in Hrun1. rewrite Hrun1. cbn [fst snd].
    set (w1 := set_table _ _ w) in *.
    assert (Hid1 : has_id (ref_id d) row1 = true).
    { unfold has_id. rewrite Hfr1.
      - apply (rows_with_id_in w _ _ cur Hrows).
      - simpl. intros [H|[]]. now apply Hid. }
    assert (Hrows1 : rows_with_id w1 (ref_collection d) (ref_id d) = [row1]).
    { unfold rows_with_id, w1. rewrite tables_set_table_eq.
      now apply filter_replace_single with (cur := cur). }
    destruct (doc_update_increment w1 d row1 [] [] f n2 Hr Hrows1 (Hd n2)
                (fun H => H) (fun H => H)) as [row2 [Hrun2 [Hf2 Hfr2]]].
    simpl app in Hrun2. rewrite Hrun2. cbn [fst snd].
    exists row2. repeat split.
    + unfold rows_with_id. rewrite tables_set_table_eq.
      apply filter_replace_single with (cur := row1); [exact Hrows1|].
      unfold has_id. rewrite Hfr2.
      * exact Hid1.
      * simpl. intros [H|[]]. now apply Hid.
    + rewrite Hf2, Hf1. rewrite (Hnum _ Hcur). simpl. f_equal; lia.
Qed.

(** From [f = 5], [increment(3)] twice: [f = 11]. *)
Lemma increment_adds_to_current_number_witness :
  exists row,
    fst (doc_update (mkRef "counters" "c1") [("f", increment 3)] world_counter) = Ok tt
    /\ fst (doc_update (mkRef "counters" "c1") [("f", increment 3)]
              (snd (doc_update (mkRef "counters" "c1") [("f", increment 3)]
                      world_counter))) = Ok tt
    /\ rows_with_id
         (snd (doc_update (mkRef "counters" "c1") [("f", increment 3)]
                 (snd (doc_update (mkRef "counters" "c1") [("f", increment 3)]
                         world_counter))))
         "counters" "c1" = [row]
    /\ obj_get "f" row = VNum 11.
Proof.
  apply (proj2 increment_adds_to_current_number world_counter
           (mkRef "counters" "c1") [("id", VStr "c1"); ("f", VNum 5)] "f" 3 3).
  - reflexivity.
  - reflexivity.
  - reflexivity.
  - discriminate.
  - right. exists 5. reflexivity.
Defined.

(* ------------------------------------------------------------------ *)
(** ** Recalculation of a user's aggregates *)

Lemma doc_ok (col id : string) (w : world) :
  col <> "" -> id <> "" -> doc col id w = (Ok (mkRef col id), w).
Proof.
  intros Hc Hi. unfold doc.
  destruct (col =? "")%string eqn:E1; [apply String.eqb_eq in E1; contradiction|].
  destruct (id =? "")%string eqn:E2; [apply String.eqb_eq in E2; contradiction|].
  reflexivity.
Qed.

Lemma doc_empty_id (col : string) (w : world) :
  doc col "" w = (Throw (JsError "Invalid doc usage"), w).
Proof. unfold doc. simpl. now rewrite andb_false_r. Qed.

Lemma fold_left_sum {A} (g : A -> Z) (l : list A) (a : Z) :
  fold_left (fun acc d => acc + g d) l a = a + fold_right Z.add 0 (map g l).
Proof.
  revert a. induction l as [|x l IH]; intros a; simpl; [lia|].
  rewrite IH. lia.
Qed.

Lemma fold_left_sum_if {A} (p : A -> bool) (g : A -> Z) (l : list A) (a : Z) :
  fold_left (fun acc d => if p d then acc + g d else acc) l a
  = a + fold_right Z.add 0 (map g (filter p l)).
Proof.
  revert a. induction l as [|x l IH]; intros a; simpl; [lia|].
  rewrite IH. destruct (p x); simpl; lia.
Qed.

Lemma filter_filter {A} (p q : A -> bool) (l : list A) :
  filter p (filter q l) = filter (fun x => q x && p x) l.
Proof.
  induction l as [|x l IH]; [reflexivity|]. simpl.
  destruct (q x); simpl; [destruct (p x)|]; now rewrite IH.
Qed.

Lemma orders_query_filter (U : string) (t : table) :
  filter (filters_hold
            (build_filters [where_ "userId" "==" (VStr U);
                            where_ "status" "in" (VArr activeStatuses)])) t
  = filter (active_order_of U) t.
Proof.
  apply filter_ext. intros o. unfold active_order_of. simpl.
  now rewrite !andb_true_r.
Qed.

(** The query of the temporary orders compares [parentInvoiceId] with
    [null]: it answers no row, whatever the table holds. *)
Lemma temp_query_empty (U : string) (t : table) :
  filter (filters_hold
            (build_filters [where_ "assignedUserId" "==" (VStr U);
                            where_ "parentInvoiceId" "==" VNull])) t
  = [].
Proof.
  induction t as [|r t IH]; [reflexivity|]. cbn [filter]. rewrite IH.
  cbn [build_filters where_ cond_op cond_field cond_value String.eqb Ascii.eqb
       Bool.eqb filters_hold forallb filter_holds column_eqb].
  now rewrite andb_false_r.
Qed.

(** What the recalculation does on a reliable store: the debt that it
    stores is that of the orders alone. *)
Lemma recalculateUserStats_reliable (U : string) (w : world) :
  reliable w -> U <> "" ->
  recalculateUserStats U w
  = (Ok tt,
     set_table USERS_COLLECTION
       (update_rows U [("debt", VNum (orders_debt w U));
                       ("orderCount", VNum (spec_orderCount w U))]
                    (tables w USERS_COLLECTION)) w).
Proof.
  intros Hr HU. unfold recalculateUserStats, try_catch.
  rewrite (bind_ok _ (doc_ok USERS_COLLECTION U w ltac:(discriminate) HU)).
  unfold getDocs, query.
  rewrite (bind_ok _ (adapter_query_reliable _ _ w Hr)).
  rewrite (bind_ok _ (adapter_query_reliable _ _ w Hr)).
  unfold updateDoc. rewrite doc_update_plain_reliable by (auto; reflexivity).
  cbn [ref_collection ref_id].
  rewrite temp_query_empty, orders_query_filter. cbn [fold_left].
  rewrite fold_left_sum. reflexivity.
Qed.

Lemma obj_merge_fixed (d part o : object) :
  (forall k, In k (map fst part) -> obj_find k o = Some (obj_get k d)) ->
  fold_left (fun acc kv => obj_set (fst kv) (obj_get (fst kv) d) acc) part o = o.
Proof.
  induction part as [|[k v] part IH]; intros H; [reflexivity|].
  simpl. rewrite obj_set_same by (apply H; now left).
  apply IH. intros k' Hk'. apply H. now right.
Qed.

Lemma obj_merge_idem (o d : object) :
  obj_merge (obj_merge o d) d = obj_merge o d.
Proof.
  unfold obj_merge at 1. apply obj_merge_fixed. intros k Hk.
  rewrite obj_find_merge, (obj_get_find k d).
  destruct (obj_find_in_keys k d Hk) as [v Hv]. now rewrite Hv.
Qed.

Lemma update_rows_idem (id : string) (d : object) (t : table) :
  obj_find "id" d = None ->
  update_rows id d (update_rows id d t) = update_rows id d t.
Proof.
  intros Hd. unfold update_rows. rewrite map_map. apply map_ext. intros r.
  destruct (has_id id r) eqn:E.
  - rewrite (has_id_merge_keeps id r d (or_introl Hd)), E. apply obj_merge_idem.
  - now rewrite E.
Qed.

Lemma rows_with_id_update (w : world) (c id : string) (d : object) :
  obj_find "id" d = None ->
  rows_with_id (set_table c (update_rows id d (tables w c)) w) c id
  = map (fun r => obj_merge r d) (rows_with_id w c id).
Proof.
  intros Hd. unfold rows_with_id. rewrite tables_set_table_eq.
  rewrite filter_update_rows
    by (intros r; apply (has_id_merge_keeps id r d (or_introl Hd))).
  apply map_ext_in. intros r Hr. apply filter_In in Hr. now rewrite (proj2 Hr).
Qed.

Lemma active_statuses_are_all_but_cancelled (s : OrderStatus) :
  In (VStr (status_name s)) activeStatuses <-> s <> cancelled.
Proof.
  split.
  - intros Hin ->. simpl in Hin.
    repeat (destruct Hin as [Hin|Hin]; [discriminate Hin|]). exact Hin.
  - intros Hs. destruct s; simpl; tauto.
Qed.

Lemma spec_totals_ext (w1 w2 : world) (U : string) :
  (forall c, tables w1 c = tables w2 c) ->
  orders_debt w1 U = orders_debt w2 U /\ spec_orderCount w1 U = spec_orderCount w2 U.
Proof.
  intros H. unfold orders_debt, spec_orderCount. now rewrite !H.
Qed.

(** From a state that a recalculation would leave as it is, further
    recalculations change no table. *)
Lemma recalculated_stable (n : nat) (U : string) (w1 : world) :
  reliable w1 -> U <> "" ->
  update_rows U [("debt", VNum (orders_debt w1 U));
                 ("orderCount", VNum (spec_orderCount w1 U))]
              (tables w1 USERS_COLLECTION)
  = tables w1 USERS_COLLECTION ->
  reliable (recalculated n U w1)
  /\ forall c, tables (recalculated n U w1) c = tables w1 c.
Proof.
  intros Hr HU Hfix. induction n as [|n [IHr IH]]; [now split|].
  cbn [recalculated].
  rewrite (recalculateUserStats_reliable U _ IHr HU). cbn [snd].
  split; [exact IHr|]. intros c.
  destruct (spec_totals_ext (recalculated n U w1) w1 U IH) as [-> ->].
  destruct (String.eqb_spec c USERS_COLLECTION) as [->|Hc].
  - now rewrite tables_set_table_eq, IH.
  - rewrite tables_set_table_neq by exact Hc. apply IH.
Qed.

(** On a reliable store, for a user [U] (a row of the users table),
    [recalculateUserStats U] completes and leaves in the user's row a [debt]
    equal to the sum of [remainingAmount] over U's orders with an active
    status, and an [orderCount] equal to the number of these orders; every
    further run completes too and leaves every table as the first run left
    it; the active statuses are all the statuses but [cancelled]. *)
Lemma recalculation_stores_the_orders_alone :
  forall (w : world) (U : string) (user : object),
    reliable w -> U <> "" ->
    rows_with_id w USERS_COLLECTION U = [user] ->
    let once := snd (recalculateUserStats U w) in
    fst (recalculateUserStats U w) = Ok tt
    /\ (exists user',
          rows_with_id once USERS_COLLECTION U = [user']
          /\ obj_get "debt" user' = VNum (orders_debt once U)
          /\ obj_get "orderCount" user' = VNum (spec_orderCount once U))
    /\ (forall n : nat,
          fst (recalculateUserStats U (recalculated n U once)) = Ok tt
          /\ forall c, tables (recalculated n U once) c = tables once c)
    /\ (forall s : OrderStatus,
          In (VStr (status_name s)) activeStatuses <-> s <> cancelled).
Proof.
  intros w U user Hr HU Hrows once.
  assert (Hsd : orders_debt once U = orders_debt w U
                /\ spec_orderCount once U = spec_orderCount w U).
  { unfold once. rewrite (recalculateUserStats_reliable U w Hr HU). now cbn. }
  destruct Hsd as [Hsd Hsc].
  split; [now rewrite (recalculateUserStats_reliable U w Hr HU)|].
  split; [|split].
  - exists (obj_merge user [("debt", VNum (orders_debt w U));
                            ("orderCount", VNum (spec_orderCount w U))]).
    rewrite Hsd, Hsc. unfold once.
    rewrite (recalculateUserStats_reliable U w Hr HU). cbn [snd].
    rewrite rows_with_id_update by reflexivity. rewrite Hrows.
    repeat split; now rewrite obj_get_merge.
  - intros n.
    assert (H : reliable (recalculated n U once)
                /\ forall c, tables (recalculated n U once) c = tables once c).
    { apply recalculated_stable; [|exact HU|].
      - unfold once. now rewrite (recalculateUserStats_reliable U w Hr HU).
      - rewrite Hsd, Hsc. unfold once.
        rewrite (recalculateUserStats_reliable U w Hr HU). cbn [snd].
        rewrite tables_set_table_eq. now apply update_rows_idem. }
    destruct H as [Hrn Htn].
    split; [now rewrite (recalculateUserStats_reliable U _ Hrn HU)|exact Htn].
  - apply active_statuses_are_all_but_cancelled.
Qed.

(** The stored debt is the debt of the specification only for a user
    whose unconverted temporary orders have nothing left to pay. *)
Lemma recalculation_misses_the_temporary_orders :
  forall (w : world) (U : string) (user : object),
    reliable w -> U <> "" ->
    rows_with_id w USERS_COLLECTION U = [user] ->
    sum_remaining (filter (counted_temp_order_of U) (tables w TEMP_ORDERS_COLLECTION))
    <> 0 ->
    forall user',
      rows_with_id (snd (recalculateUserStats U w)) USERS_COLLECTION U = [user'] ->
      obj_get "debt" user' <> VNum (spec_debt (snd (recalculateUserStats U w)) U).
Proof.
  intros w U user Hr HU Hrows Htemp user' Hrows' Hdebt.
  rewrite (recalculateUserStats_reliable U w Hr HU) in Hrows', Hdebt.
  cbn [snd] in Hrows', Hdebt.
  rewrite rows_with_id_update in Hrows' by reflexivity. rewrite Hrows in Hrows'.
  injection Hrows' as <-. rewrite obj_get_merge in Hdebt. cbn in Hdebt.
  injection Hdebt as Hdebt. unfold spec_debt, orders_debt in Hdebt.
  rewrite !tables_set_table_neq in Hdebt by discriminate. lia.
Qed.

(** C1 does not hold of the code.  The sample user has one active order
    (800 left), a cancelled order, an unconverted temporary order (60 left)
    and a converted one; the debt of the claim is 860.  The run completes
    and stores 800: the query of the temporary orders, which compares
    [parentInvoiceId] with [null], answers no row.  The order count, 1, is
    the one of the claim. *)
Theorem recalculation_omits_temporary_orders :
  fst (recalculateUserStats "u1" world_user) = Ok tt
  /\ map (obj_get "debt")
         (rows_with_id (snd (recalculateUserStats "u1" world_user))
                       USERS_COLLECTION "u1") = [VNum 800]
  /\ map (obj_get "orderCount")
         (rows_with_id (snd (recalculateUserStats "u1" world_user))
                       USERS_COLLECTION "u1") = [VNum 1]
  /\ spec_debt (snd (recalculateUserStats "u1" world_user)) "u1" = 860
  /\ spec_orderCount (snd (recalculateUserStats "u1" world_user)) "u1" = 1.
Proof. repeat split; reflexivity. Qed.

(** When the store fails the query of the user's orders, the shim answers
    an empty snapshot and the recalculation, which completes, stores a debt
    of 0 where the orders ask for 800. *)
Example recalculation_after_failed_query :
  fst (recalculateUserStats "u1" world_user_failing_query) = Ok tt
  /\ map (obj_get "debt")
         (rows_with_id (snd (recalculateUserStats "u1" world_user_failing_query))
                       USERS_COLLECTION "u1") = [VNum 0].
Proof. split; reflexivity. Qed.

(* ------------------------------------------------------------------ *)
(** ** Reading a user *)

(** C10: for an existing user on a reliable store, [getUserById] first
    recalculates: the state it leaves is the state the recalculation leaves;
    the user's row carries the [debt] and the [orderCount] that the
    recalculation computes from the user's active orders, and keeps every
    other field; the other rows and the other tables are untouched;
    the answer is the refreshed row.  And the call can change the stored
    row: on the sample state the stored debt goes from 0 to 800. *)
Theorem getUserById_writes_debt_and_count :
  (forall (w : world) (U : string) (user : object),
      reliable w -> U <> "" ->
      rows_with_id w USERS_COLLECTION U = [user] ->
      exists user',
        snd (getUserById U w) = snd (recalculateUserStats U w)
        /\ fst (getUserById U w) = Ok (Some (obj_merge [("id", VStr U)] user'))
        /\ tables (snd (getUserById U w)) USERS_COLLECTION
           = map (fun r => if has_id U r then user' else r) (tables w USERS_COLLECTION)
        /\ (forall c, c <> USERS_COLLECTION ->
                      tables (snd (getUserById U w)) c = tables w c)
        /\ obj_get "debt" user' = VNum (orders_debt w U)
        /\ obj_get "orderCount" user' = VNum (spec_orderCount w U)
        /\ (forall k, k <> "debt" -> k <> "orderCount" ->
                      obj_get k user' = obj_get k user))
  /\ (exists (w : world) (U : string),
        rows_with_id (snd (getUserById U w)) USERS_COLLECTION U
        <> rows_with_id w USERS_COLLECTION U).
Proof.
  split.
  - intros w U user Hr HU Hrows.
    set (data := [("debt", VNum (orders_debt w U));
                  ("orderCount", VNum (spec_orderCount w U))]).
    assert (Hrun : getUserById U w
                   = (Ok (Some (obj_merge [("id", VStr U)] (obj_merge user data))),
                      snd (recalculateUserStats U w))).
    { unfold getUserById, try_catch.
      rewrite (recalculateUserStats_reliable U w Hr HU). cbn [snd].
      rewrite (bind_ok _ (recalculateUserStats_reliable U w Hr HU)).
      fold data.
      set (w1 := set_table _ _ w).
      rewrite (bind_ok _ (doc_ok USERS_COLLECTION U w1 ltac:(discriminate) HU)).
      unfold getDoc.
      rewrite (bind_ok _ (doc_get_reliable _ w1 Hr)). cbn [ref_collection ref_id].
      unfold w1. rewrite rows_with_id_update by reflexivity. now rewrite Hrows. }
    exists (obj_merge user data). rewrite Hrun. cbn [fst snd].
    rewrite (recalculateUserStats_reliable U w Hr HU). cbn [snd]. fold data.
    repeat split.
    + rewrite tables_set_table_eq.
      now apply (update_rows_single w USERS_COLLECTION U user data).
    + intros c Hc. now apply tables_set_table_neq.
    + now rewrite obj_get_merge.
    + now rewrite obj_get_merge.
    + intros k Hd Hc. rewrite obj_get_merge. simpl.
      destruct (String.eqb_spec k "debt"); [contradiction|].
      destruct (String.eqb_spec k "orderCount"); [contradiction|]. reflexivity.
  - exists world_user, "u1". vm_compute. discriminate.
Qed.

Lemma getUserById_writes_debt_and_count_witness :
  exists user',
    snd (getUserById "u1" world_user) = snd (recalculateUserStats "u1" world_user)
    /\ fst (getUserById "u1" world_user) = Ok (Some (obj_merge [("id", VStr "u1")] user'))
    /\ tables (snd (getUserById "u1" world_user)) USERS_COLLECTION
       = map (fun r => if has_id "u1" r then user' else r)
             (tables world_user USERS_COLLECTION)
    /\ (forall c, c <> USERS_COLLECTION ->
                  tables (snd (getUserById "u1" world_user)) c = tables world_user c)
    /\ obj_get "debt" user' = VNum 800
    /\ obj_get "orderCount" user' = VNum 1
    /\ (forall k, k <> "debt" -> k <> "orderCount" ->
                  obj_get k user'
                  = obj_get k [("id", VStr "u1"); ("name", VStr "Salem");
                               ("username", VStr "salem"); ("phone", VStr "0910000000");
                               ("debt", VNum 0); ("orderCount", VNum 0);
                               ("orderCounter", VNum 2)]).
Proof.
  exact (proj1 getUserById_writes_debt_and_count world_user "u1"
           [("id", VStr "u1"); ("name", VStr "Salem"); ("username", VStr "salem");
            ("phone", VStr "0910000000"); ("debt", VNum 0); ("orderCount", VNum 0);
            ("orderCounter", VNum 2)]
           eq_refl ltac:(discriminate) eq_refl).
Defined.

(* ------------------------------------------------------------------ *)
(** ** The boundary of the exported actions *)

(** C5, as the specification words it, does not hold.  [recalculateUserStats]
    is exported and rethrows from its catch block: when the store fails the
    final update, the error reaches the caller.  And [updateCreditor] has no
    try/catch at all: a failed update is thrown to the caller. *)
Lemma exported_actions_can_throw :
  fst (recalculateUserStats "u1" world_user_failing_update) = Throw StoreError
  /\ fst (updateCreditor "c1" [("name", VStr "Omar")] world_failing) = Throw StoreError.
Proof. split; reflexivity. Qed.

(** The handle is built before the [try] in four actions. *)
Example addCustomerShippingCost_empty_id_throws :
  fst (addCustomerShippingCost "" 5 world_one_order)
  = Throw (JsError "Invalid doc usage").
Proof. reflexivity. Qed.

Lemma guarded_never_throws {A} (body : M A) (sentinel : A) :
  never_throws (try_catch body (fun _ => ret sentinel)).
Proof. intros w. apply try_catch_total. Qed.

Lemma after_doc_never_throws {A} (col id : string) (k : docref -> M A) :
  col <> "" -> id <> "" ->
  (forall ref, never_throws (k ref)) ->
  never_throws (bind (doc col id) k).
Proof.
  intros Hc Hi Hk w. rewrite (bind_ok _ (doc_ok col id w Hc Hi)). apply Hk.
Qed.

Lemma collection_getDocs_never_throws (c : string) :
  never_throws (collection_getDocs c).
Proof.
  intros w. unfold collection_getDocs, bind.
  destruct (sb_select_never_throws c [] w) as [res Hres].
  destruct (sb_select c [] w) as [[r|e] w']; simpl in Hres; [|discriminate].
  destruct r; simpl; eauto.
Qed.

(** C5 (amended): at the boundary [try { body } catch { return sentinel }]
    the value of a body that returns is passed on, a body that throws is
    answered by the sentinel, and the state is in both cases the one the
    body left.  The exported actions whose body lies inside such a
    try/catch never throw, on any state and any schedule of store errors;
    the four actions that build their document handle before the [try]
    never throw when the identifier is not empty; [getCreditors] never
    throws because the collection read answers an empty snapshot on
    error. *)
Theorem guarded_actions_never_throw :
  (forall (A : Type) (body : M A) (sentinel : A) (w : world),
      match body w with
      | (Ok a, w') => try_catch body (fun _ => ret sentinel) w = (Ok a, w')
      | (Throw _, w') => try_catch body (fun _ => ret sentinel) w = (Ok sentinel, w')
      end)
  /\ never_throws getAppSettings
  /\ (forall userId, never_throws (getUserById userId))
  /\ (forall orderData, never_throws (addOrder orderData))
  /\ (forall orderId rep, never_throws (assignRepresentativeToOrder orderId rep))
  /\ (forall orderId, never_throws (unassignRepresentativeFromOrder orderId))
  /\ (forall orderId, never_throws (deleteOrder orderId))
  /\ (forall orderIds rep, never_throws (bulkAssignRepresentative orderIds rep))
  /\ (forall time, never_throws (getTempOrders time))
  /\ (forall transactionData, never_throws (addTransaction transactionData))
  /\ never_throws getCreditors
  /\ (forall orderId cost,
        orderId <> "" -> never_throws (addCustomerShippingCost orderId cost))
  /\ (forall orderId weight a b,
        orderId <> "" -> never_throws (setCustomerWeightDetails orderId weight a b))
  /\ (forall transactionId newAmount,
        transactionId <> "" -> never_throws (updateTransaction transactionId newAmount))
  /\ (forall transactionId,
        transactionId <> "" -> never_throws (deleteTransaction transactionId)).
Proof.
  split.
  { intros A body sentinel w. unfold try_catch.
    destruct (body w) as [[a|e] w']; reflexivity. }
  repeat split; intros; try (apply guarded_never_throws).
  - unfold bulkAssignRepresentative.
    destruct (_ =? _)%nat; [intros w; now exists true|apply guarded_never_throws].
  - intros w. unfold getCreditors.
    destruct (collection_getDocs_never_throws CREDITORS_COLLECTION w) as [rows Hrows].
    unfold getDocs, collection, bind.
    destruct (collection_getDocs CREDITORS_COLLECTION w) as [[r|e] w'];
      simpl in Hrows; [|discriminate]. simpl. eauto.
  - unfold addCustomerShippingCost.
    destruct (_ <? _); [intros w; now exists false|].
    apply after_doc_never_throws; [discriminate|assumption|].
    intros ref. apply guarded_never_throws.
  - unfold setCustomerWeightDetails.
    destruct (_ <? _); [intros w; now exists false|].
    apply after_doc_never_throws; [discriminate|assumption|].
    intros ref. apply guarded_never_throws.
  - unfold updateTransaction.
    apply after_doc_never_throws; [discriminate|assumption|].
    intros ref. apply guarded_never_throws.
  - unfold deleteTransaction.
    apply after_doc_never_throws; [discriminate|assumption|].
    intros ref. apply guarded_never_throws.
Qed.

(** On a store whose next request fails, with a non-empty identifier. *)
Lemma guarded_actions_never_throw_witness :
  "o1" <> ""
  /\ exists a, fst (addCustomerShippingCost "o1" 5 world_failing) = Ok a.
Proof.
  split; [discriminate|].
  apply (proj1 (proj2 (proj2 (proj2 (proj2 (proj2 (proj2 (proj2 (proj2
           (proj2 (proj2 (proj2 guarded_actions_never_throw)))))))))))
           "o1" 5 ltac:(discriminate) world_failing).
Defined.

(* ------------------------------------------------------------------ *)
(** ** Stepping through the actions on a reliable store *)

Lemma detach_run (m : M unit) (w : world) :
  detach m w = (Ok tt, snd (m w)).
Proof. reflexivity. Qed.

Lemma reliable_tick (w : world) : reliable w -> reliable (tick w).
Proof. exact (fun H => H). Qed.

Lemma upsert_row_fresh (id : string) (payload : object) (t : table) :
  obj_get "id" payload = VStr id ->
  filter (has_id id) t = [] ->
  upsert_row payload t = (t ++ [payload])%list.
Proof.
  intros Hid Hf. unfold upsert_row. rewrite Hid.
  assert (E : existsb (fun r => strict_eqb (obj_get "id" r) (VStr id)) t = false).
  { induction t as [|r t IH]; [reflexivity|]. simpl in *.
    unfold has_id in Hf at 1. destruct (strict_eqb (obj_get "id" r) (VStr id));
      [discriminate|]. simpl. now apply IH. }
  now rewrite E.
Qed.

Lemma getAppSettings_reliable (w : world) :
  reliable w ->
  getAppSettings w = (Ok (fst (settings_read w)), snd (settings_read w)).
Proof.
  intros Hr. unfold getAppSettings, try_catch, settings_read.
  rewrite (bind_ok _ (doc_ok SETTINGS_COLLECTION "main" w
                        ltac:(discriminate) ltac:(discriminate))).
  unfold getDoc. rewrite (bind_ok _ (doc_get_reliable _ w Hr)).
  cbn [ref_collection ref_id].
  destruct (rows_with_id w SETTINGS_COLLECTION "main") as [|r [|r' l]];
    try reflexivity;
    unfold setDoc; now rewrite (bind_ok _ (doc_set_reliable _ _ _ w Hr)).
Qed.

Lemma settings_read_frame (w : world) :
  reliable w ->
  reliable (snd (settings_read w))
  /\ (forall c, c <> SETTINGS_COLLECTION ->
                tables (snd (settings_read w)) c = tables w c)
  /\ ticks (snd (settings_read w)) = ticks w
  /\ entropy (snd (settings_read w)) = entropy w
  /\ clock (snd (settings_read w)) = clock w.
Proof.
  intros Hr. unfold settings_read.
  destruct (rows_with_id w SETTINGS_COLLECTION "main") as [|r [|r' l]];
    cbn [snd]; repeat split; auto; intros c Hc; now apply tables_set_table_neq.
Qed.

Lemma bind_assoc_run {A B C} (m : M A) (k1 : A -> M B) (k2 : B -> M C) (w : world) :
  bind (bind m k1) k2 w = bind m (fun a => bind (k1 a) k2) w.
Proof. unfold bind. destruct (m w) as [[a|e] w']; reflexivity. Qed.

Lemma doc_auto_run (c : string) (w : world) :
  doc_auto c w = (Ok (mkRef c (substring 2 13 (entropy w (ticks w)))), tick w).
Proof. reflexivity. Qed.

(** The tracking identifier of [addOrder] and the state after drawing it. *)
Lemma tracking_run (orderData : object) (w1 : world) :
  exists tr,
    (if truthy (obj_get "trackingId" orderData)
     then ret (obj_get "trackingId" orderData)
     else r <- random_base36 ;; ret (VStr (toUpperCase (substring 2 8 r)))) w1
    = (Ok tr, if truthy (obj_get "trackingId" orderData) then w1 else tick w1).
Proof. destruct (truthy _); eexists; reflexivity. Qed.

Lemma has_down_payment_final (orderData user settings : object) (tr : value) :
  has_down_payment (final_order_data orderData user settings tr)
  = (0 <? num_or0 "downPaymentLYD" orderData).
Proof.
  unfold has_down_payment, final_order_data, num_or0, get_num.
  rewrite obj_get_merge. cbn [obj_find String.eqb Ascii.eqb Bool.eqb].
  destruct (obj_get "downPaymentLYD" orderData) as [|b|n|s|xs|o]; simpl;
    try reflexivity; try (now rewrite andb_false_r).
  destruct (0 <? n) eqn:E; [|now rewrite andb_false_r].
  apply Z.ltb_lt in E. destruct (n =? 0) eqn:E0; [|reflexivity].
  apply Z.eqb_eq in E0. lia.
Qed.

Lemma obj_get_merge_id (k : string) (v : value) (o : object) :
  k <> "id" -> obj_get k (obj_merge [("id", v)] o) = obj_get k o.
Proof.
  intros Hk. rewrite obj_get_merge, (obj_get_find k o).
  destruct (obj_find k o); [reflexivity|]. simpl.
  destruct (String.eqb_spec k "id"); [contradiction|reflexivity].
Qed.

Lemma filter_app_single (id : string) (row : object) (t : table) :
  filter (has_id id) t = [] -> has_id id row = true ->
  filter (has_id id) (t ++ [row])%list = [row].
Proof. intros Hf Hrow. rewrite filter_app, Hf. simpl. now rewrite Hrow. Qed.


Lemma ret_run {A} (a : A) (w : world) : ret a w = (Ok a, w).
Proof. reflexivity. Qed.

Lemma tables_tick (w : world) (c : string) : tables (tick w) c = tables w c.
Proof. reflexivity. Qed.

Lemma doc_set_fresh (c id : string) (data : object) (merge : bool) (w : world) :
  reliable w ->
  rows_with_id w c id = [] ->
  doc_set (mkRef c id) data merge w
  = (Ok tt, set_table c (tables w c ++ [obj_set "id" (VStr id) data])%list w).
Proof.
  intros Hr Hf. rewrite (doc_set_reliable _ _ _ w Hr). cbn [ref_collection ref_id].
  rewrite (upsert_row_fresh id); auto. apply obj_get_set_eq.
Qed.

Lemma addOrder_effect (w : world) (orderData user : object) :
  let U := as_id (obj_get "userId" orderData) in
  let oid := addOrder_order_id w orderData in
  let tid1 := addOrder_order_tx_id w orderData in
  let tid2 := addOrder_payment_tx_id w orderData in
  reliable w -> U <> "" ->
  rows_with_id w USERS_COLLECTION U = [user] ->
  rows_with_id w ORDERS_COLLECTION oid = [] ->
  rows_with_id w TRANSACTIONS_COLLECTION tid1 = [] ->
  rows_with_id w TRANSACTIONS_COLLECTION tid2 = [] ->
  tid1 <> tid2 ->
  exists order orderTx payTx user1 debt count w',
    addOrder orderData w = (Ok (Some (obj_merge [("id", VStr oid)] order)), w')
    /\ reliable w'
    /\ tables w' ORDERS_COLLECTION = (tables w ORDERS_COLLECTION ++ [order])%list
    /\ tables w' TRANSACTIONS_COLLECTION
       = (tables w TRANSACTIONS_COLLECTION
          ++ orderTx :: (if 0 <? num_or0 "downPaymentLYD" orderData
                         then [payTx] else []))%list
    /\ tables w' USERS_COLLECTION
       = update_rows U [("debt", VNum debt); ("orderCount", VNum count)]
           (map (fun r => if has_id U r then user1 else r)
                (tables w USERS_COLLECTION))
    /\ (forall c, c <> ORDERS_COLLECTION -> c <> TRANSACTIONS_COLLECTION ->
                  c <> USERS_COLLECTION -> c <> SETTINGS_COLLECTION ->
                  tables w' c = tables w c)
    /\ (obj_get "id" order = VStr oid
        /\ obj_get "userId" order = obj_get "userId" orderData
        /\ obj_get "sellingPriceLYD" order = obj_get "sellingPriceLYD" orderData
        /\ obj_get "remainingAmount" order
           = VNum (num_or0 "sellingPriceLYD" orderData
                   - num_or0 "downPaymentLYD" orderData))
    /\ (obj_get "id" orderTx = VStr tid1
        /\ obj_get "orderId" orderTx = VStr oid
        /\ obj_get "type" orderTx = VStr "order"
        /\ obj_get "amount" orderTx = obj_get "sellingPriceLYD" orderData)
    /\ (obj_get "id" payTx = VStr tid2
        /\ obj_get "orderId" payTx = VStr oid
        /\ obj_get "type" payTx = VStr "payment"
        /\ obj_get "amount" payTx = obj_get "downPaymentLYD" orderData)
    /\ (obj_get "orderCounter" user1
        = VNum (number_or0 (obj_get "orderCounter" user) + 1)
        /\ forall k, k <> "orderCounter" -> obj_get k user1 = obj_get k user).
Proof.
  intros U oid tid1 tid2 Hr HU Huser Hoid Htid1 Htid2 Hne.
  destruct (settings_read_frame w Hr) as [Hr1 [Ht1 [Htk1 [Hen1 Hcl1]]]].
  unfold addOrder, try_catch, runTransaction. fold U.
  rewrite bind_assoc_run.
  rewrite (bind_ok _ (doc_ok USERS_COLLECTION U w ltac:(discriminate) HU)).
  rewrite bind_assoc_run. cbn [tx_get tx_set tx_update the_transaction].
  rewrite (bind_ok _ (doc_get_reliable _ w Hr)). cbn [ref_collection ref_id].
  rewrite Huser.
  rewrite bind_assoc_run.
  rewrite (bind_ok _ (getAppSettings_reliable w Hr)).
  rewrite bind_assoc_run.
  destruct (tracking_run orderData (snd (settings_read w))) as [tr Htr].
  rewrite (bind_ok _ Htr). clear Htr.
  set (settings := fst (settings_read w)).
  set (w2 := if truthy (obj_get "trackingId" orderData)
             then snd (settings_read w) else tick (snd (settings_read w))).
  assert (Hr2 : reliable w2) by (unfold w2; destruct (truthy _); assumption).
  assert (Ht2 : forall c, c <> SETTINGS_COLLECTION -> tables w2 c = tables w c).
  { intros c Hc. unfold w2. destruct (truthy _); now apply Ht1. }
  assert (Hen2 : entropy w2 = entropy w) by (unfold w2; destruct (truthy _); assumption).
  assert (Htk2 : ticks w2 = addOrder_first_draw w orderData).
  { unfold w2, addOrder_first_draw. destruct (truthy _); cbn; now rewrite Htk1. }
  clearbody w2 settings. clear Hr1 Ht1 Htk1 Hen1 Hcl1.
  set (final := final_order_data orderData user settings tr).
  set (order := obj_set "id" (VStr oid) final).
  (* the order *)
  rewrite !bind_assoc_run.
  rewrite (bind_ok _ (doc_auto_run ORDERS_COLLECTION w2)).
  rewrite Hen2, Htk2. fold (addOrder_order_id w orderData). fold oid.
  rewrite !bind_assoc_run.
  rewrite (bind_ok _ (detach_run _ _)).
  rewrite (doc_set_fresh ORDERS_COLLECTION oid final false (tick w2) Hr2)
    by (unfold rows_with_id; rewrite tables_tick, Ht2 by discriminate; exact Hoid).
  cbn [snd]. rewrite tables_tick, Ht2 by discriminate. fold order.
  set (w4 := set_table ORDERS_COLLECTION _ (tick w2)).
  assert (Hr4 : reliable w4) by exact Hr2.
  assert (Ht4o : tables w4 ORDERS_COLLECTION = (tables w ORDERS_COLLECTION ++ [order])%list)
    by (unfold w4; apply tables_set_table_eq).
  assert (Ht4 : forall c, c <> ORDERS_COLLECTION -> c <> SETTINGS_COLLECTION ->
                          tables w4 c = tables w c).
  { intros c Hc1 Hc2. unfold w4. rewrite tables_set_table_neq by assumption.
    rewrite tables_tick. now apply Ht2. }
  assert (Hen4 : entropy w4 = entropy w) by exact Hen2.
  assert (Htk4 : ticks w4 = S (addOrder_first_draw w orderData))
    by (unfold w4; cbn; now rewrite Htk2).
  clearbody w4. clear Hr2 Ht2 Hen2 Htk2 w2.
  (* the order transaction *)
  set (orderTx := obj_set "id" (VStr tid1)
                    (order_transaction (mkRef ORDERS_COLLECTION oid) final
                       (invoice_number user))).
  rewrite ?bind_assoc_run.
  rewrite (bind_ok _ (doc_auto_run TRANSACTIONS_COLLECTION w4)).
  rewrite Hen4, Htk4. fold (addOrder_order_tx_id w orderData). fold tid1.
  rewrite !bind_assoc_run.
  rewrite (bind_ok _ (detach_run _ _)).
  rewrite (doc_set_fresh TRANSACTIONS_COLLECTION tid1 _ false (tick w4) Hr4)
    by (unfold rows_with_id; rewrite tables_tick, Ht4 by discriminate; exact Htid1).
  cbn [snd]. rewrite tables_tick, Ht4 by discriminate. fold orderTx.
  set (w6 := set_table TRANSACTIONS_COLLECTION _ (tick w4)).
  assert (Hr6 : reliable w6) by exact Hr4.
  assert (Ht6t : tables w6 TRANSACTIONS_COLLECTION
                 = (tables w TRANSACTIONS_COLLECTION ++ [orderTx])%list)
    by (unfold w6; apply tables_set_table_eq).
  assert (Ht6o : tables w6 ORDERS_COLLECTION = (tables w ORDERS_COLLECTION ++ [order])%list).
  { unfold w6. rewrite tables_set_table_neq by discriminate. now rewrite tables_tick. }
  assert (Ht6 : forall c, c <> ORDERS_COLLECTION -> c <> TRANSACTIONS_COLLECTION ->
                          c <> SETTINGS_COLLECTION -> tables w6 c = tables w c).
  { intros c Hc1 Hc2 Hc3. unfold w6. rewrite tables_set_table_neq by assumption.
    rewrite tables_tick. now apply Ht4. }
  assert (Hen6 : entropy w6 = entropy w) by exact Hen4.
  assert (Htk6 : ticks w6 = S (S (addOrder_first_draw w orderData)))
    by (unfold w6; cbn; now rewrite Htk4).
  clearbody w6. clear Hr4 Ht4o Ht4 Hen4 Htk4 w4.
  (* the down-payment transaction *)
  set (payTx := obj_set "id" (VStr tid2)
                  (down_payment_transaction (mkRef ORDERS_COLLECTION oid) final
                     (invoice_number user))).
  assert (Hpay : exists w8,
             (if has_down_payment final then
                paymentTransactionRef <- doc_auto TRANSACTIONS_COLLECTION ;;
                detach (doc_set paymentTransactionRef
                          (down_payment_transaction (mkRef ORDERS_COLLECTION oid) final
                             (invoice_number user)) false)
              else ret tt) w6 = (Ok tt, w8)
             /\ reliable w8
             /\ tables w8 TRANSACTIONS_COLLECTION
                = (tables w TRANSACTIONS_COLLECTION
                   ++ orderTx :: (if 0 <? num_or0 "downPaymentLYD" orderData
                                  then [payTx] else []))%list
             /\ tables w8 ORDERS_COLLECTION = (tables w ORDERS_COLLECTION ++ [order])%list
             /\ (forall c, c <> ORDERS_COLLECTION -> c <> TRANSACTIONS_COLLECTION ->
                           c <> SETTINGS_COLLECTION -> tables w8 c = tables w c)).
  { unfold final at 1. rewrite has_down_payment_final. fold final.
    destruct (0 <? num_or0 "downPaymentLYD" orderData).
    - rewrite (bind_ok _ (doc_auto_run TRANSACTIONS_COLLECTION w6)).
      rewrite Hen6, Htk6. fold (addOrder_payment_tx_id w orderData). fold tid2.
      rewrite detach_run.
      rewrite (doc_set_fresh TRANSACTIONS_COLLECTION tid2 _ false (tick w6) Hr6).
      + cbn [snd]. rewrite tables_tick, Ht6t. fold payTx.
        eexists. split; [reflexivity|]. split; [exact Hr6|]. split; [|split].
        * rewrite tables_set_table_eq. now rewrite <- app_assoc.
        * rewrite tables_set_table_neq by discriminate. now rewrite tables_tick.
        * intros c Hc1 Hc2 Hc3. rewrite tables_set_table_neq by assumption.
          rewrite tables_tick. now apply Ht6.
      + unfold rows_with_id. rewrite tables_tick, Ht6t, filter_app.
        fold (rows_with_id w TRANSACTIONS_COLLECTION tid2). rewrite Htid2. simpl.
        unfold has_id, orderTx. rewrite obj_get_set_eq. simpl.
        destruct (String.eqb_spec tid1 tid2); [contradiction|reflexivity].
    - exists w6. split; [reflexivity|]. split; [exact Hr6|]. split; [|split]; auto. }
  destruct Hpay as [w8 [Hrun8 [Hr8 [Ht8t [Ht8o Ht8]]]]].
  rewrite ?bind_assoc_run.
  rewrite (bind_ok _ Hrun8). clear Hrun8.
  clear Hr6 Ht6t Ht6o Ht6 Hen6 Htk6 w6.
  (* the order counter *)
  destruct (doc_update_increment w8 (mkRef USERS_COLLECTION U) user [] []
              "orderCounter" 1 Hr8) as [user1 [Hrun9 [Hc1 Hf1]]].
  { cbn [ref_collection ref_id]. unfold rows_with_id.
    rewrite Ht8 by discriminate. exact Huser. }
  { intros k [<-|[]]. reflexivity. }
  { simpl. tauto. }
  { simpl. tauto. }
  simpl app in Hrun9. cbn [ref_collection ref_id] in Hrun9.
  rewrite ?bind_assoc_run.
  rewrite (bind_ok _ (detach_run _ _)). rewrite Hrun9. cbn [snd]. clear Hrun9.
  rewrite Ht8 by discriminate.
  set (w9 := set_table USERS_COLLECTION _ w8).
  assert (Hr9 : reliable w9) by exact Hr8.
  assert (Ht9o : tables w9 ORDERS_COLLECTION = (tables w ORDERS_COLLECTION ++ [order])%list).
  { unfold w9. now rewrite tables_set_table_neq by discriminate. }
  (* reading the order back, and the recalculation *)
  rewrite (bind_ok _ (ret_run (mkRef ORDERS_COLLECTION oid) w9)).
  unfold getDoc. rewrite (bind_ok _ (doc_get_reliable _ w9 Hr9)).
  cbn [ref_collection ref_id]. unfold rows_with_id at 1. rewrite Ht9o.
  assert (Hido : obj_get "id" order = VStr oid) by apply obj_get_set_eq.
  rewrite (filter_app_single oid order _ Hoid)
    by (unfold has_id; rewrite Hido; simpl; apply String.eqb_refl).
  assert (Huo : obj_get "userId" order = obj_get "userId" orderData).
  { unfold order, final, final_order_data.
    rewrite obj_get_set_neq by discriminate. now rewrite obj_get_merge. }
  rewrite obj_get_merge_id by discriminate. rewrite Huo. fold U.
  rewrite (bind_ok _ (recalculateUserStats_reliable U w9 Hr9 HU)).
  exists order, orderTx, payTx, user1, (orders_debt w9 U), (spec_orderCount w9 U).
  eexists. split; [reflexivity|].
  split; [exact Hr9|]. split; [|split; [|split; [|split]]].
  - rewrite tables_set_table_neq by discriminate. exact Ht9o.
  - rewrite tables_set_table_neq by discriminate. unfold w9.
    rewrite tables_set_table_neq by discriminate. exact Ht8t.
  - rewrite tables_set_table_eq. unfold w9. now rewrite tables_set_table_eq.
  - intros c Hn1 Hn2 Hn3 Hn4. rewrite tables_set_table_neq by assumption.
    unfold w9. rewrite tables_set_table_neq by assumption. now apply Ht8.
  - split; [split; [exact Hido|split; [exact Huo|split]]|split; [|split]].
    + unfold order, final, final_order_data.
      rewrite obj_get_set_neq by discriminate. now rewrite obj_get_merge.
    + unfold order, final, final_order_data.
      rewrite obj_get_set_neq by discriminate. now rewrite obj_get_merge.
    + unfold orderTx. rewrite obj_get_set_eq.
      repeat split; try (rewrite obj_get_set_neq by discriminate; reflexivity).
      rewrite obj_get_set_neq by discriminate. simpl.
      unfold final, final_order_data. now rewrite obj_get_merge.
    + unfold payTx. rewrite obj_get_set_eq.
      repeat split; try (rewrite obj_get_set_neq by discriminate; reflexivity).
      rewrite obj_get_set_neq by discriminate. simpl.
      unfold final, final_order_data. now rewrite obj_get_merge.
    + split; [exact Hc1|]. intros k Hk. apply Hf1. simpl. intros [H|[]].
      now apply Hk.
Qed.

(* ------------------------------------------------------------------ *)
(** ** Order creation *)

(** C4: on a reliable store where the owning user exists and the three
    generated identifiers are new, [addOrder] answers the created order;
    the order is added with [remainingAmount = sellingPriceLYD -
    downPaymentLYD]; the transactions table gains an [order] transaction of
    the order whose amount is the selling price, followed by a [payment]
    transaction for the down payment exactly when the down payment is
    positive; and the user's [orderCounter] is one more than before. *)
Theorem addOrder_writes_order_transactions_and_counter :
  forall (w : world) (orderData user : object),
    let U := as_id (obj_get "userId" orderData) in
    let oid := addOrder_order_id w orderData in
    let tid1 := addOrder_order_tx_id w orderData in
    let tid2 := addOrder_payment_tx_id w orderData in
    let w' := snd (addOrder orderData w) in
    reliable w -> U <> "" ->
    rows_with_id w USERS_COLLECTION U = [user] ->
    rows_with_id w ORDERS_COLLECTION oid = [] ->
    rows_with_id w TRANSACTIONS_COLLECTION tid1 = [] ->
    rows_with_id w TRANSACTIONS_COLLECTION tid2 = [] ->
    tid1 <> tid2 ->
    exists order orderTx payTx user',
      fst (addOrder orderData w) = Ok (Some (obj_merge [("id", VStr oid)] order))
      /\ tables w' ORDERS_COLLECTION = (tables w ORDERS_COLLECTION ++ [order])%list
      /\ obj_get "id" order = VStr oid
      /\ obj_get "remainingAmount" order
         = VNum (num_or0 "sellingPriceLYD" orderData
                 - num_or0 "downPaymentLYD" orderData)
      /\ tables w' TRANSACTIONS_COLLECTION
         = (tables w TRANSACTIONS_COLLECTION
            ++ orderTx :: (if 0 <? num_or0 "downPaymentLYD" orderData
                           then [payTx] else []))%list
      /\ (obj_get "orderId" orderTx = VStr oid
          /\ obj_get "type" orderTx = VStr "order"
          /\ obj_get "amount" orderTx = obj_get "sellingPriceLYD" orderData)
      /\ (obj_get "orderId" payTx = VStr oid
          /\ obj_get "type" payTx = VStr "payment"
          /\ obj_get "amount" payTx = obj_get "downPaymentLYD" orderData)
      /\ rows_with_id w' USERS_COLLECTION U = [user']
      /\ obj_get "orderCounter" user'
         = VNum (number_or0 (obj_get "orderCounter" user) + 1).
Proof.
  intros w orderData user U oid tid1 tid2 w' Hr HU Huser Hoid Htid1 Htid2 Hne.
  destruct (addOrder_effect w orderData user Hr HU Huser Hoid Htid1 Htid2 Hne)
    as (order & orderTx & payTx & user1 & debt & count & wf & Hrun & Hrf & Hto & Htt
        & Htu & Hframe & Hord & Hotx & Hptx & Hcnt & Hkeep).
  fold U oid tid1 tid2 in Hrun, Hto, Htt, Htu, Hord, Hotx, Hptx.
  unfold w'. rewrite Hrun. cbn [fst snd].
  exists order, orderTx, payTx,
    (obj_merge user1 [("debt", VNum debt); ("orderCount", VNum count)]).
  destruct Hord as (Hoi & _ & _ & Hor).
  destruct Hotx as (_ & Ho1 & Ho2 & Ho3). destruct Hptx as (_ & Hp1 & Hp2 & Hp3).
  refine (conj eq_refl (conj Hto (conj Hoi (conj Hor (conj Htt
           (conj (conj Ho1 (conj Ho2 Ho3)) (conj (conj Hp1 (conj Hp2 Hp3))
              (conj _ _)))))))).
  - unfold rows_with_id. rewrite Htu.
    rewrite filter_update_rows
      by (intros r;
          apply (has_id_merge_keeps U r
                   [("debt", VNum debt); ("orderCount", VNum count)]
                   (or_introl eq_refl))).
    assert (Hid1 : has_id U user1 = true).
    { unfold has_id. rewrite Hkeep by discriminate.
      apply (rows_with_id_in w _ _ user Huser). }
    rewrite (filter_replace_single U user user1 _ Huser Hid1). simpl.
    now rewrite Hid1.
  - now rewrite obj_get_merge.
Qed.

(** The scenario of the specification: selling price 1000, down payment
    200: the order is left with 800 to pay, and exactly two transactions
    are recorded, an [order] of 1000 and a [payment] of 200. *)
Lemma addOrder_writes_order_transactions_and_counter_witness :
  exists order orderTx payTx user',
    fst (addOrder order_1000_200 world_new_user)
      = Ok (Some (obj_merge [("id", VStr "k1q7x2m9d4")] order))
    /\ tables (snd (addOrder order_1000_200 world_new_user)) ORDERS_COLLECTION = [order]
    /\ obj_get "id" order = VStr "k1q7x2m9d4"
    /\ obj_get "remainingAmount" order = VNum 800
    /\ tables (snd (addOrder order_1000_200 world_new_user)) TRANSACTIONS_COLLECTION
       = [orderTx; payTx]
    /\ (obj_get "orderId" orderTx = VStr "k1q7x2m9d4"
        /\ obj_get "type" orderTx = VStr "order"
        /\ obj_get "amount" orderTx = VNum 1000)
    /\ (obj_get "orderId" payTx = VStr "k1q7x2m9d4"
        /\ obj_get "type" payTx = VStr "payment"
        /\ obj_get "amount" payTx = VNum 200)
    /\ rows_with_id (snd (addOrder order_1000_200 world_new_user)) USERS_COLLECTION "u1"
       = [user']
    /\ obj_get "orderCounter" user' = VNum 3.
Proof.
  exact (addOrder_writes_order_transactions_and_counter
           world_new_user order_1000_200 sample_user
           eq_refl ltac:(discriminate) eq_refl eq_refl eq_refl eq_refl
           ltac:(discriminate)).
Defined.

(* ------------------------------------------------------------------ *)
(** ** Assignment counts of representatives *)

(** C3 fails for [bulkAssignRepresentative]: from a consistent state in
    which order [o1] is assigned to representative [r1], bulk-assigning
    [o1] to [r2] succeeds, moves the order to [r2] and adds one to [r2],
    but leaves [r1] at 1 although no order is assigned to [r1] any more. *)
Theorem bulkAssign_leaves_old_representative_count :
  rep_counts_consistent world_assigned = true
  /\ fst (bulkAssignRepresentative ["o1"] rep2 world_assigned) = Ok true
  /\ (let w' := snd (bulkAssignRepresentative ["o1"] rep2 world_assigned) in
      orders_assigned_to w' (VStr "r1") = 0
      /\ orders_assigned_to w' (VStr "r2") = 1
      /\ map (obj_get "assignedOrders") (rows_with_id w' REPRESENTATIVES_COLLECTION "r1")
         = [VNum 1]
      /\ map (obj_get "assignedOrders") (rows_with_id w' REPRESENTATIVES_COLLECTION "r2")
         = [VNum 1]
      /\ rep_counts_consistent w' = false).
Proof. repeat split; reflexivity. Qed.

(** The single assignment, on the same state, takes one from the old
    representative and keeps the counts consistent. *)
Example assign_moves_the_count :
  fst (assignRepresentativeToOrder "o1" rep2 world_assigned) = Ok true
  /\ (let w' := snd (assignRepresentativeToOrder "o1" rep2 world_assigned) in
      map (obj_get "assignedOrders") (rows_with_id w' REPRESENTATIVES_COLLECTION "r1")
        = [VNum 0]
      /\ map (obj_get "assignedOrders") (rows_with_id w' REPRESENTATIVES_COLLECTION "r2")
         = [VNum 1]
      /\ rep_counts_consistent w' = true).
Proof. repeat split; reflexivity. Qed.

(** Bulk-assigning an order to the representative who already has it counts
    it twice. *)
Example bulkAssign_counts_twice :
  let w' := snd (bulkAssignRepresentative ["o1"] rep1 world_assigned) in
  orders_assigned_to w' (VStr "r1") = 1
  /\ map (obj_get "assignedOrders") (rows_with_id w' REPRESENTATIVES_COLLECTION "r1")
     = [VNum 2].
Proof. split; reflexivity. Qed.

Example unassign_and_delete_keep_the_counts :
  rep_counts_consistent (snd (unassignRepresentativeFromOrder "o1" world_assigned)) = true
  /\ rep_counts_consistent (snd (deleteOrder "o1" world_assigned)) = true.
Proof. split; reflexivity. Qed.

(* ------------------------------------------------------------------ *)
(** ** The ledger equation: tables *)

Lemma paid_in_app (a b : table) (oid : string) :
  paid_in (a ++ b)%list oid = paid_in a oid + paid_in b oid.
Proof.
  unfold paid_in. rewrite filter_app, map_app.
  induction (map _ (filter (payment_of oid) a)) as [|x l IH]; simpl; lia.
Qed.

Lemma paid_in_cons (t : object) (txs : table) (oid : string) :
  paid_in (t :: txs) oid
  = (if payment_of oid t then as_num (obj_get "amount" t) else 0) + paid_in txs oid.
Proof. unfold paid_in. simpl. destruct (payment_of oid t); simpl; lia. Qed.

Lemma has_id_iff (id : string) (r : object) :
  has_id id r = true <-> obj_get "id" r = VStr id.
Proof.
  unfold has_id. destruct (obj_get "id" r) as [|b|n|s|xs|o]; simpl;
    try (split; discriminate).
  split.
  - intros H. apply String.eqb_eq in H. now subst.
  - intros [= ->]. apply String.eqb_refl.
Qed.

Lemma update_rows_none (id : string) (d : object) (t : table) :
  filter (has_id id) t = [] -> update_rows id d t = t.
Proof.
  unfold update_rows. induction t as [|r t IH]; [reflexivity|]. simpl.
  destruct (has_id id r); [discriminate|]. intros H. now rewrite IH.
Qed.

Lemma delete_rows_none (id : string) (t : table) :
  filter (has_id id) t = [] -> delete_rows id t = t.
Proof.
  unfold delete_rows. induction t as [|r t IH]; [reflexivity|]. simpl.
  destruct (has_id id r); [discriminate|]. simpl. intros H. now rewrite IH.
Qed.

(** Amending the amount of the one transaction [tx]. *)
Lemma paid_in_update_amount (txid oid : string) (new : Z) (tx : object) (txs : table) :
  filter (has_id txid) txs = [tx] ->
  paid_in (update_rows txid [("amount", VNum new)] txs) oid
  = paid_in txs oid
    + (if payment_of oid tx then new - as_num (obj_get "amount" tx) else 0).
Proof.
  induction txs as [|r t IH]; [discriminate|]. simpl filter.
  destruct (has_id txid r) eqn:E.
  - intros [= -> Hnil]. unfold update_rows. simpl map. rewrite E.
    fold (update_rows txid [("amount", VNum new)] t).
    rewrite (update_rows_none txid _ t Hnil), !paid_in_cons.
    assert (Hp : payment_of oid (obj_merge tx [("amount", VNum new)]) = payment_of oid tx).
    { unfold payment_of. now rewrite !obj_get_merge. }
    rewrite Hp. destruct (payment_of oid tx); [|lia].
    rewrite obj_get_merge. simpl. lia.
  - intros H. unfold update_rows. simpl map. rewrite E.
    fold (update_rows txid [("amount", VNum new)] t).
    rewrite !paid_in_cons, (IH H). lia.
Qed.

(** Deleting the one transaction [tx]. *)
Lemma paid_in_delete (txid oid : string) (tx : object) (txs : table) :
  filter (has_id txid) txs = [tx] ->
  paid_in (delete_rows txid txs) oid
  = paid_in txs oid
    - (if payment_of oid tx then as_num (obj_get "amount" tx) else 0).
Proof.
  induction txs as [|r t IH]; [discriminate|]. simpl filter.
  destruct (has_id txid r) eqn:E.
  - intros [= -> Hnil]. unfold delete_rows. simpl filter. rewrite E. simpl.
    fold (delete_rows txid t).
    rewrite (delete_rows_none txid t Hnil), paid_in_cons. lia.
  - intros H. unfold delete_rows. simpl filter. rewrite E. simpl.
    fold (delete_rows txid t). rewrite !paid_in_cons, (IH H). lia.
Qed.

Lemma in_update_rows (id : string) (d : object) (t : table) (o' : object) :
  In o' (update_rows id d t) ->
  (exists r, In r t /\ has_id id r = true /\ o' = obj_merge r d)
  \/ (In o' t /\ has_id id o' = false).
Proof.
  unfold update_rows. intros H. apply in_map_iff in H. destruct H as [r [Hr Hin]].
  destruct (has_id id r) eqn:E; subst o'; [left|right]; eauto.
Qed.

(** One order changes, and the payments of the other orders do not. *)
Lemma balanced_step (orders txs orders' txs' : table) (oid : string) :
  balanced_in orders txs ->
  (forall o', In o' orders' ->
     (In o' orders /\ has_id oid o' = false)
     \/ (has_id oid o' = true
         /\ (oid <> "" ->
             obj_get "remainingAmount" o'
             = VNum (num_or0 "sellingPriceLYD" o' - paid_in txs' oid)))) ->
  (forall oid', oid' <> oid -> oid' <> "" -> paid_in txs' oid' = paid_in txs oid') ->
  balanced_in orders' txs'.
Proof.
  intros Hb Hord Hpaid o' x Hin Hid Hx.
  destruct (Hord o' Hin) as [[Hold Hno]|[Hyes Heq]].
  - rewrite Hpaid; [now apply Hb| |assumption].
    intros ->. apply has_id_iff in Hid. congruence.
  - apply has_id_iff in Hyes. assert (x = oid) by congruence. subst x. auto.
Qed.

(** The one order [o] with identifier [oid] is replaced by [o']. *)
Lemma balanced_replace (orders txs txs' : table) (oid : string) (o o' : object) :
  balanced_in orders txs ->
  filter (has_id oid) orders = [o] ->
  has_id oid o' = true ->
  (forall x, x <> oid -> x <> "" -> paid_in txs' x = paid_in txs x) ->
  (oid <> "" ->
   obj_get "remainingAmount" o
   = VNum (num_or0 "sellingPriceLYD" o - paid_in txs oid) ->
   obj_get "remainingAmount" o'
   = VNum (num_or0 "sellingPriceLYD" o' - paid_in txs' oid)) ->
  balanced_in (map (fun r => if has_id oid r then o' else r) orders) txs'.
Proof.
  intros Hb Hf Hid' Hpaid Hnew.
  assert (Ho : In o orders /\ has_id oid o = true).
  { apply filter_In. rewrite Hf. now left. }
  apply (balanced_step orders txs _ txs' oid Hb); [|exact Hpaid].
  intros o'' Hin. apply in_map_iff in Hin. destruct Hin as [r [Hr Hin]].
  destruct (has_id oid r) eqn:E; subst o''.
  - right. split; [exact Hid'|]. intros Hne. apply Hnew; [exact Hne|].
    apply Hb; [tauto| |exact Hne]. now apply has_id_iff.
  - left. auto.
Qed.

(** No order has the identifier [oid]: the payments of [oid] do not matter. *)
Lemma balanced_no_order (orders txs txs' : table) (oid : string) :
  balanced_in orders txs ->
  filter (has_id oid) orders = [] ->
  (forall x, x <> oid -> x <> "" -> paid_in txs' x = paid_in txs x) ->
  balanced_in orders txs'.
Proof.
  intros Hb Hf Hpaid. apply (balanced_step orders txs orders txs' oid Hb); [|exact Hpaid].
  intros o' Hin. left. split; [exact Hin|].
  destruct (has_id oid o') eqn:E; [|reflexivity].
  assert (H : In o' (filter (has_id oid) orders)) by (apply filter_In; auto).
  rewrite Hf in H. destruct H.
Qed.

Lemma balanced_same_payments (orders txs txs' : table) :
  balanced_in orders txs ->
  (forall x, x <> "" -> paid_in txs' x = paid_in txs x) ->
  balanced_in orders txs'.
Proof.
  intros Hb Hpaid o x Hin Hid Hx. rewrite Hpaid by assumption. now apply Hb.
Qed.

Lemma unique_ids_update_rows (id : string) (d : object) (t : table) :
  obj_find "id" d = None ->
  unique_ids t -> unique_ids (update_rows id d t).
Proof.
  intros Hd Hu x. rewrite filter_update_rows
    by (intros r; apply (has_id_merge_keeps id r d (or_introl Hd))).
  rewrite length_map. apply Hu.
Qed.

Lemma filter_replace_rows (id x : string) (row : object) (t : table) :
  (forall r, In r t -> has_id id r = true -> has_id x row = has_id x r) ->
  filter (has_id x) (map (fun r => if has_id id r then row else r) t)
  = map (fun r => if has_id id r then row else r) (filter (has_id x) t).
Proof.
  induction t as [|r t IH]; intros Hsame; [reflexivity|]. simpl.
  assert (IH' := IH (fun r' Hr' => Hsame r' (or_intror Hr'))).
  destruct (has_id id r) eqn:E.
  - rewrite (Hsame r (or_introl eq_refl) E).
    destruct (has_id x r); simpl; [rewrite E|]; now rewrite IH'.
  - destruct (has_id x r); simpl; [rewrite E|]; now rewrite IH'.
Qed.

Lemma unique_ids_replace (id : string) (row : object) (t : table) :
  (forall r, In r t -> has_id id r = true -> forall x, has_id x row = has_id x r) ->
  unique_ids t ->
  unique_ids (map (fun r => if has_id id r then row else r) t).
Proof.
  intros Hsame Hu x.
  rewrite filter_replace_rows by (intros r Hr E; now apply Hsame).
  rewrite length_map. apply Hu.
Qed.

Lemma unique_ids_app_fresh (id : string) (row : object) (t : table) :
  obj_get "id" row = VStr id ->
  filter (has_id id) t = [] ->
  unique_ids t -> unique_ids (t ++ [row])%list.
Proof.
  intros Hid Hf Hu x. rewrite filter_app, length_app. simpl.
  destruct (has_id x row) eqn:E; simpl; [|specialize (Hu x); lia].
  apply has_id_iff in E. assert (x = id) by congruence. subst x.
  rewrite Hf. simpl. lia.
Qed.

Lemma unique_single (id : string) (t : table) :
  unique_ids t ->
  filter (has_id id) t = [] \/ exists r, filter (has_id id) t = [r].
Proof.
  intros Hu. specialize (Hu id).
  destruct (filter (has_id id) t) as [|r [|r' l]]; simpl in Hu; eauto. lia.
Qed.

(* ------------------------------------------------------------------ *)
(** ** The ledger equation: actions *)

Lemma same_ledger_ok (w w' : world) :
  same_ledger w w' -> ledger_balanced w /\ unique_ids (tables w ORDERS_COLLECTION) ->
  ledger_ok w'.
Proof.
  intros (Hr & Ho & Ht) (Hb & Hu). unfold ledger_ok, ledger_balanced.
  rewrite Ho, Ht. auto.
Qed.

Lemma same_ledger_refl (w : world) : reliable w -> same_ledger w w.
Proof. intros H. repeat split; auto. Qed.

Lemma same_ledger_trans (w1 w2 w3 : world) :
  same_ledger w1 w2 -> same_ledger w2 w3 -> same_ledger w1 w3.
Proof.
  intros (_ & Ho & Ht) (Hr & Ho' & Ht'). repeat split; auto; congruence.
Qed.

Lemma snd_try_catch {A} (m : M A) (sentinel : A) (w : world) :
  snd (try_catch m (fun _ => ret sentinel) w) = snd (m w).
Proof. unfold try_catch. now destruct (m w) as [[a|e] w']. Qed.

Lemma recalculateUserStats_same_ledger (U : string) (w : world) :
  reliable w -> same_ledger w (snd (recalculateUserStats U w)).
Proof.
  intros Hr. destruct (String.eqb_spec U "") as [->|HU].
  - unfold recalculateUserStats, try_catch.
    rewrite (bind_throw _ (doc_empty_id USERS_COLLECTION w)).
    now apply same_ledger_refl.
  - rewrite (recalculateUserStats_reliable U w Hr HU). cbn [snd].
    repeat split; auto.
Qed.

Lemma recalc_customer_same_ledger (v : value) (w : world) :
  reliable w -> same_ledger w (snd (recalc_customer v w)).
Proof.
  intros Hr. unfold recalc_customer.
  destruct (truthy v); [|now apply same_ledger_refl].
  destruct v; try (now apply same_ledger_refl).
  destruct (negb _); [|now apply same_ledger_refl].
  now apply recalculateUserStats_same_ledger.
Qed.

Lemma recalc_order_user_same_ledger (ref : docref) (w : world) :
  reliable w -> same_ledger w (snd (recalc_order_user ref w)).
Proof.
  intros Hr. unfold recalc_order_user, getDoc.
  rewrite (bind_ok _ (doc_get_reliable ref w Hr)).
  destruct (rows_with_id w _ _) as [|r [|r' l]]; try (now apply same_ledger_refl).
  destruct (truthy _); [|now apply same_ledger_refl].
  now apply recalculateUserStats_same_ledger.
Qed.

Lemma as_num_num_or0 (k : string) (o : object) :
  as_num (obj_get k o) = num_or0 k o.
Proof. unfold num_or0, get_num. now destruct (obj_get k o). Qed.

Lemma num_or0_of_VNum (k : string) (o : object) (n : Z) :
  obj_get k o = VNum n -> num_or0 k o = n.
Proof. unfold num_or0, get_num. now intros ->. Qed.

Lemma snd_bind_ok {A B} {m : M A} (k : A -> M B) {w w1 : world} {a : A} :
  m w = (Ok a, w1) -> snd (bind m k w) = snd (k a w1).
Proof. intros H. now rewrite (bind_ok _ H). Qed.

Lemma snd_bind_throw {A B} {m : M A} (k : A -> M B) {w w1 : world} {e : error} :
  m w = (Throw e, w1) -> snd (bind m k w) = w1.
Proof. intros H. now rewrite (bind_throw _ H). Qed.

Lemma has_id_merge_noid (id : string) (r data : object) :
  obj_find "id" data = None -> has_id id (obj_merge r data) = has_id id r.
Proof. intros H. apply (has_id_merge_keeps id r data (or_introl H)). Qed.

Lemma filter_single_in (id : string) (o : object) (t : table) :
  filter (has_id id) t = [o] -> In o t /\ has_id id o = true.
Proof. intros H. apply filter_In. rewrite H. now left. Qed.

Lemma snd_then_ret {A B} (m : M A) (b : B) (w : world) :
  snd (bind m (fun _ => ret b) w) = snd (m w).
Proof. unfold bind. now destruct (m w) as [[a|e] w']. Qed.

Lemma throw_run {A} (e : error) (w : world) : @throw A e w = (Throw e, w).
Proof. reflexivity. Qed.

Lemma update_rows_replace (id : string) (o data : object) (t : table) :
  filter (has_id id) t = [o] ->
  update_rows id data t
  = map (fun r => if has_id id r then obj_merge o data else r) t.
Proof.
  intros Hf. unfold update_rows. apply map_ext_in. intros r Hin.
  destruct (has_id id r) eqn:E; [|reflexivity].
  assert (H : In r (filter (has_id id) t)) by (apply filter_In; auto).
  rewrite Hf in H. destruct H as [<-|[]]. reflexivity.
Qed.

Lemma paid_in_append_other (txs : table) (tx : object) (x : string) :
  payment_of x tx = false -> paid_in (txs ++ [tx])%list x = paid_in txs x.
Proof.
  intros H. rewrite paid_in_app, paid_in_cons, H. unfold paid_in. simpl. lia.
Qed.

Lemma weight_preserves (orderId : string) (weight a b : Z) (w : world) :
  ledger_ok w ->
  rows_with_id w TRANSACTIONS_COLLECTION (next_id w) = [] ->
  ledger_ok (snd (setCustomerWeightDetails orderId weight a b w)).
Proof.
  intros (Hb & Hu & Hr) Hfresh. unfold setCustomerWeightDetails.
  destruct (weight <? 0); [now repeat split|].
  destruct (String.eqb_spec orderId "") as [->|Hid].
  { rewrite (snd_bind_throw _ (doc_empty_id ORDERS_COLLECTION w)). now repeat split. }
  rewrite (snd_bind_ok _ (doc_ok ORDERS_COLLECTION orderId w ltac:(discriminate) Hid)).
  rewrite snd_try_catch. unfold runTransaction.
  cbn [tx_get tx_set tx_update the_transaction].
  rewrite !bind_assoc_run.
  rewrite (snd_bind_ok _ (doc_get_reliable _ w Hr)). cbn [ref_collection ref_id].
  destruct (unique_single orderId _ Hu) as [Hnone|[o Ho]];
    unfold rows_with_id at 1; [rewrite Hnone|rewrite Ho].
  { rewrite (snd_bind_throw _ (throw_run _ w)). now repeat split. }
  set (d := weight * b - num_or0 "customerWeightCost" o).
  rewrite !bind_assoc_run.
  rewrite (snd_bind_ok _ (detach_run _ _)).
  rewrite doc_update_plain_reliable by (auto; reflexivity).
  cbn [snd ref_collection ref_id].
  rewrite (update_rows_replace orderId o _ _ Ho).
  set (o' := obj_merge o _).
  set (w1 := set_table ORDERS_COLLECTION _ w).
  assert (Hid' : has_id orderId o' = true).
  { unfold o'. rewrite has_id_merge_noid by reflexivity.
    apply (filter_single_in orderId o _ Ho). }
  assert (Hnew : forall txs', paid_in txs' orderId = paid_in (tables w TRANSACTIONS_COLLECTION) orderId ->
             orderId <> "" ->
             obj_get "remainingAmount" o
             = VNum (num_or0 "sellingPriceLYD" o
                     - paid_in (tables w TRANSACTIONS_COLLECTION) orderId) ->
             obj_get "remainingAmount" o'
             = VNum (num_or0 "sellingPriceLYD" o' - paid_in txs' orderId)).
  { intros txs' Hp _ Hrem. rewrite Hp.
    rewrite (num_or0_of_VNum "sellingPriceLYD" o' (num_or0 "sellingPriceLYD" o + d))
      by (unfold o'; now rewrite obj_get_merge).
    unfold o'. rewrite obj_get_merge. cbn [obj_find String.eqb Ascii.eqb Bool.eqb].
    rewrite (num_or0_of_VNum "remainingAmount" o _ Hrem). f_equal. fold d. lia. }
  assert (Hu1 : unique_ids (map (fun r => if has_id orderId r then o' else r)
                                (tables w ORDERS_COLLECTION))).
  { apply unique_ids_replace; [|exact Hu]. intros r Hin E x.
    assert (H : In r (filter (has_id orderId) (tables w ORDERS_COLLECTION)))
      by (apply filter_In; auto).
    rewrite Ho in H. destruct H as [<-|[]]. unfold o'.
    now apply has_id_merge_noid. }
  destruct (negb (d =? 0)).
  - rewrite !bind_assoc_run.
    rewrite (snd_bind_ok _ (doc_auto_run TRANSACTIONS_COLLECTION w1)).
    rewrite !bind_assoc_run.
    rewrite (snd_bind_ok _ (eq_refl : now_iso (tick w1) = (Ok _, tick (tick w1)))).
    rewrite (snd_bind_ok _ (detach_run _ _)).
    change (substring 2 13 (entropy w1 (ticks w1))) with (next_id w).
    rewrite (doc_set_fresh TRANSACTIONS_COLLECTION (next_id w) _ false (tick (tick w1)) Hr)
      by exact Hfresh.
    cbn [snd].
    set (tx := obj_set "id" (VStr (next_id w)) _).
    set (w2 := set_table TRANSACTIONS_COLLECTION _ (tick (tick w1))).
    rewrite snd_then_ret.
    apply (same_ledger_ok w2); [now apply recalc_order_user_same_ledger|].
    assert (Htx : forall x, payment_of x tx = false).
    { intros x. unfold payment_of, tx.
      rewrite (obj_get_set_neq "type" "id") by discriminate. simpl.
      apply andb_false_r. }
    split.
    + unfold ledger_balanced, w2, w1.
      rewrite tables_set_table_eq, tables_set_table_neq by discriminate.
      cbn [tables tick]. rewrite tables_set_table_eq, tables_set_table_neq by discriminate.
      apply (balanced_replace _ (tables w TRANSACTIONS_COLLECTION) _ orderId o o' Hb Ho Hid').
      * intros x _ _. now apply paid_in_append_other.
      * apply Hnew. now apply paid_in_append_other.
    + unfold w2, w1. rewrite tables_set_table_neq by discriminate.
      cbn [tables tick]. now rewrite tables_set_table_eq.
  - rewrite (snd_bind_ok _ (ret_run tt w1)).
    rewrite snd_then_ret.
    apply (same_ledger_ok w1); [now apply recalc_order_user_same_ledger|].
    split.
    + unfold ledger_balanced, w1.
      rewrite tables_set_table_eq, tables_set_table_neq by discriminate.
      apply (balanced_replace _ (tables w TRANSACTIONS_COLLECTION) _ orderId o o' Hb Ho Hid').
      * reflexivity.
      * now apply Hnew.
    + unfold w1. now rewrite tables_set_table_eq.
Qed.

Lemma exchange_rate_run (o : object) (w : world) :
  reliable w ->
  exists er w1,
    (if truthy (obj_get "exchangeRate" o)
     then ret (obj_get "exchangeRate" o)
     else s <- getAppSettings ;; ret (obj_get "exchangeRate" s)) w = (Ok er, w1)
    /\ reliable w1
    /\ forall c, c <> SETTINGS_COLLECTION -> tables w1 c = tables w c.
Proof.
  intros Hr. destruct (truthy _).
  - exists (obj_get "exchangeRate" o), w. repeat split; auto.
  - rewrite (bind_ok _ (getAppSettings_reliable w Hr)).
    destruct (settings_read_frame w Hr) as (Hr1 & Ht1 & _).
    eexists. eexists. split; [reflexivity|]. split; assumption.
Qed.

Lemma shipping_preserves (orderId : string) (cost : Z) (w : world) :
  ledger_ok w ->
  ledger_ok (snd (addCustomerShippingCost orderId cost w)).
Proof.
  intros (Hb & Hu & Hr). unfold addCustomerShippingCost.
  destruct (cost <? 0); [now repeat split|].
  destruct (String.eqb_spec orderId "") as [->|Hid].
  { rewrite (snd_bind_throw _ (doc_empty_id ORDERS_COLLECTION w)). now repeat split. }
  rewrite (snd_bind_ok _ (doc_ok ORDERS_COLLECTION orderId w ltac:(discriminate) Hid)).
  rewrite snd_try_catch. unfold runTransaction.
  cbn [tx_get tx_set tx_update the_transaction].
  rewrite ?bind_assoc_run.
  rewrite (snd_bind_ok _ (doc_get_reliable _ w Hr)). cbn [ref_collection ref_id].
  destruct (unique_single orderId _ Hu) as [Hnone|[o Ho]];
    unfold rows_with_id at 1; [rewrite Hnone|rewrite Ho].
  { rewrite (snd_bind_throw _ (throw_run _ w)). now repeat split. }
  rewrite ?bind_assoc_run.
  destruct (exchange_rate_run o w Hr) as (er & w1 & Her & Hr1 & Ht1).
  rewrite (snd_bind_ok _ Her). clear Her.
  set (D := (cost - num_or0 "customerWeightCostUSD" o) * as_num er).
  rewrite ?bind_assoc_run.
  rewrite (snd_bind_ok _ (detach_run _ _)).
  set (updated :=
         obj_set "customerWeightCostUSD" (VNum cost)
           (obj_set "remainingAmount"
              (VNum (number_or0 (obj_get "remainingAmount" o) + D))
              (obj_set "sellingPriceLYD" (VNum (num_or0 "sellingPriceLYD" o + D)) o))).
  assert (Ho1 : rows_with_id w1 ORDERS_COLLECTION orderId = [o]).
  { unfold rows_with_id. now rewrite Ht1 by discriminate. }
  rewrite (doc_update_fetch_reliable (mkRef ORDERS_COLLECTION orderId) _ o updated w1 Hr1);
    [|reflexivity|exact Ho1|].
  2:{ cbn [apply_keys apply_key has_dot Ascii.eqb Bool.eqb op_is strict_eqb
             increment obj_get String.eqb op_value].
      unfold updated. fold D.
      now rewrite (obj_get_set_neq "remainingAmount" "sellingPriceLYD") by discriminate. }
  cbn [snd ref_collection ref_id]. rewrite Ht1 by discriminate.
  rewrite (update_rows_replace orderId o _ _ Ho).
  set (o' := obj_merge o updated).
  set (w2 := set_table ORDERS_COLLECTION _ w1).
  rewrite snd_then_ret.
  apply (same_ledger_ok w2); [now apply recalc_order_user_same_ledger|].
  assert (Hfid : obj_find "id" updated = obj_find "id" o).
  { unfold updated. now rewrite !obj_find_set_neq by discriminate. }
  assert (Hkeep : forall x, has_id x o' = has_id x o).
  { intros x. apply (has_id_merge_keeps x o updated (or_intror Hfid)). }
  split.
  - unfold ledger_balanced, w2.
    rewrite tables_set_table_eq, tables_set_table_neq, Ht1 by discriminate.
    apply (balanced_replace _ (tables w TRANSACTIONS_COLLECTION) _ orderId o o' Hb Ho).
    + rewrite Hkeep. apply (filter_single_in orderId o _ Ho).
    + reflexivity.
    + intros _ Hrem.
      assert (Hs : obj_get "sellingPriceLYD" o' = VNum (num_or0 "sellingPriceLYD" o + D)).
      { unfold o', updated. rewrite obj_get_merge.
        rewrite (obj_find_set_neq "sellingPriceLYD" "customerWeightCostUSD") by discriminate.
        rewrite (obj_find_set_neq "sellingPriceLYD" "remainingAmount") by discriminate.
        now rewrite obj_find_set_eq. }
      rewrite (num_or0_of_VNum "sellingPriceLYD" o' _ Hs).
      unfold o', updated. rewrite obj_get_merge.
      rewrite (obj_find_set_neq "remainingAmount" "customerWeightCostUSD") by discriminate.
      rewrite obj_find_set_eq, Hrem. unfold number_or0, js_Number. f_equal. lia.
  - unfold w2. rewrite tables_set_table_eq.
    apply unique_ids_replace; [|exact Hu]. intros r Hin E x.
    assert (H : In r (filter (has_id orderId) (tables w ORDERS_COLLECTION)))
      by (apply filter_In; auto).
    rewrite Ho in H. destruct H as [<-|[]]. apply Hkeep.
Qed.

Lemma same_ledger_bind {A B} (m : M A) (k : A -> M B) (w : world) :
  same_ledger w (snd (m w)) ->
  (forall a w1, reliable w1 -> same_ledger w1 (snd (k a w1))) ->
  same_ledger w (snd (bind m k w)).
Proof.
  intros Hm Hk. unfold bind. destruct (m w) as [[a|e] w1]; cbn [snd] in *.
  - apply (same_ledger_trans w w1); [exact Hm|]. apply Hk. apply Hm.
  - exact Hm.
Qed.

Lemma getDoc_same_ledger (ref : docref) (w : world) :
  reliable w -> same_ledger w (snd (getDoc ref w)).
Proof.
  intros Hr. unfold getDoc. rewrite (doc_get_reliable ref w Hr).
  now apply same_ledger_refl.
Qed.

(** An increment of [remainingAmount] on the order [x], against any change
    of the transactions that moves the payments of [x] the other way. *)
Lemma order_increment_step (x : string) (d : Z) (w : world) :
  reliable w -> unique_ids (tables w ORDERS_COLLECTION) ->
  let w' := snd (doc_update (mkRef ORDERS_COLLECTION x)
                            [("remainingAmount", increment d)] w) in
  reliable w'
  /\ (forall c, c <> ORDERS_COLLECTION -> tables w' c = tables w c)
  /\ unique_ids (tables w' ORDERS_COLLECTION)
  /\ forall txs txs',
       balanced_in (tables w ORDERS_COLLECTION) txs ->
       (forall y, y <> x -> y <> "" -> paid_in txs' y = paid_in txs y) ->
       paid_in txs' x = paid_in txs x - d ->
       balanced_in (tables w' ORDERS_COLLECTION) txs'.
Proof.
  intros Hr Hu w'.
  destruct (unique_single x _ Hu) as [Hnone|[o Ho]].
  - unfold w'. rewrite doc_update_fetch_missing by (auto; reflexivity).
    cbn [snd]. repeat split; auto.
    intros txs txs' Hb Hother _. now apply (balanced_no_order _ txs txs' x).
  - destruct (doc_update_increment w (mkRef ORDERS_COLLECTION x) o [] []
                "remainingAmount" d Hr Ho) as (o' & Hrun & Hrem & Hkeep).
    { intros k [<-|[]]. reflexivity. }
    { simpl. tauto. }
    { simpl. tauto. }
    simpl app in Hrun, Hkeep. cbn [ref_collection ref_id] in Hrun.
    unfold w'. rewrite Hrun. cbn [snd].
    assert (Hid : forall y, has_id y o' = has_id y o).
    { intros y. unfold has_id. rewrite Hkeep; [reflexivity|].
      simpl. intros [H|[]]. discriminate H. }
    split; [exact Hr|]. split; [|split].
    + intros c Hc. now apply tables_set_table_neq.
    + rewrite tables_set_table_eq. apply unique_ids_replace; [|exact Hu].
      intros r Hin E y.
      assert (H : In r (filter (has_id x) (tables w ORDERS_COLLECTION)))
        by (apply filter_In; auto).
      rewrite Ho in H. destruct H as [<-|[]]. apply Hid.
    + intros txs txs' Hb Hother Hx. rewrite tables_set_table_eq.
      apply (balanced_replace _ txs txs' x o o' Hb Ho).
      * rewrite Hid. apply (filter_single_in x o _ Ho).
      * exact Hother.
      * intros _ Hold. rewrite Hrem, Hold, Hx.
        assert (Hs : obj_get "sellingPriceLYD" o' = obj_get "sellingPriceLYD" o).
        { apply Hkeep. simpl. intros [H|[]]. discriminate H. }
        unfold num_or0, get_num. rewrite Hs.
        unfold number_or0, js_Number. f_equal. lia.
Qed.

Lemma as_id_VStr (v : value) (x : string) :
  as_id v = x -> x <> "" -> v = VStr x.
Proof. destruct v; simpl; intros <- H; try contradiction. reflexivity. Qed.

Lemma payment_of_other (x y : string) (tx : object) :
  obj_get "orderId" tx = VStr x -> y <> x -> payment_of y tx = false.
Proof.
  intros H Hne. unfold payment_of. rewrite H. simpl.
  destruct (String.eqb_spec x y); [congruence|reflexivity].
Qed.

Lemma payment_of_falsy (y : string) (tx : object) :
  truthy (obj_get "orderId" tx) = false -> y <> "" -> payment_of y tx = false.
Proof.
  intros H Hne. unfold payment_of.
  destruct (obj_get "orderId" tx) as [|b|n|s|xs|o]; simpl in *; try reflexivity.
  destruct (String.eqb_spec s y) as [->|]; [|reflexivity].
  destruct (String.eqb_spec y ""); [contradiction|discriminate].
Qed.

Lemma payment_of_not_string (y : string) (tx : object) :
  as_id (obj_get "orderId" tx) = "" -> y <> "" -> payment_of y tx = false.
Proof.
  intros H Hne. unfold payment_of.
  destruct (obj_get "orderId" tx) as [|b|n|s|xs|o]; simpl in *; try reflexivity.
  subst s. destruct (String.eqb_spec "" y); [congruence|reflexivity].
Qed.

Lemma payment_of_this (x : string) (tx : object) :
  obj_get "orderId" tx = VStr x -> obj_get "type" tx = VStr "payment" ->
  payment_of x tx = true.
Proof.
  intros H1 H2. unfold payment_of. rewrite H1, H2. simpl.
  now rewrite String.eqb_refl.
Qed.

Lemma update_tail_same_ledger (ref : docref) (w : world) :
  reliable w ->
  same_ledger w
    (snd ((finalTxDoc <- getDoc ref ;;
           match finalTxDoc with
           | Some data => recalc_customer (obj_get "customerId" data)
           | None => ret tt
           end ;;; ret true) w)).
Proof.
  intros Hr. apply same_ledger_bind; [now apply getDoc_same_ledger|].
  intros [data|] w1 Hr1; rewrite snd_then_ret.
  - now apply recalc_customer_same_ledger.
  - now apply same_ledger_refl.
Qed.

Lemma update_payment_preserves (transactionId : string) (newAmount : Z) (w : world) :
  ledger_ok w ->
  (forall tx, rows_with_id w TRANSACTIONS_COLLECTION transactionId = [tx] ->
              obj_get "type" tx = VStr "payment") ->
  ledger_ok (snd (updateTransaction transactionId newAmount w)).
Proof.
  intros (Hb & Hu & Hr) Hadm. unfold updateTransaction.
  destruct (String.eqb_spec transactionId "") as [->|Hid].
  { rewrite (snd_bind_throw _ (doc_empty_id TRANSACTIONS_COLLECTION w)). now repeat split. }
  rewrite (snd_bind_ok _ (doc_ok TRANSACTIONS_COLLECTION transactionId w
                            ltac:(discriminate) Hid)).
  rewrite snd_try_catch. unfold runTransaction.
  cbn [tx_get tx_set tx_update the_transaction].
  rewrite ?bind_assoc_run.
  rewrite (snd_bind_ok _ (doc_get_reliable _ w Hr)). cbn [ref_collection ref_id].
  destruct (rows_with_id w TRANSACTIONS_COLLECTION transactionId) as [|tx [|tx' l]] eqn:Htx;
    try (rewrite (snd_bind_throw _ (throw_run _ w)); now repeat split).
  specialize (Hadm tx eq_refl).
  set (diff := newAmount - as_num (obj_get "amount" tx)).
  rewrite ?bind_assoc_run.
  rewrite (snd_bind_ok _ (detach_run _ _)).
  rewrite doc_update_plain_reliable by (auto; reflexivity).
  cbn [snd ref_collection ref_id].
  set (txs' := update_rows transactionId _ (tables w TRANSACTIONS_COLLECTION)).
  set (w1 := set_table TRANSACTIONS_COLLECTION txs' w).
  assert (Hr1 : reliable w1) by exact Hr.
  assert (Hpaid : forall y, paid_in txs' y
                    = paid_in (tables w TRANSACTIONS_COLLECTION) y
                      + (if payment_of y tx then diff else 0)).
  { intros y. apply paid_in_update_amount. exact Htx. }
  assert (Ho1 : tables w1 ORDERS_COLLECTION = tables w ORDERS_COLLECTION)
    by (unfold w1; now rewrite tables_set_table_neq by discriminate).
  assert (Ht1 : tables w1 TRANSACTIONS_COLLECTION = txs')
    by (unfold w1; now rewrite tables_set_table_eq).
  destruct (truthy (obj_get "orderId" tx)) eqn:Etr.
  - destruct (String.eqb_spec (as_id (obj_get "orderId" tx)) "") as [Ex|Ex].
    + rewrite Ex, ?bind_assoc_run.
      rewrite (snd_bind_throw _ (doc_empty_id ORDERS_COLLECTION w1)).
      split; [|split; [now rewrite Ho1|exact Hr1]].
      unfold ledger_balanced. rewrite Ho1, Ht1.
      apply (balanced_same_payments _ _ _ Hb). intros y Hy.
      rewrite Hpaid, (payment_of_not_string y tx Ex Hy). lia.
    + set (x := as_id (obj_get "orderId" tx)) in *.
      assert (Hox : obj_get "orderId" tx = VStr x) by (now apply as_id_VStr).
      rewrite ?bind_assoc_run.
      rewrite (snd_bind_ok _ (doc_ok ORDERS_COLLECTION x w1 ltac:(discriminate) Ex)).
      rewrite ?bind_assoc_run.
      rewrite (snd_bind_ok _ (detach_run _ _)).
      destruct (order_increment_step x (- diff) w1 Hr1) as (Hr2 & Hfr2 & Hu2 & Hbal2).
      { now rewrite Ho1. }
      set (w2 := snd (doc_update _ _ w1)) in *.
      apply (same_ledger_ok w2); [now apply update_tail_same_ledger|].
      split; [|exact Hu2].
      unfold ledger_balanced. rewrite (Hfr2 TRANSACTIONS_COLLECTION) by discriminate.
      rewrite Ht1. apply (Hbal2 (tables w TRANSACTIONS_COLLECTION) txs').
      * now rewrite Ho1.
      * intros y Hy _. rewrite Hpaid, (payment_of_other x y tx Hox Hy). lia.
      * rewrite Hpaid, (payment_of_this x tx Hox Hadm). lia.
  - rewrite ?bind_assoc_run. rewrite (snd_bind_ok _ (ret_run tt w1)).
    apply (same_ledger_ok w1); [now apply update_tail_same_ledger|].
    split; [|now rewrite Ho1].
    unfold ledger_balanced. rewrite Ho1, Ht1.
    apply (balanced_same_payments _ _ _ Hb). intros y Hy.
    rewrite Hpaid, (payment_of_falsy y tx Etr Hy). lia.
Qed.

Lemma batch_push_run (b : batch) (m : M unit) (w : world) :
  exists b', batch_push b m w = (Ok b', snd (m w)).
Proof. unfold batch_push. destruct (m w) as [[a|e] w']; eexists; reflexivity. Qed.

Lemma commit_tail_same_ledger (b : batch) (customer : value) (w : world) :
  reliable w ->
  same_ledger w (snd ((batch_commit b ;;; recalc_customer customer ;;; ret true) w)).
Proof.
  intros Hr. apply same_ledger_bind.
  - unfold batch_commit. destruct b; now apply same_ledger_refl.
  - intros _ w1 Hr1. rewrite snd_then_ret. now apply recalc_customer_same_ledger.
Qed.

Lemma delete_payment_preserves (transactionId : string) (w : world) :
  ledger_ok w ->
  (forall tx, rows_with_id w TRANSACTIONS_COLLECTION transactionId = [tx] ->
              obj_get "type" tx = VStr "payment") ->
  ledger_ok (snd (deleteTransaction transactionId w)).
Proof.
  intros (Hb & Hu & Hr) Hadm. unfold deleteTransaction.
  destruct (String.eqb_spec transactionId "") as [->|Hid].
  { rewrite (snd_bind_throw _ (doc_empty_id TRANSACTIONS_COLLECTION w)). now repeat split. }
  rewrite (snd_bind_ok _ (doc_ok TRANSACTIONS_COLLECTION transactionId w
                            ltac:(discriminate) Hid)).
  rewrite snd_try_catch. unfold getDoc at 1.
  rewrite (snd_bind_ok _ (doc_get_reliable _ w Hr)). cbn [ref_collection ref_id].
  destruct (rows_with_id w TRANSACTIONS_COLLECTION transactionId) as [|tx [|tx' l]] eqn:Htx;
    try (now repeat split).
  specialize (Hadm tx eq_refl).
  set (amount := as_num (obj_get "amount" tx)).
  assert (Hpaid : forall y, paid_in (delete_rows transactionId (tables w TRANSACTIONS_COLLECTION)) y
                    = paid_in (tables w TRANSACTIONS_COLLECTION) y
                      - (if payment_of y tx then amount else 0)).
  { intros y. apply paid_in_delete. exact Htx. }
  destruct (truthy (obj_get "orderId" tx)) eqn:Etr.
  - destruct (String.eqb_spec (as_id (obj_get "orderId" tx)) "") as [Ex|Ex].
    + rewrite Ex, ?bind_assoc_run.
      rewrite (snd_bind_throw _ (doc_empty_id ORDERS_COLLECTION w)). now repeat split.
    + set (x := as_id (obj_get "orderId" tx)) in *.
      assert (Hox : obj_get "orderId" tx = VStr x) by (now apply as_id_VStr).
      rewrite ?bind_assoc_run.
      rewrite (snd_bind_ok _ (doc_ok ORDERS_COLLECTION x w ltac:(discriminate) Ex)).
      unfold batch_update, batch_delete.
      destruct (batch_push_run writeBatch
                  (doc_update (mkRef ORDERS_COLLECTION x)
                     [("remainingAmount", increment amount)]) w) as [b1 Hb1].
      rewrite (snd_bind_ok _ Hb1). clear Hb1.
      destruct (order_increment_step x amount w Hr Hu) as (Hr1 & Hfr1 & Hu1 & Hbal1).
      set (w1 := snd (doc_update _ _ w)) in *.
      destruct (batch_push_run b1 (doc_delete (mkRef TRANSACTIONS_COLLECTION transactionId)) w1)
        as [b2 Hb2].
      rewrite (snd_bind_ok _ Hb2). clear Hb2.
      rewrite (doc_delete_reliable _ w1 Hr1). cbn [snd ref_collection ref_id].
      rewrite (Hfr1 TRANSACTIONS_COLLECTION) by discriminate.
      set (w2 := set_table TRANSACTIONS_COLLECTION _ w1).
      apply (same_ledger_ok w2); [now apply commit_tail_same_ledger|].
      unfold ledger_balanced, w2.
      rewrite tables_set_table_eq, tables_set_table_neq by discriminate.
      split; [|exact Hu1].
      apply (Hbal1 (tables w TRANSACTIONS_COLLECTION)); [exact Hb| |].
      * intros y Hy _. rewrite Hpaid, (payment_of_other x y tx Hox Hy). lia.
      * rewrite Hpaid, (payment_of_this x tx Hox Hadm). lia.
  - rewrite ?bind_assoc_run. rewrite (snd_bind_ok _ (ret_run writeBatch w)).
    unfold batch_delete.
    destruct (batch_push_run writeBatch
                (doc_delete (mkRef TRANSACTIONS_COLLECTION transactionId)) w) as [b2 Hb2].
    rewrite (snd_bind_ok _ Hb2). clear Hb2.
    rewrite (doc_delete_reliable _ w Hr). cbn [snd ref_collection ref_id].
    set (w2 := set_table TRANSACTIONS_COLLECTION _ w).
    apply (same_ledger_ok w2); [now apply commit_tail_same_ledger|].
    unfold ledger_balanced, w2.
    rewrite tables_set_table_eq, tables_set_table_neq by discriminate.
    split; [|exact Hu].
    apply (balanced_same_payments _ _ _ Hb). intros y Hy.
    rewrite Hpaid, (payment_of_falsy y tx Etr Hy). lia.
Qed.

Lemma strict_eqb_VStr (v : value) (s : string) :
  strict_eqb v (VStr s) = true -> v = VStr s.
Proof.
  destruct v; simpl; try discriminate. intros H. apply String.eqb_eq in H. now subst.
Qed.

Lemma payment_of_set_id (y id : string) (td : object) :
  payment_of y (obj_set "id" (VStr id) td) = payment_of y td.
Proof.
  unfold payment_of. now rewrite !obj_get_set_neq by discriminate.
Qed.

Lemma paid_in_append (txs : table) (tx : object) (y : string) :
  paid_in (txs ++ [tx])%list y
  = paid_in txs y + (if payment_of y tx then as_num (obj_get "amount" tx) else 0).
Proof.
  rewrite paid_in_app, paid_in_cons. change (paid_in [] y) with 0.
  destruct (payment_of y tx); lia.
Qed.

Lemma add_transaction_preserves (transactionData : object) (w : world) :
  ledger_ok w ->
  rows_with_id w TRANSACTIONS_COLLECTION (next_id w) = [] ->
  (obj_get "type" transactionData = VStr "payment" ->
   forall o, rows_with_id w ORDERS_COLLECTION
               (as_id (obj_get "orderId" transactionData)) = [o] ->
             as_num (obj_get "amount" transactionData) <= num_or0 "remainingAmount" o) ->
  ledger_ok (snd (addTransaction transactionData w)).
Proof.
  intros (Hb & Hu & Hr) Hfresh Hadm. unfold addTransaction.
  rewrite snd_try_catch. unfold runTransaction.
  cbn [tx_get tx_set tx_update the_transaction].
  rewrite ?bind_assoc_run.
  rewrite (snd_bind_ok _ (doc_auto_run TRANSACTIONS_COLLECTION w)).
  fold (next_id w).
  set (tx := obj_set "id" (VStr (next_id w)) transactionData).
  set (amount := as_num (obj_get "amount" transactionData)).
  assert (Hamt : as_num (obj_get "amount" tx) = amount).
  { unfold tx. now rewrite obj_get_set_neq by discriminate. }
  assert (Hpaid : forall txs y, paid_in (txs ++ [tx])%list y
                    = paid_in txs y + (if payment_of y transactionData then amount else 0)).
  { intros txs y. rewrite paid_in_append, Hamt. unfold tx. now rewrite payment_of_set_id. }
  (* the state after the transaction row is written, from a state [w1]
     that has the transactions of [w] *)
  assert (Hwrite : forall w1,
             reliable w1 ->
             tables w1 TRANSACTIONS_COLLECTION = tables w TRANSACTIONS_COLLECTION ->
             unique_ids (tables w1 ORDERS_COLLECTION) ->
             balanced_in (tables w1 ORDERS_COLLECTION)
                         (tables w TRANSACTIONS_COLLECTION ++ [tx])%list ->
             ledger_ok
               (snd ((newTransactionRef <-
                        (detach (doc_set (mkRef TRANSACTIONS_COLLECTION (next_id w))
                                   transactionData false) ;;;
                         ret (mkRef TRANSACTIONS_COLLECTION (next_id w))) ;;
                      recalc_customer (obj_get "customerId" transactionData) ;;;
                      ret (Some (ref_id newTransactionRef))) w1))).
  { intros w1 Hr1 Ht1 Hu1 Hb1. rewrite ?bind_assoc_run.
    rewrite (snd_bind_ok _ (detach_run _ _)).
    rewrite (doc_set_fresh TRANSACTIONS_COLLECTION (next_id w) _ false w1 Hr1)
      by (unfold rows_with_id; rewrite Ht1; exact Hfresh).
    cbn [snd]. rewrite Ht1. fold tx.
    set (w2 := set_table TRANSACTIONS_COLLECTION _ w1).
    rewrite (snd_bind_ok _ (ret_run _ w2)). rewrite snd_then_ret.
    apply (same_ledger_ok w2); [now apply recalc_customer_same_ledger|].
    unfold ledger_balanced, w2.
    rewrite tables_set_table_eq, tables_set_table_neq by discriminate. auto. }
  destruct (strict_eqb (obj_get "type" transactionData) (VStr "payment")
            && truthy (obj_get "orderId" transactionData)) eqn:Econd.
  - apply andb_prop in Econd. destruct Econd as [Etype Etr].
    apply strict_eqb_VStr in Etype. specialize (Hadm Etype).
    destruct (String.eqb_spec (as_id (obj_get "orderId" transactionData)) "") as [Ex|Ex].
    + rewrite Ex, ?bind_assoc_run.
      rewrite (snd_bind_throw _ (doc_empty_id ORDERS_COLLECTION (tick w))).
      now repeat split.
    + set (x := as_id (obj_get "orderId" transactionData)) in *.
      assert (Hox : obj_get "orderId" transactionData = VStr x) by (now apply as_id_VStr).
      assert (Hpx : payment_of x transactionData = true) by (now apply payment_of_this).
      rewrite ?bind_assoc_run.
      rewrite (snd_bind_ok _ (doc_ok ORDERS_COLLECTION x (tick w) ltac:(discriminate) Ex)).
      rewrite ?bind_assoc_run.
      rewrite (snd_bind_ok _ (doc_get_reliable _ (tick w) Hr)).
      cbn [ref_collection ref_id].
      change (rows_with_id (tick w) ORDERS_COLLECTION x)
        with (rows_with_id w ORDERS_COLLECTION x).
      destruct (unique_single x _ Hu) as [Hnone|[o Ho]];
        unfold rows_with_id at 1; [rewrite Hnone|rewrite Ho].
      * rewrite (snd_bind_ok _ (ret_run tt (tick w))).
        apply Hwrite; auto.
        apply (balanced_no_order _ _ _ x Hb Hnone).
        intros y Hy _. rewrite Hpaid, (payment_of_other x y _ Hox Hy). lia.
      * specialize (Hadm o Ho). fold amount in Hadm.
        rewrite (snd_bind_ok _ (detach_run _ _)).
        rewrite doc_update_plain_reliable by (auto; reflexivity).
        cbn [snd ref_collection ref_id tables tick].
        rewrite (update_rows_replace x o _ _ Ho).
        fold amount.
        assert (Hnr : (num_or0 "remainingAmount" o - amount <? 0) = false)
          by (apply Z.ltb_ge; lia).
        rewrite Hnr.
        set (o' := obj_merge o _).
        assert (Hkeep : forall y, has_id y o' = has_id y o)
          by (intros y; unfold o'; now apply has_id_merge_noid).
        apply Hwrite.
        -- exact Hr.
        -- now rewrite tables_set_table_neq by discriminate.
        -- rewrite tables_set_table_eq. apply unique_ids_replace; [|exact Hu].
           intros r Hin E y.
           assert (H : In r (filter (has_id x) (tables w ORDERS_COLLECTION)))
             by (apply filter_In; auto).
           rewrite Ho in H. destruct H as [<-|[]]. apply Hkeep.
        -- rewrite tables_set_table_eq.
           apply (balanced_replace _ (tables w TRANSACTIONS_COLLECTION) _ x o o' Hb Ho).
           ++ rewrite Hkeep. apply (filter_single_in x o _ Ho).
           ++ intros y Hy _. rewrite Hpaid, (payment_of_other x y _ Hox Hy). lia.
           ++ intros _ Hold. rewrite Hpaid, Hpx.
              assert (Hs : obj_get "sellingPriceLYD" o' = obj_get "sellingPriceLYD" o)
                by (unfold o'; now rewrite obj_get_merge).
              unfold o' at 1. rewrite obj_get_merge. cbn [obj_find String.eqb Ascii.eqb Bool.eqb].
              rewrite (num_or0_of_VNum "remainingAmount" o _ Hold).
              unfold num_or0 at 2, get_num. rewrite Hs.
              fold (get_num "sellingPriceLYD" o). fold (num_or0 "sellingPriceLYD" o).
              f_equal. lia.
  - rewrite ?bind_assoc_run. rewrite (snd_bind_ok _ (ret_run tt (tick w))).
    apply Hwrite; auto.
    apply (balanced_same_payments _ _ _ Hb). intros y Hy.
    rewrite Hpaid.
    destruct (payment_of y transactionData) eqn:Ep; [|lia].
    exfalso. unfold payment_of in Ep. apply andb_prop in Ep. destruct Ep as [E1 E2].
    rewrite E2 in Econd. apply strict_eqb_VStr in E1. rewrite E1 in Econd.
    simpl in Econd. destruct (String.eqb_spec y ""); [contradiction|discriminate].
Qed.

Lemma create_order_preserves (orderData : object) (w : world) :
  ledger_ok w ->
  0 <= num_or0 "downPaymentLYD" orderData ->
  rows_with_id w ORDERS_COLLECTION (addOrder_order_id w orderData) = [] ->
  filter (payment_of (addOrder_order_id w orderData))
         (tables w TRANSACTIONS_COLLECTION) = [] ->
  rows_with_id w TRANSACTIONS_COLLECTION (addOrder_order_tx_id w orderData) = [] ->
  rows_with_id w TRANSACTIONS_COLLECTION (addOrder_payment_tx_id w orderData) = [] ->
  addOrder_order_tx_id w orderData <> addOrder_payment_tx_id w orderData ->
  ledger_ok (snd (addOrder orderData w)).
Proof.
  intros (Hb & Hu & Hr) Hdown Hoid Hnopay Htid1 Htid2 Hne.
  set (U := as_id (obj_get "userId" orderData)).
  destruct (String.eqb_spec U "") as [EU|HU].
  { unfold addOrder. rewrite snd_try_catch. unfold runTransaction.
    rewrite ?bind_assoc_run. fold U. rewrite EU.
    rewrite (snd_bind_throw _ (doc_empty_id USERS_COLLECTION w)). now repeat split. }
  destruct (rows_with_id w USERS_COLLECTION U) as [|user [|user' l]] eqn:Huser.
  1,3: unfold addOrder; rewrite snd_try_catch; unfold runTransaction;
    rewrite ?bind_assoc_run; fold U;
    rewrite (snd_bind_ok _ (doc_ok USERS_COLLECTION U w ltac:(discriminate) HU));
    rewrite ?bind_assoc_run; cbn [tx_get the_transaction];
    rewrite (snd_bind_ok _ (doc_get_reliable _ w Hr)); cbn [ref_collection ref_id];
    rewrite Huser; rewrite (snd_bind_throw _ (throw_run _ w)); now repeat split.
  destruct (addOrder_effect w orderData user Hr HU Huser Hoid Htid1 Htid2 Hne)
    as (order & orderTx & payTx & user1 & debt & count & w' & Hrun & Hr' & Hto & Htt
        & _ & _ & Hord & Hotx & Hptx & _).
  set (oid := addOrder_order_id w orderData) in *.
  rewrite Hrun. cbn [snd].
  destruct Hord as (Hoi & _ & Hos & Hor).
  destruct Hotx as (_ & _ & Hot & _). destruct Hptx as (_ & Hpo & Hpt & Hpa).
  assert (Hnew : forall y,
             paid_in (orderTx :: (if 0 <? num_or0 "downPaymentLYD" orderData
                                  then [payTx] else [])) y
             = if (y =? oid)%string then num_or0 "downPaymentLYD" orderData else 0).
  { intros y. rewrite paid_in_cons.
    assert (E : payment_of y orderTx = false).
    { unfold payment_of. rewrite Hot. simpl. apply andb_false_r. }
    rewrite E. destruct (0 <? num_or0 "downPaymentLYD" orderData) eqn:Epos.
    - rewrite paid_in_cons. change (paid_in [] y) with 0.
      unfold payment_of. rewrite Hpo, Hpt, Hpa, as_num_num_or0. simpl.
      rewrite andb_true_r, (String.eqb_sym oid y).
      destruct (y =? oid)%string; lia.
    - change (paid_in [] y) with 0. apply Z.ltb_ge in Epos.
      destruct (y =? oid)%string; lia. }
  split; [|split; [|exact Hr']].
  - unfold ledger_balanced. rewrite Hto, Htt.
    intros o y Hin Hid Hy. rewrite paid_in_app, Hnew.
    apply in_app_or in Hin. destruct Hin as [Hin|[<-|[]]].
    + destruct (String.eqb_spec y oid) as [->|Hyo].
      * exfalso. assert (H : In o (rows_with_id w ORDERS_COLLECTION oid)).
        { apply filter_In. split; [exact Hin|]. now apply has_id_iff. }
        rewrite Hoid in H. destruct H.
      * rewrite Z.add_0_r. now apply Hb.
    + assert (y = oid) by congruence. subst y. rewrite String.eqb_refl.
      unfold paid_in at 1. rewrite Hnopay. simpl.
      rewrite Hor. unfold num_or0 at 3, get_num. rewrite Hos.
      fold (get_num "sellingPriceLYD" orderData).
      fold (num_or0 "sellingPriceLYD" orderData). reflexivity.
  - rewrite Hto. now apply (unique_ids_app_fresh oid).
Qed.

(** The ledger equation survives every admissible operation. *)
Lemma ledger_step (op : ledger_op) (w : world) :
  ledger_ok w -> admissible w op -> ledger_ok (after op w).
Proof.
  intros Hok Hadm. destruct op; cbn [after admissible] in *.
  - destruct Hadm as (H1 & H2 & H3 & H4 & H5 & H6).
    now apply create_order_preserves.
  - now apply weight_preserves.
  - now apply shipping_preserves.
  - destruct Hadm as (H1 & H2). now apply add_transaction_preserves.
  - now apply update_payment_preserves.
  - now apply delete_payment_preserves.
Qed.

(** C2, as the specification words it, does not hold after order creation:
    [addOrder] records the down payment as a [payment] transaction of the
    order.  For selling price 1000 and down payment 200 the order is left
    with 800, its payment transactions sum to 200, and
    1000 - 200 - 200 is not 800. *)
Lemma spec_equation_fails_after_creation :
  let w' := snd (addOrder order_1000_200 world_new_user) in
  ledger_lines w' = [(1000, 200, 200, 800)]
  /\ map (spec_equation_holds w') (tables w' ORDERS_COLLECTION) = [false].
Proof. split; reflexivity. Qed.

(** [addTransaction] floors the remaining amount at 0: a payment of 900
    against 800 leaves 0, and the payments (200 + 900) exceed the price. *)
Example overpayment_is_floored :
  ledger_lines (snd (addTransaction payment_900
                       (snd (addOrder order_1000_200 world_new_user))))
  = [(1000, 200, 1100, 0)].
Proof. reflexivity. Qed.

(** The scenario of the specification: after a payment of 300 the order is
    left with 500. *)
Example payment_300_leaves_500 :
  ledger_lines (snd (addTransaction payment_300
                       (snd (addOrder order_1000_200 world_new_user))))
  = [(1000, 200, 500, 500)].
Proof. reflexivity. Qed.

(** C2 (amended): for whole-number amounts, weights, prices and rates,
    small enough for the arithmetic of the code to be exact, and with the
    down payment counted among the payment transactions,
    [remainingAmount = sellingPriceLYD - sum of the order's payment
    transactions] holds for every order with a non-empty identifier after
    each of: order creation with a non-negative down payment, a weight
    adjustment, a shipping-cost adjustment, the addition of a transaction
    (a payment not exceeding the remaining amount), the amendment and the
    deletion of a payment transaction; on a store that answers, with order
    identifiers unique and generated identifiers new.  And the order that
    [addOrder] creates for an existing user is in the table and satisfies
    the equation. *)
Theorem ledger_equation_is_maintained :
  (forall (w : world) (op : ledger_op),
      ledger_ok w -> admissible w op -> exact_amounts w op ->
      ledger_ok (after op w))
  /\
  (forall (w : world) (orderData user : object),
      ledger_ok w -> admissible w (CreateOrder orderData) ->
      exact_amounts w (CreateOrder orderData) ->
      as_id (obj_get "userId" orderData) <> "" ->
      rows_with_id w USERS_COLLECTION (as_id (obj_get "userId" orderData)) = [user] ->
      addOrder_order_id w orderData <> "" ->
      exists order,
        rows_with_id (after (CreateOrder orderData) w) ORDERS_COLLECTION
          (addOrder_order_id w orderData) = [order]
        /\ obj_get "remainingAmount" order
           = VNum (num_or0 "sellingPriceLYD" orderData
                   - num_or0 "downPaymentLYD" orderData)
        /\ obj_get "remainingAmount" order
           = VNum (num_or0 "sellingPriceLYD" order
                   - paid_total (after (CreateOrder orderData) w)
                       (addOrder_order_id w orderData))).
Proof.
  split; [intros w op Hok Hadm _; now apply ledger_step|].
  intros w orderData user Hok Hadm _ HU Huser Hoid.
  assert (Hok' := ledger_step (CreateOrder orderData) w Hok Hadm).
  destruct Hok as (Hb & Hu & Hr).
  destruct Hadm as (Hdown & Hfresh & Hnopay & Htid1 & Htid2 & Hne).
  destruct (addOrder_effect w orderData user Hr HU Huser Hfresh Htid1 Htid2 Hne)
    as (order & orderTx & payTx & user1 & debt & count & w' & Hrun & Hr' & Hto & Htt
        & _ & _ & (Hoi & _ & _ & Hor) & _).
  cbn [after] in *. rewrite Hrun in *. cbn [snd] in *.
  exists order. split; [|split; [exact Hor|]].
  - unfold rows_with_id. rewrite Hto.
    apply filter_app_single; [exact Hfresh|now apply has_id_iff].
  - destruct Hok' as (Hb' & _). apply Hb'; auto.
    rewrite Hto. apply in_or_app. right. now left.
Qed.

Lemma world_new_user_ledger_ok : ledger_ok world_new_user.
Proof.
  split; [|split].
  - intros o y Hin. destruct Hin.
  - intros id. apply Nat.le_0_l.
  - reflexivity.
Defined.

Lemma create_order_1000_200_admissible :
  admissible world_new_user (CreateOrder order_1000_200).
Proof.
  cbn [admissible]. split; [discriminate|].
  repeat split; try reflexivity. discriminate.
Defined.

Lemma small_numbers_of (r : object) :
  Forall (fun p => match snd p with VNum n => small n | _ => True end) r ->
  small_numbers r.
Proof.
  induction 1 as [|[k' v] r Hv _ IH]; intros k n Hk; cbn [obj_get] in Hk.
  - discriminate Hk.
  - destruct (k =? k')%string; [|now apply (IH k)].
    subst v. exact Hv.
Qed.

Lemma create_order_1000_200_exact :
  exact_amounts world_new_user (CreateOrder order_1000_200).
Proof.
  split.
  - intros c r Hin.
    unfold world_new_user, sample_world, store_of in Hin.
    cbn [tables find fst snd] in Hin.
    destruct (USERS_COLLECTION =? c)%string; [|destruct Hin].
    cbn [snd] in Hin. destruct Hin as [<-|[]].
    apply small_numbers_of.
    repeat constructor; unfold small; cbn; lia.
  - cbn beta iota. apply small_numbers_of.
    repeat constructor; unfold small; cbn; lia.
Defined.

(** On the sample state: the order 1000/200 is created and satisfies the
    equation, 800 = 1000 - 200. *)
Lemma ledger_equation_is_maintained_witness :
  ledger_ok (after (CreateOrder order_1000_200) world_new_user)
  /\ ledger_lines (after (CreateOrder order_1000_200) world_new_user)
     = [(1000, 200, 200, 800)].
Proof.
  split; [|reflexivity].
  apply (proj1 ledger_equation_is_maintained world_new_user (CreateOrder order_1000_200)).
  - exact world_new_user_ledger_ok.
  - exact create_order_1000_200_admissible.
  - exact create_order_1000_200_exact.
Defined.

(* ------------------------------------------------------------------ *)
(** ** Assignment counts: the single-order operations *)

Lemma count_assigned_cons (o : object) (orders : table) (y : string) :
  count_assigned (o :: orders) y
  = b2z (assigned_to (VStr y) o) + count_assigned orders y.
Proof.
  unfold count_assigned, b2z. simpl filter.
  destruct (assigned_to (VStr y) o); [cbn [List.length]; rewrite Nat2Z.inj_succ|]; lia.
Qed.

Lemma replace_none (id : string) (o' : object) (t : table) :
  filter (has_id id) t = [] ->
  map (fun r => if has_id id r then o' else r) t = t.
Proof.
  induction t as [|r t IH]; [reflexivity|]. simpl.
  destruct (has_id id r); [discriminate|]. intros H. now rewrite IH.
Qed.

(** Replacing the one order [o] by [o']. *)
Lemma count_assigned_replace (oid y : string) (o o' : object) (orders : table) :
  filter (has_id oid) orders = [o] ->
  count_assigned (map (fun r => if has_id oid r then o' else r) orders) y
  = count_assigned orders y - b2z (assigned_to (VStr y) o)
    + b2z (assigned_to (VStr y) o').
Proof.
  induction orders as [|r t IH]; [discriminate|]. simpl filter.
  destruct (has_id oid r) eqn:E.
  - intros [= -> Hnil]. simpl map. rewrite E, (replace_none oid o' t Hnil).
    rewrite !count_assigned_cons. lia.
  - intros H. simpl map. rewrite E, !count_assigned_cons, (IH H). lia.
Qed.

(** Deleting the one order [o]. *)
Lemma count_assigned_delete (oid y : string) (o : object) (orders : table) :
  filter (has_id oid) orders = [o] ->
  count_assigned (delete_rows oid orders) y
  = count_assigned orders y - b2z (assigned_to (VStr y) o).
Proof.
  induction orders as [|r t IH]; [discriminate|]. simpl filter.
  destruct (has_id oid r) eqn:E.
  - intros [= -> Hnil]. unfold delete_rows. simpl filter. rewrite E. simpl.
    fold (delete_rows oid t). rewrite (delete_rows_none oid t Hnil).
    rewrite count_assigned_cons. lia.
  - intros H. unfold delete_rows. simpl filter. rewrite E. simpl.
    fold (delete_rows oid t). rewrite !count_assigned_cons, (IH H). lia.
Qed.

(** An increment of [assignedOrders] on the representative [r], against a
    change of the orders that moves the count of [r] by as much. *)
Lemma rep_increment_step (r : string) (d : Z) (w : world) :
  reliable w -> unique_ids (tables w REPRESENTATIVES_COLLECTION) ->
  let w' := snd (doc_update (mkRef REPRESENTATIVES_COLLECTION r)
                            [("assignedOrders", increment d)] w) in
  reliable w'
  /\ (forall c, c <> REPRESENTATIVES_COLLECTION -> tables w' c = tables w c)
  /\ unique_ids (tables w' REPRESENTATIVES_COLLECTION)
  /\ forall orders orders',
       reps_consistent_in (tables w REPRESENTATIVES_COLLECTION) orders ->
       (forall y, y <> r -> y <> "" -> count_assigned orders' y = count_assigned orders y) ->
       count_assigned orders' r = count_assigned orders r + d ->
       reps_consistent_in (tables w' REPRESENTATIVES_COLLECTION) orders'.
Proof.
  intros Hr Hu w'.
  destruct (unique_single r _ Hu) as [Hnone|[rep Hrep]].
  - unfold w'. rewrite doc_update_fetch_missing by (auto; reflexivity).
    cbn [snd]. repeat split; auto.
    intros orders orders' Hc Hother _ rep y Hin Hid Hy.
    rewrite Hother; [now apply Hc| |exact Hy].
    intros ->. assert (H : In rep (filter (has_id r) (tables w REPRESENTATIVES_COLLECTION))).
    { apply filter_In. split; [exact Hin|]. now apply has_id_iff. }
    rewrite Hnone in H. destruct H.
  - destruct (doc_update_increment w (mkRef REPRESENTATIVES_COLLECTION r) rep [] []
                "assignedOrders" d Hr Hrep) as (rep' & Hrun & Hcnt & Hkeep).
    { intros k [<-|[]]. reflexivity. }
    { simpl. tauto. }
    { simpl. tauto. }
    simpl app in Hrun, Hkeep. cbn [ref_collection ref_id] in Hrun.
    unfold w'. rewrite Hrun. cbn [snd].
    assert (Hid : forall y, has_id y rep' = has_id y rep).
    { intros y. unfold has_id. rewrite Hkeep; [reflexivity|].
      simpl. intros [H|[]]. discriminate H. }
    destruct (filter_single_in r rep _ Hrep) as [Hin Hidr].
    split; [exact Hr|]. split; [|split].
    + intros c Hc. now apply tables_set_table_neq.
    + rewrite tables_set_table_eq. apply unique_ids_replace; [|exact Hu].
      intros x Hx E y.
      assert (H : In x (filter (has_id r) (tables w REPRESENTATIVES_COLLECTION)))
        by (apply filter_In; auto).
      rewrite Hrep in H. destruct H as [<-|[]]. apply Hid.
    + intros orders orders' Hc Hother Hthis. rewrite tables_set_table_eq.
      intros x y Hx Hxid Hy. apply in_map_iff in Hx. destruct Hx as [x0 [Hx0 Hin0]].
      destruct (has_id r x0) eqn:E; subst x.
      * assert (y = r).
        { assert (H1 : has_id y rep' = true) by (now apply has_id_iff).
          rewrite Hid in H1. apply has_id_iff in H1.
          pose proof (proj1 (has_id_iff r rep) Hidr) as H2. congruence. }
        subst y. rewrite Hcnt, Hthis.
        rewrite (Hc rep r Hin (proj1 (has_id_iff r rep) Hidr) Hy).
        unfold number_or0, js_Number. reflexivity.
      * rewrite Hother; [now apply Hc| |exact Hy].
        intros ->. apply has_id_iff in Hxid. congruence.
Qed.

Lemma reps_same_counts (reps orders orders' : table) :
  reps_consistent_in reps orders ->
  (forall y, y <> "" -> count_assigned orders' y = count_assigned orders y) ->
  reps_consistent_in reps orders'.
Proof.
  intros Hc Hsame rep y Hin Hid Hy. rewrite Hsame by exact Hy. now apply Hc.
Qed.

Lemma strict_eqb_falsy (v : value) (y : string) :
  truthy v = false -> y <> "" -> strict_eqb v (VStr y) = false.
Proof.
  intros H Hy. destruct v as [|b|n|s|xs|o]; simpl in *; try reflexivity.
  destruct (String.eqb_spec s y) as [->|]; [|reflexivity].
  destruct (String.eqb_spec y ""); [contradiction|discriminate].
Qed.

Lemma strict_eqb_not_id (v : value) (y : string) :
  as_id v = "" -> y <> "" -> strict_eqb v (VStr y) = false.
Proof.
  intros H Hy. destruct v as [|b|n|s|xs|o]; simpl in *; try reflexivity.
  subst s. destruct (String.eqb_spec "" y); [congruence|reflexivity].
Qed.

Lemma strict_eqb_other (r y : string) :
  y <> r -> strict_eqb (VStr r) (VStr y) = false.
Proof. intros H. simpl. destruct (String.eqb_spec r y); [congruence|reflexivity]. Qed.

Lemma strict_eqb_same (r : string) : strict_eqb (VStr r) (VStr r) = true.
Proof. simpl. apply String.eqb_refl. Qed.

Lemma commit_then_ret_state (b : batch) (w : world) :
  snd ((batch_commit b ;;; ret true) w) = w.
Proof. unfold batch_commit. now destruct b. Qed.

(** The representative that loses the order: after the decrement, the
    counts are those of the orders with the order [o] unassigned. *)
Lemma release_step (orderId : string) (o : object) (w : world) :
  reps_consistent_in (tables w REPRESENTATIVES_COLLECTION) (tables w ORDERS_COLLECTION) ->
  unique_ids (tables w REPRESENTATIVES_COLLECTION) ->
  reliable w ->
  filter (has_id orderId) (tables w ORDERS_COLLECTION) = [o] ->
  truthy (obj_get "representativeId" o) = true ->
  as_id (obj_get "representativeId" o) <> "" ->
  let w1 := snd (doc_update
                   (mkRef REPRESENTATIVES_COLLECTION
                      (as_id (obj_get "representativeId" o)))
                   [("assignedOrders", increment (-1))] w) in
  reliable w1
  /\ (forall c, c <> REPRESENTATIVES_COLLECTION -> tables w1 c = tables w c)
  /\ unique_ids (tables w1 REPRESENTATIVES_COLLECTION)
  /\ forall orders',
       (forall y, y <> "" ->
                  count_assigned orders' y
                  = count_assigned (tables w ORDERS_COLLECTION) y
                    - b2z (assigned_to (VStr y) o)) ->
       reps_consistent_in (tables w1 REPRESENTATIVES_COLLECTION) orders'.
Proof.
  intros Hc Hur Hr Ho Htr Hid w1.
  set (r1 := as_id (obj_get "representativeId" o)) in *.
  assert (Hv : obj_get "representativeId" o = VStr r1) by (now apply as_id_VStr).
  destruct (rep_increment_step r1 (-1) w Hr Hur) as (Hr1 & Hfr & Hu1 & Hstep).
  fold w1 in Hr1, Hfr, Hu1, Hstep.
  repeat split; auto.
  intros orders' Hcount. apply (Hstep (tables w ORDERS_COLLECTION) orders' Hc).
  - intros y Hy Hy'. rewrite Hcount by exact Hy'.
    unfold assigned_to. rewrite Hv, (strict_eqb_other r1 y Hy). simpl. lia.
  - rewrite Hcount by exact Hid.
    unfold assigned_to. rewrite Hv, strict_eqb_same. simpl. lia.
Qed.

(** The first step of an assignment and of a deletion: the representative
    who has the order, if any, gives it up. *)
Lemma release_phase (orderId : string) (o : object) (w : world) :
  reps_consistent_in (tables w REPRESENTATIVES_COLLECTION) (tables w ORDERS_COLLECTION) ->
  unique_ids (tables w REPRESENTATIVES_COLLECTION) ->
  reliable w ->
  filter (has_id orderId) (tables w ORDERS_COLLECTION) = [o] ->
  (truthy (obj_get "representativeId" o) = true
   /\ as_id (obj_get "representativeId" o) = "")
  \/ exists b1 w1,
       (if truthy (obj_get "representativeId" o) then
          oldRepRef <- doc REPRESENTATIVES_COLLECTION
                         (as_id (obj_get "representativeId" o)) ;;
          batch_update writeBatch oldRepRef [("assignedOrders", increment (-1))]
        else ret writeBatch) w = (Ok b1, w1)
       /\ reliable w1
       /\ (forall c, c <> REPRESENTATIVES_COLLECTION -> tables w1 c = tables w c)
       /\ unique_ids (tables w1 REPRESENTATIVES_COLLECTION)
       /\ forall orders2,
            (forall y, y <> "" ->
               count_assigned orders2 y
               = count_assigned (tables w ORDERS_COLLECTION) y
                 - b2z (assigned_to (VStr y) o)) ->
            reps_consistent_in (tables w1 REPRESENTATIVES_COLLECTION) orders2.
Proof.
  intros Hc Hur Hr Ho. set (v := obj_get "representativeId" o).
  destruct (truthy v) eqn:Etr.
  - destruct (String.eqb_spec (as_id v) "") as [Ev|Ev]; [left; auto|right].
    rewrite (bind_ok _ (doc_ok REPRESENTATIVES_COLLECTION (as_id v) w
                          ltac:(discriminate) Ev)).
    unfold batch_update.
    destruct (batch_push_run writeBatch
                (doc_update (mkRef REPRESENTATIVES_COLLECTION (as_id v))
                   [("assignedOrders", increment (-1))]) w) as [b1 Hb1].
    rewrite Hb1. eexists. eexists. split; [reflexivity|].
    apply (release_step orderId o w Hc Hur Hr Ho Etr Ev).
  - right. exists writeBatch, w. split; [reflexivity|].
    repeat split; auto. intros orders2 Hcnt.
    apply (reps_same_counts _ _ _ Hc). intros y Hy. rewrite Hcnt by exact Hy.
    unfold assigned_to. fold v. rewrite (strict_eqb_falsy v y Etr Hy). simpl. lia.
Qed.

Lemma assign_preserves (orderId : string) (rep : object) (w : world) :
  assignments_ok w ->
  plain_representative rep ->
  assignments_ok (snd (assignRepresentativeToOrder orderId rep w)).
Proof.
  intros (Hc & Hur & Huo & Hr) (Hp1 & Hp2). unfold assignRepresentativeToOrder.
  rewrite snd_try_catch.
  destruct (String.eqb_spec orderId "") as [->|Hid].
  { rewrite (snd_bind_throw _ (doc_empty_id ORDERS_COLLECTION w)). now repeat split. }
  rewrite (snd_bind_ok _ (doc_ok ORDERS_COLLECTION orderId w ltac:(discriminate) Hid)).
  unfold getDoc at 1.
  rewrite (snd_bind_ok _ (doc_get_reliable _ w Hr)). cbn [ref_collection ref_id].
  destruct (unique_single orderId _ Huo) as [Hnone|[o Ho]];
    unfold rows_with_id at 1; [rewrite Hnone|rewrite Ho].
  { now repeat split. }
  set (v := obj_get "representativeId" o).
  set (data := [("representativeId", obj_get "id" rep);
                ("representativeName", obj_get "name" rep);
                ("status", VStr "out_for_delivery")]).
  set (o' := obj_merge o data).
  set (orders' := map (fun r => if has_id orderId r then o' else r)
                      (tables w ORDERS_COLLECTION)).
  assert (Hcount : forall y,
             count_assigned orders' y
             = count_assigned (tables w ORDERS_COLLECTION) y
               - b2z (assigned_to (VStr y) o)
               + b2z (strict_eqb (obj_get "id" rep) (VStr y))).
  { intros y. unfold orders'. rewrite (count_assigned_replace orderId y o o' _ Ho).
    unfold assigned_to at 2, o', data. now rewrite obj_get_merge. }
  assert (Huo' : unique_ids orders').
  { apply unique_ids_replace; [|exact Huo]. intros r Hin E x.
    assert (H : In r (filter (has_id orderId) (tables w ORDERS_COLLECTION)))
      by (apply filter_In; auto).
    rewrite Ho in H. destruct H as [<-|[]]. unfold o'. now apply has_id_merge_noid. }
  destruct (release_phase orderId o w Hc Hur Hr Ho) as [[Etr Ev]|(b1 & w1 & Hrun1 & Hr1 & Hfr1 & Hur1 & Hc1)];
    fold v in Etr, Ev || fold v in Hrun1.
  { rewrite Etr, Ev, ?bind_assoc_run.
    rewrite (snd_bind_throw _ (doc_empty_id REPRESENTATIVES_COLLECTION w)).
    now repeat split. }
  rewrite (snd_bind_ok _ Hrun1). clear Hrun1.
  (* the order *)
  unfold batch_update at 1.
  destruct (batch_push_run b1 (doc_update (mkRef ORDERS_COLLECTION orderId) data) w1)
    as [b2 Hb2].
  rewrite (snd_bind_ok _ Hb2). clear Hb2.
  rewrite doc_update_plain_reliable
    by (auto; unfold needs_fetch, data; simpl; now rewrite Hp1, Hp2).
  cbn [snd ref_collection ref_id]. rewrite (Hfr1 ORDERS_COLLECTION) by discriminate.
  rewrite (update_rows_replace orderId o data _ Ho). fold o' orders'.
  set (w2 := set_table ORDERS_COLLECTION orders' w1).
  assert (Hr2 : reliable w2) by exact Hr1.
  assert (Ht2r : tables w2 REPRESENTATIVES_COLLECTION = tables w1 REPRESENTATIVES_COLLECTION)
    by (unfold w2; now rewrite tables_set_table_neq by discriminate).
  assert (Ht2o : tables w2 ORDERS_COLLECTION = orders')
    by (unfold w2; now rewrite tables_set_table_eq).
  (* the new representative *)
  destruct (String.eqb_spec (as_id (obj_get "id" rep)) "") as [E2|E2].
  { rewrite E2. rewrite (snd_bind_throw _ (doc_empty_id REPRESENTATIVES_COLLECTION w2)).
    split; [|split; [now rewrite Ht2r|split; [now rewrite Ht2o|exact Hr2]]].
    rewrite Ht2r, Ht2o. apply Hc1. intros y Hy.
    rewrite Hcount, (strict_eqb_not_id _ y E2 Hy). simpl. lia. }
  set (r2 := as_id (obj_get "id" rep)) in *.
  assert (Hv2 : obj_get "id" rep = VStr r2) by (now apply as_id_VStr).
  rewrite (snd_bind_ok _ (doc_ok REPRESENTATIVES_COLLECTION r2 w2 ltac:(discriminate) E2)).
  unfold batch_update.
  destruct (batch_push_run b2
              (doc_update (mkRef REPRESENTATIVES_COLLECTION r2)
                 [("assignedOrders", increment 1)]) w2) as [b3 Hb3].
  rewrite (snd_bind_ok _ Hb3). clear Hb3.
  rewrite commit_then_ret_state.
  destruct (rep_increment_step r2 1 w2 Hr2) as (Hr3 & Hfr3 & Hur3 & Hstep3).
  { now rewrite Ht2r. }
  set (w3 := snd (doc_update _ _ w2)) in *.
  set (mid := map (fun r => if has_id orderId r
                            then obj_set "representativeId" VNull o else r)
                  (tables w ORDERS_COLLECTION)).
  assert (Hmid : forall y,
             count_assigned mid y
             = count_assigned (tables w ORDERS_COLLECTION) y
               - b2z (assigned_to (VStr y) o)).
  { intros y. unfold mid. rewrite (count_assigned_replace orderId y o _ _ Ho).
    unfold assigned_to at 2. rewrite obj_get_set_eq. simpl. lia. }
  split; [|split; [exact Hur3|split; [|exact Hr3]]].
  - rewrite (Hfr3 ORDERS_COLLECTION) by discriminate. rewrite Ht2o.
    apply (Hstep3 mid orders').
    + rewrite Ht2r. apply Hc1. intros y _. apply Hmid.
    + intros y Hy _. rewrite Hcount, Hmid, Hv2, (strict_eqb_other r2 y Hy). simpl. lia.
    + rewrite Hcount, Hmid, Hv2, strict_eqb_same. simpl. lia.
  - rewrite (Hfr3 ORDERS_COLLECTION) by discriminate. now rewrite Ht2o.
Qed.

Lemma unassign_preserves (orderId : string) (w : world) :
  assignments_ok w ->
  assignments_ok (snd (unassignRepresentativeFromOrder orderId w)).
Proof.
  intros (Hc & Hur & Huo & Hr). unfold unassignRepresentativeFromOrder.
  rewrite snd_try_catch.
  destruct (String.eqb_spec orderId "") as [->|Hid].
  { rewrite (snd_bind_throw _ (doc_empty_id ORDERS_COLLECTION w)). now repeat split. }
  rewrite (snd_bind_ok _ (doc_ok ORDERS_COLLECTION orderId w ltac:(discriminate) Hid)).
  unfold getDoc at 1.
  rewrite (snd_bind_ok _ (doc_get_reliable _ w Hr)). cbn [ref_collection ref_id].
  destruct (unique_single orderId _ Huo) as [Hnone|[o Ho]];
    unfold rows_with_id at 1; [rewrite Hnone|rewrite Ho].
  { now repeat split. }
  destruct (truthy (obj_get "representativeId" o)) eqn:Etr; cbn [negb];
    [|now repeat split].
  destruct (String.eqb_spec (as_id (obj_get "representativeId" o)) "") as [Ev|Ev].
  { rewrite Ev. rewrite (snd_bind_throw _ (doc_empty_id REPRESENTATIVES_COLLECTION w)).
    now repeat split. }
  rewrite (snd_bind_ok _ (doc_ok REPRESENTATIVES_COLLECTION _ w ltac:(discriminate) Ev)).
  unfold batch_update.
  destruct (batch_push_run writeBatch
              (doc_update (mkRef REPRESENTATIVES_COLLECTION
                             (as_id (obj_get "representativeId" o)))
                 [("assignedOrders", increment (-1))]) w) as [b1 Hb1].
  rewrite (snd_bind_ok _ Hb1). clear Hb1.
  destruct (release_step orderId o w Hc Hur Hr Ho Etr Ev) as (Hr1 & Hfr1 & Hur1 & Hc1).
  set (w1 := snd (doc_update _ _ w)) in *.
  set (data := [("representativeId", VNull); ("representativeName", VNull);
                ("status", VStr "ready")]).
  destruct (batch_push_run b1 (doc_update (mkRef ORDERS_COLLECTION orderId) data) w1)
    as [b2 Hb2].
  rewrite (snd_bind_ok _ Hb2). clear Hb2.
  rewrite commit_then_ret_state.
  rewrite doc_update_plain_reliable by (auto; reflexivity).
  cbn [snd ref_collection ref_id]. rewrite (Hfr1 ORDERS_COLLECTION) by discriminate.
  rewrite (update_rows_replace orderId o data _ Ho).
  split; [|split; [|split; [|exact Hr1]]].
  - rewrite tables_set_table_eq, tables_set_table_neq by discriminate.
    apply Hc1. intros y Hy.
    rewrite (count_assigned_replace orderId y o _ _ Ho).
    unfold assigned_to at 2. rewrite obj_get_merge. simpl. lia.
  - now rewrite tables_set_table_neq by discriminate.
  - rewrite tables_set_table_eq. apply unique_ids_replace; [|exact Huo].
    intros r Hin E x.
    assert (H : In r (filter (has_id orderId) (tables w ORDERS_COLLECTION)))
      by (apply filter_In; auto).
    rewrite Ho in H. destruct H as [<-|[]]. now apply has_id_merge_noid.
Qed.

Lemma recalculateUserStats_frame (U : string) (w : world) :
  reliable w ->
  reliable (snd (recalculateUserStats U w))
  /\ forall c, c <> USERS_COLLECTION ->
               tables (snd (recalculateUserStats U w)) c = tables w c.
Proof.
  intros Hr. destruct (String.eqb_spec U "") as [->|HU].
  - unfold recalculateUserStats, try_catch.
    rewrite (bind_throw _ (doc_empty_id USERS_COLLECTION w)). now split.
  - rewrite (recalculateUserStats_reliable U w Hr HU). cbn [snd]. split; [exact Hr|].
    intros c Hc. now apply tables_set_table_neq.
Qed.

Lemma delete_transactions_frame (rows : list object) (b : batch) (w : world) :
  reliable w ->
  exists b' w',
    foldM (fun b d => batch_delete b (row_ref TRANSACTIONS_COLLECTION d)) b rows w
    = (Ok b', w')
    /\ reliable w'
    /\ forall c, c <> TRANSACTIONS_COLLECTION -> tables w' c = tables w c.
Proof.
  revert b w. induction rows as [|d rows IH]; intros b w Hr.
  - exists b, w. repeat split; auto.
  - cbn [foldM]. unfold batch_delete at 1.
    destruct (batch_push_run b (doc_delete (row_ref TRANSACTIONS_COLLECTION d)) w)
      as [b1 Hb1].
    rewrite (bind_ok _ Hb1). rewrite (doc_delete_reliable _ w Hr). cbn [snd].
    set (w1 := set_table _ _ w).
    destruct (IH b1 w1 Hr) as (b' & w' & Hrun & Hr' & Hfr).
    exists b', w'. split; [exact Hrun|]. split; [exact Hr'|].
    intros c Hc. rewrite Hfr by exact Hc. unfold w1.
    now apply tables_set_table_neq.
Qed.

Lemma unique_ids_delete (id : string) (t : table) :
  unique_ids t -> unique_ids (delete_rows id t).
Proof.
  intros Hu x. specialize (Hu x). unfold delete_rows.
  rewrite filter_filter.
  assert (H : forall l : table,
             (List.length (filter (fun r => negb (has_id id r) && has_id x r) l)
              <= List.length (filter (has_id x) l))%nat).
  { induction l as [|r l IH]; simpl; [lia|].
    destruct (has_id x r), (has_id id r); simpl; lia. }
  specialize (H t). lia.
Qed.

Lemma delete_order_preserves (orderId : string) (w : world) :
  assignments_ok w ->
  assignments_ok (snd (deleteOrder orderId w)).
Proof.
  intros (Hc & Hur & Huo & Hr). unfold deleteOrder.
  rewrite snd_try_catch.
  destruct (String.eqb_spec orderId "") as [->|Hid].
  { rewrite (snd_bind_throw _ (doc_empty_id ORDERS_COLLECTION w)). now repeat split. }
  rewrite (snd_bind_ok _ (doc_ok ORDERS_COLLECTION orderId w ltac:(discriminate) Hid)).
  unfold getDoc at 1.
  rewrite (snd_bind_ok _ (doc_get_reliable _ w Hr)). cbn [ref_collection ref_id].
  destruct (unique_single orderId _ Huo) as [Hnone|[o Ho]];
    unfold rows_with_id at 1; [rewrite Hnone|rewrite Ho].
  { now repeat split. }
  destruct (release_phase orderId o w Hc Hur Hr Ho)
    as [[Etr Ev]|(b1 & w1 & Hrun1 & Hr1 & Hfr1 & Hur1 & Hc1)].
  { rewrite Etr, Ev, ?bind_assoc_run.
    rewrite (snd_bind_throw _ (doc_empty_id REPRESENTATIVES_COLLECTION w)).
    now repeat split. }
  rewrite (snd_bind_ok _ Hrun1). clear Hrun1.
  unfold getDocs, query.
  rewrite (snd_bind_ok _ (adapter_query_reliable _ _ w1 Hr1)).
  destruct (delete_transactions_frame
              (filter (filters_hold (build_filters [where_ "orderId" "==" (VStr orderId)]))
                      (tables w1 TRANSACTIONS_COLLECTION)) b1 w1 Hr1)
    as (b2 & w2 & Hrun2 & Hr2 & Hfr2).
  rewrite (snd_bind_ok _ Hrun2). clear Hrun2.
  unfold batch_delete.
  destruct (batch_push_run b2 (doc_delete (mkRef ORDERS_COLLECTION orderId)) w2)
    as [b3 Hb3].
  rewrite (snd_bind_ok _ Hb3). clear Hb3.
  rewrite (doc_delete_reliable _ w2 Hr2). cbn [snd ref_collection ref_id].
  rewrite (Hfr2 ORDERS_COLLECTION), (Hfr1 ORDERS_COLLECTION) by discriminate.
  set (w3 := set_table ORDERS_COLLECTION _ w2).
  assert (Hok3 : assignments_ok w3).
  { unfold assignments_ok, w3.
    rewrite tables_set_table_eq, tables_set_table_neq by discriminate.
    rewrite (Hfr2 REPRESENTATIVES_COLLECTION) by discriminate.
    split; [|split; [exact Hur1|split; [now apply unique_ids_delete|exact Hr2]]].
    apply Hc1. intros y _. apply (count_assigned_delete orderId y o _ Ho). }
  clearbody w3.
  destruct b3 as [|e b3]; cbn [batch_commit].
  - rewrite (snd_bind_ok _ (ret_run tt w3)). rewrite snd_then_ret.
    destruct (truthy (obj_get "userId" o)); [|exact Hok3].
    destruct (recalculateUserStats_frame (as_id (obj_get "userId" o)) w3)
      as [Hr4 Hfr4]; [apply Hok3|].
    destruct Hok3 as (Hc3 & Hur3 & Huo3 & Hr3).
    unfold assignments_ok. rewrite !Hfr4 by discriminate. auto.
  - rewrite (snd_bind_throw _ (throw_run e w3)). exact Hok3.
Qed.

(** The count of every representative survives the assignment, the
    unassignment and the deletion of an order: what [bulkAssignRepresentative]
    misses is what these three do. *)
Lemma assignment_step (op : assignment_op) (w : world) :
  assignments_ok w -> admissible_assignment op ->
  assignments_ok (after_assignment op w).
Proof.
  intros Hok Hadm. destruct op; cbn [after_assignment admissible_assignment] in *.
  - now apply assign_preserves.
  - now apply unassign_preserves.
  - now apply delete_order_preserves.
Qed.

(* ------------------------------------------------------------------ *)
(** ** The pseudo-transaction runner *)

(** C7: the run of [three_steps] by the transaction runner on a reliable
    store without the user [ghost]: the first operation, a
    [transaction.set], is applied at once; the second, an increment on the
    missing user, throws, and the runner hands the error on; the state it
    leaves is the state that the first write alone leaves, with the document
    [a] in it, so the write is not undone and the third operation, the write
    of the document [b], is not run. *)
Theorem pseudo_transaction_has_no_rollback :
  forall w : world,
    reliable w ->
    rows_with_id w "users_v4" "ghost" = [] ->
    rows_with_id w "orders_v4" "a" = [] ->
    runTransaction three_steps w
    = (Throw (JsError "Document not found for update"),
       snd (tx_set the_transaction (mkRef "orders_v4" "a")
              [("status", VStr "pending")] false w))
    /\ rows_with_id (snd (runTransaction three_steps w)) "orders_v4" "a"
       = [[("status", VStr "pending"); ("id", VStr "a")]]
    /\ rows_with_id (snd (runTransaction three_steps w)) "orders_v4" "b"
       = rows_with_id w "orders_v4" "b".
Proof.
  intros w Hr Hghost Ha.
  assert (Hset : tx_set the_transaction (mkRef "orders_v4" "a")
                   [("status", VStr "pending")] false w
                 = (Ok tt,
                    set_table "orders_v4"
                      (tables w "orders_v4"
                         ++ [[("status", VStr "pending"); ("id", VStr "a")]])%list w)).
  { cbn [the_transaction tx_set]. now rewrite (doc_set_fresh _ _ _ _ w Hr Ha). }
  set (w1 := set_table "orders_v4" _ w) in Hset.
  assert (Hr1 : reliable w1) by exact Hr.
  assert (Hghost1 : rows_with_id w1 "users_v4" "ghost" = []).
  { unfold rows_with_id, w1. now rewrite tables_set_table_neq by discriminate. }
  assert (Hrun : runTransaction three_steps w
                 = (Throw (JsError "Document not found for update"), w1)).
  { unfold runTransaction, three_steps. rewrite (bind_ok _ Hset).
    cbn [the_transaction tx_update].
    now rewrite (bind_throw _ (doc_update_fetch_missing (mkRef "users_v4" "ghost")
                                 [("orderCounter", increment 1)] w1 Hr1 eq_refl Hghost1)). }
  rewrite Hrun, Hset. cbn [snd]. split; [reflexivity|]. split.
  - unfold rows_with_id, w1. rewrite tables_set_table_eq.
    now apply filter_app_single.
  - unfold rows_with_id, w1. rewrite tables_set_table_eq.
    rewrite filter_app. cbn. apply app_nil_r.
Qed.

Lemma pseudo_transaction_has_no_rollback_witness :
  runTransaction three_steps (sample_world [] [])
  = (Throw (JsError "Document not found for update"),
     snd (tx_set the_transaction (mkRef "orders_v4" "a")
            [("status", VStr "pending")] false (sample_world [] [])))
  /\ rows_with_id (snd (runTransaction three_steps (sample_world [] []))) "orders_v4" "a"
     = [[("status", VStr "pending"); ("id", VStr "a")]]
  /\ rows_with_id (snd (runTransaction three_steps (sample_world [] []))) "orders_v4" "b"
     = rows_with_id (sample_world [] []) "orders_v4" "b".
Proof.
  apply (pseudo_transaction_has_no_rollback (sample_world [] [])); reflexivity.
Defined.

(* ================================================================== *)
(** * Further properties of the shim and of the actions *)

(* ------------------------------------------------------------------ *)
(** ** The shim: round trips through a document handle *)

Lemma has_id_set_id (id : string) (data : object) :
  has_id id (obj_set "id" (VStr id) data) = true.
Proof. unfold has_id. rewrite obj_get_set_eq. simpl. apply String.eqb_refl. Qed.

Lemma has_id_other (id id' : string) (r : object) :
  id' <> id -> has_id id r = true -> has_id id' r = false.
Proof.
  intros Hne H. apply has_id_iff in H. unfold has_id. rewrite H. simpl.
  destruct (id =? id')%string eqn:E; [|reflexivity].
  apply String.eqb_eq in E. now subst.
Qed.

Lemma upsert_row_existing (id : string) (payload old : object) (t : table) :
  obj_get "id" payload = VStr id ->
  filter (has_id id) t = [old] ->
  upsert_row payload t
  = map (fun r => if has_id id r then obj_merge old payload else r) t.
Proof.
  intros Hid Hf. unfold upsert_row. rewrite Hid.
  change (fun r => strict_eqb (obj_get "id" r) (VStr id)) with (has_id id).
  assert (He : existsb (has_id id) t = true).
  { apply existsb_exists. exists old. now apply filter_single_in. }
  rewrite He. apply map_ext_in. intros r Hin.
  change (strict_eqb (obj_get "id" r) (VStr id)) with (has_id id r).
  destruct (has_id id r) eqn:E; [|reflexivity].
  assert (Hr : In r (filter (has_id id) t)) by (apply filter_In; auto).
  rewrite Hf in Hr. destruct Hr as [<-|[]]. reflexivity.
Qed.

Lemma filter_other_app (id id' : string) (row : object) (t : table) :
  has_id id' row = false ->
  filter (has_id id') (t ++ [row])%list = filter (has_id id') t.
Proof. intros H. rewrite filter_app. simpl. rewrite H. apply app_nil_r. Qed.

Lemma filter_other_replace (id id' : string) (row : object) (t : table) :
  id' <> id -> has_id id row = true ->
  filter (has_id id') (map (fun r => if has_id id r then row else r) t)
  = filter (has_id id') t.
Proof.
  intros Hne Hrow. induction t as [|r t IH]; [reflexivity|]. simpl.
  destruct (has_id id r) eqn:E.
  - rewrite (has_id_other id id' row Hne Hrow), (has_id_other id id' r Hne E). exact IH.
  - destruct (has_id id' r); now rewrite IH.
Qed.

Lemma at_most_one_row (l : list object) :
  (List.length l <= 1)%nat -> l = [] \/ exists r, l = [r].
Proof.
  destruct l as [|r [|r' l]]; simpl; intros H; [now left|right; eauto|lia].
Qed.

(** The row that [doc.set] leaves. *)
Lemma doc_set_row (w : world) (c id : string) (data : object) (merge : bool) :
  reliable w ->
  (List.length (rows_with_id w c id) <= 1)%nat ->
  exists row w',
    doc_set (mkRef c id) data merge w = (Ok tt, w')
    /\ reliable w'
    /\ rows_with_id w' c id = [row]
    /\ obj_get "id" row = VStr id
    /\ (forall k v, k <> "id" -> obj_find k data = Some v -> obj_get k row = v)
    /\ (forall k, k <> "id" -> obj_find k data = None ->
          obj_get k row
          = match rows_with_id w c id with
            | old :: _ => obj_get k old
            | [] => VNull
            end)
    /\ (forall id', id' <> id -> rows_with_id w' c id' = rows_with_id w c id')
    /\ (forall c', c' <> c -> tables w' c' = tables w c')
    /\ ticks w' = ticks w /\ entropy w' = entropy w /\ clock w' = clock w.
Proof.
  intros Hr Hlen.
  rewrite (doc_set_reliable _ data merge w Hr). cbn [ref_collection ref_id].
  set (payload := obj_set "id" (VStr id) data).
  assert (Hpid : obj_get "id" payload = VStr id) by apply obj_get_set_eq.
  assert (Hpk : forall k, k <> "id" -> obj_find k payload = obj_find k data).
  { intros k Hk. now apply obj_find_set_neq. }
  set (w' := set_table c (upsert_row payload (tables w c)) w).
  assert (Hr' : reliable w') by exact Hr.
  destruct (at_most_one_row _ Hlen) as [Hnil|[old Hold]]; unfold rows_with_id in *.
  - exists payload, w'.
    assert (Ht : tables w' c = (tables w c ++ [payload])%list).
    { unfold w'. rewrite tables_set_table_eq. now apply upsert_row_fresh with (id := id). }
    rewrite Ht, (filter_app_single id payload _ Hnil (has_id_set_id id data)), Hnil.
    repeat split; auto.
    + intros k v Hk Hf. now rewrite obj_get_find, (Hpk k Hk), Hf.
    + intros k Hk Hf. now rewrite obj_get_find, (Hpk k Hk), Hf.
    + intros id' Hne. apply filter_other_app with (id := id).
      apply has_id_other with (id := id); [exact Hne|apply has_id_set_id].
    + intros c' Hc. unfold w'. now apply tables_set_table_neq.
  - exists (obj_merge old payload), w'.
    assert (Hm : has_id id (obj_merge old payload) = true).
    { unfold has_id. rewrite obj_get_merge.
      rewrite (obj_get_find "id" payload) in Hpid.
      destruct (obj_find "id" payload); [rewrite Hpid; simpl; apply String.eqb_refl|].
      discriminate. }
    assert (Ht : tables w' c
                 = map (fun r => if has_id id r then obj_merge old payload else r)
                       (tables w c)).
    { unfold w'. rewrite tables_set_table_eq. now apply upsert_row_existing. }
    rewrite Ht, (filter_replace_single id old _ _ Hold Hm), Hold.
    repeat split; auto.
    + now apply has_id_iff.
    + intros k v Hk Hf. now rewrite obj_get_merge, (Hpk k Hk), Hf.
    + intros k Hk Hf. now rewrite obj_get_merge, (Hpk k Hk), Hf.
    + intros id' Hne. now apply filter_other_replace.
    + intros c' Hc. unfold w'. now apply tables_set_table_neq.
Qed.

(** [doc.set] followed by [doc.get]: the document exists and carries the
    identifier of the handle and every field of [data]; the fields of an
    earlier row that [data] does not bind are still there, with or without
    the [merge] option; no other document and no other table is touched. *)
Theorem set_then_get_reads_the_data :
  forall (w : world) (d : docref) (data : object) (merge : bool),
    reliable w ->
    (List.length (rows_with_id w (ref_collection d) (ref_id d)) <= 1)%nat ->
    exists row,
      doc_set d data merge w = (Ok tt, snd (doc_set d data merge w))
      /\ doc_get d (snd (doc_set d data merge w))
         = (Ok (Some row), snd (doc_set d data merge w))
      /\ obj_get "id" row = VStr (ref_id d)
      /\ (forall k v, k <> "id" -> obj_find k data = Some v -> obj_get k row = v)
      /\ (forall k, k <> "id" -> obj_find k data = None ->
            obj_get k row
            = match rows_with_id w (ref_collection d) (ref_id d) with
              | old :: _ => obj_get k old
              | [] => VNull
              end)
      /\ (forall id', id' <> ref_id d ->
            rows_with_id (snd (doc_set d data merge w)) (ref_collection d) id'
            = rows_with_id w (ref_collection d) id')
      /\ (forall c, c <> ref_collection d ->
            tables (snd (doc_set d data merge w)) c = tables w c).
Proof.
  intros w [c id] data merge Hr Hlen. cbn [ref_collection ref_id] in *.
  destruct (doc_set_row w c id data merge Hr Hlen)
    as [row [w' (Hrun & Hr' & Hrows & Hid & Hdata & Hold & Hother & Hframe & _)]].
  exists row. rewrite Hrun. cbn [snd].
  rewrite (doc_get_reliable _ w' Hr'). cbn [ref_collection ref_id]. rewrite Hrows.
  repeat split; assumption.
Qed.

Lemma set_then_get_reads_the_data_witness :
  exists row,
    doc_get (mkRef "counters" "c1")
      (snd (doc_set (mkRef "counters" "c1") [("g", VNum 7)] false world_counter))
    = (Ok (Some row),
       snd (doc_set (mkRef "counters" "c1") [("g", VNum 7)] false world_counter))
    /\ obj_get "g" row = VNum 7
    /\ obj_get "f" row = VNum 5.
Proof.
  destruct (set_then_get_reads_the_data world_counter (mkRef "counters" "c1")
              [("g", VNum 7)] false)
    as [row (_ & Hget & _ & Hdata & Hold & _)].
  - reflexivity.
  - simpl. lia.
  - exists row. split; [exact Hget|]. split.
    + apply Hdata; [discriminate|reflexivity].
    + apply (Hold "f"); [discriminate|reflexivity].
Defined.
(** [collection.add]: the generated or supplied identifier; refused when the
    identifier is taken. *)
Lemma sb_insert_reliable (c : string) (payload : object) (w : world) :
  reliable w ->
  sb_insert c payload w
  = if existsb (fun r => strict_eqb (obj_get "id" r) (obj_get "id" payload)) (tables w c)
    then (Ok true, w)
    else (Ok false, set_table c (tables w c ++ [payload])%list w).
Proof.
  intros H. unfold sb_insert. rewrite (bind_ok _ (sb_fault_reliable w H)).
  unfold bind, read_table, write_table, ret.
  now destruct (existsb _ (tables w c)).
Qed.

Lemma existsb_has_id (id : string) (t : table) :
  existsb (fun r => strict_eqb (obj_get "id" r) (VStr id)) t
  = match filter (has_id id) t with [] => false | _ => true end.
Proof.
  induction t as [|r t IH]; [reflexivity|]. simpl.
  change (strict_eqb (obj_get "id" r) (VStr id)) with (has_id id r).
  destruct (has_id id r); [reflexivity|]. exact IH.
Qed.

Lemma collection_add_reliable (c : string) (data : object) (w : world) :
  reliable w ->
  obj_find "id" data = None ->
  collection_add c data w
  = match rows_with_id w c (next_id w) with
    | [] => (Ok (obj_merge [("id", VStr (next_id w))] data),
             set_table c (tables w c ++ [obj_set "id" (VStr (next_id w)) data])%list
                       (tick w))
    | _ => (Throw StoreError, tick w)
    end.
Proof.
  intros Hr Hnoid. unfold collection_add.
  assert (Hget : obj_get "id" data = VNull) by now rewrite obj_get_find, Hnoid.
  rewrite Hget. cbn [truthy].
  rewrite bind_assoc_run.
  assert (Hrand : random_base36 w = (Ok (entropy w (ticks w)), tick w)) by reflexivity.
  rewrite (bind_ok _ Hrand). rewrite (bind_ok _ (ret_run _ _)).
  pose proof (sb_insert_reliable c (obj_set "id" (VStr (next_id w)) data) (tick w)
                (reliable_tick w Hr)) as Hins.
  rewrite obj_get_set_eq, existsb_has_id, tables_tick in Hins.
  unfold rows_with_id. fold (next_id w).
  destruct (filter (has_id (next_id w)) (tables w c));
    now rewrite (bind_ok _ Hins).
Qed.

(** [collection.add(data)] for data without an identifier, then [doc.get]
    with the identifier that was answered: when no row carries the
    generated identifier, the answer is [{ id, ...data }], the row is
    appended to the table and nothing else changes, and reading the
    document back gives the inserted row; when the identifier is taken the
    call throws the store's error and the tables are as before. *)
Theorem add_then_get_reads_the_data :
  forall (w : world) (c : string) (data : object),
    reliable w ->
    obj_find "id" data = None ->
    (rows_with_id w c (next_id w) = [] ->
       exists res,
         fst (collection_add c data w) = Ok res
         /\ obj_get "id" res = VStr (next_id w)
         /\ (forall k, k <> "id" -> obj_get k res = obj_get k data)
         /\ tables (snd (collection_add c data w)) c
            = (tables w c ++ [obj_set "id" (VStr (next_id w)) data])%list
         /\ (forall c', c' <> c -> tables (snd (collection_add c data w)) c' = tables w c')
         /\ fst (doc_get (mkRef c (next_id w)) (snd (collection_add c data w)))
            = Ok (Some (obj_set "id" (VStr (next_id w)) data)))
    /\ (rows_with_id w c (next_id w) <> [] ->
        fst (collection_add c data w) = Throw StoreError
        /\ tables (snd (collection_add c data w)) = tables w).
Proof.
  intros w c data Hr Hnoid.
  rewrite (collection_add_reliable c data w Hr Hnoid). split.
  - intros Hnil. rewrite Hnil. cbn [fst snd].
    exists (obj_merge [("id", VStr (next_id w))] data).
    split; [reflexivity|]. split.
    { rewrite obj_get_merge, Hnoid. reflexivity. }
    split.
    { intros k Hk. now apply obj_get_merge_id. }
    split; [apply tables_set_table_eq|]. split.
    { intros c' Hc. rewrite tables_set_table_neq by exact Hc. apply tables_tick. }
    rewrite doc_get_reliable by (apply reliable_set_table, reliable_tick, Hr).
    cbn [ref_collection ref_id fst]. unfold rows_with_id.
    rewrite tables_set_table_eq.
    rewrite filter_app_single; [reflexivity|exact Hnil|apply has_id_set_id].
  - intros Hne. destruct (rows_with_id w c (next_id w)); [contradiction|].
    split; reflexivity.
Qed.

Lemma add_then_get_reads_the_data_witness :
  exists res,
    fst (collection_add "counters" [("f", VNum 9)] world_counter) = Ok res
    /\ obj_get "id" res = VStr "k0q7x2m9d4"
    /\ fst (doc_get (mkRef "counters" "k0q7x2m9d4")
              (snd (collection_add "counters" [("f", VNum 9)] world_counter)))
       = Ok (Some [("f", VNum 9); ("id", VStr "k0q7x2m9d4")]).
Proof.
  destruct (proj1 (add_then_get_reads_the_data world_counter "counters"
                     [("f", VNum 9)] eq_refl eq_refl) eq_refl)
    as [res (Hres & Hid & _ & _ & _ & Hget)].
  exists res. split; [exact Hres|]. split; [exact Hid|exact Hget].
Defined.

Lemma filter_delete_rows_same (id : string) (t : table) :
  filter (has_id id) (delete_rows id t) = [].
Proof.
  unfold delete_rows. induction t as [|r t IH]; [reflexivity|]. simpl.
  destruct (has_id id r) eqn:E; simpl; [exact IH|]. now rewrite E.
Qed.

Lemma filter_delete_rows_other (id id' : string) (t : table) :
  id' <> id ->
  filter (has_id id') (delete_rows id t) = filter (has_id id') t.
Proof.
  intros Hne. unfold delete_rows. induction t as [|r t IH]; [reflexivity|]. simpl.
  destruct (has_id id r) eqn:E; simpl.
  - rewrite (has_id_other id id' r Hne E). exact IH.
  - destruct (has_id id' r); now rewrite IH.
Qed.

(** [doc.delete] followed by [doc.get]: the call succeeds whether or not
    the document was there; afterwards the document does not exist, the
    other documents of the table and the other tables are as before, and a
    second deletion changes nothing. *)
Theorem delete_then_get_finds_nothing :
  forall (w : world) (d : docref),
    reliable w ->
    fst (doc_delete d w) = Ok tt
    /\ fst (doc_get d (snd (doc_delete d w))) = Ok None
    /\ (forall id', id' <> ref_id d ->
          rows_with_id (snd (doc_delete d w)) (ref_collection d) id'
          = rows_with_id w (ref_collection d) id')
    /\ (forall c, c <> ref_collection d -> tables (snd (doc_delete d w)) c = tables w c)
    /\ (forall c, tables (snd (doc_delete d (snd (doc_delete d w)))) c
                  = tables (snd (doc_delete d w)) c).
Proof.
  intros w [c id] Hr. cbn [ref_collection ref_id].
  rewrite (doc_delete_reliable _ w Hr). cbn [ref_collection ref_id fst snd].
  set (w' := set_table c (delete_rows id (tables w c)) w).
  assert (Hr' : reliable w') by exact Hr.
  assert (Hnil : rows_with_id w' c id = []).
  { unfold rows_with_id, w'. rewrite tables_set_table_eq. apply filter_delete_rows_same. }
  split; [reflexivity|]. split.
  { rewrite (doc_get_reliable _ w' Hr'). cbn [ref_collection ref_id fst]. now rewrite Hnil. }
  split.
  { intros id' Hne. unfold rows_with_id, w'. rewrite tables_set_table_eq.
    now apply filter_delete_rows_other. }
  split.
  { intros c' Hc. unfold w'. now apply tables_set_table_neq. }
  intros c'. rewrite (doc_delete_reliable _ w' Hr'). cbn [ref_collection ref_id snd].
  rewrite (delete_rows_none id _ Hnil).
  destruct (String.eqb_spec c' c) as [->|Hne];
    [apply tables_set_table_eq|now apply tables_set_table_neq].
Qed.

Lemma delete_then_get_finds_nothing_witness :
  fst (doc_get (mkRef "counters" "c1")
         (snd (doc_delete (mkRef "counters" "c1") world_counter))) = Ok None.
Proof.
  apply (delete_then_get_finds_nothing world_counter (mkRef "counters" "c1")).
  reflexivity.
Defined.

(** [doc.update] on a document that does not exist: plain data is accepted
    and changes nothing; data that carries an [increment] or [arrayUnion]
    sentinel or a dotted key is refused with "Document not found for
    update".  In both cases every table is as before. *)
Theorem update_of_a_missing_document :
  forall (w : world) (d : docref) (data : object),
    reliable w ->
    rows_with_id w (ref_collection d) (ref_id d) = [] ->
    fst (doc_update d data w)
    = (if needs_fetch data
       then Throw (JsError "Document not found for update")
       else Ok tt)
    /\ forall c, tables (snd (doc_update d data w)) c = tables w c.
Proof.
  intros w [c id] data Hr Hnil. cbn [ref_collection ref_id] in *.
  destruct (needs_fetch data) eqn:Hn.
  - rewrite (doc_update_fetch_missing (mkRef c id) data w Hr Hn Hnil). now split.
  - rewrite (doc_update_plain_reliable (mkRef c id) data w Hr Hn). cbn [ref_collection ref_id fst snd].
    split; [reflexivity|]. intros c'.
    rewrite (update_rows_none id data _ Hnil).
    destruct (String.eqb_spec c' c) as [->|Hne];
      [apply tables_set_table_eq|now apply tables_set_table_neq].
Qed.

Lemma update_of_a_missing_document_witness :
  fst (doc_update (mkRef "counters" "zz") [("f", VNum 1)] world_counter) = Ok tt
  /\ fst (doc_update (mkRef "counters" "zz") [("f", increment 1)] world_counter)
     = Throw (JsError "Document not found for update").
Proof.
  split.
  - apply (update_of_a_missing_document world_counter (mkRef "counters" "zz")
             [("f", VNum 1)]); reflexivity.
  - apply (update_of_a_missing_document world_counter (mkRef "counters" "zz")
             [("f", increment 1)]); reflexivity.
Defined.

(* ------------------------------------------------------------------ *)
(** ** The shim: [arrayUnion] and dotted keys *)

Lemma rows_replace_row (w : world) (c id : string) (cur row : object) :
  rows_with_id w c id = [cur] ->
  has_id id row = true ->
  rows_with_id (set_table c (replace_row id row (tables w c)) w) c id = [row].
Proof.
  intros Hrows Hid. unfold rows_with_id. rewrite tables_set_table_eq.
  now apply filter_replace_single with (cur := cur).
Qed.

(** An update through the fetching path that rewrites the single key [f]. *)
Lemma doc_update_one_key (w : world) (d : docref) (cur : object) (key f : string)
    (v x : value) :
  reliable w ->
  rows_with_id w (ref_collection d) (ref_id d) = [cur] ->
  needs_fetch [(key, v)] = true ->
  apply_key cur (key, v) = Some (obj_set f x cur) ->
  exists row,
    doc_update d [(key, v)] w
    = (Ok tt, set_table (ref_collection d)
                (replace_row (ref_id d) row (tables w (ref_collection d))) w)
    /\ obj_get f row = x
    /\ forall k, k <> f -> obj_get k row = obj_get k cur.
Proof.
  intros Hr Hrows Hn Hk.
  exists (obj_merge cur (obj_set f x cur)). split; [|split].
  - rewrite (doc_update_fetch_reliable d _ cur (obj_set f x cur) w Hr Hn Hrows).
    + now rewrite (update_rows_single w _ _ cur _ Hrows).
    + cbn [apply_keys]. now rewrite Hk.
  - now rewrite obj_get_merge, obj_find_set_eq.
  - intros k Hne. rewrite obj_get_merge, (obj_find_set_neq k f x cur Hne).
    rewrite (obj_get_find k cur). now destruct (obj_find k cur).
Qed.

Lemma apply_key_arrayUnion (updated : object) (f : string) (v : value) :
  has_dot f = false ->
  apply_key updated (f, arrayUnion v)
  = Some (obj_set f (VArr (union_step v (array_or_empty (obj_get f updated)))) updated).
Proof.
  intros Hd. unfold apply_key. rewrite Hd. cbn.
  unfold union_step, array_or_empty.
  destruct (obj_get f updated); cbn; try reflexivity.
  destruct (existsb (strict_eqb v) xs); reflexivity.
Qed.

Lemma strict_eqb_refl_primitive (v : value) :
  is_primitive v = true -> strict_eqb v v = true.
Proof.
  destruct v; simpl; try discriminate; intros _;
    [reflexivity|now destruct b|apply Z.eqb_refl|apply String.eqb_refl].
Qed.

Lemma strict_eqb_not_primitive (v x : value) :
  is_primitive v = false -> strict_eqb v x = false.
Proof. destruct v; simpl; try discriminate; reflexivity. Qed.

Lemma union_step_twice (v : value) (arr : list value) :
  union_step v (union_step v arr)
  = if is_primitive v then union_step v arr else (arr ++ [v; v])%list.
Proof.
  unfold union_step. destruct (is_primitive v) eqn:P.
  - destruct (existsb (strict_eqb v) arr) eqn:E; [now rewrite E|].
    rewrite existsb_app. simpl. rewrite (strict_eqb_refl_primitive v P).
    now rewrite orb_true_r.
  - assert (H : forall l, existsb (strict_eqb v) l = false).
    { induction l as [|x l IH]; [reflexivity|]. simpl.
      now rewrite (strict_eqb_not_primitive v x P). }
    rewrite !H. now rewrite <- app_assoc.
Qed.

(** [arrayUnion(v)] in an update of an existing document: the field becomes
    the array it held (the empty array when it held none) with [v] added at
    the end unless [includes] finds it there; the other fields are kept.
    [includes] compares numbers, strings, booleans and [null] by content, so
    a second union of such a value changes nothing; an object or an array is
    never found, so it is added once more by every union. *)
Theorem arrayUnion_adds_what_is_not_included :
  forall (w : world) (d : docref) (cur : object) (f : string) (v : value),
    reliable w ->
    rows_with_id w (ref_collection d) (ref_id d) = [cur] ->
    has_dot f = false -> f <> "id" ->
    let once := snd (doc_update d [(f, arrayUnion v)] w) in
    let twice := snd (doc_update d [(f, arrayUnion v)] once) in
    exists row row2,
      fst (doc_update d [(f, arrayUnion v)] w) = Ok tt
      /\ rows_with_id once (ref_collection d) (ref_id d) = [row]
      /\ obj_get f row = VArr (union_step v (array_or_empty (obj_get f cur)))
      /\ (forall k, k <> f -> obj_get k row = obj_get k cur)
      /\ fst (doc_update d [(f, arrayUnion v)] once) = Ok tt
      /\ rows_with_id twice (ref_collection d) (ref_id d) = [row2]
      /\ obj_get f row2
         = VArr (if is_primitive v
                 then union_step v (array_or_empty (obj_get f cur))
                 else (array_or_empty (obj_get f cur) ++ [v; v])%list).
Proof.
  intros w d cur f v Hr Hrows Hd Hid once twice.
  assert (Hn : needs_fetch [(f, arrayUnion v)] = true) by reflexivity.
  destruct (doc_update_one_key w d cur f f _ _ Hr Hrows Hn (apply_key_arrayUnion cur f v Hd))
    as [row (Hrun & Hf & Hk)].
  assert (Hrid : has_id (ref_id d) row = true).
  { unfold has_id. rewrite (Hk "id") by (intros H; now apply Hid).
    apply (rows_with_id_in w _ _ cur Hrows). }
  assert (Hrows1 : rows_with_id once (ref_collection d) (ref_id d) = [row]).
  { unfold once. rewrite Hrun. cbn [snd]. now apply rows_replace_row with (cur := cur). }
  assert (Hr1 : reliable once) by (unfold once; rewrite Hrun; exact Hr).
  destruct (doc_update_one_key once d row f f _ _ Hr1 Hrows1 Hn
              (apply_key_arrayUnion row f v Hd))
    as [row2 (Hrun2 & Hf2 & Hk2)].
  exists row, row2. split; [now rewrite Hrun|]. split; [exact Hrows1|].
  split; [exact Hf|]. split; [exact Hk|]. split; [now rewrite Hrun2|]. split.
  - unfold twice. rewrite Hrun2. cbn [snd]. apply rows_replace_row with (cur := row).
    + exact Hrows1.
    + unfold has_id. rewrite (Hk2 "id") by (intros H; now apply Hid). exact Hrid.
  - rewrite Hf2, Hf. cbn [array_or_empty]. now rewrite union_step_twice.
Qed.

Lemma arrayUnion_adds_what_is_not_included_witness :
  exists row row2,
    rows_with_id (snd (doc_update (mkRef "counters" "c1") [("tags", arrayUnion (VStr "a"))]
                         world_counter)) "counters" "c1" = [row]
    /\ obj_get "tags" row = VArr [VStr "a"]
    /\ rows_with_id
         (snd (doc_update (mkRef "counters" "c1") [("tags", arrayUnion (VStr "a"))]
                 (snd (doc_update (mkRef "counters" "c1")
                         [("tags", arrayUnion (VStr "a"))] world_counter))))
         "counters" "c1" = [row2]
    /\ obj_get "tags" row2 = VArr [VStr "a"].
Proof.
  destruct (arrayUnion_adds_what_is_not_included world_counter (mkRef "counters" "c1")
              [("id", VStr "c1"); ("f", VNum 5)] "tags" (VStr "a"))
    as [row [row2 (_ & H1 & H2 & _ & _ & H3 & H4)]].
  - reflexivity.
  - reflexivity.
  - reflexivity.
  - discriminate.
  - exists row, row2. repeat split; assumption.
Defined.

Lemma has_dot_app (a b : string) :
  has_dot (a ++ b) = has_dot a || has_dot b.
Proof.
  induction a as [|c a IH]; [reflexivity|]. simpl.
  destruct (Ascii.eqb c "."%char); [reflexivity|exact IH].
Qed.

Lemma string_app_nil_r (s : string) : s ++ "" = s.
Proof. induction s as [|c s IH]; [reflexivity|]. simpl. now rewrite IH. Qed.

Lemma string_app_snoc (s t : string) (c : ascii) :
  (s ++ String c "") ++ t = s ++ String c t.
Proof. induction s as [|c' s IH]; [reflexivity|]. simpl. now rewrite IH. Qed.

Lemma split_dot_aux_undotted (cur a rest : string) :
  has_dot a = false ->
  split_dot_aux cur (a ++ rest) = split_dot_aux (cur ++ a) rest.
Proof.
  revert cur. induction a as [|c a IH]; intros cur Hd; simpl in *.
  - now rewrite string_app_nil_r.
  - destruct (Ascii.eqb c "."%char); [discriminate|].
    rewrite IH by exact Hd. now rewrite string_app_snoc.
Qed.

Lemma split_dot_undotted (cur a : string) :
  has_dot a = false -> split_dot_aux cur a = [cur ++ a].
Proof.
  intros Hd. pose proof (split_dot_aux_undotted cur a "" Hd) as H.
  rewrite string_app_nil_r in H. exact H.
Qed.

(** [key.split('.')] for a key with one dot. *)
Lemma split_dot_pair (a b : string) :
  has_dot a = false -> has_dot b = false ->
  split_dot (a ++ "." ++ b) = [a; b].
Proof.
  intros Ha Hb. unfold split_dot.
  rewrite (split_dot_aux_undotted "" a ("." ++ b) Ha). simpl.
  now rewrite (split_dot_undotted "" b Hb).
Qed.

(** A key [a.b] in an update of an existing document whose field [a] holds
    an object or a falsy value: the field [a] becomes an object whose [b] is
    the value of the update, as it is, an [increment] or [arrayUnion]
    sentinel being stored and not applied; the other entries of the object
    and the other fields of the document are kept.  When [a] holds a number,
    a string or [true], the update throws and nothing is written. *)
Theorem dotted_key_writes_a_nested_field :
  forall (w : world) (d : docref) (cur : object) (a b : string) (v : value),
    reliable w ->
    rows_with_id w (ref_collection d) (ref_id d) = [cur] ->
    has_dot a = false -> has_dot b = false -> a <> "id" ->
    let after := doc_update d [(a ++ "." ++ b, v)] w in
    ((truthy (obj_get a cur) = false \/ exists o, obj_get a cur = VObj o) ->
       exists row nested,
         fst after = Ok tt
         /\ rows_with_id (snd after) (ref_collection d) (ref_id d) = [row]
         /\ obj_get a row = VObj nested
         /\ obj_get b nested = v
         /\ (forall k, k <> b ->
               obj_get k nested = obj_get k (object_or_empty (obj_get a cur)))
         /\ (forall k, k <> a -> obj_get k row = obj_get k cur))
    /\ (truthy (obj_get a cur) = true -> is_primitive (obj_get a cur) = true ->
        after = (Throw (JsError "TypeError"), w)).
Proof.
  intros w d cur a b v Hr Hrows Ha Hb Hid after.
  assert (Hdot : has_dot (a ++ "." ++ b) = true).
  { rewrite has_dot_app. simpl. apply orb_true_r. }
  assert (Hn : needs_fetch [(a ++ "." ++ b, v)] = true).
  { unfold needs_fetch. cbn [existsb fst]. rewrite Hdot. simpl. apply orb_true_r. }
  assert (Hkey : apply_key cur (a ++ "." ++ b, v) = set_path [a; b] v cur).
  { unfold apply_key. now rewrite Hdot, (split_dot_pair a b Ha Hb). }
  split.
  - intros Hshape.
    set (nested := obj_set b v (object_or_empty (obj_get a cur))).
    assert (Hpath : set_path [a; b] v cur = Some (obj_set a (VObj nested) cur)).
    { cbn [set_path]. unfold nested. destruct Hshape as [Hf|[o Ho]].
      - rewrite Hf. destruct (obj_get a cur); try reflexivity; discriminate.
      - now rewrite Ho. }
    rewrite <- Hkey in Hpath.
    destruct (doc_update_one_key w d cur _ a v (VObj nested) Hr Hrows Hn Hpath)
      as [row (Hrun & Hf & Hk)].
    exists row, nested. unfold after. rewrite Hrun. cbn [fst snd].
    split; [reflexivity|]. split.
    { apply rows_replace_row with (cur := cur); [exact Hrows|].
      unfold has_id. rewrite (Hk "id") by (intros H; now apply Hid).
      apply (rows_with_id_in w _ _ cur Hrows). }
    split; [exact Hf|]. split; [apply obj_get_set_eq|]. split; [|exact Hk].
    intros k Hne. unfold nested. now apply obj_get_set_neq.
  - intros Ht Hp. unfold after, doc_update. unfold needs_fetch in Hn. rewrite Hn.
    rewrite (bind_ok _ (sb_select_single_reliable _ _ w Hr)). rewrite Hrows.
    cbn [apply_keys]. rewrite Hkey. cbn [set_path]. rewrite Ht.
    destruct (obj_get a cur); try discriminate; reflexivity.
Qed.

Lemma dotted_key_writes_a_nested_field_witness :
  exists row nested,
    rows_with_id (snd (doc_update (mkRef "counters" "c1")
                         [("stats.hits", increment 1)] world_counter))
      "counters" "c1" = [row]
    /\ obj_get "stats" row = VObj nested
    /\ obj_get "hits" nested = increment 1.
Proof.
  destruct (proj1 (dotted_key_writes_a_nested_field world_counter (mkRef "counters" "c1")
                     [("id", VStr "c1"); ("f", VNum 5)] "stats" "hits" (increment 1)
                     eq_refl eq_refl eq_refl eq_refl ltac:(discriminate))
                  (or_introl eq_refl))
    as [row [nested (_ & H1 & H2 & H3 & _)]].
  exists row, nested. repeat split; assumption.
Defined.

(* ------------------------------------------------------------------ *)
(** ** Settings and the default administrator *)

Lemma updateAppSettings_reliable (w : world) (data : object) :
  reliable w ->
  updateAppSettings data w
  = (Ok true, snd (doc_set (mkRef SETTINGS_COLLECTION "main") data true w)).
Proof.
  intros Hr. unfold updateAppSettings, try_catch.
  rewrite (bind_ok _ (doc_ok SETTINGS_COLLECTION "main" w ltac:(discriminate) ltac:(discriminate))).
  unfold setDoc. rewrite (bind_ok _ (doc_set_reliable _ data true w Hr)).
  now rewrite (doc_set_reliable _ data true w Hr).
Qed.

Lemma getAppSettings_existing (w : world) (row : object) :
  reliable w ->
  rows_with_id w SETTINGS_COLLECTION "main" = [row] ->
  getAppSettings w = (Ok (settings_of row), w).
Proof.
  intros Hr Hrows. rewrite (getAppSettings_reliable w Hr).
  unfold settings_read. now rewrite Hrows.
Qed.

(** [updateAppSettings] followed by [getAppSettings]: the update answers
    [true]; the read then answers, for each of the three settings, the
    value of the update when it gives one, else the value stored before,
    else the default (1 for the exchange rate, 0 for the prices); and the
    read leaves the state as it is. *)
Theorem updateAppSettings_then_getAppSettings :
  forall (w : world) (data : object),
    reliable w ->
    (List.length (rows_with_id w SETTINGS_COLLECTION "main") <= 1)%nat ->
    let w1 := snd (updateAppSettings data w) in
    exists settings,
      fst (updateAppSettings data w) = Ok true
      /\ getAppSettings w1 = (Ok settings, w1)
      /\ forall (k : string) (dflt : value),
           In (k, dflt) default_settings ->
           obj_get k settings
           = nullish_or (match obj_find k data with
                         | Some v => v
                         | None => stored w SETTINGS_COLLECTION "main" k
                         end) dflt.
Proof.
  intros w data Hr Hlen w1. unfold w1.
  rewrite (updateAppSettings_reliable w data Hr). cbn [fst snd].
  destruct (doc_set_row w SETTINGS_COLLECTION "main" data true Hr Hlen)
    as [row [w' (Hrun & Hr' & Hrows & _ & Hdata & Hold & _)]].
  rewrite Hrun. cbn [snd].
  exists (settings_of row). split; [reflexivity|]. split.
  - now apply getAppSettings_existing.
  - intros k dflt Hin. unfold stored.
    assert (Hk : k <> "id").
    { intros ->. simpl in Hin. destruct Hin as [H|[H|[H|[]]]]; discriminate H. }
    assert (Hrow : obj_get k row
                   = match obj_find k data with
                     | Some v => v
                     | None => match rows_with_id w SETTINGS_COLLECTION "main" with
                               | old :: _ => obj_get k old
                               | [] => VNull
                               end
                     end).
    { destruct (obj_find k data) as [v|] eqn:E; [now apply Hdata|now apply Hold]. }
    rewrite <- Hrow.
    simpl in Hin. destruct Hin as [H|[H|[H|[]]]]; injection H as <- <-; reflexivity.
Qed.

Lemma updateAppSettings_then_getAppSettings_witness :
  exists settings,
    getAppSettings (snd (updateAppSettings [("exchangeRate", VNum 7)] world_settings))
    = (Ok settings, snd (updateAppSettings [("exchangeRate", VNum 7)] world_settings))
    /\ obj_get "exchangeRate" settings = VNum 7
    /\ obj_get "pricePerKiloLYD" settings = VNum 30
    /\ obj_get "pricePerKiloUSD" settings = VNum 0.
Proof.
  destruct (updateAppSettings_then_getAppSettings world_settings
              [("exchangeRate", VNum 7)] eq_refl)
    as [settings (_ & Hget & Hk)].
  - simpl. lia.
  - exists settings. split; [exact Hget|]. split; [|split].
    + apply (Hk "exchangeRate" (VNum 1)). simpl. tauto.
    + apply (Hk "pricePerKiloLYD" (VNum 0)). simpl. tauto.
    + apply (Hk "pricePerKiloUSD" (VNum 0)). simpl. tauto.
Defined.

Lemma sb_fault_failing (w : world) (fs : list bool) :
  faults w = true :: fs -> sb_fault w = (Ok true, after_fault w).
Proof. unfold sb_fault, after_fault. now intros ->. Qed.

Lemma doc_get_failing (d : docref) (w : world) (fs : list bool) :
  faults w = true :: fs -> doc_get d w = (Ok None, after_fault w).
Proof.
  intros H. unfold doc_get, sb_select_single.
  now rewrite (bind_ok _ (sb_fault_failing w fs H)).
Qed.

Lemma reliable_after_fault (w : world) : fails_once w -> reliable (after_fault w).
Proof. unfold fails_once, reliable, after_fault. simpl. now intros ->. Qed.

Lemma obj_set_fresh_key (k : string) (v : value) (o : object) :
  obj_find k o = None -> obj_set k v o = (o ++ [(k, v)])%list.
Proof.
  induction o as [|[k' v'] o IH]; [reflexivity|]. simpl.
  destruct (k =? k')%string; [discriminate|]. intros H. now rewrite IH.
Qed.

Lemma getAppSettings_missing (w : world) :
  reliable w ->
  rows_with_id w SETTINGS_COLLECTION "main" = [] ->
  getAppSettings w
  = (Ok default_settings,
     set_table SETTINGS_COLLECTION
       (tables w SETTINGS_COLLECTION ++ [default_settings ++ [("id", VStr "main")]])%list
       w).
Proof.
  intros Hr Hrows. rewrite (getAppSettings_reliable w Hr).
  unfold settings_read. rewrite Hrows. cbn [fst snd].
  now rewrite (upsert_row_fresh "main" (obj_set "id" (VStr "main") default_settings)
                 _ eq_refl Hrows).
Qed.

Lemma ensureDefaultAdminExists_reliable (w : world) :
  reliable w ->
  ensureDefaultAdminExists w
  = match rows_with_id w MANAGERS_COLLECTION defaultUsername with
    | [_] => (Ok tt, w)
    | _ => (Ok tt, snd (doc_set (mkRef MANAGERS_COLLECTION defaultUsername)
                          defaultAdmin false w))
    end.
Proof.
  intros Hr. unfold ensureDefaultAdminExists.
  rewrite (bind_ok _ (doc_ok MANAGERS_COLLECTION defaultUsername w
                        ltac:(discriminate) ltac:(discriminate))).
  unfold getDoc. rewrite (bind_ok _ (doc_get_reliable _ w Hr)).
  cbn [ref_collection ref_id].
  destruct (rows_with_id w MANAGERS_COLLECTION defaultUsername) as [|m [|m' l]];
    try reflexivity;
    unfold try_catch, setDoc; now rewrite (doc_set_reliable _ _ false w Hr).
Qed.

(** A document that is missing is created once: on a store without the
    settings document, [getAppSettings] answers the defaults and appends
    the defaults as the document [main]; on a store without the default
    administrator, [ensureDefaultAdminExists] appends it; a second call of
    either changes nothing, and an administrator that exists is left as it
    is. *)
Theorem missing_documents_are_created_once :
  forall w : world,
    reliable w ->
    (rows_with_id w SETTINGS_COLLECTION "main" = [] ->
       let w1 := snd (getAppSettings w) in
       fst (getAppSettings w) = Ok default_settings
       /\ tables w1 SETTINGS_COLLECTION
          = (tables w SETTINGS_COLLECTION
               ++ [default_settings ++ [("id", VStr "main")]])%list
       /\ getAppSettings w1 = (Ok default_settings, w1))
    /\ (rows_with_id w MANAGERS_COLLECTION defaultUsername = [] ->
        let w1 := snd (ensureDefaultAdminExists w) in
        fst (ensureDefaultAdminExists w) = Ok tt
        /\ tables w1 MANAGERS_COLLECTION
           = (tables w MANAGERS_COLLECTION
                ++ [defaultAdmin ++ [("id", VStr defaultUsername)]])%list
        /\ ensureDefaultAdminExists w1 = (Ok tt, w1))
    /\ (forall m, rows_with_id w MANAGERS_COLLECTION defaultUsername = [m] ->
                  ensureDefaultAdminExists w = (Ok tt, w)).
Proof.
  intros w Hr. split; [|split].
  - intros Hrows w1. unfold w1. rewrite (getAppSettings_missing w Hr Hrows).
    cbn [fst snd]. split; [reflexivity|]. split; [apply tables_set_table_eq|].
    apply (getAppSettings_existing _ (default_settings ++ [("id", VStr "main")])%list).
    + exact Hr.
    + unfold rows_with_id. rewrite tables_set_table_eq.
      now apply filter_app_single.
  - intros Hrows w1. unfold w1.
    rewrite (ensureDefaultAdminExists_reliable w Hr), Hrows.
    rewrite (doc_set_fresh _ _ defaultAdmin false w Hr Hrows). cbn [fst snd].
    split; [reflexivity|]. split; [apply tables_set_table_eq|].
    rewrite ensureDefaultAdminExists_reliable by exact Hr.
    unfold rows_with_id. rewrite tables_set_table_eq.
    now rewrite (filter_app_single defaultUsername
                   (obj_set "id" (VStr defaultUsername) defaultAdmin) _ Hrows eq_refl).
  - intros m Hrows. now rewrite (ensureDefaultAdminExists_reliable w Hr), Hrows.
Qed.

Lemma missing_documents_are_created_once_witness :
  fst (getAppSettings world_new_user) = Ok default_settings
  /\ getAppSettings (snd (getAppSettings world_new_user))
     = (Ok default_settings, snd (getAppSettings world_new_user))
  /\ ensureDefaultAdminExists world_settings = (Ok tt, world_settings).
Proof.
  pose proof (missing_documents_are_created_once world_new_user eq_refl) as (H1 & _ & _).
  pose proof (missing_documents_are_created_once world_settings eq_refl) as (_ & _ & H3).
  destruct (H1 eq_refl) as (Ha & _ & Hb).
  split; [exact Ha|]. split; [exact Hb|]. exact (H3 _ eq_refl).
Defined.

(** A failed read is taken for a missing document.  On a store whose next
    request fails and whose later requests succeed, [getAppSettings]
    answers the defaults and writes them over the stored settings, and
    [ensureDefaultAdminExists] writes the default administrator, its
    default password included, over the stored one. *)
Theorem failed_read_overwrites_with_defaults :
  forall w : world,
    fails_once w ->
    (forall old, rows_with_id w SETTINGS_COLLECTION "main" = [old] ->
       fst (getAppSettings w) = Ok default_settings
       /\ exists row,
            rows_with_id (snd (getAppSettings w)) SETTINGS_COLLECTION "main" = [row]
            /\ forall k dflt, In (k, dflt) default_settings -> obj_get k row = dflt)
    /\ (forall old, rows_with_id w MANAGERS_COLLECTION defaultUsername = [old] ->
          fst (ensureDefaultAdminExists w) = Ok tt
          /\ exists row,
               rows_with_id (snd (ensureDefaultAdminExists w))
                 MANAGERS_COLLECTION defaultUsername = [row]
               /\ forall k v, In (k, v) defaultAdmin -> obj_get k row = v).
Proof.
  intros w Hf.
  assert (Hr : reliable (after_fault w)) by now apply reliable_after_fault.
  split.
  - intros old Hrows.
    assert (Hlen : (List.length (rows_with_id (after_fault w) SETTINGS_COLLECTION "main")
                    <= 1)%nat).
    { change (rows_with_id (after_fault w) SETTINGS_COLLECTION "main")
        with (rows_with_id w SETTINGS_COLLECTION "main"). rewrite Hrows. simpl. lia. }
    destruct (doc_set_row (after_fault w) SETTINGS_COLLECTION "main" default_settings
                false Hr Hlen)
      as [row [w' (Hrun & _ & Hrows' & _ & Hdata & _)]].
    unfold getAppSettings, try_catch.
    rewrite (bind_ok _ (doc_ok SETTINGS_COLLECTION "main" w
                          ltac:(discriminate) ltac:(discriminate))).
    unfold getDoc. rewrite (bind_ok _ (doc_get_failing _ w [] Hf)).
    unfold setDoc. rewrite (bind_ok _ Hrun). cbn [ret fst snd].
    split; [reflexivity|]. exists row. split; [exact Hrows'|].
    intros k dflt Hin. apply Hdata.
    + intros ->. simpl in Hin. destruct Hin as [H|[H|[H|[]]]]; discriminate H.
    + simpl in Hin. destruct Hin as [H|[H|[H|[]]]]; injection H as <- <-; reflexivity.
  - intros old Hrows.
    assert (Hlen : (List.length (rows_with_id (after_fault w) MANAGERS_COLLECTION
                                   defaultUsername) <= 1)%nat).
    { change (rows_with_id (after_fault w) MANAGERS_COLLECTION defaultUsername)
        with (rows_with_id w MANAGERS_COLLECTION defaultUsername).
      rewrite Hrows. simpl. lia. }
    destruct (doc_set_row (after_fault w) MANAGERS_COLLECTION defaultUsername defaultAdmin
                false Hr Hlen)
      as [row [w' (Hrun & _ & Hrows' & _ & Hdata & _)]].
    unfold ensureDefaultAdminExists.
    rewrite (bind_ok _ (doc_ok MANAGERS_COLLECTION defaultUsername w
                          ltac:(discriminate) ltac:(discriminate))).
    unfold getDoc. rewrite (bind_ok _ (doc_get_failing _ w [] Hf)).
    unfold try_catch, setDoc. rewrite Hrun. cbn [fst snd].
    split; [reflexivity|]. exists row. split; [exact Hrows'|].
    intros k v Hin. apply Hdata.
    + intros ->. simpl in Hin.
      repeat (destruct Hin as [H|Hin]; [discriminate H|]). destruct Hin.
    + simpl in Hin.
      repeat (destruct Hin as [H|Hin]; [injection H as <- <-; reflexivity|]).
      destruct Hin.
Qed.

Lemma failed_read_overwrites_with_defaults_witness :
  (exists row,
     rows_with_id (snd (getAppSettings world_settings_failing)) SETTINGS_COLLECTION "main"
     = [row]
     /\ obj_get "exchangeRate" row = VNum 1)
  /\ exists row,
       rows_with_id (snd (ensureDefaultAdminExists world_settings_failing))
         MANAGERS_COLLECTION defaultUsername = [row]
       /\ obj_get "password" row = VStr "0920064400".
Proof.
  destruct (failed_read_overwrites_with_defaults world_settings_failing eq_refl)
    as [Hs Ha].
  split.
  - destruct (Hs _ eq_refl) as (_ & row & Hrows & Hk).
    exists row. split; [exact Hrows|]. apply Hk. simpl. tauto.
  - destruct (Ha _ eq_refl) as (_ & row & Hrows & Hk).
    exists row. split; [exact Hrows|]. apply Hk. simpl. tauto.
Defined.

(* ------------------------------------------------------------------ *)
(** ** Orders: plain updates *)

Lemma spec_totals_frame (w1 w2 : world) (U : string) :
  tables w1 ORDERS_COLLECTION = tables w2 ORDERS_COLLECTION ->
  orders_debt w1 U = orders_debt w2 U /\ spec_orderCount w1 U = spec_orderCount w2 U.
Proof.
  intros Ho. unfold orders_debt, spec_orderCount. now rewrite Ho.
Qed.

(** [updateOrder] on an existing order with plain data: the order's row
    takes the data, and the user who owned the order before the update has
    the debt and the order count recomputed from the tables as they are
    after the update; no other user and no other table is touched.  On an
    identifier without an order it answers [false] and does nothing. *)
Theorem updateOrder_recalculates_the_previous_owner :
  forall (w : world) (orderId : string) (data : object),
    reliable w -> orderId <> "" ->
    (forall (old : object) (U : string),
       rows_with_id w ORDERS_COLLECTION orderId = [old] ->
       obj_get "userId" old = VStr U -> U <> "" ->
       needs_fetch data = false ->
       let w' := snd (updateOrder orderId data w) in
       fst (updateOrder orderId data w) = Ok true
       /\ tables w' ORDERS_COLLECTION
          = replace_row orderId (obj_merge old data) (tables w ORDERS_COLLECTION)
       /\ tables w' USERS_COLLECTION
          = update_rows U [("debt", VNum (orders_debt w' U));
                           ("orderCount", VNum (spec_orderCount w' U))]
                        (tables w USERS_COLLECTION)
       /\ (forall c, c <> ORDERS_COLLECTION -> c <> USERS_COLLECTION ->
                     tables w' c = tables w c))
    /\ (rows_with_id w ORDERS_COLLECTION orderId = [] ->
        updateOrder orderId data w = (Ok false, w)).
Proof.
  intros w orderId data Hr Hid. split.
  - intros old U Hrows HU HUne Hplain w'. unfold w'. clear w'.
    unfold updateOrder, try_catch.
    rewrite (bind_ok _ (doc_ok ORDERS_COLLECTION orderId w ltac:(discriminate) Hid)).
    unfold getDoc. rewrite (bind_ok _ (doc_get_reliable _ w Hr)).
    cbn [ref_collection ref_id]. rewrite Hrows.
    unfold updateDoc.
    rewrite (bind_ok _ (doc_update_plain_reliable _ data w Hr Hplain)).
    cbn [ref_collection ref_id].
    rewrite (update_rows_replace orderId old data _ Hrows).
    fold (replace_row orderId (obj_merge old data) (tables w ORDERS_COLLECTION)).
    set (w1 := set_table ORDERS_COLLECTION _ w).
    assert (Hr1 : reliable w1) by exact Hr.
    rewrite HU. cbn [truthy as_id].
    assert (Ht : negb (U =? "")%string = true).
    { destruct (String.eqb_spec U ""); [contradiction|reflexivity]. }
    rewrite Ht.
    rewrite (bind_ok _ (recalculateUserStats_reliable U w1 Hr1 HUne)).
    cbn [ret fst snd].
    set (w2 := set_table USERS_COLLECTION _ w1).
    assert (Ho : tables w2 ORDERS_COLLECTION = tables w1 ORDERS_COLLECTION).
    { unfold w2. now apply tables_set_table_neq. }
    destruct (spec_totals_frame w2 w1 U Ho) as [Hd Hc].
    split; [reflexivity|]. split.
    { rewrite Ho. unfold w1. apply tables_set_table_eq. }
    split.
    { rewrite Hd, Hc. unfold w2. rewrite tables_set_table_eq.
      unfold w1. now rewrite tables_set_table_neq by discriminate. }
    intros c Hc1 Hc2. unfold w2, w1. now rewrite !tables_set_table_neq.
  - intros Hrows. unfold updateOrder, try_catch.
    rewrite (bind_ok _ (doc_ok ORDERS_COLLECTION orderId w ltac:(discriminate) Hid)).
    unfold getDoc. rewrite (bind_ok _ (doc_get_reliable _ w Hr)).
    cbn [ref_collection ref_id]. now rewrite Hrows.
Qed.

Lemma updateOrder_recalculates_the_previous_owner_witness :
  fst (updateOrder "o1" [("status", VStr "cancelled")] world_user) = Ok true
  /\ tables (snd (updateOrder "o1" [("status", VStr "cancelled")] world_user))
       USERS_COLLECTION
     = update_rows "u1" [("debt", VNum 0); ("orderCount", VNum 0)]
         (tables world_user USERS_COLLECTION).
Proof.
  destruct (proj1 (updateOrder_recalculates_the_previous_owner world_user "o1"
                     [("status", VStr "cancelled")] eq_refl ltac:(discriminate))
              [("id", VStr "o1"); ("userId", VStr "u1"); ("sellingPriceLYD", VNum 1000);
               ("remainingAmount", VNum 800); ("status", VStr "pending")]
              "u1" eq_refl eq_refl ltac:(discriminate) eq_refl)
    as (H1 & _ & H3 & _).
  split; [exact H1|]. etransitivity; [exact H3|]. vm_compute. reflexivity.
Defined.

Lemma batch_push_ok (b : batch) (m : M unit) (w w' : world) :
  m w = (Ok tt, w') -> batch_push b m w = (Ok b, w').
Proof. unfold batch_push. now intros ->. Qed.

Lemma batch_push_throw (b : batch) (m : M unit) (w w' : world) (e : error) :
  m w = (Throw e, w') -> batch_push b m w = (Ok (b ++ [e])%list, w').
Proof. unfold batch_push. now intros ->. Qed.

(** The loop of [bulkUpdateOrdersStatus]. *)
Lemma status_loop (status : string) (orderIds : list string) (b : batch) (w : world) :
  reliable w ->
  Forall (fun id => id <> "") orderIds ->
  exists w',
    foldM (fun b id =>
             orderRef <- doc ORDERS_COLLECTION id ;;
             batch_update b orderRef [("status", VStr status)])
          b orderIds w = (Ok b, w')
    /\ reliable w'
    /\ tables w' ORDERS_COLLECTION
       = fold_left (fun t id => update_rows id [("status", VStr status)] t)
                   orderIds (tables w ORDERS_COLLECTION)
    /\ forall c, c <> ORDERS_COLLECTION -> tables w' c = tables w c.
Proof.
  revert b w. induction orderIds as [|id ids IH]; intros b w Hr Hne.
  - exists w. repeat split; auto.
  - inversion Hne as [|x l Hid Hrest]; subst.
    cbn [foldM].
    rewrite bind_assoc_run.
    rewrite (bind_ok _ (doc_ok ORDERS_COLLECTION id w ltac:(discriminate) Hid)).
    unfold batch_update at 1.
    rewrite (bind_ok _ (batch_push_ok b _ w _
               (doc_update_plain_reliable _ [("status", VStr status)] w Hr eq_refl))).
    cbn [ref_collection ref_id].
    set (w1 := set_table ORDERS_COLLECTION _ w).
    destruct (IH b w1 Hr Hrest) as [w' (Hrun & Hr' & Ht & Hf)].
    exists w'. split; [|split; [exact Hr'|split]].
    + exact Hrun.
    + rewrite Ht. unfold w1. now rewrite tables_set_table_eq.
    + intros c Hc. rewrite (Hf c Hc). unfold w1. now apply tables_set_table_neq.
Qed.

Lemma fold_update_rows_map (d : object) (ids : list string) (t : table) :
  obj_find "id" d = None ->
  fold_left (fun t id => update_rows id d t) ids t
  = map (fun r => if existsb (fun id => has_id id r) ids then obj_merge r d else r) t.
Proof.
  intros Hd. revert t. induction ids as [|id ids IH]; intros t.
  - simpl. symmetry. apply map_id.
  - cbn [fold_left]. rewrite IH. unfold update_rows. rewrite map_map.
    apply map_ext. intros r. cbn [existsb].
    destruct (has_id id r) eqn:E; cbn [orb].
    + assert (Hx : forall x, has_id x (obj_merge r d) = has_id x r).
      { intros x. now apply has_id_merge_noid. }
      destruct (existsb (fun id0 => has_id id0 (obj_merge r d)) ids);
        [apply obj_merge_idem|reflexivity].
    + reflexivity.
Qed.

(** [bulkUpdateOrdersStatus] with identifiers that are not empty: it
    answers [true] whether or not the orders exist; every order whose
    identifier is listed takes the status and every other order is as
    before; no other table is written, so the stored debt and order count
    of the users are not recomputed, also when the status is
    [cancelled]. *)
Theorem bulkUpdateOrdersStatus_writes_the_status_only :
  forall (w : world) (orderIds : list string) (status : OrderStatus),
    reliable w ->
    Forall (fun id => id <> "") orderIds ->
    let w' := snd (bulkUpdateOrdersStatus orderIds status w) in
    fst (bulkUpdateOrdersStatus orderIds status w) = Ok true
    /\ tables w' ORDERS_COLLECTION
       = map (fun r => if existsb (fun id => has_id id r) orderIds
                       then obj_merge r [("status", VStr (status_name status))]
                       else r)
             (tables w ORDERS_COLLECTION)
    /\ forall c, c <> ORDERS_COLLECTION -> tables w' c = tables w c.
Proof.
  intros w orderIds status Hr Hne w'. unfold w'. clear w'.
  unfold bulkUpdateOrdersStatus.
  destruct orderIds as [|id ids].
  - cbn. split; [reflexivity|]. split; [|reflexivity].
    symmetry. apply map_id.
  - cbn [List.length Nat.eqb]. unfold try_catch, writeBatch.
    destruct (status_loop (status_name status) (id :: ids) [] w Hr Hne)
      as [w1 (Hrun & Hr1 & Ht & Hf)].
    rewrite (bind_ok _ Hrun). cbn [batch_commit].
    rewrite (bind_ok _ (ret_run tt w1)). cbn [ret fst snd].
    split; [reflexivity|]. split; [|exact Hf].
    rewrite Ht. now apply fold_update_rows_map.
Qed.

Lemma bulkUpdateOrdersStatus_writes_the_status_only_witness :
  fst (bulkUpdateOrdersStatus ["o1"; "nope"] cancelled world_user) = Ok true
  /\ tables (snd (bulkUpdateOrdersStatus ["o1"; "nope"] cancelled world_user))
       USERS_COLLECTION
     = tables world_user USERS_COLLECTION.
Proof.
  destruct (bulkUpdateOrdersStatus_writes_the_status_only world_user ["o1"; "nope"]
              cancelled eq_refl)
    as (H1 & _ & H3).
  - repeat constructor; discriminate.
  - split; [exact H1|]. apply H3. discriminate.
Defined.

(** [recordRepresentativePayment]: it answers [true] whether or not the
    order exists; the order takes the status [delivered], the delivery
    date and the collected amount; the remaining amount of every order is
    as before, and no transaction and no user is written. *)
Theorem recordRepresentativePayment_keeps_the_remaining_amount :
  forall (w : world) (orderId : string) (collectedAmount : Z),
    reliable w -> orderId <> "" ->
    let w' := snd (recordRepresentativePayment orderId collectedAmount w) in
    fst (recordRepresentativePayment orderId collectedAmount w) = Ok true
    /\ tables w' ORDERS_COLLECTION
       = update_rows orderId
           [("status", VStr "delivered");
            ("deliveryDate", VStr (clock w (ticks w)));
            ("collectedAmount", VNum collectedAmount)]
           (tables w ORDERS_COLLECTION)
    /\ map (obj_get "remainingAmount") (tables w' ORDERS_COLLECTION)
       = map (obj_get "remainingAmount") (tables w ORDERS_COLLECTION)
    /\ forall c, c <> ORDERS_COLLECTION -> tables w' c = tables w c.
Proof.
  intros w orderId amount Hr Hid w'. unfold w'. clear w'.
  unfold recordRepresentativePayment, try_catch.
  rewrite (bind_ok _ (doc_ok ORDERS_COLLECTION orderId w ltac:(discriminate) Hid)).
  assert (Hnow : now_iso w = (Ok (clock w (ticks w)), tick w)) by reflexivity.
  rewrite (bind_ok _ Hnow). unfold updateDoc.
  rewrite (bind_ok _ (doc_update_plain_reliable _
                        [("status", VStr "delivered");
                         ("deliveryDate", VStr (clock w (ticks w)));
                         ("collectedAmount", VNum amount)]
                        (tick w) (reliable_tick w Hr) eq_refl)).
  cbn [ref_collection ref_id ret fst snd].
  rewrite tables_set_table_eq, tables_tick.
  split; [reflexivity|]. split; [reflexivity|]. split.
  - unfold update_rows. rewrite map_map. apply map_ext. intros r.
    destruct (has_id orderId r); [|reflexivity].
    now rewrite obj_get_merge.
  - intros c Hc. rewrite tables_set_table_neq by exact Hc. apply tables_tick.
Qed.

Lemma recordRepresentativePayment_keeps_the_remaining_amount_witness :
  fst (recordRepresentativePayment "o1" 800 world_one_order) = Ok true
  /\ map (obj_get "remainingAmount")
       (tables (snd (recordRepresentativePayment "o1" 800 world_one_order))
          ORDERS_COLLECTION)
     = [VNum 800].
Proof.
  destruct (recordRepresentativePayment_keeps_the_remaining_amount world_one_order
              "o1" 800 eq_refl ltac:(discriminate))
    as (H1 & _ & H3 & _).
  split; [exact H1|exact H3].
Defined.

(* ------------------------------------------------------------------ *)
(** ** Creditors and external debts *)

Lemma debts_query_filter (C : string) (t : table) :
  filter (filters_hold (build_filters [where_ "creditorId" "==" (VStr C)])) t
  = filter (debt_of C) t.
Proof. apply filter_ext. intros o. unfold debt_of. simpl. now rewrite andb_true_r. Qed.

Lemma recalculateCreditorDebt_reliable (C : string) (w : world) :
  reliable w -> C <> "" ->
  recalculateCreditorDebt C w
  = match rows_with_id w CREDITORS_COLLECTION C with
    | [_] =>
        (Ok tt,
         set_table CREDITORS_COLLECTION
           (update_rows C
              [("totalDebt",
                VNum (debts_total (tables w EXTERNAL_DEBTS_COLLECTION) C))]
              (tables w CREDITORS_COLLECTION)) w)
    | _ => (Ok tt, w)
    end.
Proof.
  intros Hr HC. unfold recalculateCreditorDebt, try_catch.
  rewrite (bind_ok _ (doc_ok CREDITORS_COLLECTION C w ltac:(discriminate) HC)).
  unfold getDoc. rewrite (bind_ok _ (doc_get_reliable _ w Hr)).
  cbn [ref_collection ref_id].
  destruct (rows_with_id w CREDITORS_COLLECTION C) as [|c [|c' l]]; try reflexivity.
  unfold getDocs, query. rewrite (bind_ok _ (adapter_query_reliable _ _ w Hr)).
  unfold updateDoc.
  rewrite fold_left_sum, debts_query_filter.
  rewrite (doc_update_plain_reliable _
             [("totalDebt", VNum (0 + fold_right Z.add 0
                 (map (fun debt => as_num (obj_get "amount" debt))
                      (filter (debt_of C) (tables w EXTERNAL_DEBTS_COLLECTION)))))]
             w Hr eq_refl).
  reflexivity.
Qed.

Lemma recalculateCreditorDebt_empty (w : world) :
  recalculateCreditorDebt "" w = (Ok tt, w).
Proof.
  unfold recalculateCreditorDebt, try_catch.
  now rewrite (bind_throw _ (doc_empty_id CREDITORS_COLLECTION w)).
Qed.

Lemma creditors_ok_weaken (C : string) (w : world) :
  creditors_ok w -> creditors_ok_except C w.
Proof.
  intros (Hc & H). split; [|exact H]. intros c cid Hin Hid Hne _. now apply Hc.
Qed.

(** The recalculation of [C] closes an operation on the debts of [C]. *)
Lemma recalc_creditor_restores (C : string) (w : world) :
  creditors_ok_except C w ->
  creditors_ok (snd (recalculateCreditorDebt C w)).
Proof.
  intros (Hc & Huc & Hud & Hs & Hr).
  destruct (String.eqb_spec C "") as [->|HC].
  - rewrite recalculateCreditorDebt_empty. cbn [snd].
    split; [|now repeat split]. intros c cid Hin Hid Hne. now apply Hc.
  - rewrite (recalculateCreditorDebt_reliable C w Hr HC).
    destruct (unique_single C _ Huc) as [Hnil|[c0 Hone]]; unfold rows_with_id.
    + rewrite Hnil. cbn [snd]. split; [|now repeat split].
      intros c cid Hin Hid Hne. apply Hc; auto. intros ->.
      assert (H : In c (filter (has_id C) (tables w CREDITORS_COLLECTION))).
      { apply filter_In. split; [exact Hin|now apply has_id_iff]. }
      now rewrite Hnil in H.
    + rewrite Hone. cbn [snd].
      unfold creditors_ok.
      rewrite tables_set_table_eq, tables_set_table_neq by discriminate.
      split; [|split; [now apply unique_ids_update_rows|now repeat split]].
      intros c cid Hin Hid Hne.
      destruct (in_update_rows _ _ _ _ Hin) as [(r & Hr0 & Hrid & ->)|[Hin0 Hnot]].
      * rewrite obj_get_merge in Hid. cbn [obj_find] in Hid. simpl in Hid.
        apply has_id_iff in Hrid. rewrite Hrid in Hid. injection Hid as <-.
        now rewrite obj_get_merge.
      * apply Hc; auto. intros ->.
        apply has_id_iff in Hid. congruence.
Qed.

Lemma debt_of_other (cid : string) (v : value) :
  cid <> "" -> cid <> as_id v -> strict_eqb v (VStr cid) = false.
Proof.
  intros Hne H. destruct v; try reflexivity. simpl in *.
  destruct (String.eqb_spec s cid); [congruence|reflexivity].
Qed.

Lemma debts_total_app (debts : table) (row : object) (cid : string) :
  debts_total (debts ++ [row])%list cid
  = debts_total debts cid
    + (if debt_of cid row then as_num (obj_get "amount" row) else 0).
Proof.
  unfold debts_total. rewrite filter_app, map_app. cbn [filter].
  induction (map _ (filter (debt_of cid) debts)) as [|x l IH]; simpl.
  - destruct (debt_of cid row); simpl; lia.
  - rewrite IH. lia.
Qed.

Lemma filter_update_rows_outside (p : object -> bool) (id : string) (data : object)
    (t : table) :
  (forall r, In r t -> has_id id r = true ->
             p r = false /\ p (obj_merge r data) = false) ->
  filter p (update_rows id data t) = filter p t.
Proof.
  unfold update_rows. induction t as [|r t IH]; intros H; [reflexivity|].
  cbn [map filter]. rewrite IH by (intros r' Hin; apply H; now right).
  destruct (has_id id r) eqn:E; [|reflexivity].
  destruct (H r (or_introl eq_refl) E) as [-> ->]. reflexivity.
Qed.

Lemma filter_delete_rows_outside (p : object -> bool) (id : string) (t : table) :
  (forall r, In r t -> has_id id r = true -> p r = false) ->
  filter p (delete_rows id t) = filter p t.
Proof.
  unfold delete_rows. induction t as [|r t IH]; intros H; [reflexivity|].
  cbn [filter]. destruct (has_id id r) eqn:E; cbn [negb filter].
  - rewrite (H r (or_introl eq_refl) E). apply IH. intros r' Hin. apply H. now right.
  - rewrite IH by (intros r' Hin; apply H; now right). reflexivity.
Qed.

Lemma string_ids_app (t : table) (row : object) (s : string) :
  string_ids t -> obj_get "id" row = VStr s -> string_ids (t ++ [row])%list.
Proof.
  intros Hs Hid r Hin. apply in_app_iff in Hin. destruct Hin as [Hin|[<-|[]]]; eauto.
Qed.

Lemma add_debt_preserves (debt : object) (w : world) :
  creditors_ok w -> obj_find "id" debt = None ->
  creditors_ok (snd (addExternalDebt debt w)).
Proof.
  intros (Hc & Huc & Hud & Hs & Hr) Hnoid. unfold addExternalDebt, addDoc.
  pose proof (collection_add_reliable EXTERNAL_DEBTS_COLLECTION debt w Hr Hnoid) as Hadd.
  destruct (rows_with_id w EXTERNAL_DEBTS_COLLECTION (next_id w)) eqn:Hrows.
  - rewrite (snd_bind_ok _ Hadd). rewrite snd_then_ret.
    apply recalc_creditor_restores.
    set (payload := obj_set "id" (VStr (next_id w)) debt).
    unfold creditors_ok_except.
    rewrite tables_set_table_eq, tables_set_table_neq, tables_tick by discriminate.
    split; [|split; [exact Huc|split; [|split]]].
    + intros c cid Hin Hid Hne HneC.
      rewrite debts_total_app. unfold debt_of at 1, payload.
      rewrite obj_get_set_neq by discriminate.
      rewrite (debt_of_other cid _ Hne HneC). rewrite Z.add_0_r. now apply Hc.
    + apply unique_ids_app_fresh with (id := next_id w);
        [apply obj_get_set_eq|exact Hrows|exact Hud].
    + apply string_ids_app with (s := next_id w); [exact Hs|apply obj_get_set_eq].
    + now apply reliable_set_table, reliable_tick.
  - rewrite (snd_bind_throw _ Hadd).
    unfold creditors_ok. rewrite !tables_tick.
    split; [exact Hc|]. split; [exact Huc|]. split; [exact Hud|].
    split; [exact Hs|now apply reliable_tick].
Qed.

Lemma update_debt_preserves (debtId : string) (data : object) (w : world) :
  creditors_ok w ->
  needs_fetch data = false -> obj_find "id" data = None ->
  obj_find "creditorId" data = None ->
  creditors_ok (snd (updateExternalDebt debtId data w)).
Proof.
  intros Hok Hplain Hnoid Hnoc. pose proof Hok as (Hc & Huc & Hud & Hs & Hr).
  unfold updateExternalDebt.
  destruct (String.eqb_spec debtId "") as [->|Hid].
  { now rewrite (snd_bind_throw _ (doc_empty_id EXTERNAL_DEBTS_COLLECTION w)). }
  rewrite (snd_bind_ok _ (doc_ok EXTERNAL_DEBTS_COLLECTION debtId w ltac:(discriminate) Hid)).
  unfold getDoc. rewrite (snd_bind_ok _ (doc_get_reliable _ w Hr)).
  cbn [ref_collection ref_id].
  destruct (rows_with_id w EXTERNAL_DEBTS_COLLECTION debtId) as [|old [|x l]] eqn:Hrows;
    try exact Hok.
  unfold updateDoc.
  rewrite (snd_bind_ok _ (doc_update_plain_reliable _ data w Hr Hplain)).
  cbn [ref_collection ref_id]. rewrite snd_then_ret.
  apply recalc_creditor_restores.
  unfold creditors_ok_except.
  rewrite tables_set_table_eq, tables_set_table_neq by discriminate.
  assert (Hkeep : forall r, obj_get "creditorId" (obj_merge r data) = obj_get "creditorId" r).
  { intros r. now rewrite obj_get_merge, Hnoc. }
  split; [|split; [exact Huc|split; [now apply unique_ids_update_rows|split; [|exact Hr]]]].
  - intros c cid Hin Hcid Hne HneC. unfold debts_total.
    rewrite filter_update_rows_outside; [now apply Hc|].
    intros r Hin' Hrid.
    assert (r = old) as ->.
    { apply (rows_with_id_unique w EXTERNAL_DEBTS_COLLECTION debtId old r Hrows Hin' Hrid). }
    unfold debt_of. rewrite Hkeep. split; now apply debt_of_other.
  - intros r Hin. destruct (in_update_rows _ _ _ _ Hin) as [(r0 & Hr0 & _ & ->)|[Hin0 _]].
    + destruct (Hs r0 Hr0) as [s Hsid]. exists s. now rewrite obj_get_merge, Hnoid.
    + now apply Hs.
Qed.

Lemma delete_debt_preserves (debtId : string) (w : world) :
  creditors_ok w -> creditors_ok (snd (deleteExternalDebt debtId w)).
Proof.
  intros Hok. pose proof Hok as (Hc & Huc & Hud & Hs & Hr).
  unfold deleteExternalDebt.
  destruct (String.eqb_spec debtId "") as [->|Hid].
  { now rewrite (snd_bind_throw _ (doc_empty_id EXTERNAL_DEBTS_COLLECTION w)). }
  rewrite (snd_bind_ok _ (doc_ok EXTERNAL_DEBTS_COLLECTION debtId w ltac:(discriminate) Hid)).
  unfold getDoc. rewrite (snd_bind_ok _ (doc_get_reliable _ w Hr)).
  cbn [ref_collection ref_id].
  destruct (rows_with_id w EXTERNAL_DEBTS_COLLECTION debtId) as [|old [|x l]] eqn:Hrows;
    try exact Hok.
  unfold deleteDoc.
  rewrite (snd_bind_ok _ (doc_delete_reliable _ w Hr)).
  cbn [ref_collection ref_id]. rewrite snd_then_ret.
  apply recalc_creditor_restores.
  unfold creditors_ok_except.
  rewrite tables_set_table_eq, tables_set_table_neq by discriminate.
  split; [|split; [exact Huc|split; [now apply unique_ids_delete|split; [|exact Hr]]]].
  - intros c cid Hin Hcid Hne HneC. unfold debts_total.
    rewrite filter_delete_rows_outside; [now apply Hc|].
    intros r Hin' Hrid.
    assert (r = old) as ->.
    { apply (rows_with_id_unique w EXTERNAL_DEBTS_COLLECTION debtId old r Hrows Hin' Hrid). }
    unfold debt_of. now apply debt_of_other.
  - intros r Hin. apply Hs. unfold delete_rows in Hin. now apply filter_In in Hin.
Qed.

Lemma snd_bind_inv {A B} (P : world -> Prop) (m : M A) (k : A -> M B) (w : world) :
  P (snd (m w)) ->
  (forall a w', P w' -> P (snd (k a w'))) ->
  P (snd (bind m k w)).
Proof.
  intros Hm Hk. unfold bind. destruct (m w) as [[a|e] w']; cbn [snd] in *; auto.
Qed.

Lemma creditors_ok_tick (w : world) : creditors_ok w -> creditors_ok (tick w).
Proof.
  intros (Hc & Huc & Hud & Hs & Hr). unfold creditors_ok. rewrite !tables_tick.
  repeat split; auto.
Qed.

Lemma getCreditorById_state (C : string) (w : world) :
  reliable w -> snd (getCreditorById C w) = w.
Proof.
  intros Hr. unfold getCreditorById.
  destruct (String.eqb_spec C "") as [->|HC].
  - now rewrite (snd_bind_throw _ (doc_empty_id CREDITORS_COLLECTION w)).
  - rewrite (snd_bind_ok _ (doc_ok CREDITORS_COLLECTION C w ltac:(discriminate) HC)).
    unfold getDoc. now rewrite (snd_bind_ok _ (doc_get_reliable _ w Hr)).
Qed.

Lemma add_creditor_preserves (creditorData : object) (initialBalance : Z) (w : world) :
  creditors_ok w ->
  obj_find "id" creditorData = None ->
  filter (debt_of (next_id w)) (tables w EXTERNAL_DEBTS_COLLECTION) = [] ->
  creditors_ok (snd (addCreditor creditorData initialBalance w)).
Proof.
  intros Hok Hnoid Hfresh. pose proof Hok as (Hc & Huc & Hud & Hs & Hr).
  unfold addCreditor, addDoc.
  set (cwd := obj_merge creditorData [("totalDebt", VNum 0)]).
  assert (Hnoid' : obj_find "id" cwd = None).
  { unfold cwd. now rewrite obj_find_merge. }
  pose proof (collection_add_reliable CREDITORS_COLLECTION cwd w Hr Hnoid') as Hadd.
  destruct (rows_with_id w CREDITORS_COLLECTION (next_id w)) eqn:Hrows.
  - rewrite (snd_bind_ok _ Hadd).
    set (w1 := set_table CREDITORS_COLLECTION _ (tick w)).
    assert (Hok1 : creditors_ok w1).
    { unfold creditors_ok, w1.
      rewrite tables_set_table_eq, tables_set_table_neq, tables_tick by discriminate.
      split; [|split; [|split; [exact Hud|split; [exact Hs|]]]].
      - intros c cid Hin Hid Hne. apply in_app_iff in Hin.
        destruct Hin as [Hin|[<-|[]]]; [now apply Hc|].
        rewrite obj_get_set_eq in Hid. injection Hid as <-.
        rewrite obj_get_set_neq by discriminate.
        unfold cwd. rewrite obj_get_merge. cbn [obj_find]. simpl.
        unfold debts_total. now rewrite Hfresh.
      - apply unique_ids_app_fresh with (id := next_id w);
          [apply obj_get_set_eq|exact Hrows|exact Huc].
      - now apply reliable_set_table, reliable_tick. }
    clearbody w1.
    apply snd_bind_inv.
    + destruct (negb (initialBalance =? 0)).
      * assert (Hnow : now_iso w1 = (Ok (clock w1 (ticks w1)), tick w1)) by reflexivity.
        rewrite (snd_bind_ok _ Hnow). rewrite snd_then_ret.
        apply add_debt_preserves; [now apply creditors_ok_tick|reflexivity].
      * apply recalc_creditor_restores. now apply creditors_ok_weaken.
    + intros _ w' Hok'. rewrite getCreditorById_state; [exact Hok'|apply Hok'].
  - rewrite (snd_bind_throw _ Hadd). now apply creditors_ok_tick.
Qed.

Lemma unique_ids_eq (t : table) (s : string) (r d : object) :
  unique_ids t -> In r t -> In d t ->
  has_id s r = true -> has_id s d = true -> r = d.
Proof.
  intros Hu Hr Hd Hsr Hsd.
  destruct (unique_single s t Hu) as [Hnil|[x Hone]].
  - assert (H : In r (filter (has_id s) t)) by (apply filter_In; auto).
    now rewrite Hnil in H.
  - assert (H1 : In r (filter (has_id s) t)) by (apply filter_In; auto).
    assert (H2 : In d (filter (has_id s) t)) by (apply filter_In; auto).
    rewrite Hone in H1, H2. destruct H1 as [<-|[]], H2 as [<-|[]]. reflexivity.
Qed.

(** The loop of [deleteCreditor] over the debts of the creditor. *)
Lemma delete_debts_loop (rows : list object) (b : batch) (w : world) :
  reliable w ->
  exists w',
    foldM (fun b d => batch_delete b (row_ref EXTERNAL_DEBTS_COLLECTION d)) b rows w
    = (Ok b, w')
    /\ reliable w'
    /\ tables w' EXTERNAL_DEBTS_COLLECTION
       = fold_left (fun t d => delete_rows (as_id (obj_get "id" d)) t) rows
                   (tables w EXTERNAL_DEBTS_COLLECTION)
    /\ forall c, c <> EXTERNAL_DEBTS_COLLECTION -> tables w' c = tables w c.
Proof.
  revert b w. induction rows as [|d rows IH]; intros b w Hr.
  - exists w. repeat split; auto.
  - cbn [foldM]. unfold batch_delete at 1.
    rewrite (bind_ok _ (batch_push_ok b _ w _ (doc_delete_reliable _ w Hr))).
    cbn [row_ref ref_collection ref_id].
    set (w1 := set_table EXTERNAL_DEBTS_COLLECTION _ w).
    destruct (IH b w1 Hr) as (w' & Hrun & Hr' & Ht & Hfr).
    exists w'. split; [exact Hrun|]. split; [exact Hr'|]. split.
    + rewrite Ht. unfold w1. now rewrite tables_set_table_eq.
    + intros c Hc. rewrite Hfr by exact Hc. unfold w1. now apply tables_set_table_neq.
Qed.

Lemma in_fold_delete (rows : list object) (t : table) (r : object) :
  In r (fold_left (fun t d => delete_rows (as_id (obj_get "id" d)) t) rows t) ->
  In r t /\ forall d, In d rows -> has_id (as_id (obj_get "id" d)) r = false.
Proof.
  revert t. induction rows as [|d rows IH]; intros t Hin; cbn [fold_left] in Hin.
  - split; [exact Hin|]. intros d [].
  - destruct (IH _ Hin) as [Hin' Hrest]. unfold delete_rows in Hin'.
    apply filter_In in Hin'. destruct Hin' as [Hin0 Hneg].
    split; [exact Hin0|]. intros d' [<-|Hd'].
    + now apply negb_true_iff in Hneg.
    + now apply Hrest.
Qed.

Lemma filter_fold_delete_outside (p : object -> bool) (rows : list object) (t : table) :
  (forall d r, In d rows -> In r t -> has_id (as_id (obj_get "id" d)) r = true ->
               p r = false) ->
  filter p (fold_left (fun t d => delete_rows (as_id (obj_get "id" d)) t) rows t)
  = filter p t.
Proof.
  revert t. induction rows as [|d rows IH]; intros t H; [reflexivity|].
  cbn [fold_left]. rewrite IH.
  - apply filter_delete_rows_outside. intros r Hin Hid.
    apply (H d r); auto. now left.
  - intros d' r Hd' Hin Hid. unfold delete_rows in Hin. apply filter_In in Hin.
    apply (H d' r); [now right|apply Hin|exact Hid].
Qed.

Lemma unique_ids_fold_delete (rows : list object) (t : table) :
  unique_ids t ->
  unique_ids (fold_left (fun t d => delete_rows (as_id (obj_get "id" d)) t) rows t).
Proof.
  revert t. induction rows as [|d rows IH]; intros t Hu; [exact Hu|].
  cbn [fold_left]. apply IH. now apply unique_ids_delete.
Qed.

(** What [deleteCreditor] does on a reliable store. *)
Lemma deleteCreditor_reliable (C : string) (w : world) :
  reliable w -> C <> "" ->
  exists w',
    deleteCreditor C w = (Ok true, w')
    /\ reliable w'
    /\ tables w' CREDITORS_COLLECTION = delete_rows C (tables w CREDITORS_COLLECTION)
    /\ tables w' EXTERNAL_DEBTS_COLLECTION
       = fold_left (fun t d => delete_rows (as_id (obj_get "id" d)) t)
                   (filter (debt_of C) (tables w EXTERNAL_DEBTS_COLLECTION))
                   (tables w EXTERNAL_DEBTS_COLLECTION)
    /\ forall c, c <> CREDITORS_COLLECTION -> c <> EXTERNAL_DEBTS_COLLECTION ->
                 tables w' c = tables w c.
Proof.
  intros Hr HC. unfold deleteCreditor, writeBatch.
  rewrite (bind_ok _ (doc_ok CREDITORS_COLLECTION C w ltac:(discriminate) HC)).
  unfold batch_delete at 1.
  rewrite (bind_ok _ (batch_push_ok [] _ w _ (doc_delete_reliable _ w Hr))).
  cbn [ref_collection ref_id].
  set (w1 := set_table CREDITORS_COLLECTION _ w).
  assert (Hr1 : reliable w1) by exact Hr.
  unfold getDocs, query. rewrite (bind_ok _ (adapter_query_reliable _ _ w1 Hr1)).
  rewrite debts_query_filter.
  destruct (delete_debts_loop (filter (debt_of C) (tables w1 EXTERNAL_DEBTS_COLLECTION))
              [] w1 Hr1) as (w' & Hrun & Hr' & Ht & Hfr).
  rewrite (bind_ok _ Hrun). cbn [batch_commit].
  rewrite (bind_ok _ (ret_run tt w')).
  exists w'. split; [reflexivity|]. split; [exact Hr'|].
  assert (Hd1 : tables w1 EXTERNAL_DEBTS_COLLECTION = tables w EXTERNAL_DEBTS_COLLECTION).
  { unfold w1. now apply tables_set_table_neq. }
  split; [|split].
  - rewrite Hfr by discriminate. unfold w1. apply tables_set_table_eq.
  - now rewrite Ht, Hd1.
  - intros c Hc1 Hc2. rewrite Hfr by exact Hc2. unfold w1. now apply tables_set_table_neq.
Qed.

Lemma delete_creditor_preserves (C : string) (w : world) :
  creditors_ok w -> creditors_ok (snd (deleteCreditor C w)).
Proof.
  intros Hok. pose proof Hok as (Hc & Huc & Hud & Hs & Hr).
  destruct (String.eqb_spec C "") as [->|HC].
  { unfold deleteCreditor.
    now rewrite (snd_bind_throw _ (doc_empty_id CREDITORS_COLLECTION w)). }
  destruct (deleteCreditor_reliable C w Hr HC) as (w' & Hrun & Hr' & Htc & Htd & _).
  rewrite Hrun. cbn [snd]. unfold creditors_ok. rewrite Htc, Htd.
  split; [|split; [now apply unique_ids_delete|split;
                   [now apply unique_ids_fold_delete|split; [|exact Hr']]]].
  - intros c cid Hin Hid Hne. unfold delete_rows in Hin. apply filter_In in Hin.
    destruct Hin as [Hin Hnot]. apply negb_true_iff in Hnot.
    assert (HneC : cid <> C).
    { intros ->. apply has_id_iff in Hid. congruence. }
    unfold debts_total. rewrite filter_fold_delete_outside; [now apply Hc|].
    intros d r Hd Hr0 Hidr. apply filter_In in Hd. destruct Hd as [Hd HdC].
    destruct (Hs d Hd) as [s Hsd]. rewrite Hsd in Hidr. cbn [as_id] in Hidr.
    assert (r = d) as ->.
    { apply (unique_ids_eq _ s r d Hud Hr0 Hd Hidr). now apply has_id_iff. }
    unfold debt_of in *. apply strict_eqb_VStr in HdC. rewrite HdC. simpl.
    destruct (String.eqb_spec C cid); [congruence|reflexivity].
  - intros r Hin. apply in_fold_delete in Hin. now apply Hs.
Qed.

(** The stored total of every creditor survives the operations on debts
    and creditors: adding, amending and deleting a debt, adding a creditor
    with or without an opening balance, deleting a creditor with its
    debts.  Whenever an operation ends, also by an exception, every
    creditor carries the sum of the amounts of the debts that name it. *)
Theorem creditor_totals_are_maintained :
  forall (op : creditor_op) (w : world),
    creditors_ok w -> admissible_creditor_op w op ->
    creditors_ok (after_creditor_op op w).
Proof.
  intros op w Hok Hadm.
  destruct op; cbn [after_creditor_op admissible_creditor_op] in *.
  - now apply add_debt_preserves.
  - destruct Hadm as (H1 & H2 & H3). now apply update_debt_preserves.
  - now apply delete_debt_preserves.
  - destruct Hadm as (H1 & H2). now apply add_creditor_preserves.
  - now apply delete_creditor_preserves.
Qed.

Lemma unique_ids_one (r : object) : unique_ids [r].
Proof. intros id. simpl. destruct (has_id id r); simpl; lia. Qed.

Lemma unique_ids_two (r1 r2 : object) (s1 s2 : string) :
  obj_get "id" r1 = VStr s1 -> obj_get "id" r2 = VStr s2 -> s1 <> s2 ->
  unique_ids [r1; r2].
Proof.
  intros H1 H2 Hne id. simpl.
  destruct (has_id id r1) eqn:E1, (has_id id r2) eqn:E2; simpl; try lia.
  apply has_id_iff in E1, E2. congruence.
Qed.

Lemma world_creditor_ok : creditors_ok world_creditor.
Proof.
  split; [|split; [|split; [|split; [|reflexivity]]]].
  - intros c cid [<-|[]] Hid _. injection Hid as <-. reflexivity.
  - apply unique_ids_one.
  - apply (unique_ids_two _ _ "d1" "d2"); [reflexivity|reflexivity|discriminate].
  - intros r [<-|[<-|[]]]; eexists; reflexivity.
Qed.

Lemma creditor_totals_are_maintained_witness :
  creditors_ok (after_creditor_op (AddDebt debt_25) world_creditor).
Proof.
  apply (creditor_totals_are_maintained (AddDebt debt_25) world_creditor).
  - exact world_creditor_ok.
  - reflexivity.
Defined.

(** The sample creditor after a debt of 25 was added to debts of 100 and
    50. *)
Example addExternalDebt_updates_the_total :
  tables (snd (addExternalDebt debt_25 world_creditor)) CREDITORS_COLLECTION
  = [ [("id", VStr "c1"); ("name", VStr "Supplier"); ("totalDebt", VNum 175)] ].
Proof. reflexivity. Qed.

(** Moving a debt to another creditor by [updateExternalDebt] recalculates
    the creditor that the debt named before, not the one it names
    afterwards. *)
Example updateExternalDebt_forgets_the_new_creditor :
  tables (snd (updateExternalDebt "d2" [("creditorId", VStr "c2")]
                 (sample_world
                    [(CREDITORS_COLLECTION,
                      [ [("id", VStr "c1"); ("totalDebt", VNum 150)];
                        [("id", VStr "c2"); ("totalDebt", VNum 0)] ]);
                     (EXTERNAL_DEBTS_COLLECTION,
                      [ [("id", VStr "d1"); ("creditorId", VStr "c1"); ("amount", VNum 100)];
                        [("id", VStr "d2"); ("creditorId", VStr "c1"); ("amount", VNum 50)] ])]
                    [])))
    CREDITORS_COLLECTION
  = [ [("id", VStr "c1"); ("totalDebt", VNum 100)];
      [("id", VStr "c2"); ("totalDebt", VNum 0)] ].
Proof. reflexivity. Qed.

Lemma rows_with_id_app_fresh (w : world) (c id : string) (row : object) (w0 : world) :
  rows_with_id w c id = [] -> has_id id row = true ->
  rows_with_id (set_table c (tables w c ++ [row])%list w0) c id = [row].
Proof.
  intros Hnil Hid. unfold rows_with_id. rewrite tables_set_table_eq.
  now apply filter_app_single.
Qed.

(** [addCreditor] on a reliable store, with identifiers to come that are
    new: the answer is the stored creditor, it carries the fields that were
    given, the generated identifier, and a total debt equal to the opening
    balance. *)
Theorem addCreditor_answers_the_opening_balance :
  forall (w : world) (creditorData : object) (initialBalance : Z),
    reliable w ->
    obj_find "id" creditorData = None ->
    next_id w <> "" ->
    rows_with_id w CREDITORS_COLLECTION (next_id w) = [] ->
    filter (debt_of (next_id w)) (tables w EXTERNAL_DEBTS_COLLECTION) = [] ->
    rows_with_id w EXTERNAL_DEBTS_COLLECTION (opening_debt_id w) = [] ->
    exists creditor,
      fst (addCreditor creditorData initialBalance w) = Ok (Some creditor)
      /\ obj_get "id" creditor = VStr (next_id w)
      /\ obj_get "totalDebt" creditor = VNum initialBalance
      /\ (forall k, k <> "id" -> k <> "totalDebt" ->
                    obj_get k creditor = obj_get k creditorData)
      /\ debts_total
           (tables (snd (addCreditor creditorData initialBalance w))
              EXTERNAL_DEBTS_COLLECTION) (next_id w)
         = initialBalance.
Proof.
  intros w data bal Hr Hnoid Hnid Hrows Hfresh Hdfresh.
  unfold addCreditor, addDoc.
  set (cwd := obj_merge data [("totalDebt", VNum 0)]).
  assert (Hnoid' : obj_find "id" cwd = None).
  { unfold cwd. now rewrite obj_find_merge. }
  pose proof (collection_add_reliable CREDITORS_COLLECTION cwd w Hr Hnoid') as Hadd.
  rewrite Hrows in Hadd. rewrite (bind_ok _ Hadd).
  set (nid := next_id w) in *.
  set (payload := obj_set "id" (VStr nid) cwd).
  assert (Hdoc : obj_get "id" (obj_merge [("id", VStr nid)] cwd) = VStr nid).
  { now rewrite obj_get_merge, Hnoid'. }
  assert (Hnew : obj_get "id" (obj_merge [("id", obj_get "id" (obj_merge [("id", VStr nid)] cwd))]
                                 cwd) = VStr nid).
  { now rewrite obj_get_merge, Hnoid', Hdoc. }
  rewrite Hnew. cbn [as_id].
  set (w1 := set_table CREDITORS_COLLECTION _ (tick w)).
  assert (Hr1 : reliable w1) by (apply reliable_set_table, reliable_tick, Hr).
  assert (Hrows1 : rows_with_id w1 CREDITORS_COLLECTION nid = [payload]).
  { unfold w1. rewrite <- (tables_tick w CREDITORS_COLLECTION) at 1.
    apply rows_with_id_app_fresh; [exact Hrows|apply has_id_set_id]. }
  assert (Hd1 : tables w1 EXTERNAL_DEBTS_COLLECTION = tables w EXTERNAL_DEBTS_COLLECTION).
  { unfold w1. rewrite tables_set_table_neq by discriminate. apply tables_tick. }
  assert (Hpt : obj_get "totalDebt" payload = VNum 0).
  { unfold payload. rewrite obj_get_set_neq by discriminate.
    unfold cwd. now rewrite obj_get_merge. }
  assert (Hpk : forall k, k <> "id" -> k <> "totalDebt" -> obj_get k payload = obj_get k data).
  { intros k Hk1 Hk2. unfold payload. rewrite obj_get_set_neq by exact Hk1.
    unfold cwd. rewrite obj_get_merge. cbn [obj_find].
    destruct (String.eqb_spec k "totalDebt"); [contradiction|reflexivity]. }
  (* the tail: after the recalculation of a state [w2] holding the creditor *)
  assert (Htail : forall (w2 : world) (T : Z),
            reliable w2 ->
            rows_with_id w2 CREDITORS_COLLECTION nid = [payload] ->
            debts_total (tables w2 EXTERNAL_DEBTS_COLLECTION) nid = T ->
            exists creditor,
              fst ((recalculateCreditorDebt nid ;;; getCreditorById nid) w2)
              = Ok (Some creditor)
              /\ obj_get "id" creditor = VStr nid
              /\ obj_get "totalDebt" creditor = VNum T
              /\ (forall k, k <> "id" -> k <> "totalDebt" ->
                            obj_get k creditor = obj_get k data)
              /\ tables (snd ((recalculateCreditorDebt nid ;;; getCreditorById nid) w2))
                   EXTERNAL_DEBTS_COLLECTION
                 = tables w2 EXTERNAL_DEBTS_COLLECTION).
  { intros w2 T Hr2 Hrows2 HT.
    pose proof (recalculateCreditorDebt_reliable nid w2 Hr2 Hnid) as Hrec.
    rewrite Hrows2, HT in Hrec. rewrite (bind_ok _ Hrec).
    set (w3 := set_table CREDITORS_COLLECTION _ w2).
    assert (Hr3 : reliable w3) by exact Hr2.
    assert (Hrows3 : rows_with_id w3 CREDITORS_COLLECTION nid
                     = [obj_merge payload [("totalDebt", VNum T)]]).
    { unfold w3. rewrite rows_with_id_update by reflexivity. now rewrite Hrows2. }
    unfold getCreditorById.
    rewrite (bind_ok _ (doc_ok CREDITORS_COLLECTION nid w3 ltac:(discriminate) Hnid)).
    unfold getDoc. rewrite (bind_ok _ (doc_get_reliable _ w3 Hr3)).
    cbn [ref_collection ref_id]. rewrite Hrows3. cbn [ret fst snd].
    eexists. split; [reflexivity|]. split; [|split; [|split]].
    - rewrite obj_get_merge, obj_find_merge. cbn [obj_find]. simpl.
      unfold payload. now rewrite obj_find_set_eq.
    - rewrite obj_get_merge_id by discriminate. now rewrite obj_get_merge.
    - intros k Hk1 Hk2. rewrite obj_get_merge_id by exact Hk1.
      rewrite obj_get_merge. cbn [obj_find].
      destruct (String.eqb_spec k "totalDebt"); [contradiction|]. now apply Hpk.
    - unfold w3. now apply tables_set_table_neq. }
  destruct (Z.eqb_spec bal 0) as [->|Hbal]; cbn [negb].
  - destruct (Htail w1 0 Hr1 Hrows1) as (creditor & H1 & H2 & H3 & H4 & H5).
    { rewrite Hd1. unfold debts_total. now rewrite Hfresh. }
    exists creditor. split; [exact H1|]. split; [exact H2|]. split; [exact H3|].
    split; [exact H4|]. rewrite H5, Hd1. unfold debts_total. now rewrite Hfresh.
  - rewrite !bind_assoc_run.
    assert (Hnow : now_iso w1 = (Ok (clock w1 (ticks w1)), tick w1)) by reflexivity.
    rewrite (bind_ok _ Hnow).
    set (debt := [("creditorId", _); ("creditorName", _); ("amount", VNum bal);
                  ("date", _); ("status", _); ("notes", _)]).
    unfold addExternalDebt, addDoc. rewrite !bind_assoc_run.
    pose proof (collection_add_reliable EXTERNAL_DEBTS_COLLECTION debt (tick w1)
                  (reliable_tick w1 Hr1) eq_refl) as Hadd2.
    assert (Hnext : next_id (tick w1) = opening_debt_id w) by reflexivity.
    rewrite Hnext in Hadd2.
    assert (Hrows2 : rows_with_id (tick w1) EXTERNAL_DEBTS_COLLECTION (opening_debt_id w)
                     = []).
    { unfold rows_with_id. rewrite tables_tick, Hd1. exact Hdfresh. }
    rewrite Hrows2 in Hadd2. rewrite (bind_ok _ Hadd2).
    set (w2 := set_table EXTERNAL_DEBTS_COLLECTION _ (tick (tick w1))).
    assert (Hr2 : reliable w2) by (apply reliable_set_table, reliable_tick, reliable_tick, Hr1).
    assert (Hc2 : rows_with_id w2 CREDITORS_COLLECTION nid = [payload]).
    { unfold rows_with_id, w2. rewrite tables_set_table_neq by discriminate.
      rewrite !tables_tick. exact Hrows1. }
    assert (HT : debts_total (tables w2 EXTERNAL_DEBTS_COLLECTION) nid = bal).
    { unfold w2. rewrite tables_set_table_eq, !tables_tick, Hd1.
      rewrite debts_total_app. unfold debts_total at 1. rewrite Hfresh.
      unfold debt_of. rewrite !obj_get_set_neq by discriminate.
      unfold debt. cbn [obj_get]. simpl. 
      rewrite String.eqb_refl. reflexivity. }
    rewrite !bind_assoc_run.
    match goal with
    | |- context [fst (?t w2)] =>
        change t with (recalculateCreditorDebt nid ;;; getCreditorById nid)
    end.
    destruct (Htail w2 bal Hr2 Hc2 HT) as (creditor & H1 & H2 & H3 & H4 & H5).
    exists creditor. split; [exact H1|]. split; [exact H2|]. split; [exact H3|].
    split; [exact H4|]. now rewrite H5.
Qed.

Lemma addCreditor_answers_the_opening_balance_witness :
  exists creditor,
    fst (addCreditor new_creditor 40 world_creditor) = Ok (Some creditor)
    /\ obj_get "id" creditor = VStr "k0q7x2m9d4"
    /\ obj_get "totalDebt" creditor = VNum 40
    /\ obj_get "name" creditor = VStr "Carrier".
Proof.
  destruct (addCreditor_answers_the_opening_balance world_creditor new_creditor 40
              eq_refl eq_refl ltac:(discriminate) eq_refl eq_refl eq_refl)
    as (creditor & H1 & H2 & H3 & H4 & _).
  exists creditor. split; [exact H1|]. split; [exact H2|]. split; [exact H3|].
  apply (H4 "name"); discriminate.
Defined.

Lemma filter_none {A} (p : A -> bool) (l : list A) :
  (forall x, In x l -> p x = false) -> filter p l = [].
Proof.
  induction l as [|x l IH]; intros H; [reflexivity|]. simpl.
  rewrite (H x (or_introl eq_refl)). apply IH. intros y Hy. apply H. now right.
Qed.

(** [deleteCreditor] on a reliable store whose debts carry distinct string
    identifiers: it answers [true]; afterwards the creditor does not exist
    and no debt names it; the debts of the other creditors, the other
    creditors and the other tables are as before. *)
Theorem deleteCreditor_removes_the_creditor_and_its_debts :
  forall (w : world) (creditorId : string),
    reliable w -> creditorId <> "" ->
    unique_ids (tables w EXTERNAL_DEBTS_COLLECTION) ->
    string_ids (tables w EXTERNAL_DEBTS_COLLECTION) ->
    let w' := snd (deleteCreditor creditorId w) in
    fst (deleteCreditor creditorId w) = Ok true
    /\ rows_with_id w' CREDITORS_COLLECTION creditorId = []
    /\ filter (debt_of creditorId) (tables w' EXTERNAL_DEBTS_COLLECTION) = []
    /\ (forall cid, cid <> creditorId ->
          filter (debt_of cid) (tables w' EXTERNAL_DEBTS_COLLECTION)
          = filter (debt_of cid) (tables w EXTERNAL_DEBTS_COLLECTION))
    /\ (forall id, id <> creditorId ->
          rows_with_id w' CREDITORS_COLLECTION id = rows_with_id w CREDITORS_COLLECTION id)
    /\ (forall c, c <> CREDITORS_COLLECTION -> c <> EXTERNAL_DEBTS_COLLECTION ->
                  tables w' c = tables w c).
Proof.
  intros w C Hr HC Hud Hs w'. unfold w'. clear w'.
  destruct (deleteCreditor_reliable C w Hr HC) as (w' & Hrun & Hr' & Htc & Htd & Hfr).
  rewrite Hrun. cbn [fst snd]. unfold rows_with_id. rewrite Htc, Htd.
  split; [reflexivity|]. split; [apply filter_delete_rows_same|]. split; [|split; [|split]].
  - apply filter_none. intros r Hin.
    destruct (in_fold_delete _ _ _ Hin) as [Hin0 Hdel].
    destruct (debt_of C r) eqn:E; [|reflexivity]. exfalso.
    destruct (Hs r Hin0) as [s Hsid].
    assert (Hrow : In r (filter (debt_of C) (tables w EXTERNAL_DEBTS_COLLECTION))).
    { apply filter_In. now split. }
    specialize (Hdel r Hrow). rewrite Hsid in Hdel. cbn [as_id] in Hdel.
    apply has_id_iff in Hsid. congruence.
  - intros cid Hne. apply filter_fold_delete_outside.
    intros d r Hd Hr0 Hidr. apply filter_In in Hd. destruct Hd as [Hd HdC].
    destruct (Hs d Hd) as [s Hsd]. rewrite Hsd in Hidr. cbn [as_id] in Hidr.
    assert (r = d) as ->.
    { apply (unique_ids_eq _ s r d Hud Hr0 Hd Hidr). now apply has_id_iff. }
    unfold debt_of in *. apply strict_eqb_VStr in HdC. rewrite HdC. simpl.
    destruct (String.eqb_spec C cid); [congruence|reflexivity].
  - intros id Hne. now apply filter_delete_rows_other.
  - exact Hfr.
Qed.

Lemma deleteCreditor_removes_the_creditor_and_its_debts_witness :
  fst (deleteCreditor "c1" world_creditor) = Ok true
  /\ rows_with_id (snd (deleteCreditor "c1" world_creditor)) CREDITORS_COLLECTION "c1" = []
  /\ filter (debt_of "c1")
       (tables (snd (deleteCreditor "c1" world_creditor)) EXTERNAL_DEBTS_COLLECTION) = [].
Proof.
  destruct (deleteCreditor_removes_the_creditor_and_its_debts world_creditor "c1"
              eq_refl ltac:(discriminate))
    as (H1 & H2 & H3 & _).
  - apply world_creditor_ok.
  - apply world_creditor_ok.
  - split; [exact H1|]. split; [exact H2|exact H3].
Defined.

(** [recalculateCreditorDebt] never throws.  On a reliable store it
    stores, in the row of an existing creditor, the sum of the amounts of
    the debts that name the creditor, and keeps the other fields of the
    row; it leaves the debts as they are, so that a second run changes no
    table; for a creditor that does not exist it does nothing. *)
Theorem recalculateCreditorDebt_stores_the_total :
  forall (w : world) (creditorId : string),
    (exists w', recalculateCreditorDebt creditorId w = (Ok tt, w'))
    /\ (reliable w -> creditorId <> "" ->
        forall c, rows_with_id w CREDITORS_COLLECTION creditorId = [c] ->
          let w1 := snd (recalculateCreditorDebt creditorId w) in
          exists row,
            rows_with_id w1 CREDITORS_COLLECTION creditorId = [row]
            /\ obj_get "totalDebt" row
               = VNum (debts_total (tables w EXTERNAL_DEBTS_COLLECTION) creditorId)
            /\ (forall k, k <> "totalDebt" -> obj_get k row = obj_get k c)
            /\ (forall t, t <> CREDITORS_COLLECTION -> tables w1 t = tables w t)
            /\ (forall t, tables (snd (recalculateCreditorDebt creditorId w1)) t
                          = tables w1 t))
    /\ (reliable w ->
        rows_with_id w CREDITORS_COLLECTION creditorId = [] ->
        recalculateCreditorDebt creditorId w = (Ok tt, w)).
Proof.
  intros w C. split; [|split].
  - unfold recalculateCreditorDebt.
    match goal with
    | |- exists w', try_catch ?m ?h w = _ =>
        destruct (try_catch_total m tt w) as [[] H];
        exists (snd (try_catch m h w));
        destruct (try_catch m h w) as [o w0]; cbn [fst snd] in *; now subst
    end.
  - intros Hr HC c Hrows w1. unfold w1. clear w1.
    rewrite (recalculateCreditorDebt_reliable C w Hr HC), Hrows. cbn [snd].
    set (T := debts_total (tables w EXTERNAL_DEBTS_COLLECTION) C).
    set (w1 := set_table CREDITORS_COLLECTION _ w).
    assert (Hrows1 : rows_with_id w1 CREDITORS_COLLECTION C
                     = [obj_merge c [("totalDebt", VNum T)]]).
    { unfold w1. rewrite rows_with_id_update by reflexivity. now rewrite Hrows. }
    exists (obj_merge c [("totalDebt", VNum T)]).
    split; [exact Hrows1|]. split; [now rewrite obj_get_merge|]. split; [|split].
    + intros k Hk. rewrite obj_get_merge. cbn [obj_find].
      destruct (String.eqb_spec k "totalDebt"); [contradiction|reflexivity].
    + intros t Ht. unfold w1. now apply tables_set_table_neq.
    + intros t. rewrite (recalculateCreditorDebt_reliable C w1 Hr HC), Hrows1. cbn [snd].
      assert (Hd : tables w1 EXTERNAL_DEBTS_COLLECTION = tables w EXTERNAL_DEBTS_COLLECTION).
      { unfold w1. now apply tables_set_table_neq. }
      rewrite Hd. fold T.
      destruct (String.eqb_spec t CREDITORS_COLLECTION) as [->|Hne].
      * rewrite tables_set_table_eq. unfold w1. rewrite tables_set_table_eq.
        now apply update_rows_idem.
      * now apply tables_set_table_neq.
  - intros Hr Hrows.
    destruct (String.eqb_spec C "") as [->|HC]; [apply recalculateCreditorDebt_empty|].
    now rewrite (recalculateCreditorDebt_reliable C w Hr HC), Hrows.
Qed.

Lemma recalculateCreditorDebt_stores_the_total_witness :
  exists row,
    rows_with_id (snd (recalculateCreditorDebt "c1" world_creditor))
      CREDITORS_COLLECTION "c1" = [row]
    /\ obj_get "totalDebt" row = VNum 150
    /\ obj_get "name" row = VStr "Supplier".
Proof.
  destruct (proj1 (proj2 (recalculateCreditorDebt_stores_the_total world_creditor "c1"))
              eq_refl ltac:(discriminate) _ eq_refl)
    as (row & H1 & H2 & H3 & _).
  exists row. split; [exact H1|]. split; [exact H2|]. apply (H3 "name"). discriminate.
Defined.

(* ------------------------------------------------------------------ *)
(** ** The shim: an update, key by key *)

Lemma apply_key_effect (updated : object) (k : string) (v : value) :
  has_dot k = false ->
  apply_key updated (k, v)
  = Some (obj_set k (key_effect v (obj_get k updated)) updated).
Proof.
  intros Hd. unfold apply_key, key_effect. rewrite Hd.
  destruct (op_is "increment" v).
  - now destruct (op_value v).
  - destruct (op_is "arrayUnion" v); [|reflexivity].
    unfold union_step, array_or_empty.
    destruct (obj_get k updated); try reflexivity.
    now destruct (existsb (strict_eqb (op_value v)) xs).
Qed.

Lemma apply_keys_effect (data cur : object) :
  NoDup (map fst data) ->
  (forall k, In k (map fst data) -> has_dot k = false) ->
  exists updated,
    apply_keys cur data = Some updated
    /\ (forall k v, In (k, v) data ->
                    obj_find k updated = Some (key_effect v (obj_get k cur)))
    /\ (forall k, ~ In k (map fst data) -> obj_find k updated = obj_find k cur).
Proof.
  revert cur. induction data as [|[k v] data IH]; intros cur Hnd Hd.
  - exists cur. split; [reflexivity|]. split; [intros k v []|reflexivity].
  - inversion Hnd as [|x l Hnotin Hnd']; subst.
    cbn [apply_keys]. rewrite (apply_key_effect cur k v) by (apply Hd; now left).
    set (cur1 := obj_set k (key_effect v (obj_get k cur)) cur).
    destruct (IH cur1 Hnd') as (u & Hu & Hin & Hout).
    { intros k' Hk'. apply Hd. now right. }
    exists u. split; [exact Hu|]. split.
    + intros k' v' [Heq|Hin'].
      * injection Heq as <- <-. rewrite (Hout k Hnotin). unfold cur1.
        apply obj_find_set_eq.
      * rewrite (Hin k' v' Hin'). f_equal. f_equal. unfold cur1.
        apply obj_get_set_neq. intros ->. apply Hnotin.
        change k with (fst (k, v')). now apply in_map.
    + intros k' Hk'. cbn [map fst In] in Hk'.
      rewrite Hout by tauto. unfold cur1. apply obj_find_set_neq.
      intros ->. tauto.
Qed.

(** [doc.update] of an existing document with undotted, distinct keys, at
    least one of which carries a sentinel: every key acts on the current
    value of its own field, an [increment] adding to the number, an
    [arrayUnion] extending the array, any other value replacing it; the
    fields that the update does not name are kept. *)
Theorem update_applies_every_key_to_its_field :
  forall (w : world) (d : docref) (cur data : object),
    reliable w ->
    rows_with_id w (ref_collection d) (ref_id d) = [cur] ->
    needs_fetch data = true ->
    NoDup (map fst data) ->
    (forall k, In k (map fst data) -> has_dot k = false) ->
    ~ In "id" (map fst data) ->
    exists row,
      fst (doc_update d data w) = Ok tt
      /\ rows_with_id (snd (doc_update d data w)) (ref_collection d) (ref_id d) = [row]
      /\ (forall k v, In (k, v) data -> obj_get k row = key_effect v (obj_get k cur))
      /\ (forall k, ~ In k (map fst data) -> obj_get k row = obj_get k cur)
      /\ (forall id', id' <> ref_id d ->
            rows_with_id (snd (doc_update d data w)) (ref_collection d) id'
            = rows_with_id w (ref_collection d) id')
      /\ (forall c, c <> ref_collection d ->
            tables (snd (doc_update d data w)) c = tables w c).
Proof.
  intros w d cur data Hr Hrows Hn Hnd Hd Hnoid.
  destruct (apply_keys_effect data cur Hnd Hd) as (u & Hu & Hin & Hout).
  rewrite (doc_update_fetch_reliable d data cur u w Hr Hn Hrows Hu).
  cbn [fst snd]. rewrite (update_rows_single w _ _ cur u Hrows).
  fold (replace_row (ref_id d) (obj_merge cur u) (tables w (ref_collection d))).
  assert (Hkeep : forall k, ~ In k (map fst data) ->
                            obj_get k (obj_merge cur u) = obj_get k cur).
  { intros k Hk. rewrite obj_get_merge, (Hout k Hk), (obj_get_find k cur).
    now destruct (obj_find k cur). }
  assert (Hid : has_id (ref_id d) (obj_merge cur u) = true).
  { unfold has_id. rewrite (Hkeep "id" Hnoid). apply (rows_with_id_in w _ _ cur Hrows). }
  exists (obj_merge cur u). split; [reflexivity|]. split.
  { now apply rows_replace_row with (cur := cur). }
  split.
  { intros k v Hkv. now rewrite obj_get_merge, (Hin k v Hkv). }
  split; [exact Hkeep|]. split.
  { intros id' Hne. unfold rows_with_id. rewrite tables_set_table_eq.
    now apply filter_other_replace. }
  intros c Hc. now apply tables_set_table_neq.
Qed.

Lemma update_applies_every_key_to_its_field_witness :
  exists row,
    rows_with_id (snd (doc_update (mkRef "counters" "c1")
                         [("f", increment 2); ("tags", arrayUnion (VStr "a"));
                          ("note", VStr "x")] world_counter))
      "counters" "c1" = [row]
    /\ obj_get "f" row = VNum 7
    /\ obj_get "tags" row = VArr [VStr "a"]
    /\ obj_get "note" row = VStr "x".
Proof.
  destruct (update_applies_every_key_to_its_field world_counter (mkRef "counters" "c1")
              [("id", VStr "c1"); ("f", VNum 5)]
              [("f", increment 2); ("tags", arrayUnion (VStr "a")); ("note", VStr "x")]
              eq_refl eq_refl eq_refl)
    as (row & _ & H1 & H2 & _).
  - repeat constructor; simpl; intuition discriminate.
  - intros k [<-|[<-|[<-|[]]]]; reflexivity.
  - simpl. intuition discriminate.
  - exists row. split; [exact H1|]. split; [|split].
    + apply (H2 "f" (increment 2)). simpl. tauto.
    + apply (H2 "tags" (arrayUnion (VStr "a"))). simpl. tauto.
    + apply (H2 "note" (VStr "x")). simpl. tauto.
Defined.

(* ------------------------------------------------------------------ *)
(** ** Conversations *)

Lemma op_is_primitive (name : string) (v : value) :
  is_primitive v = true -> op_is name v = false.
Proof. destruct v; simpl; try discriminate; reflexivity. Qed.

Lemma key_effect_primitive (v old : value) :
  is_primitive v = true -> key_effect v old = v.
Proof.
  intros H. unfold key_effect. now rewrite !op_is_primitive.
Qed.

Lemma union_step_object (o : object) (arr : list value) :
  union_step (VObj o) arr = (arr ++ [VObj o])%list.
Proof.
  unfold union_step.
  assert (H : existsb (strict_eqb (VObj o)) arr = false).
  { induction arr as [|x arr IH]; [reflexivity|]. exact IH. }
  now rewrite H.
Qed.

(** [sendMessage] to an existing conversation: the message, given an
    identifier made of the date and a random suffix, is added at the end of
    the messages, also when an equal message is already there; the last
    message and its time are those of the message; the unread counter goes
    up by one for a message of the user, back to zero for a message of the
    support, and stays for any other sender; the other fields are kept.
    For a conversation that does not exist it answers [false] and writes
    nothing. *)
Theorem sendMessage_appends_the_message :
  forall (w : world) (conversationId : string) (message : object)
         (text timestamp : string),
    reliable w -> conversationId <> "" ->
    obj_get "text" message = VStr text ->
    obj_get "timestamp" message = VStr timestamp ->
    let w' := snd (sendMessage conversationId message w) in
    (forall conv,
       rows_with_id w CONVERSATIONS_COLLECTION conversationId = [conv] ->
       exists row stamped,
         fst (sendMessage conversationId message w) = Ok true
         /\ rows_with_id w' CONVERSATIONS_COLLECTION conversationId = [row]
         /\ obj_get "messages" row
            = VArr (array_or_empty (obj_get "messages" conv) ++ [VObj stamped])
         /\ obj_get "id" stamped
            = VStr (clock w (ticks w) ++ substring 2 9 (entropy w (S (ticks w))))
         /\ (forall k, k <> "id" -> obj_get k stamped = obj_get k message)
         /\ obj_get "lastMessage" row = VStr text
         /\ obj_get "lastMessageTime" row = VStr timestamp
         /\ obj_get "unreadCount" row
            = unread_after (obj_get "sender" message) (obj_get "unreadCount" conv)
         /\ (forall k, ~ In k ["messages"; "lastMessage"; "lastMessageTime"; "unreadCount"] ->
                       obj_get k row = obj_get k conv))
    /\ (rows_with_id w CONVERSATIONS_COLLECTION conversationId = [] ->
        fst (sendMessage conversationId message w) = Ok false
        /\ tables w' = tables w).
Proof.
  intros w cid message text timestamp Hr Hcid Htext Htime w'. unfold w'. clear w'.
  unfold sendMessage, try_catch.
  rewrite (bind_ok _ (doc_ok CONVERSATIONS_COLLECTION cid w ltac:(discriminate) Hcid)).
  assert (Hnow : now_iso w = (Ok (clock w (ticks w)), tick w)) by reflexivity.
  rewrite (bind_ok _ Hnow).
  assert (Hrand : random_base36 (tick w)
                  = (Ok (entropy w (S (ticks w))), tick (tick w))) by reflexivity.
  rewrite (bind_ok _ Hrand).
  set (stamp := VStr (clock w (ticks w) ++ substring 2 9 (entropy w (S (ticks w))))).
  set (stamped := obj_merge message [("id", stamp)]).
  set (base := [("messages", arrayUnion (VObj stamped));
                ("lastMessage", obj_get "text" message);
                ("lastMessageTime", obj_get "timestamp" message)]).
  set (data := if strict_eqb (obj_get "sender" message) (VStr "user")
               then obj_set "unreadCount" (increment 1) base
               else if strict_eqb (obj_get "sender" message) (VStr "support")
                    then obj_set "unreadCount" (VNum 0) base
                    else base).
  set (w2 := tick (tick w)).
  assert (Hr2 : reliable w2) by (apply reliable_tick, reliable_tick, Hr).
  assert (Ht2 : tables w2 = tables w) by reflexivity.
  assert (Hn : needs_fetch data = true).
  { unfold data. destruct (strict_eqb _ (VStr "user")); [reflexivity|].
    destruct (strict_eqb _ (VStr "support")); reflexivity. }
  unfold updateDoc. split.
  - intros conv Hrows.
    assert (Hrows2 : rows_with_id w2 CONVERSATIONS_COLLECTION cid = [conv]) by exact Hrows.
    assert (Hnd : NoDup (map fst data)).
    { unfold data. destruct (strict_eqb _ (VStr "user"));
        [|destruct (strict_eqb _ (VStr "support"))];
        repeat constructor; simpl; intuition discriminate. }
    assert (Hd : forall k, In k (map fst data) -> has_dot k = false).
    { unfold data. destruct (strict_eqb _ (VStr "user"));
        [|destruct (strict_eqb _ (VStr "support"))];
        simpl; intros k Hk; intuition (subst; reflexivity). }
    assert (Hnoid : ~ In "id" (map fst data)).
    { unfold data. destruct (strict_eqb _ (VStr "user"));
        [|destruct (strict_eqb _ (VStr "support"))];
        simpl; intuition discriminate. }
    destruct (apply_keys_effect data conv Hnd Hd) as (u & Hu & Hin & Hout).
    rewrite (bind_ok _ (doc_update_fetch_reliable (mkRef CONVERSATIONS_COLLECTION cid)
                          data conv u w2 Hr2 Hn Hrows2 Hu)).
    cbn [ret fst snd ref_collection ref_id].
    rewrite (update_rows_single w2 _ _ conv u Hrows2).
    fold (replace_row cid (obj_merge conv u) (tables w2 CONVERSATIONS_COLLECTION)).
    assert (Hkeep : forall k, ~ In k (map fst data) ->
                              obj_get k (obj_merge conv u) = obj_get k conv).
    { intros k Hk. rewrite obj_get_merge, (Hout k Hk), (obj_get_find k conv).
      now destruct (obj_find k conv). }
    assert (Heff : forall k v, In (k, v) data ->
                     obj_get k (obj_merge conv u) = key_effect v (obj_get k conv)).
    { intros k v Hkv. now rewrite obj_get_merge, (Hin k v Hkv). }
    assert (Hbase : forall kv, In kv base -> In kv data).
    { intros kv Hkv. unfold data. destruct (strict_eqb _ (VStr "user"));
        [|destruct (strict_eqb _ (VStr "support"))]; simpl in *; tauto. }
    exists (obj_merge conv u), stamped. split; [reflexivity|]. split.
    { apply rows_replace_row with (cur := conv); [exact Hrows2|].
      unfold has_id. rewrite (Hkeep "id" Hnoid).
      apply (rows_with_id_in w2 _ _ conv Hrows2). }
    split.
    { rewrite (Heff "messages" (arrayUnion (VObj stamped))) by (apply Hbase; simpl; tauto).
      unfold key_effect. cbn [op_is arrayUnion obj_get]. simpl.
      now rewrite union_step_object. }
    split; [unfold stamped; now rewrite obj_get_merge|]. split.
    { intros k Hk. unfold stamped. rewrite obj_get_merge. cbn [obj_find].
      destruct (String.eqb_spec k "id"); [contradiction|reflexivity]. }
    split.
    { rewrite (Heff "lastMessage" (obj_get "text" message)) by (apply Hbase; simpl; tauto).
      now rewrite Htext. }
    split.
    { rewrite (Heff "lastMessageTime" (obj_get "timestamp" message))
        by (apply Hbase; simpl; tauto).
      now rewrite Htime. }
    split.
    { unfold unread_after. unfold data in Heff, Hkeep.
      destruct (strict_eqb (obj_get "sender" message) (VStr "user")).
      - rewrite (Heff "unreadCount" (increment 1)) by (simpl; tauto). reflexivity.
      - destruct (strict_eqb (obj_get "sender" message) (VStr "support")).
        + rewrite (Heff "unreadCount" (VNum 0)) by (simpl; tauto). reflexivity.
        + apply Hkeep. simpl. intuition discriminate. }
    intros k Hk. apply Hkeep. unfold data.
    destruct (strict_eqb _ (VStr "user")); [|destruct (strict_eqb _ (VStr "support"))];
      simpl in *; tauto.
  - intros Hrows.
    assert (Hrows2 : rows_with_id w2 CONVERSATIONS_COLLECTION cid = []) by exact Hrows.
    rewrite (bind_throw _ (doc_update_fetch_missing (mkRef CONVERSATIONS_COLLECTION cid)
                             data w2 Hr2 Hn Hrows2)).
    split; reflexivity.
Qed.

Lemma sendMessage_appends_the_message_witness :
  exists row stamped,
    rows_with_id (snd (sendMessage "cv1" user_message world_conversation))
      CONVERSATIONS_COLLECTION "cv1" = [row]
    /\ obj_get "messages" row
       = VArr [VObj [("id", VStr "m0"); ("text", VStr "hello"); ("sender", VStr "user")];
               VObj stamped]
    /\ obj_get "unreadCount" row = VNum 2.
Proof.
  destruct (proj1 (sendMessage_appends_the_message world_conversation "cv1" user_message
                     "hello" "2024-05-01T10:00:00.000Z"
                     eq_refl ltac:(discriminate) eq_refl eq_refl) _ eq_refl)
    as (row & stamped & _ & H1 & H2 & _ & _ & _ & _ & H3 & _).
  exists row, stamped. split; [exact H1|]. split; [exact H2|exact H3].
Defined.

(* ------------------------------------------------------------------ *)
(** ** Sorted answers *)

Lemma insert_desc_perm (time : value -> Z) (key : string) (r : object)
    (rows : list object) :
  Permutation (insert_desc time key r rows) (r :: rows).
Proof.
  induction rows as [|r' rows IH]; [reflexivity|]. simpl.
  destruct (time (obj_get key r') <=? time (obj_get key r)); [reflexivity|].
  rewrite IH. apply perm_swap.
Qed.

Lemma sort_desc_perm (time : value -> Z) (key : string) (rows : list object) :
  Permutation (sort_desc time key rows) rows.
Proof.
  unfold sort_desc. induction rows as [|r rows IH]; [reflexivity|]. simpl.
  rewrite insert_desc_perm. now constructor.
Qed.

Lemma insert_desc_sorted (time : value -> Z) (key : string) (r : object)
    (rows : list object) :
  newest_first time key rows -> newest_first time key (insert_desc time key r rows).
Proof.
  unfold newest_first. induction rows as [|r' rows IH]; intros Hs; simpl.
  - repeat constructor.
  - inversion Hs as [|x l Hs' Hall]; subst.
    destruct (Z.leb_spec (time (obj_get key r')) (time (obj_get key r))) as [Hle|Hlt].
    + constructor; [exact Hs|]. constructor; [exact Hle|].
      eapply Forall_impl; [|exact Hall]. cbv beta. intros a Ha. lia.
    + constructor; [now apply IH|].
      eapply Permutation_Forall; [symmetry; apply insert_desc_perm|].
      constructor; [lia|exact Hall].
Qed.

Lemma sort_desc_sorted (time : value -> Z) (key : string) (rows : list object) :
  newest_first time key (sort_desc time key rows).
Proof.
  unfold sort_desc. induction rows as [|r rows IH]; simpl.
  - constructor.
  - now apply insert_desc_sorted.
Qed.

(** [getTempOrders] and [getOrdersByUserId] on a reliable store: the
    answer of [getTempOrders] holds every temporary order of the table
    once, the cancelled ones included, each with its [subOrders] as an
    array; the answer of [getOrdersByUserId] holds the orders of the user
    once and no other; both answers are ordered by date, newest first. *)
Theorem order_lists_are_complete_and_newest_first :
  forall (time : value -> Z) (w : world),
    reliable w ->
    (exists rows,
       getTempOrders time w = (Ok rows, w)
       /\ Permutation rows (map temp_order_view (tables w TEMP_ORDERS_COLLECTION))
       /\ newest_first time "createdAt" rows)
    /\ forall userId,
         exists rows,
           getOrdersByUserId time userId w = (Ok rows, w)
           /\ Permutation rows
                (map with_id
                   (filter (fun o => strict_eqb (obj_get "userId" o) (VStr userId))
                           (tables w ORDERS_COLLECTION)))
           /\ newest_first time "operationDate" rows.
Proof.
  intros time w Hr. split.
  - eexists. split; [|split; [apply sort_desc_perm|apply sort_desc_sorted]].
    unfold getTempOrders, try_catch, getDocs, query.
    rewrite (bind_ok _ (adapter_query_reliable _ _ w Hr)). cbn [build_filters].
    simpl filter. rewrite (filter_ext _ (fun _ => true)) by reflexivity.
    assert (Hall : forall l : table, filter (fun _ => true) l = l).
    { induction l as [|x l IH]; [reflexivity|]. simpl. now rewrite IH. }
    rewrite Hall. reflexivity.
  - intros U. eexists. split; [|split; [apply sort_desc_perm|apply sort_desc_sorted]].
    unfold getOrdersByUserId, try_catch, getDocs, query.
    rewrite (bind_ok _ (adapter_query_reliable _ _ w Hr)).
    cbn [ret]. do 4 f_equal. apply filter_ext. intros o. simpl. apply andb_true_r.
Qed.

Lemma order_lists_are_complete_and_newest_first_witness :
  exists rows,
    getTempOrders as_num world_temp = (Ok rows, world_temp)
    /\ Permutation rows (map temp_order_view temp_rows)
    /\ newest_first as_num "createdAt" rows.
Proof.
  exact (proj1 (order_lists_are_complete_and_newest_first as_num world_temp eq_refl)).
Defined.

(* ------------------------------------------------------------------ *)
(** ** Lists asked for one user *)

Lemma filter_all {A} (l : list A) : filter (fun _ => true) l = l.
Proof. induction l as [|x l IH]; [reflexivity|]. simpl. now rewrite IH. Qed.

Lemma mapM_pure {A B} (f : A -> M B) (xs : list A) :
  (forall x, In x xs -> exists y, forall w, f x w = (Ok y, w)) ->
  exists ys, forall w, mapM f xs w = (Ok ys, w).
Proof.
  induction xs as [|x xs IH]; intros H.
  - exists []. reflexivity.
  - destruct (H x (or_introl eq_refl)) as [y Hy].
    destruct IH as [ys Hys]; [intros x' Hx'; apply H; now right|].
    exists (y :: ys). intros w. cbn [mapM].
    rewrite (bind_ok _ (Hy w)). now rewrite (bind_ok _ (Hys w)).
Qed.

Lemma or_adds_no_filter (c : string) (clauses : list condition) (w : world) :
  reliable w ->
  getDocs (query c [or_ clauses]) w = (Ok (tables w c), w).
Proof.
  intros Hr. unfold getDocs, query.
  rewrite (adapter_query_reliable c _ w Hr). cbn [build_filters or_ cond_op].
  simpl. now rewrite filter_all.
Qed.

(** [getNotificationsForUser] and [getTransactionsByUserId] build their
    condition with [or]; the shim reads no operator in it and adds no
    filter.  On a reliable store [getNotificationsForUser] answers every
    notification of the table, those addressed to another user included,
    newest first; and so does [getTransactionsByUserId] with the
    transactions, for a user whose temporary orders carry arrays of
    sub-order records. *)
Theorem lists_for_a_user_hold_every_row :
  forall (time : value -> Z) (w : world) (userId : string),
    reliable w ->
    (exists rows,
       getNotificationsForUser time userId w = (Ok rows, w)
       /\ Permutation rows (map with_id (tables w NOTIFICATIONS_COLLECTION))
       /\ newest_first time "timestamp" rows)
    /\ (suborders_well_formed w userId ->
        exists rows,
          getTransactionsByUserId time userId w = (Ok rows, w)
          /\ Permutation rows (map with_id (tables w TRANSACTIONS_COLLECTION))
          /\ newest_first time "date" rows).
Proof.
  intros time w U Hr. split.
  - eexists. split; [|split; [apply sort_desc_perm|apply sort_desc_sorted]].
    unfold getNotificationsForUser, try_catch.
    now rewrite (bind_ok _ (or_adds_no_filter _ _ w Hr)).
  - intros Hwf.
    eexists. split; [|split; [apply sort_desc_perm|apply sort_desc_sorted]].
    unfold getTransactionsByUserId, try_catch.
    unfold getDocs at 1, query at 1.
    rewrite (bind_ok _ (adapter_query_reliable _ _ w Hr)).
    match goal with
    | |- context [mapM ?f ?xs] =>
        destruct (mapM_pure f xs) as [perOrder Hper]
    end.
    { intros d Hd. apply filter_In in Hd. destruct Hd as [Hd Hu].
      simpl in Hu. rewrite andb_true_r in Hu. apply strict_eqb_VStr in Hu.
      destruct (Hwf d Hd Hu) as (xs & Hxs & Hall).
      destruct (mapM_pure temp_customer_id xs) as [ids Hids].
      { intros so Hso. rewrite Forall_forall in Hall. specialize (Hall so Hso).
        destruct so; try (eexists; intros w0; reflexivity). contradiction. }
      exists ids. intros w0. rewrite Hxs. cbn [js_array].
      rewrite (bind_ok _ (ret_run xs w0)). apply Hids. }
    rewrite (bind_ok _ (Hper w)).
    now rewrite (bind_ok _ (or_adds_no_filter _ _ w Hr)).
Qed.

Lemma lists_for_a_user_hold_every_row_witness :
  exists rows,
    getNotificationsForUser as_num "u1" world_notifications
    = (Ok rows, world_notifications)
    /\ Permutation rows
         (map with_id (tables world_notifications NOTIFICATIONS_COLLECTION)).
Proof.
  destruct (proj1 (lists_for_a_user_hold_every_row as_num world_notifications "u1"
                     eq_refl))
    as (rows & H1 & H2 & _).
  exists rows. split; [exact H1|exact H2].
Defined.

(** The notifications that the sample user [u1] is given: the one for the
    user [u2] is among them. *)
Example getNotificationsForUser_shows_the_others :
  fst (getNotificationsForUser as_num "u1" world_notifications)
  = Ok [ [("id", VStr "n2"); ("target", VStr "specific"); ("userId", VStr "u1");
          ("timestamp", VNum 3)];
         [("id", VStr "n3"); ("target", VStr "specific"); ("userId", VStr "u2");
          ("timestamp", VNum 2)];
         [("id", VStr "n1"); ("target", VStr "all"); ("timestamp", VNum 1)] ].
Proof. reflexivity. Qed.

(* ------------------------------------------------------------------ *)
(** ** Bulk import *)

(** [bulkImport] answers a failure for every input and leaves the state
    as it is: an empty list and an unknown collection are refused, and for
    any other input the upsert is never reached, the name [supabase] being
    undefined in the module. *)
Theorem bulkImport_never_imports :
  forall (collectionName : string) (data : list object) (w : world),
    exists message,
      bulkImport collectionName data w = (Ok (mkImport false 0 (Some message)), w)
      /\ (data <> [] -> has_table_name collectionName = true ->
          message = "supabase is not defined").
Proof.
  intros name data w. unfold bulkImport, try_catch.
  destruct data as [|d data].
  - eexists. split; [reflexivity|]. intros H. contradiction.
  - cbn [List.length Nat.eqb]. destruct (has_table_name name); cbn [negb].
    + eexists. split; [reflexivity|]. reflexivity.
    + eexists. split; [reflexivity|]. discriminate.
Qed.

Lemma bulkImport_never_imports_witness :
  bulkImport "users" [sample_user] world_new_user
  = (Ok (mkImport false 0 (Some "supabase is not defined")), world_new_user).
Proof.
  destruct (bulkImport_never_imports "users" [sample_user] world_new_user)
    as (message & Hrun & Hmsg).
  rewrite Hrun. rewrite (Hmsg ltac:(discriminate) eq_refl). reflexivity.
Defined.

(* ------------------------------------------------------------------ *)
(** ** A batch is not all or nothing *)

(** A loop of deletions in a batch, on a reliable store. *)
Lemma delete_loop (c : string) (rows : list object) (b : batch) (w : world) :
  reliable w ->
  exists w',
    foldM (fun b d => batch_delete b (row_ref c d)) b rows w = (Ok b, w')
    /\ reliable w'
    /\ tables w' c
       = fold_left (fun t d => delete_rows (as_id (obj_get "id" d)) t) rows (tables w c)
    /\ forall c', c' <> c -> tables w' c' = tables w c'.
Proof.
  revert b w. induction rows as [|d rows IH]; intros b w Hr.
  - exists w. repeat split; auto.
  - cbn [foldM]. unfold batch_delete at 1.
    rewrite (bind_ok _ (batch_push_ok b _ w _ (doc_delete_reliable _ w Hr))).
    cbn [row_ref ref_collection ref_id].
    set (w1 := set_table c _ w).
    destruct (IH b w1 Hr) as (w' & Hrun & Hr' & Ht & Hfr).
    exists w'. split; [exact Hrun|]. split; [exact Hr'|]. split.
    + rewrite Ht. unfold w1. now rewrite tables_set_table_eq.
    + intros c' Hc. rewrite Hfr by exact Hc. unfold w1. now apply tables_set_table_neq.
Qed.

Lemma deleteOrder_orphan_run (w : world) (orderId R : string) (o : object) :
  reliable w -> orderId <> "" ->
  rows_with_id w ORDERS_COLLECTION orderId = [o] ->
  obj_get "representativeId" o = VStr R -> R <> "" ->
  rows_with_id w REPRESENTATIVES_COLLECTION R = [] ->
  exists w1,
    deleteOrder orderId w
    = (Ok false,
       set_table ORDERS_COLLECTION (delete_rows orderId (tables w1 ORDERS_COLLECTION)) w1)
    /\ tables w1 TRANSACTIONS_COLLECTION
       = fold_left (fun t d => delete_rows (as_id (obj_get "id" d)) t)
           (filter (transaction_of orderId) (tables w TRANSACTIONS_COLLECTION))
           (tables w TRANSACTIONS_COLLECTION)
    /\ (forall c, c <> TRANSACTIONS_COLLECTION -> tables w1 c = tables w c)
    /\ reliable w1.
Proof.
  intros Hr Hid Hrows HR HRne Hrep.
  unfold deleteOrder, try_catch.
  rewrite (bind_ok _ (doc_ok ORDERS_COLLECTION orderId w ltac:(discriminate) Hid)).
  unfold getDoc at 1. rewrite (bind_ok _ (doc_get_reliable _ w Hr)).
  cbn [ref_collection ref_id]. rewrite Hrows, HR. cbn [truthy as_id].
  assert (Ht : negb (R =? "")%string = true).
  { destruct (String.eqb_spec R ""); [contradiction|reflexivity]. }
  rewrite Ht. rewrite !bind_assoc_run.
  rewrite (bind_ok _ (doc_ok REPRESENTATIVES_COLLECTION R w ltac:(discriminate) HRne)).
  unfold batch_update, writeBatch.
  rewrite (bind_ok _ (batch_push_throw [] _ w _ _
             (doc_update_fetch_missing (mkRef REPRESENTATIVES_COLLECTION R)
                [("assignedOrders", increment (-1))] w Hr eq_refl Hrep))).
  unfold getDocs, query. rewrite (bind_ok _ (adapter_query_reliable _ _ w Hr)).
  set (txs := filter _ (tables w TRANSACTIONS_COLLECTION)).
  assert (Htxs : txs = filter (transaction_of orderId) (tables w TRANSACTIONS_COLLECTION)).
  { unfold txs. apply filter_ext. intros t. unfold transaction_of. simpl.
    apply andb_true_r. }
  destruct (delete_loop TRANSACTIONS_COLLECTION txs
              ([] ++ [JsError "Document not found for update"])%list w Hr)
    as (w1 & Hrun & Hr1 & Ht1 & Hfr1).
  rewrite (bind_ok _ Hrun). unfold batch_delete.
  rewrite (bind_ok _ (batch_push_ok _ _ w1 _ (doc_delete_reliable _ w1 Hr1))).
  cbn [ref_collection ref_id app batch_commit].
  rewrite (bind_throw _ (throw_run _ _)). cbn [ret].
  exists w1. split; [reflexivity|]. split; [now rewrite Ht1, Htxs|].
  split; [exact Hfr1|exact Hr1].
Qed.

(** [deleteOrder] for an order assigned to a representative whose record
    does not exist: the decrement of the representative's count fails, the
    batch reports it at the commit and the action answers [false]; by then
    the order and its transactions are deleted.  The recalculation that
    follows a successful commit is not run: the users are as before. *)
Theorem deleteOrder_fails_after_deleting :
  forall (w : world) (orderId R : string) (o : object),
    reliable w -> orderId <> "" ->
    rows_with_id w ORDERS_COLLECTION orderId = [o] ->
    obj_get "representativeId" o = VStr R -> R <> "" ->
    rows_with_id w REPRESENTATIVES_COLLECTION R = [] ->
    string_ids (tables w TRANSACTIONS_COLLECTION) ->
    let w' := snd (deleteOrder orderId w) in
    fst (deleteOrder orderId w) = Ok false
    /\ rows_with_id w' ORDERS_COLLECTION orderId = []
    /\ filter (transaction_of orderId) (tables w' TRANSACTIONS_COLLECTION) = []
    /\ tables w' USERS_COLLECTION = tables w USERS_COLLECTION
    /\ tables w' REPRESENTATIVES_COLLECTION = tables w REPRESENTATIVES_COLLECTION.
Proof.
  intros w orderId R o Hr Hid Hrows HR HRne Hrep Hs w'. unfold w'. clear w'.
  destruct (deleteOrder_orphan_run w orderId R o Hr Hid Hrows HR HRne Hrep)
    as (w1 & Hrun & Ht1 & Hfr1 & _).
  rewrite Hrun. cbn [fst snd].
  split; [reflexivity|]. split; [|split; [|split]].
  - unfold rows_with_id. rewrite tables_set_table_eq. apply filter_delete_rows_same.
  - rewrite tables_set_table_neq by discriminate. rewrite Ht1.
    apply filter_none. intros r Hin.
    destruct (in_fold_delete _ _ _ Hin) as [Hin0 Hdel].
    destruct (transaction_of orderId r) eqn:E; [|reflexivity]. exfalso.
    destruct (Hs r Hin0) as [s Hsid].
    assert (Hrow : In r (filter (transaction_of orderId)
                           (tables w TRANSACTIONS_COLLECTION))).
    { apply filter_In. now split. }
    specialize (Hdel r Hrow). rewrite Hsid in Hdel. cbn [as_id] in Hdel.
    apply has_id_iff in Hsid. congruence.
  - rewrite tables_set_table_neq by discriminate. now apply Hfr1.
  - rewrite tables_set_table_neq by discriminate. now apply Hfr1.
Qed.

Lemma deleteOrder_fails_after_deleting_witness :
  fst (deleteOrder "o1" world_orphan_order) = Ok false
  /\ rows_with_id (snd (deleteOrder "o1" world_orphan_order)) ORDERS_COLLECTION "o1" = []
  /\ tables (snd (deleteOrder "o1" world_orphan_order)) USERS_COLLECTION
     = [ [("id", VStr "u1"); ("debt", VNum 800); ("orderCount", VNum 1)] ].
Proof.
  destruct (deleteOrder_fails_after_deleting world_orphan_order "o1" "r9" _
              eq_refl ltac:(discriminate) eq_refl eq_refl ltac:(discriminate) eq_refl)
    as (H1 & H2 & _ & H4 & _).
  - intros r [<-|[]]. eexists. reflexivity.
  - split; [exact H1|]. split; [exact H2|exact H4].
Defined.

(* ------------------------------------------------------------------ *)
(** ** A failed query read as an empty answer *)

Lemma adapter_query_failing (c : string) (conditions : list condition) (w : world)
    (fs : list bool) :
  faults w = true :: fs -> adapter_query c conditions w = (Ok [], after_fault w).
Proof.
  intros H. unfold adapter_query, sb_select.
  rewrite bind_assoc_run. now rewrite (bind_ok _ (sb_fault_failing w fs H)).
Qed.

Lemma sb_fault_passing (w : world) (fs : list bool) :
  faults w = false :: fs -> sb_fault w = (Ok false, after_fault w).
Proof. unfold sb_fault, after_fault. now intros ->. Qed.

Lemma adapter_query_passing (c : string) (conditions : list condition) (w : world)
    (fs : list bool) :
  faults w = false :: fs ->
  adapter_query c conditions w
  = (Ok (filter (filters_hold (build_filters conditions)) (tables w c)), after_fault w).
Proof.
  intros H. unfold adapter_query, sb_select.
  rewrite bind_assoc_run. now rewrite (bind_ok _ (sb_fault_passing w fs H)).
Qed.

(** A query that fails is read as a query without rows.  When the query of
    the user's orders fails and the later requests succeed,
    [recalculateUserStats] succeeds and stores a debt of 0 and an order
    count of 0, whatever orders the user has; when the query of the
    temporary orders fails, it stores the debt and the count of the
    orders. *)
Theorem recalculation_reads_a_failed_query_as_empty :
  forall (w : world) (U : string),
    U <> "" ->
    (faults w = [true] ->
     recalculateUserStats U w
     = (Ok tt,
        set_table USERS_COLLECTION
          (update_rows U
             [("debt", VNum 0); ("orderCount", VNum 0)]
             (tables w USERS_COLLECTION))
          (after_fault w)))
    /\ (faults w = [false; true] ->
        recalculateUserStats U w
        = (Ok tt,
           set_table USERS_COLLECTION
             (update_rows U
                [("debt", VNum (orders_debt w U));
                 ("orderCount", VNum (spec_orderCount w U))]
                (tables w USERS_COLLECTION))
             (after_fault (after_fault w)))).
Proof.
  intros w U HU. split; intros Hf.
  - assert (Hr : reliable (after_fault w)).
    { unfold reliable, after_fault. simpl. now rewrite Hf. }
    unfold recalculateUserStats, try_catch.
    rewrite (bind_ok _ (doc_ok USERS_COLLECTION U w ltac:(discriminate) HU)).
    unfold getDocs, query.
    rewrite (bind_ok _ (adapter_query_failing _ _ w [] Hf)).
    rewrite (bind_ok _ (adapter_query_reliable _ _ (after_fault w) Hr)).
    unfold updateDoc.
    rewrite doc_update_plain_reliable by (auto; reflexivity).
    rewrite temp_query_empty. reflexivity.
  - assert (Hf1 : faults (after_fault w) = [true]).
    { unfold after_fault. simpl. now rewrite Hf. }
    assert (Hr : reliable (after_fault (after_fault w))).
    { unfold reliable, after_fault. simpl. now rewrite Hf. }
    unfold recalculateUserStats, try_catch.
    rewrite (bind_ok _ (doc_ok USERS_COLLECTION U w ltac:(discriminate) HU)).
    unfold getDocs, query.
    rewrite (bind_ok _ (adapter_query_passing _ _ w [true] Hf)).
    rewrite (bind_ok _ (adapter_query_failing _ _ (after_fault w) [] Hf1)).
    unfold updateDoc.
    rewrite doc_update_plain_reliable by (auto; reflexivity).
    cbn [ref_collection ref_id fold_left].
    rewrite fold_left_sum, orders_query_filter. reflexivity.
Qed.

Lemma recalculation_reads_a_failed_query_as_empty_witness :
  recalculateUserStats "u1" world_user_failing_query
  = (Ok tt,
     set_table USERS_COLLECTION
       (update_rows "u1" [("debt", VNum 0); ("orderCount", VNum 0)]
          (tables world_user_failing_query USERS_COLLECTION))
       (after_fault world_user_failing_query)).
Proof.
  apply (proj1 (recalculation_reads_a_failed_query_as_empty world_user_failing_query "u1"
                  ltac:(discriminate))).
  reflexivity.
Defined.

(* ------------------------------------------------------------------ *)
(** ** Users made of temporary orders *)

(** [getUserById] for an identifier that names no user but a temporary
    order with an array of sub-orders: the answer is a user record made of
    the temporary order, with the invoice name as name, an empty phone, the
    number of sub-orders as order count and the remaining amount as debt;
    no table is changed.  When neither a user nor a temporary order carries
    the identifier, and when the temporary order holds no [subOrders], the
    answer is [null]. *)
Theorem getUserById_falls_back_to_a_temporary_order :
  forall (w : world) (userId : string),
    reliable w -> userId <> "" ->
    rows_with_id w USERS_COLLECTION userId = [] ->
    (forall c, tables (snd (getUserById userId w)) c = tables w c)
    /\ (forall t subOrders,
          rows_with_id w TEMP_ORDERS_COLLECTION userId = [t] ->
          obj_get "subOrders" t = VArr subOrders ->
          fst (getUserById userId w)
          = Ok (Some [("id", obj_get "id" t);
                      ("name", obj_get "invoiceName" t);
                      ("username", obj_get "invoiceName" t);
                      ("phone", VStr "");
                      ("orderCount", VNum (Z.of_nat (List.length subOrders)));
                      ("debt", obj_get "remainingAmount" t)]))
    /\ (forall t,
          rows_with_id w TEMP_ORDERS_COLLECTION userId = [t] ->
          obj_get "subOrders" t = VNull ->
          fst (getUserById userId w) = Ok None)
    /\ (rows_with_id w TEMP_ORDERS_COLLECTION userId = [] ->
        fst (getUserById userId w) = Ok None).
Proof.
  intros w U Hr HU Hnone.
  set (w1 := set_table USERS_COLLECTION
               (update_rows U [("debt", VNum (orders_debt w U));
                               ("orderCount", VNum (spec_orderCount w U))]
                            (tables w USERS_COLLECTION)) w).
  assert (Hr1 : reliable w1) by exact Hr.
  assert (Ht1 : forall c, tables w1 c = tables w c).
  { intros c. unfold w1. rewrite (update_rows_none U _ _ Hnone).
    destruct (String.eqb_spec c USERS_COLLECTION) as [->|Hne];
      [apply tables_set_table_eq|now apply tables_set_table_neq]. }
  assert (Hrun : getUserById U w
                 = match rows_with_id w TEMP_ORDERS_COLLECTION U with
                   | [t] =>
                       match obj_get "subOrders" t with
                       | VArr xs =>
                           (Ok (Some [("id", obj_get "id" t);
                                      ("name", obj_get "invoiceName" t);
                                      ("username", obj_get "invoiceName" t);
                                      ("phone", VStr "");
                                      ("orderCount", VNum (Z.of_nat (List.length xs)));
                                      ("debt", obj_get "remainingAmount" t)]), w1)
                       | VStr s =>
                           (Ok (Some [("id", obj_get "id" t);
                                      ("name", obj_get "invoiceName" t);
                                      ("username", obj_get "invoiceName" t);
                                      ("phone", VStr "");
                                      ("orderCount", VNum (Z.of_nat (String.length s)));
                                      ("debt", obj_get "remainingAmount" t)]), w1)
                       | VNull => (Ok None, w1)
                       | _ =>
                           (Ok (Some [("id", obj_get "id" t);
                                      ("name", obj_get "invoiceName" t);
                                      ("username", obj_get "invoiceName" t);
                                      ("phone", VStr "");
                                      ("orderCount", VNull);
                                      ("debt", obj_get "remainingAmount" t)]), w1)
                       end
                   | _ => (Ok None, w1)
                   end).
  { unfold getUserById, try_catch.
    rewrite (bind_ok _ (recalculateUserStats_reliable U w Hr HU)). fold w1.
    rewrite (bind_ok _ (doc_ok USERS_COLLECTION U w1 ltac:(discriminate) HU)).
    unfold getDoc. rewrite (bind_ok _ (doc_get_reliable _ w1 Hr1)).
    cbn [ref_collection ref_id]. unfold rows_with_id at 1. rewrite Ht1.
    unfold rows_with_id in Hnone. rewrite Hnone.
    rewrite (bind_ok _ (doc_ok TEMP_ORDERS_COLLECTION U w1 ltac:(discriminate) HU)).
    rewrite (bind_ok _ (doc_get_reliable _ w1 Hr1)).
    cbn [ref_collection ref_id]. unfold rows_with_id. rewrite Ht1.
    destruct (filter (has_id U) (tables w TEMP_ORDERS_COLLECTION)) as [|t [|t' l]];
      try reflexivity.
    destruct (obj_get "subOrders" t); reflexivity. }
  rewrite Hrun. split; [|split; [|split]].
  - intros c. rewrite <- (Ht1 c).
    destruct (rows_with_id w TEMP_ORDERS_COLLECTION U) as [|t [|t' l]]; try reflexivity.
    destruct (obj_get "subOrders" t); reflexivity.
  - intros t subs Hrows Hsubs. now rewrite Hrows, Hsubs.
  - intros t Hrows Hsubs. now rewrite Hrows, Hsubs.
  - intros Hrows. now rewrite Hrows.
Qed.

Lemma getUserById_falls_back_to_a_temporary_order_witness :
  fst (getUserById "inv7" world_invoice)
  = Ok (Some [("id", VStr "inv7"); ("name", VStr "Batch 7");
              ("username", VStr "Batch 7"); ("phone", VStr "");
              ("orderCount", VNum 2); ("debt", VNum 120)]).
Proof.
  destruct (getUserById_falls_back_to_a_temporary_order world_invoice "inv7"
              eq_refl ltac:(discriminate) eq_refl)
    as (_ & H & _).
  exact (H _ _ eq_refl eq_refl).
Defined.

(* ------------------------------------------------------------------ *)
(** ** The login form *)

Lemma with_id_get (k : string) (d : object) : obj_get k (with_id d) = obj_get k d.
Proof.
  unfold with_id. rewrite obj_get_merge, (obj_get_find k d).
  destruct (obj_find k d) eqn:E; [reflexivity|].
  simpl. destruct (k =? "id")%string eqn:Ek; [|reflexivity].
  apply String.eqb_eq in Ek. subst k. now rewrite obj_get_find, E.
Qed.

Lemma getUserByPhone_reliable (phone : string) (w : world) :
  reliable w ->
  getUserByPhone phone w
  = (Ok (match users_with_phone w phone with
         | d :: _ => Some (with_id d)
         | [] => None
         end), w).
Proof.
  intros Hr. unfold getUserByPhone, try_catch, getDocs, query.
  rewrite (bind_ok _ (adapter_query_reliable _ _ w Hr)).
  unfold users_with_phone.
  rewrite (filter_ext (filters_hold (build_filters [where_ "phone" "==" (VStr phone)]))
             (fun u => strict_eqb (obj_get "phone" u) (VStr phone)))
    by (intros u; simpl; apply andb_true_r).
  now destruct (filter _ (tables w USERS_COLLECTION)).
Qed.

Lemma getUserByPhone_failing (phone : string) (w : world) (fs : list bool) :
  faults w = true :: fs ->
  getUserByPhone phone w = (Ok None, after_fault w).
Proof.
  intros Hf. unfold getUserByPhone, try_catch, getDocs, query.
  now rewrite (bind_ok _ (adapter_query_failing _ _ w fs Hf)).
Qed.

(** The login form.  Without a phone number or a password no request is
    made.  Otherwise, on a reliable store, the user who logs in is the
    first user of the table with the phone number, if the password is the
    stored one; any other user with the same phone number is refused.  A
    store that fails is reported as wrong credentials: the outcome of the
    catch clause, the server error, is never reached. *)
Theorem login_outcomes :
  forall (phone password : string) (w : world),
    (exists outcome,
       fst (handleLogin phone password w) = Ok outcome /\ outcome <> ServerError)
    /\ (phone = "" \/ password = "" ->
        handleLogin phone password w = (Ok MissingInput, w))
    /\ (phone <> "" -> password <> "" -> reliable w ->
        handleLogin phone password w
        = (Ok (match users_with_phone w phone with
               | u :: _ =>
                   if strict_eqb (obj_get "password" u) (VStr password)
                   then LoggedIn (obj_get "id" u) (obj_get "name" u)
                   else WrongCredentials
               | [] => WrongCredentials
               end), w))
    /\ (phone <> "" -> password <> "" ->
        forall fs, faults w = true :: fs ->
        fst (handleLogin phone password w) = Ok WrongCredentials).
Proof.
  intros phone password w.
  assert (Hmissing : phone = "" \/ password = "" ->
                     handleLogin phone password w = (Ok MissingInput, w)).
  { intros [->| ->]; unfold handleLogin; [reflexivity|].
    now rewrite String.eqb_refl, orb_true_r. }
  assert (Hguard : phone <> "" -> password <> "" ->
                   ((phone =? "")%string || (password =? "")%string) = false).
  { intros H1 H2.
    destruct (String.eqb_spec phone ""); [contradiction|].
    destruct (String.eqb_spec password ""); [contradiction|reflexivity]. }
  split; [|split; [exact Hmissing|split]].
  - destruct (string_dec phone "") as [Hp|Hp].
    { rewrite Hmissing by now left. eexists. split; [reflexivity|discriminate]. }
    destruct (string_dec password "") as [Hq|Hq].
    { rewrite Hmissing by now right. eexists. split; [reflexivity|discriminate]. }
    unfold handleLogin. rewrite (Hguard Hp Hq). unfold try_catch, bind.
    unfold getUserByPhone, try_catch, bind, getDocs, query.
    destruct (adapter_query_never_throws USERS_COLLECTION
                [where_ "phone" "==" (VStr phone)] w) as [rows Hrows].
    destruct (adapter_query USERS_COLLECTION [where_ "phone" "==" (VStr phone)] w)
      as [[rows'|e] w1]; cbn [fst] in Hrows; [|discriminate].
    destruct rows' as [|d rows']; cbn.
    + eexists. split; [reflexivity|discriminate].
    + destruct (strict_eqb _ _); eexists; (split; [reflexivity|discriminate]).
  - intros Hp Hq Hr. unfold handleLogin. rewrite (Hguard Hp Hq). unfold try_catch.
    rewrite (bind_ok _ (getUserByPhone_reliable phone w Hr)).
    destruct (users_with_phone w phone) as [|u us]; [reflexivity|].
    rewrite !with_id_get. now destruct (strict_eqb _ _).
  - intros Hp Hq fs Hf. unfold handleLogin. rewrite (Hguard Hp Hq). unfold try_catch.
    now rewrite (bind_ok _ (getUserByPhone_failing phone w fs Hf)).
Qed.

Lemma login_outcomes_witness :
  handleLogin "0910000000" "xyz" world_login = (Ok WrongCredentials, world_login)
  /\ handleLogin "0910000000" "abc" world_login
     = (Ok (LoggedIn (VStr "u1") (VStr "Salem")), world_login).
Proof.
  split.
  - apply (proj1 (proj2 (proj2 (login_outcomes "0910000000" "xyz" world_login))));
      [discriminate|discriminate|reflexivity].
  - apply (proj1 (proj2 (proj2 (login_outcomes "0910000000" "abc" world_login))));
      [discriminate|discriminate|reflexivity].
Defined.

(* ------------------------------------------------------------------ *)
(** ** The weight dialog of the orders page *)

Lemma recalc_order_user_ok (orderRef : docref) (w : world) :
  reliable w ->
  (forall o, rows_with_id w (ref_collection orderRef) (ref_id orderRef) = [o] ->
             exists U, obj_get "userId" o = VStr U) ->
  exists w', recalc_order_user orderRef w = (Ok tt, w')
             /\ forall c, c <> USERS_COLLECTION -> tables w' c = tables w c.
Proof.
  intros Hr HU. unfold recalc_order_user, getDoc.
  rewrite (bind_ok _ (doc_get_reliable orderRef w Hr)).
  destruct (rows_with_id w _ _) as [|o [|o' l]] eqn:Hrows;
    try (exists w; split; [reflexivity|auto]).
  destruct (HU o eq_refl) as [U HUo]. rewrite HUo. cbn [truthy as_id].
  destruct (String.eqb_spec U "") as [->|HUne]; cbn [negb].
  - exists w. split; [reflexivity|auto].
  - rewrite (recalculateUserStats_reliable U w Hr HUne). eexists. split; [reflexivity|].
    intros c Hc. now apply tables_set_table_neq.
Qed.

(** The stored row of an order after [setCustomerWeightDetails]. *)
Lemma setCustomerWeightDetails_row (w : world) (orderId U : string) (o : object)
    (weight a b : Z) :
  reliable w -> orderId <> "" -> 0 <= weight ->
  rows_with_id w ORDERS_COLLECTION orderId = [o] ->
  obj_get "userId" o = VStr U ->
  fst (setCustomerWeightDetails orderId weight a b w) = Ok true
  /\ tables (snd (setCustomerWeightDetails orderId weight a b w)) ORDERS_COLLECTION
     = replace_row orderId
         (obj_merge o
            [("sellingPriceLYD",
              VNum (num_or0 "sellingPriceLYD" o
                    + (weight * b - num_or0 "customerWeightCost" o)));
             ("remainingAmount",
              VNum (num_or0 "remainingAmount" o
                    + (weight * b - num_or0 "customerWeightCost" o)));
             ("weightKG", VNum weight);
             ("companyPricePerKiloUSD", VNum a);
             ("customerPricePerKilo", VNum b);
             ("customerWeightCost", VNum (weight * b));
             ("companyWeightCostUSD", VNum (weight * a))])
         (tables w ORDERS_COLLECTION).
Proof.
  intros Hr Hid Hw Hrows HU. unfold setCustomerWeightDetails.
  assert (Hneg : (weight <? 0) = false) by (apply Z.ltb_ge; lia).
  rewrite Hneg.
  rewrite (bind_ok _ (doc_ok ORDERS_COLLECTION orderId w ltac:(discriminate) Hid)).
  unfold try_catch, runTransaction.
  cbn [tx_get tx_set tx_update the_transaction].
  rewrite !bind_assoc_run.
  rewrite (bind_ok _ (doc_get_reliable _ w Hr)). cbn [ref_collection ref_id].
  rewrite Hrows.
  set (d := weight * b - num_or0 "customerWeightCost" o).
  rewrite !bind_assoc_run.
  rewrite (bind_ok _ (detach_run _ _)).
  rewrite doc_update_plain_reliable by (auto; reflexivity).
  cbn [snd ref_collection ref_id].
  rewrite (update_rows_replace orderId o _ _ Hrows).
  set (o' := obj_merge o _).
  fold (replace_row orderId o' (tables w ORDERS_COLLECTION)).
  set (w1 := set_table ORDERS_COLLECTION _ w).
  assert (Hr1 : reliable w1) by exact Hr.
  assert (Hid' : has_id orderId o' = true).
  { unfold o'. rewrite has_id_merge_noid by reflexivity.
    apply (filter_single_in orderId o _ Hrows). }
  assert (Hrows1 : rows_with_id w1 ORDERS_COLLECTION orderId = [o']).
  { unfold w1. now apply rows_replace_row with (cur := o). }
  assert (HU' : forall w2, reliable w2 ->
            tables w2 ORDERS_COLLECTION = tables w1 ORDERS_COLLECTION ->
            exists w3,
              recalc_order_user (mkRef ORDERS_COLLECTION orderId) w2 = (Ok tt, w3)
              /\ tables w3 ORDERS_COLLECTION = tables w1 ORDERS_COLLECTION).
  { intros w2 Hr2 Ht2.
    destruct (recalc_order_user_ok (mkRef ORDERS_COLLECTION orderId) w2 Hr2)
      as (w3 & Hrun & Hfr).
    - cbn [ref_collection ref_id]. unfold rows_with_id. rewrite Ht2.
      fold (rows_with_id w1 ORDERS_COLLECTION orderId). rewrite Hrows1.
      intros x [= <-]. exists U. unfold o'. now rewrite obj_get_merge.
    - exists w3. split; [exact Hrun|]. rewrite Hfr by discriminate. exact Ht2. }
  destruct (negb (d =? 0)).
  - rewrite !bind_assoc_run.
    rewrite (bind_ok _ (doc_auto_run TRANSACTIONS_COLLECTION w1)).
    rewrite !bind_assoc_run.
    rewrite (bind_ok _ (eq_refl : now_iso (tick w1) = (Ok _, tick (tick w1)))).
    rewrite (bind_ok _ (detach_run _ _)).
    rewrite (doc_set_reliable _ _ false (tick (tick w1)))
      by (apply reliable_tick, reliable_tick, Hr1).
    cbn [snd ref_collection ref_id].
    set (w2 := set_table TRANSACTIONS_COLLECTION _ (tick (tick w1))).
    destruct (HU' w2) as (w3 & Hrun & Ht3).
    { apply reliable_set_table, reliable_tick, reliable_tick, Hr1. }
    { unfold w2. rewrite tables_set_table_neq by discriminate. now rewrite !tables_tick. }
    rewrite (bind_ok _ Hrun). cbn [ret fst snd]. split; [reflexivity|].
    rewrite Ht3. unfold w1. apply tables_set_table_eq.
  - rewrite (bind_ok _ (ret_run tt w1)).
    destruct (HU' w1 Hr1 eq_refl) as (w3 & Hrun & Ht3).
    rewrite (bind_ok _ Hrun). cbn [ret fst snd]. split; [reflexivity|].
    rewrite Ht3. unfold w1. apply tables_set_table_eq.
Qed.

Lemma setCustomerWeightDetails_never_throws (orderId : string) (weight a b : Z)
    (w : world) :
  orderId <> "" ->
  exists answer, fst (setCustomerWeightDetails orderId weight a b w) = Ok answer.
Proof.
  intros Hid. unfold setCustomerWeightDetails.
  destruct (weight <? 0); [eexists; reflexivity|].
  rewrite (bind_ok _ (doc_ok ORDERS_COLLECTION orderId w ltac:(discriminate) Hid)).
  apply try_catch_total.
Qed.

(** The weight dialog.  For a current order with an identifier and a
    positive weight, [handleAddWeightCost] shows success and rewrites the
    order in the page's list whatever the action answered.  When the order
    is stored and the store is reliable, the page adds the new weight cost
    to the amounts that it holds, the store the difference to the previous
    weight cost: the selling price, the remaining amount and the customer
    weight cost on the page exceed the stored ones by the customer weight
    cost that the order had before, and the company weight cost by the
    previous company weight cost; they agree when the order had none. *)
Theorem weight_dialog_adds_what_the_store_replaces :
  forall (w : world) (orders : list object) (o : object) (orderId : string)
         (weight a b : Z),
    obj_get "id" o = VStr orderId -> orderId <> "" -> 0 < weight ->
    let answer := handleAddWeightCost orders (Some o) weight a b w in
    let page := page_weight_row o weight a b in
    fst answer
    = Ok (map (fun x => if strict_eqb (obj_get "id" x) (obj_get "id" o)
                        then page_weight_row x weight a b else x) orders,
          ToastSuccess)
    /\ (reliable w ->
        rows_with_id w ORDERS_COLLECTION orderId = [o] ->
        (exists U, obj_get "userId" o = VStr U) ->
        exists stored,
          rows_with_id (snd answer) ORDERS_COLLECTION orderId = [stored]
          /\ obj_get "sellingPriceLYD" page
             = VNum (as_num (obj_get "sellingPriceLYD" stored)
                     + num_or0 "customerWeightCost" o)
          /\ obj_get "remainingAmount" page
             = VNum (as_num (obj_get "remainingAmount" stored)
                     + num_or0 "customerWeightCost" o)
          /\ obj_get "customerWeightCost" page
             = VNum (as_num (obj_get "customerWeightCost" stored)
                     + num_or0 "customerWeightCost" o)
          /\ obj_get "companyWeightCostUSD" page
             = VNum (as_num (obj_get "companyWeightCostUSD" stored)
                     + num_or0 "companyWeightCostUSD" o)
          /\ obj_get "weightKG" page = obj_get "weightKG" stored).
Proof.
  intros w orders o orderId weight a b Hoid Hid Hw answer page.
  unfold answer, handleAddWeightCost.
  assert (Hpos : (weight <=? 0) = false) by (apply Z.leb_gt; lia).
  rewrite Hpos, Hoid. cbn [as_id]. unfold try_catch.
  destruct (setCustomerWeightDetails_never_throws orderId weight a b w Hid)
    as [ans Hans].
  destruct (setCustomerWeightDetails orderId weight a b w) as [out w1] eqn:Hrun.
  cbn [fst] in Hans. subst out.
  rewrite (bind_ok _ Hrun). cbn [ret fst snd].
  split; [reflexivity|].
  intros Hr Hrows [U HU].
  destruct (setCustomerWeightDetails_row w orderId U o weight a b Hr Hid
              ltac:(lia) Hrows HU) as [_ Ht].
  rewrite Hrun in Ht. cbn [snd] in Ht.
  set (stored := obj_merge o _) in Ht.
  exists stored. split.
  { unfold rows_with_id. rewrite Ht.
    apply filter_replace_single with (cur := o); [exact Hrows|].
    unfold stored. rewrite has_id_merge_noid by reflexivity.
    apply (filter_single_in orderId o _ Hrows). }
  unfold page, page_weight_row, stored. rewrite !obj_get_merge.
  cbn [obj_find String.eqb Ascii.eqb Bool.eqb as_num].
  rewrite !as_num_num_or0.
  repeat split; f_equal; lia.
Qed.

Lemma weight_dialog_adds_what_the_store_replaces_witness :
  exists stored,
    rows_with_id (snd (handleAddWeightCost [weighed_order] (Some weighed_order) 2 5 50
                         world_weighed))
      ORDERS_COLLECTION "o1" = [stored]
    /\ obj_get "sellingPriceLYD" (page_weight_row weighed_order 2 5 50)
       = VNum (as_num (obj_get "sellingPriceLYD" stored) + 90).
Proof.
  destruct (proj2 (weight_dialog_adds_what_the_store_replaces world_weighed
                     [weighed_order] weighed_order "o1" 2 5 50
                     eq_refl ltac:(discriminate) ltac:(lia))
              eq_refl eq_refl (ex_intro _ "u1" eq_refl))
    as (stored & H1 & H2 & _).
  exists stored. split; [exact H1|exact H2].
Defined.

(** The sample order, weighed a second time: the store holds a selling
    price of 1100, the page shows 1190. *)
Example weight_dialog_shows_too_much :
  map (obj_get "sellingPriceLYD")
    (tables (snd (handleAddWeightCost [weighed_order] (Some weighed_order) 2 5 50
                    world_weighed)) ORDERS_COLLECTION)
  = [VNum 1100]
  /\ fst (handleAddWeightCost [weighed_order] (Some weighed_order) 2 5 50 world_weighed)
     = Ok ([page_weight_row weighed_order 2 5 50], ToastSuccess)
  /\ obj_get "sellingPriceLYD" (page_weight_row weighed_order 2 5 50) = VNum 1190.
Proof. repeat split; reflexivity. Qed.

(* ------------------------------------------------------------------ *)
(** ** Resetting the financial reports *)

Lemma collection_getDocs_reliable (c : string) (w : world) :
  reliable w -> collection_getDocs c w = (Ok (tables w c), w).
Proof.
  intros Hr. unfold collection_getDocs.
  rewrite (bind_ok _ (sb_select_reliable c [] w Hr)). unfold ret.
  rewrite (filter_ext (filters_hold []) (fun _ => true)) by reflexivity.
  now rewrite filter_all.
Qed.

Lemma query_all_reliable (c : string) (w : world) :
  reliable w -> getDocs (query c []) w = (Ok (tables w c), w).
Proof.
  intros Hr. unfold getDocs, query.
  rewrite (adapter_query_reliable c [] w Hr). cbn [build_filters].
  rewrite (filter_ext (filters_hold []) (fun _ => true)) by reflexivity.
  now rewrite filter_all.
Qed.

Lemma getUsers_reliable (w : world) :
  reliable w -> getUsers w = (Ok (map with_id (tables w USERS_COLLECTION)), w).
Proof.
  intros Hr. unfold getUsers, try_catch, getDocs, collection.
  now rewrite (bind_ok _ (collection_getDocs_reliable USERS_COLLECTION w Hr)).
Qed.

(** The deletions of a turn, on a reliable store: no batch fails. *)
Lemma reset_delete_loop (c : string) (rows : list object) (n : nat) (w : world) :
  reliable w ->
  exists n' w',
    foldM (reset_delete c) (writeBatch, n) rows w = (Ok (writeBatch, n'), w')
    /\ reliable w'
    /\ tables w' c
       = fold_left (fun t d => delete_rows (as_id (obj_get "id" d)) t) rows (tables w c)
    /\ forall c', c' <> c -> tables w' c' = tables w c'.
Proof.
  revert n w. induction rows as [|d rows IH]; intros n w Hr.
  - exists n, w. repeat split; auto.
  - cbn [foldM]. unfold reset_delete at 1. unfold batch_delete.
    rewrite bind_assoc_run.
    rewrite (bind_ok _ (batch_push_ok writeBatch _ w _ (doc_delete_reliable _ w Hr))).
    cbn [row_ref ref_collection ref_id].
    set (w1 := set_table c _ w).
    assert (Hr1 : reliable w1) by exact Hr.
    destruct (S n =? MAX_BATCH_SIZE)%nat.
    + unfold writeBatch at 1. cbn [batch_commit].
      rewrite bind_assoc_run. rewrite (bind_ok _ (ret_run tt w1)).
      rewrite (bind_ok _ (ret_run _ w1)).
      destruct (IH O w1 Hr1) as (n' & w' & Hrun & Hr' & Ht & Hfr).
      exists n', w'. split; [exact Hrun|]. split; [exact Hr'|]. split.
      * rewrite Ht. unfold w1. now rewrite tables_set_table_eq.
      * intros c' Hc. rewrite Hfr by exact Hc. unfold w1. now apply tables_set_table_neq.
    + rewrite (bind_ok _ (ret_run _ w1)).
      destruct (IH (S n) w1 Hr1) as (n' & w' & Hrun & Hr' & Ht & Hfr).
      exists n', w'. split; [exact Hrun|]. split; [exact Hr'|]. split.
      * rewrite Ht. unfold w1. now rewrite tables_set_table_eq.
      * intros c' Hc. rewrite Hfr by exact Hc. unfold w1. now apply tables_set_table_neq.
Qed.

Lemma no_member_nil {A} (l : list A) : (forall x, ~ In x l) -> l = [].
Proof.
  destruct l as [|x l]; [reflexivity|]. intros H. destruct (H x). now left.
Qed.

(** Deleting every row of a table by its identifier leaves no row. *)
Lemma delete_every_row (t : table) :
  string_ids t ->
  fold_left (fun t d => delete_rows (as_id (obj_get "id" d)) t) t t = [].
Proof.
  intros Hs. apply no_member_nil. intros r Hin.
  destruct (in_fold_delete _ _ _ Hin) as [Hin0 Hdel].
  destruct (Hs r Hin0) as [s Hid].
  specialize (Hdel r Hin0). rewrite Hid in Hdel. cbn [as_id] in Hdel.
  apply has_id_iff in Hid. congruence.
Qed.

(** The loop of a collection ends within two turns and leaves no row. *)
Lemma reset_collection_reliable (turns : nat) (c : string) (w : world) :
  reliable w -> (2 <= turns)%nat -> string_ids (tables w c) ->
  exists w',
    reset_collection turns c w = (Ok (Some tt), w')
    /\ reliable w'
    /\ tables w' c = []
    /\ forall c', c' <> c -> tables w' c' = tables w c'.
Proof.
  intros Hr Hturns Hs.
  destruct turns as [|[|turns]]; try lia.
  cbn [reset_collection].
  rewrite (bind_ok _ (query_all_reliable c w Hr)).
  destruct (tables w c) as [|r0 t0] eqn:Ht.
  - exists w. cbn. repeat split; auto.
  - cbn [List.length Nat.eqb].
    destruct (reset_delete_loop c (r0 :: t0) O w Hr) as (n' & w' & Hrun & Hr' & Ht' & Hfr).
    rewrite (bind_ok _ Hrun). cbn [fst snd].
    assert (Hcommit : (if (0 <? n')%nat then batch_commit writeBatch else ret tt) w'
                      = (Ok tt, w')).
    { now destruct (0 <? n')%nat. }
    rewrite (bind_ok _ Hcommit).
    assert (Hnil : tables w' c = []).
    { rewrite Ht', Ht. now apply delete_every_row. }
    destruct (S (List.length t0) <? MAX_BATCH_SIZE)%nat.
    + exists w'. split; [reflexivity|]. split; [exact Hr'|]. split; [exact Hnil|exact Hfr].
    + rewrite (bind_ok _ (query_all_reliable c w' Hr')). rewrite Hnil.
      exists w'. split; [reflexivity|]. split; [exact Hr'|]. split; [exact Hnil|exact Hfr].
Qed.

Lemma update_rows_fold_map (w0 : world) (us : list object) (t : table) :
  fold_left (fun t u => update_rows (as_id (obj_get "id" u))
                          (user_stats w0 (as_id (obj_get "id" u))) t) us t
  = map (recalculated_row w0 us) t.
Proof.
  revert t. induction us as [|u us IH]; intros t; cbn [fold_left].
  - symmetry. apply map_id.
  - rewrite IH. unfold update_rows. rewrite map_map. reflexivity.
Qed.

(** The recalculations of the users, one after the other, on a reliable
    store whose orders are those of [w0]. *)
Lemma recalculate_users_loop (w0 : world) (us : list object) (w : world) :
  reliable w -> named_rows us ->
  tables w ORDERS_COLLECTION = tables w0 ORDERS_COLLECTION ->
  exists w',
    foldM (fun (_ : unit) user => recalculateUserStats (as_id (obj_get "id" user)))
          tt us w = (Ok tt, w')
    /\ reliable w'
    /\ tables w' USERS_COLLECTION
       = fold_left (fun t u => update_rows (as_id (obj_get "id" u))
                                 (user_stats w0 (as_id (obj_get "id" u))) t)
                   us (tables w USERS_COLLECTION)
    /\ forall c, c <> USERS_COLLECTION -> tables w' c = tables w c.
Proof.
  revert w. induction us as [|u us IH]; intros w Hr Hn Ho.
  - exists w. repeat split; auto.
  - cbn [foldM fold_left].
    destruct (Hn u (or_introl eq_refl)) as (U & HU & HUne).
    rewrite HU. cbn [as_id].
    rewrite (bind_ok _ (recalculateUserStats_reliable U w Hr HUne)).
    destruct (spec_totals_frame w w0 U Ho) as [Hd Hc]. rewrite Hd, Hc.
    fold (user_stats w0 U).
    set (w1 := set_table USERS_COLLECTION _ w).
    destruct (IH w1) as (w' & Hrun & Hr' & Ht' & Hfr).
    + exact Hr.
    + intros r Hin. apply Hn. now right.
    + unfold w1. rewrite tables_set_table_neq by discriminate. exact Ho.
    + exists w'. split; [exact Hrun|]. split; [exact Hr'|]. split.
      * rewrite Ht'. unfold w1. now rewrite tables_set_table_eq.
      * intros c Hc'. rewrite Hfr by exact Hc'. unfold w1.
        now apply tables_set_table_neq.
Qed.

Lemma recalculated_row_cons (w0 : world) (u : object) (us : list object) (r : object) :
  recalculated_row w0 (u :: us) r
  = recalculated_row w0 us
      (if has_id (as_id (obj_get "id" u)) r
       then obj_merge r (user_stats w0 (as_id (obj_get "id" u)))
       else r).
Proof. reflexivity. Qed.

Lemma recalculated_row_stats (w0 : world) (us : list object) (r : object) (U : string) :
  obj_get "id" r = VStr U ->
  (forall k, k <> "debt" -> k <> "orderCount" ->
             obj_get k (recalculated_row w0 us r) = obj_get k r)
  /\ ((exists u, In u us /\ obj_get "id" u = VStr U)
      \/ (obj_get "debt" r = VNum (orders_debt w0 U)
          /\ obj_get "orderCount" r = VNum (spec_orderCount w0 U)) ->
      obj_get "debt" (recalculated_row w0 us r) = VNum (orders_debt w0 U)
      /\ obj_get "orderCount" (recalculated_row w0 us r) = VNum (spec_orderCount w0 U)).
Proof.
  revert r. induction us as [|u us IH]; intros r Hid.
  - cbn. split; [reflexivity|]. intros [(u & [] & _)|H]. exact H.
  - rewrite recalculated_row_cons.
    destruct (has_id (as_id (obj_get "id" u)) r) eqn:E.
    + apply has_id_iff in E. rewrite Hid in E. injection E as E.
      rewrite <- E.
      assert (Hid1 : obj_get "id" (obj_merge r (user_stats w0 U)) = VStr U).
      { now rewrite obj_get_merge. }
      destruct (IH _ Hid1) as [Hk Hs]. split.
      * intros k H1 H2. rewrite (Hk k H1 H2), obj_get_merge. cbn.
        destruct (String.eqb_spec k "debt"); [contradiction|].
        destruct (String.eqb_spec k "orderCount"); [contradiction|reflexivity].
      * intros _. apply Hs. right. now rewrite !obj_get_merge.
    + destruct (IH _ Hid) as [Hk Hs]. split; [exact Hk|].
      intros [(u' & [<-|Hin] & Hu')|H].
      * rewrite Hu' in E. cbn [as_id] in E.
        apply has_id_iff in Hid. congruence.
      * apply Hs. left. now exists u'.
      * apply Hs. now right.
Qed.

(** [resetFinancialReports] on a reliable store: its loops end within two
    turns and it answers [true]; no transaction and no expense is left; the
    orders and every other table are as before, so that the remaining
    amounts stand although the payments are gone; every user keeps its row
    and carries the debt and the order count of its orders as they stand. *)
Theorem resetFinancialReports_keeps_what_is_owed :
  forall (turns : nat) (w : world),
    reliable w -> (2 <= turns)%nat ->
    string_ids (tables w TRANSACTIONS_COLLECTION) ->
    string_ids (tables w EXPENSES_COLLECTION) ->
    named_rows (tables w USERS_COLLECTION) ->
    let w' := snd (resetFinancialReports turns w) in
    fst (resetFinancialReports turns w) = Ok (Some true)
    /\ tables w' TRANSACTIONS_COLLECTION = []
    /\ tables w' EXPENSES_COLLECTION = []
    /\ (forall c, c <> TRANSACTIONS_COLLECTION -> c <> EXPENSES_COLLECTION ->
                  c <> USERS_COLLECTION -> tables w' c = tables w c)
    /\ Forall2 (fun u r => forall k, k <> "debt" -> k <> "orderCount" ->
                                     obj_get k u = obj_get k r)
               (tables w' USERS_COLLECTION) (tables w USERS_COLLECTION)
    /\ (forall u U, In u (tables w' USERS_COLLECTION) -> obj_get "id" u = VStr U ->
          obj_get "debt" u = VNum (orders_debt w U)
          /\ obj_get "orderCount" u = VNum (spec_orderCount w U)).
Proof.
  intros turns w Hr Hturns Hst Hse Hu w'. unfold w'. clear w'.
  destruct (reset_collection_reliable turns TRANSACTIONS_COLLECTION w Hr Hturns Hst)
    as (w1 & Hrun1 & Hr1 & Ht1 & Hfr1).
  assert (Hse1 : string_ids (tables w1 EXPENSES_COLLECTION)).
  { rewrite Hfr1 by discriminate. exact Hse. }
  destruct (reset_collection_reliable turns EXPENSES_COLLECTION w1 Hr1 Hturns Hse1)
    as (w2 & Hrun2 & Hr2 & Ht2 & Hfr2).
  assert (Husers : tables w2 USERS_COLLECTION = tables w USERS_COLLECTION).
  { rewrite Hfr2, Hfr1 by discriminate. reflexivity. }
  set (us := map with_id (tables w USERS_COLLECTION)).
  assert (Hus : named_rows us).
  { intros r Hin. apply in_map_iff in Hin. destruct Hin as (r0 & <- & Hin).
    rewrite with_id_get. now apply Hu. }
  destruct (recalculate_users_loop w us w2 Hr2 Hus) as (w3 & Hrun3 & Hr3 & Ht3 & Hfr3).
  { rewrite Hfr2, Hfr1 by discriminate. reflexivity. }
  assert (Hrun : resetFinancialReports turns w = (Ok (Some true), w3)).
  { unfold resetFinancialReports, try_catch. cbn [foldM].
    rewrite !bind_assoc_run. rewrite (bind_ok _ Hrun1).
    rewrite !bind_assoc_run. rewrite (bind_ok _ Hrun2).
    rewrite (bind_ok _ (ret_run _ w2)).
    rewrite (bind_ok _ (getUsers_reliable w2 Hr2)). rewrite Husers. fold us.
    rewrite (bind_ok _ Hrun3). reflexivity. }
  rewrite Hrun. cbn [fst snd].
  rewrite update_rows_fold_map, Husers in Ht3.
  split; [reflexivity|]. split.
  { rewrite Hfr3, Hfr2 by discriminate. exact Ht1. }
  split.
  { rewrite Hfr3 by discriminate. exact Ht2. }
  split.
  { intros c H1 H2 H3. now rewrite Hfr3, Hfr2, Hfr1. }
  split.
  { rewrite Ht3. clear Ht3 Husers. 
    induction (tables w USERS_COLLECTION) as [|r t IH] in Hu |- *; [constructor|].
    cbn [map]. constructor.
    - destruct (Hu r (or_introl eq_refl)) as (U & HU & _).
      intros k H1 H2. now apply (proj1 (recalculated_row_stats w us r U HU)).
    - apply IH. intros r' Hin. apply Hu. now right. }
  intros u U Hin Hid. rewrite Ht3 in Hin. apply in_map_iff in Hin.
  destruct Hin as (r & <- & Hin).
  destruct (Hu r Hin) as (U' & HU' & _).
  destruct (recalculated_row_stats w us r U' HU') as [Hk Hs].
  rewrite (Hk "id") in Hid by discriminate. rewrite HU' in Hid. injection Hid as <-.
  apply Hs. left. exists (with_id r). split.
  - unfold us. now apply in_map.
  - now rewrite with_id_get.
Qed.

Lemma resetFinancialReports_keeps_what_is_owed_witness :
  fst (resetFinancialReports 2 world_paid) = Ok (Some true)
  /\ tables (snd (resetFinancialReports 2 world_paid)) TRANSACTIONS_COLLECTION = []
  /\ map (obj_get "remainingAmount")
       (tables (snd (resetFinancialReports 2 world_paid)) ORDERS_COLLECTION)
     = [VNum 800].
Proof.
  destruct (resetFinancialReports_keeps_what_is_owed 2 world_paid eq_refl)
    as (H1 & H2 & _ & H4 & _).
  - lia.
  - intros r [<-|[]]. eexists. reflexivity.
  - intros r [<-|[]]. eexists. reflexivity.
  - intros r [<-|[]]. eexists. split; [reflexivity|discriminate].
  - split; [exact H1|]. split; [exact H2|].
    rewrite H4 by discriminate. reflexivity.
Defined.

(** The sample user after the reset: the payment of 200 is gone, the order
    still asks for 800 and so does the user's debt. *)
Example resetFinancialReports_forgets_the_payment :
  tables (snd (resetFinancialReports 2 world_paid)) USERS_COLLECTION
  = [ [("id", VStr "u1"); ("name", VStr "Salem"); ("debt", VNum 800);
       ("orderCount", VNum 1)] ]
  /\ tables (snd (resetFinancialReports 2 world_paid)) TRANSACTIONS_COLLECTION = [].
Proof. split; reflexivity. Qed.

(* ------------------------------------------------------------------ *)
(** ** A payment on a temporary order *)

Lemma findIndex_subOrder_some (subOrderId : string) (xs : list value) (i : nat) :
  findIndex_subOrder subOrderId xs = Ok (Some i) ->
  exists so, nth_error xs i = Some (VObj so)
             /\ obj_get "subOrderId" so = VStr subOrderId.
Proof.
  revert i. induction xs as [|x xs IH]; intros i H; cbn [findIndex_subOrder] in H.
  - discriminate.
  - destruct x as [|b|n|s|ys|o]; try discriminate;
      try (destruct (findIndex_subOrder subOrderId xs) as [[j|]|e]; try discriminate;
           injection H as <-; exact (IH j eq_refl)).
    destruct (strict_eqb (obj_get "subOrderId" o) (VStr subOrderId)) eqn:E.
    + injection H as <-. exists o. split; [reflexivity|]. now apply strict_eqb_VStr.
    + destruct (findIndex_subOrder subOrderId xs) as [[j|]|e]; try discriminate.
      injection H as <-. exact (IH j eq_refl).
Qed.

Lemma nth_error_set_nth (i : nat) (v x : value) (xs : list value) :
  nth_error xs i = Some x -> nth_error (set_nth i v xs) i = Some v.
Proof.
  revert i. induction xs as [|y xs IH]; intros [|i] H; try discriminate.
  - reflexivity.
  - cbn. now apply IH.
Qed.

(** The payment leaves the sub-order where [findIndex] found it. *)
Lemma findIndex_subOrder_paid (subOrderId : string) (xs : list value) (i : nat)
    (so' : object) :
  findIndex_subOrder subOrderId xs = Ok (Some i) ->
  obj_get "subOrderId" so' = VStr subOrderId ->
  findIndex_subOrder subOrderId (set_nth i (VObj so') xs) = Ok (Some i).
Proof.
  intros H Hso. revert i H. induction xs as [|x xs IH]; intros i H.
  - discriminate.
  - cbn [findIndex_subOrder] in H.
    assert (Hrest : forall j, findIndex_subOrder subOrderId xs = Ok (Some j) ->
                              findIndex_subOrder subOrderId (set_nth j (VObj so') xs)
                              = Ok (Some j)) by exact IH.
    destruct x as [|b|n|s|ys|o]; try discriminate;
      try (destruct (findIndex_subOrder subOrderId xs) as [[j|]|e] eqn:E;
           try discriminate; injection H as <-;
           cbn [set_nth findIndex_subOrder]; now rewrite (Hrest j eq_refl)).
    destruct (strict_eqb (obj_get "subOrderId" o) (VStr subOrderId)) eqn:E.
    + injection H as <-. cbn [set_nth findIndex_subOrder].
      rewrite Hso. cbn [strict_eqb]. now rewrite String.eqb_refl.
    + destruct (findIndex_subOrder subOrderId xs) as [[j|]|e] eqn:E';
        try discriminate. injection H as <-.
      cbn [set_nth findIndex_subOrder]. rewrite E. now rewrite (Hrest j eq_refl).
Qed.

(** [addTempOrderPayment] for a sub-order of an invoice that was converted
    into an order of a user, on a reliable store: the temporary order and
    the sub-order take the payment off what remains and stop at zero; the
    main order takes it off without a floor, so that a payment above what
    remains leaves it negative.  When the generated identifier is new, the
    payment is recorded against the main order and the user, and the user
    is recalculated; when it is taken, the action answers [false] with the
    amounts changed all the same, and neither records nor recalculates. *)
Theorem addTempOrderPayment_floors_the_invoice_only :
  forall (w : world) (tempOrderId subOrderId P U : string) (amount : Z)
         (notes : option string) (t o : object) (xs : list value) (i : nat),
    reliable w -> tempOrderId <> "" ->
    rows_with_id w TEMP_ORDERS_COLLECTION tempOrderId = [t] ->
    obj_get "subOrders" t = VArr xs ->
    findIndex_subOrder subOrderId xs = Ok (Some i) ->
    obj_get "parentInvoiceId" t = VStr P -> P <> "" ->
    rows_with_id w ORDERS_COLLECTION P = [o] ->
    obj_get "assignedUserId" t = VStr U -> U <> "" ->
    let answer := addTempOrderPayment tempOrderId subOrderId amount notes w in
    let w' := snd answer in
    exists so t' o',
      nth_error xs i = Some (VObj so)
      /\ rows_with_id w' TEMP_ORDERS_COLLECTION tempOrderId = [t']
      /\ obj_get "remainingAmount" t'
         = VNum (Z.max 0 (num_or0 "remainingAmount" t - amount))
      /\ obj_get "subOrders" t' = VArr (set_nth i (paid_subOrder amount so) xs)
      /\ rows_with_id w' ORDERS_COLLECTION P = [o']
      /\ obj_get "remainingAmount" o'
         = VNum (number_or0 (obj_get "remainingAmount" o) - amount)
      /\ (forall k, k <> "remainingAmount" -> obj_get k o' = obj_get k o)
      /\ (rows_with_id w TRANSACTIONS_COLLECTION (temp_payment_id w) = [] ->
          fst answer = Ok true
          /\ exists row,
               tables w' TRANSACTIONS_COLLECTION
               = (tables w TRANSACTIONS_COLLECTION ++ [row])%list
               /\ obj_get "orderId" row = VStr P
               /\ obj_get "customerId" row = VStr U
               /\ obj_get "customerName" row
                  = or_else (obj_get "customerName" so) (VStr "عميل")
               /\ obj_get "type" row = VStr "payment"
               /\ obj_get "amount" row = VNum amount
               /\ tables w' USERS_COLLECTION
                  = update_rows U (user_stats w' U) (tables w USERS_COLLECTION))
      /\ (rows_with_id w TRANSACTIONS_COLLECTION (temp_payment_id w) <> [] ->
          fst answer = Ok false
          /\ tables w' TRANSACTIONS_COLLECTION = tables w TRANSACTIONS_COLLECTION
          /\ tables w' USERS_COLLECTION = tables w USERS_COLLECTION).
Proof.
  intros w tid sid P U amount notes t o xs i Hr Htid Hrows Hxs Hi HP HPne Ho
         Hassigned HUne answer w'.
  destruct (findIndex_subOrder_some sid xs i Hi) as (so & Hnth & Hsid).
  set (xs' := set_nth i (paid_subOrder amount so) xs).
  set (data := [("subOrders", VArr xs');
                ("remainingAmount",
                 VNum (Z.max 0 (num_or0 "remainingAmount" t - amount)))]).
  set (w1 := set_table TEMP_ORDERS_COLLECTION
               (update_rows tid data (tables w TEMP_ORDERS_COLLECTION)) w).
  assert (Hr1 : reliable w1) by exact Hr.
  assert (Ho1 : rows_with_id w1 ORDERS_COLLECTION P = [o]).
  { unfold rows_with_id, w1. now rewrite tables_set_table_neq by discriminate. }
  destruct (doc_update_increment w1 (mkRef ORDERS_COLLECTION P) o [] []
              "remainingAmount" (- amount) Hr1 Ho1)
    as (o' & Hinc & Ho'rem & Ho'keep).
  { intros k [<-|[]]. reflexivity. }
  { intros []. }
  { intros []. }
  cbn [app ref_collection ref_id map fst] in Hinc, Ho'keep.
  set (w2 := set_table ORDERS_COLLECTION
               (map (fun r => if has_id P r then o' else r) (tables w1 ORDERS_COLLECTION))
               w1) in Hinc.
  assert (Hr2 : reliable w2) by exact Hr.
  set (t' := obj_merge t data).
  assert (Ht'id : has_id tid t' = true).
  { unfold t'. rewrite has_id_merge_noid by reflexivity.
    apply (rows_with_id_in w _ _ t Hrows). }
  assert (Ht2 : rows_with_id w2 TEMP_ORDERS_COLLECTION tid = [t']).
  { unfold rows_with_id, w2. rewrite tables_set_table_neq by discriminate.
    unfold w1. rewrite tables_set_table_eq.
    rewrite (update_rows_single w _ _ t data Hrows).
    now apply filter_replace_single with (cur := t). }
  assert (Ho'id : has_id P o' = true).
  { unfold has_id. rewrite (Ho'keep "id") by (intros [H|[]]; discriminate H).
    apply (rows_with_id_in w _ _ o Ho). }
  assert (Ho2 : rows_with_id w2 ORDERS_COLLECTION P = [o']).
  { unfold rows_with_id, w2. rewrite tables_set_table_eq.
    now apply filter_replace_single with (cur := o). }
  assert (Htx2 : tables w2 TRANSACTIONS_COLLECTION = tables w TRANSACTIONS_COLLECTION).
  { unfold w2. rewrite tables_set_table_neq by discriminate.
    unfold w1. now rewrite tables_set_table_neq by discriminate. }
  assert (HUt : truthy (VStr U) = true).
  { cbn [truthy]. destruct (String.eqb_spec U ""); [contradiction|reflexivity]. }
  assert (Hsubs : obj_get "subOrders" t' = VArr xs').
  { unfold t'. now rewrite obj_get_merge. }
  assert (Hrem : obj_get "remainingAmount" t'
                 = VNum (Z.max 0 (num_or0 "remainingAmount" t - amount))).
  { unfold t'. now rewrite obj_get_merge. }
  assert (Hparent : obj_get "parentInvoiceId" t' = VStr P).
  { unfold t'. now rewrite obj_get_merge. }
  assert (Hassigned' : obj_get "assignedUserId" t' = VStr U).
  { unfold t'. now rewrite obj_get_merge. }
  set (so' := obj_set "remainingAmount"
                (VNum (Z.max 0 (num_or0 "remainingAmount" so - amount))) so).
  assert (Hso' : obj_get "subOrderId" so' = VStr sid).
  { unfold so'. rewrite obj_get_set_neq by discriminate. exact Hsid. }
  assert (Hfind : find_subOrder sid xs' = Ok (Some (VObj so'))).
  { unfold find_subOrder, xs', paid_subOrder. fold so'.
    rewrite (findIndex_subOrder_paid sid xs i so' Hi Hso').
    now rewrite (nth_error_set_nth i (VObj so') _ xs Hnth). }
  set (row := temp_payment_row t' (Some (VObj so')) tid sid amount notes
                (clock w (ticks w))).
  (* the run, up to the record of the payment *)
  assert (Hrun : answer
                 = try_catch
                     (addDoc TRANSACTIONS_COLLECTION row ;;;
                      (if truthy (obj_get "assignedUserId" t')
                       then recalculateUserStats (as_id (obj_get "assignedUserId" t'))
                       else ret tt) ;;;
                      ret true)
                     (fun _ => ret false) (tick w2)).
  { unfold answer, addTempOrderPayment, try_catch.
    rewrite (bind_ok _ (doc_ok TEMP_ORDERS_COLLECTION tid w ltac:(discriminate) Htid)).
    unfold runTransaction. cbn [the_transaction tx_get tx_update].
    rewrite ?bind_assoc_run.
    rewrite (bind_ok _ (doc_get_reliable _ w Hr)). cbn [ref_collection ref_id].
    rewrite Hrows. rewrite Hxs. cbn [js_array].
    rewrite ?bind_assoc_run. rewrite (bind_ok _ (ret_run xs w)).
    rewrite Hi. unfold settle at 1. rewrite ?bind_assoc_run.
    rewrite (bind_ok _ (eq_refl : (fun w0 : world => (Ok (Some i), w0)) w = (Ok (Some i), w))).
    unfold pay_subOrder. rewrite Hnth. fold (paid_subOrder amount so). fold xs'.
    unfold settle at 1. rewrite ?bind_assoc_run.
    rewrite (bind_ok _ (eq_refl : (fun w0 : world => (Ok xs', w0)) w = (Ok xs', w))).
    fold data. rewrite ?bind_assoc_run.
    rewrite (bind_ok _ (detach_run _ w)).
    rewrite (doc_update_plain_reliable _ data w Hr eq_refl).
    cbn [snd ref_collection ref_id]. fold w1.
    rewrite HP. cbn [truthy as_id].
    assert (HPt : negb (P =? "")%string = true).
    { destruct (String.eqb_spec P ""); [contradiction|reflexivity]. }
    rewrite HPt. rewrite ?bind_assoc_run.
    rewrite (bind_ok _ (doc_ok ORDERS_COLLECTION P w1 ltac:(discriminate) HPne)).
    rewrite (bind_ok _ (detach_run _ w1)). rewrite Hinc. cbn [snd].
    unfold getDoc. rewrite (bind_ok _ (doc_get_reliable _ w2 Hr2)).
    cbn [ref_collection ref_id]. rewrite Ht2. rewrite Hsubs. cbn [js_array].
    rewrite ?bind_assoc_run. rewrite (bind_ok _ (ret_run xs' w2)).
    rewrite Hfind. unfold settle at 1.
    rewrite (bind_ok _ (eq_refl : (fun w0 : world => (Ok (Some (VObj so')), w0)) w2
                                  = (Ok (Some (VObj so')), w2))).
    assert (Hnow : now_iso w2 = (Ok (clock w (ticks w)), tick w2)) by reflexivity.
    rewrite (bind_ok _ Hnow). reflexivity. }
  assert (Hnoid : obj_find "id" row = None) by reflexivity.
  pose proof (collection_add_reliable TRANSACTIONS_COLLECTION row (tick w2)
                (reliable_tick w2 Hr2) Hnoid) as Hadd.
  change (next_id (tick w2)) with (temp_payment_id w) in Hadd.
  assert (Hsame : rows_with_id (tick w2) TRANSACTIONS_COLLECTION (temp_payment_id w)
                  = rows_with_id w TRANSACTIONS_COLLECTION (temp_payment_id w)).
  { unfold rows_with_id. now rewrite tables_tick, Htx2. }
  rewrite Hsame in Hadd.
  exists so, t', o'.
  split; [exact Hnth|].
  destruct (rows_with_id w TRANSACTIONS_COLLECTION (temp_payment_id w)) as [|r0 rs] eqn:Hfresh.
  - (* the payment is recorded *)
    set (w3 := set_table TRANSACTIONS_COLLECTION _ (tick (tick w2))) in Hadd.
    assert (Hr3 : reliable w3) by exact Hr.
    set (w4 := set_table USERS_COLLECTION
                 (update_rows U [("debt", VNum (orders_debt w3 U));
                                 ("orderCount", VNum (spec_orderCount w3 U))]
                    (tables w3 USERS_COLLECTION)) w3).
    assert (Hfin : answer = (Ok true, w4)).
    { rewrite Hrun. unfold try_catch, addDoc. rewrite (bind_ok _ Hadd).
      rewrite Hassigned', HUt. cbn [as_id].
      now rewrite (bind_ok _ (recalculateUserStats_reliable U w3 Hr3 HUne)). }
    unfold w'. rewrite Hfin. cbn [fst snd].
    split.
    { unfold rows_with_id, w4, w3. rewrite !tables_set_table_neq by discriminate.
      rewrite !tables_tick. exact Ht2. }
    split; [exact Hrem|]. split; [exact Hsubs|]. split.
    { unfold rows_with_id, w4, w3. rewrite !tables_set_table_neq by discriminate.
      rewrite !tables_tick. exact Ho2. }
    split; [exact Ho'rem|]. split.
    { intros k Hk. apply Ho'keep. intros [H|[]]. now apply Hk. }
    split.
    + intros _. split; [reflexivity|].
      exists (obj_set "id" (VStr (temp_payment_id w)) row). split.
      { unfold w4. rewrite tables_set_table_neq by discriminate.
        unfold w3. rewrite tables_set_table_eq, !tables_tick, Htx2. reflexivity. }
      assert (Hname : obj_get "customerName" so' = obj_get "customerName" so).
      { unfold so'. apply obj_get_set_neq. discriminate. }
      assert (Hor : or_else (VStr P) (VStr tid) = VStr P).
      { unfold or_else. cbn [truthy].
        destruct (String.eqb_spec P ""); [contradiction|reflexivity]. }
      assert (Hor' : or_else (VStr U) (VStr ("TEMP-" ++ sid)) = VStr U).
      { unfold or_else. now rewrite HUt. }
      unfold row, temp_payment_row. rewrite Hparent, Hassigned', Hname, Hor, Hor'.
      repeat split; reflexivity.
    + intros H. now destruct H.
  - (* the identifier is taken *)
    assert (Hfin : answer = (Ok false, tick (tick w2))).
    { rewrite Hrun. unfold try_catch, addDoc. rewrite (bind_throw _ Hadd).
      reflexivity. }
    unfold w'. rewrite Hfin. cbn [fst snd].
    split.
    { unfold rows_with_id. rewrite !tables_tick. exact Ht2. }
    split; [exact Hrem|]. split; [exact Hsubs|]. split.
    { unfold rows_with_id. rewrite !tables_tick. exact Ho2. }
    split; [exact Ho'rem|]. split.
    { intros k Hk. apply Ho'keep. intros [H|[]]. now apply Hk. }
    split.
    + intros H. discriminate H.
    + intros _. split; [reflexivity|]. split.
      * now rewrite !tables_tick.
      * now rewrite !tables_tick.
Qed.

Lemma addTempOrderPayment_floors_the_invoice_only_witness :
  exists t' o',
    rows_with_id (snd (addTempOrderPayment "inv7" "s1" 150 None world_batch))
      TEMP_ORDERS_COLLECTION "inv7" = [t']
    /\ obj_get "remainingAmount" t' = VNum 0
    /\ rows_with_id (snd (addTempOrderPayment "inv7" "s1" 150 None world_batch))
         ORDERS_COLLECTION "o1" = [o']
    /\ obj_get "remainingAmount" o' = VNum (-50).
Proof.
  destruct (addTempOrderPayment_floors_the_invoice_only world_batch "inv7" "s1" "o1" "u1"
              150 None _ _ _ 0%nat
              eq_refl ltac:(discriminate) eq_refl eq_refl eq_refl eq_refl
              ltac:(discriminate) eq_refl eq_refl ltac:(discriminate))
    as (so & t' & o' & _ & H1 & H2 & _ & H3 & H4 & _).
  exists t', o'. split; [exact H1|]. split; [exact H2|]. split; [exact H3|exact H4].
Defined.

(** The sample invoice after a payment of 150 where 100 remained: the
    invoice stands at 0, the order and the debt of the user at -50. *)
Example addTempOrderPayment_overpaid :
  fst (addTempOrderPayment "inv7" "s1" 150 None world_batch) = Ok true
  /\ map (obj_get "remainingAmount")
       (tables (snd (addTempOrderPayment "inv7" "s1" 150 None world_batch))
          TEMP_ORDERS_COLLECTION) = [VNum 0]
  /\ map (obj_get "remainingAmount")
       (tables (snd (addTempOrderPayment "inv7" "s1" 150 None world_batch))
          ORDERS_COLLECTION) = [VNum (-50)]
  /\ map (obj_get "debt")
       (tables (snd (addTempOrderPayment "inv7" "s1" 150 None world_batch))
          USERS_COLLECTION) = [VNum (-50)].
Proof. repeat split; reflexivity. Qed.

(* ------------------------------------------------------------------ *)
(** ** Deleting a temporary order *)

Lemma getOrderById_reliable (orderId : string) (w : world) :
  reliable w -> orderId <> "" ->
  getOrderById orderId w
  = (Ok (match rows_with_id w ORDERS_COLLECTION orderId with
         | [o] => Some (obj_merge [("id", VStr orderId)] o)
         | _ => None
         end), w).
Proof.
  intros Hr Hid. unfold getOrderById, try_catch.
  rewrite (bind_ok _ (doc_ok ORDERS_COLLECTION orderId w ltac:(discriminate) Hid)).
  unfold getDoc. rewrite (bind_ok _ (doc_get_reliable _ w Hr)).
  cbn [ref_collection ref_id].
  now destruct (rows_with_id w ORDERS_COLLECTION orderId) as [|o [|o' rest]].
Qed.

Lemma transactions_query_filter (orderId : string) (t : table) :
  filter (filters_hold (build_filters [where_ "orderId" "==" (VStr orderId)])) t
  = filter (transaction_of orderId) t.
Proof.
  apply filter_ext. intros r. unfold transaction_of. simpl. apply andb_true_r.
Qed.

(** [deleteOrder] for an order without a representative, on a reliable
    store. *)
Lemma deleteOrder_free_run (w : world) (orderId U : string) (o : object) :
  reliable w -> orderId <> "" ->
  rows_with_id w ORDERS_COLLECTION orderId = [o] ->
  truthy (obj_get "representativeId" o) = false ->
  obj_get "userId" o = VStr U -> U <> "" ->
  exists w1,
    let w2 := set_table ORDERS_COLLECTION
                (delete_rows orderId (tables w1 ORDERS_COLLECTION)) w1 in
    deleteOrder orderId w
    = (Ok true,
       set_table USERS_COLLECTION
         (update_rows U (user_stats w2 U) (tables w2 USERS_COLLECTION)) w2)
    /\ tables w1 TRANSACTIONS_COLLECTION
       = fold_left (fun t d => delete_rows (as_id (obj_get "id" d)) t)
           (filter (transaction_of orderId) (tables w TRANSACTIONS_COLLECTION))
           (tables w TRANSACTIONS_COLLECTION)
    /\ (forall c, c <> TRANSACTIONS_COLLECTION -> tables w1 c = tables w c)
    /\ reliable w1.
Proof.
  intros Hr Hid Hrows Hrep HU HUne.
  unfold deleteOrder, try_catch.
  rewrite (bind_ok _ (doc_ok ORDERS_COLLECTION orderId w ltac:(discriminate) Hid)).
  unfold getDoc at 1. rewrite (bind_ok _ (doc_get_reliable _ w Hr)).
  cbn [ref_collection ref_id]. rewrite Hrows, Hrep, HU. cbn [truthy as_id].
  assert (Ht : negb (U =? "")%string = true).
  { destruct (String.eqb_spec U ""); [contradiction|reflexivity]. }
  rewrite Ht. rewrite (bind_ok _ (ret_run writeBatch w)).
  unfold getDocs, query. rewrite (bind_ok _ (adapter_query_reliable _ _ w Hr)).
  rewrite transactions_query_filter.
  destruct (delete_loop TRANSACTIONS_COLLECTION
              (filter (transaction_of orderId) (tables w TRANSACTIONS_COLLECTION))
              writeBatch w Hr)
    as (w1 & Hrun & Hr1 & Ht1 & Hfr1).
  rewrite (bind_ok _ Hrun). unfold batch_delete.
  rewrite (bind_ok _ (batch_push_ok _ _ w1 _ (doc_delete_reliable _ w1 Hr1))).
  cbn [ref_collection ref_id]. unfold writeBatch. cbn [batch_commit].
  rewrite (bind_ok _ (ret_run tt _)).
  set (w2 := set_table ORDERS_COLLECTION _ w1).
  assert (Hr2 : reliable w2) by exact Hr1.
  rewrite (bind_ok _ (recalculateUserStats_reliable U w2 Hr2 HUne)).
  exists w1. split; [reflexivity|]. split; [exact Ht1|]. split; [exact Hfr1|exact Hr1].
Qed.

(** [deleteOrder] for the main order of an invoice: whether it answers
    [true] or [false], the order and its transactions are deleted. *)
Lemma deleteOrder_free_or_orphan (w : world) (P U : string) (o : object) :
  reliable w -> P <> "" ->
  rows_with_id w ORDERS_COLLECTION P = [o] ->
  free_or_orphan w o ->
  obj_get "userId" o = VStr U -> U <> "" ->
  exists b w3,
    deleteOrder P w = (Ok b, w3)
    /\ reliable w3
    /\ tables w3 ORDERS_COLLECTION = delete_rows P (tables w ORDERS_COLLECTION)
    /\ tables w3 TRANSACTIONS_COLLECTION
       = fold_left (fun t d => delete_rows (as_id (obj_get "id" d)) t)
           (filter (transaction_of P) (tables w TRANSACTIONS_COLLECTION))
           (tables w TRANSACTIONS_COLLECTION)
    /\ (tables w3 USERS_COLLECTION = tables w USERS_COLLECTION
        \/ tables w3 USERS_COLLECTION
           = update_rows U (user_stats w3 U) (tables w USERS_COLLECTION))
    /\ (forall c, c <> ORDERS_COLLECTION -> c <> TRANSACTIONS_COLLECTION ->
                  c <> USERS_COLLECTION -> tables w3 c = tables w c)
    /\ (b = true <-> truthy (obj_get "representativeId" o) = false).
Proof.
  intros Hr HP Hrows [Hfree|(R & HR & HRne & Hrep)] HU HUne.
  - destruct (deleteOrder_free_run w P U o Hr HP Hrows Hfree HU HUne)
      as (w1 & Hrun & Ht1 & Hfr1 & Hr1).
    cbv zeta in Hrun.
    set (w2 := set_table ORDERS_COLLECTION
                 (delete_rows P (tables w1 ORDERS_COLLECTION)) w1) in Hrun.
    set (w3 := set_table USERS_COLLECTION _ w2) in Hrun.
    exists true, w3. split; [exact Hrun|]. split; [exact Hr1|].
    assert (Ho3 : tables w3 ORDERS_COLLECTION = tables w2 ORDERS_COLLECTION).
    { unfold w3. now apply tables_set_table_neq. }
    split.
    { rewrite Ho3. unfold w2. rewrite tables_set_table_eq.
      now rewrite Hfr1 by discriminate. }
    split.
    { unfold w3, w2. rewrite !tables_set_table_neq by discriminate. exact Ht1. }
    split.
    { right. unfold user_stats.
      destruct (spec_totals_frame w3 w2 U Ho3) as [-> ->].
      fold (user_stats w2 U).
      unfold w3. rewrite tables_set_table_eq. f_equal.
      unfold w2. rewrite tables_set_table_neq by discriminate.
      apply Hfr1. discriminate. }
    split.
    { intros c H1 H2 H3. unfold w3, w2. rewrite !tables_set_table_neq by assumption.
      now apply Hfr1. }
    split; [intros _; exact Hfree|reflexivity].
  - destruct (deleteOrder_orphan_run w P R o Hr HP Hrows HR HRne Hrep)
      as (w1 & Hrun & Ht1 & Hfr1 & Hr1).
    set (w3 := set_table ORDERS_COLLECTION _ w1) in Hrun.
    exists false, w3. split; [exact Hrun|]. split; [exact Hr1|]. split.
    { unfold w3. rewrite tables_set_table_eq. now rewrite Hfr1 by discriminate. }
    split.
    { unfold w3. rewrite tables_set_table_neq by discriminate. exact Ht1. }
    split.
    { left. unfold w3. rewrite tables_set_table_neq by discriminate.
      now apply Hfr1. }
    split.
    { intros c H1 H2 H3. unfold w3. rewrite tables_set_table_neq by assumption.
      now apply Hfr1. }
    split; [discriminate|].
    rewrite HR. cbn [truthy]. destruct (String.eqb_spec R ""); [contradiction|].
    discriminate.
Qed.

(** [deleteTempOrder] for an invoice that was converted into an order, on
    a reliable store: it answers [true] whatever [deleteOrder] answered for
    the main order; afterwards the invoice, the main order and the
    transactions of the main order are gone, and the owner of the main
    order carries the debt and the order count of what is left. *)
Theorem deleteTempOrder_takes_the_main_order_along :
  forall (w : world) (orderId P U : string) (t o : object),
    reliable w -> orderId <> "" ->
    rows_with_id w TEMP_ORDERS_COLLECTION orderId = [t] ->
    obj_get "parentInvoiceId" t = VStr P -> P <> "" ->
    rows_with_id w ORDERS_COLLECTION P = [o] ->
    obj_get "userId" o = VStr U -> U <> "" ->
    free_or_orphan w o ->
    string_ids (tables w TRANSACTIONS_COLLECTION) ->
    let w' := snd (deleteTempOrder orderId w) in
    fst (deleteTempOrder orderId w) = Ok true
    /\ (fst (deleteOrder P w) = Ok true
        <-> truthy (obj_get "representativeId" o) = false)
    /\ tables w' TEMP_ORDERS_COLLECTION
       = delete_rows orderId (tables w TEMP_ORDERS_COLLECTION)
    /\ tables w' ORDERS_COLLECTION = delete_rows P (tables w ORDERS_COLLECTION)
    /\ filter (transaction_of P) (tables w' TRANSACTIONS_COLLECTION) = []
    /\ tables w' USERS_COLLECTION
       = update_rows U (user_stats w' U) (tables w USERS_COLLECTION).
Proof.
  intros w orderId P U t o Hr Hid Hrows HP HPne Ho HU HUne Hcase Hs w'.
  destruct (deleteOrder_free_or_orphan w P U o Hr HPne Ho Hcase HU HUne)
    as (b & w3 & Hdel & Hr3 & Ho3 & Htx3 & Hus3 & Hfr3 & Hb).
  set (w4 := set_table TEMP_ORDERS_COLLECTION
               (delete_rows orderId (tables w3 TEMP_ORDERS_COLLECTION)) w3).
  assert (Hr4 : reliable w4) by exact Hr3.
  set (w5 := set_table USERS_COLLECTION
               (update_rows U [("debt", VNum (orders_debt w4 U));
                               ("orderCount", VNum (spec_orderCount w4 U))]
                  (tables w4 USERS_COLLECTION)) w4).
  assert (HPt : truthy (VStr P) = true).
  { cbn [truthy]. destruct (String.eqb_spec P ""); [contradiction|reflexivity]. }
  assert (HUt : truthy (VStr U) = true).
  { cbn [truthy]. destruct (String.eqb_spec U ""); [contradiction|reflexivity]. }
  assert (Hrun : deleteTempOrder orderId w = (Ok true, w5)).
  { unfold deleteTempOrder, try_catch.
    rewrite (bind_ok _ (doc_ok TEMP_ORDERS_COLLECTION orderId w ltac:(discriminate) Hid)).
    unfold getDoc. rewrite (bind_ok _ (doc_get_reliable _ w Hr)).
    cbn [ref_collection ref_id]. rewrite Hrows, HP, HPt. cbn [as_id].
    rewrite ?bind_assoc_run.
    rewrite (bind_ok _ (getOrderById_reliable P w Hr HPne)). rewrite Ho.
    rewrite ?bind_assoc_run. rewrite (bind_ok _ Hdel).
    rewrite (bind_ok _ (ret_run _ w3)).
    rewrite obj_get_merge_id by discriminate. rewrite HU.
    unfold deleteDoc. rewrite (bind_ok _ (doc_delete_reliable _ w3 Hr3)).
    cbn [ref_collection ref_id]. fold w4. rewrite HUt. cbn [as_id].
    now rewrite (bind_ok _ (recalculateUserStats_reliable U w4 Hr4 HUne)). }
  unfold w'. rewrite Hrun, Hdel. cbn [fst snd].
  assert (Ho5 : tables w5 ORDERS_COLLECTION = tables w3 ORDERS_COLLECTION).
  { unfold w5, w4. now rewrite !tables_set_table_neq by discriminate. }
  assert (Ht5 : tables w5 TEMP_ORDERS_COLLECTION = tables w4 TEMP_ORDERS_COLLECTION).
  { unfold w5. now rewrite tables_set_table_neq by discriminate. }
  assert (Ho4 : tables w5 ORDERS_COLLECTION = tables w4 ORDERS_COLLECTION).
  { unfold w5. now rewrite tables_set_table_neq by discriminate. }
  destruct (spec_totals_frame w5 w4 U Ho4) as [Hd54 Hc54].
  split; [reflexivity|]. split.
  { split; [intros H; injection H as H; now apply Hb|].
    intros H. f_equal. now apply Hb. }
  split.
  { rewrite Ht5. unfold w4. rewrite tables_set_table_eq.
    now rewrite Hfr3 by discriminate. }
  split; [now rewrite Ho5|]. split.
  { unfold w5, w4. rewrite !tables_set_table_neq by discriminate. rewrite Htx3.
    apply filter_none. intros r Hin.
    destruct (in_fold_delete _ _ _ Hin) as [Hin0 Hdel0].
    destruct (transaction_of P r) eqn:E; [|reflexivity]. exfalso.
    destruct (Hs r Hin0) as [s Hsid].
    assert (Hrow : In r (filter (transaction_of P) (tables w TRANSACTIONS_COLLECTION))).
    { apply filter_In. now split. }
    specialize (Hdel0 r Hrow). rewrite Hsid in Hdel0. cbn [as_id] in Hdel0.
    apply has_id_iff in Hsid. congruence. }
  unfold user_stats. rewrite Hd54, Hc54.
  unfold w5. rewrite tables_set_table_eq.
  assert (Hus4 : tables w4 USERS_COLLECTION = tables w3 USERS_COLLECTION).
  { unfold w4. now rewrite tables_set_table_neq by discriminate. }
  rewrite Hus4.
  destruct Hus3 as [Hsame|Hdone]; [now rewrite Hsame|].
  (* the order's own recalculation wrote the same totals *)
  assert (Ho43 : tables w4 ORDERS_COLLECTION = tables w3 ORDERS_COLLECTION).
  { unfold w4. now rewrite tables_set_table_neq by discriminate. }
  assert (Hstats : user_stats w4 U = user_stats w3 U).
  { unfold user_stats, orders_debt, spec_orderCount. now rewrite Ho43. }
  unfold user_stats in Hstats. rewrite Hstats. fold (user_stats w3 U).
  rewrite Hdone. apply update_rows_idem. reflexivity.
Qed.

Lemma deleteTempOrder_takes_the_main_order_along_witness :
  fst (deleteTempOrder "inv7" world_batch_orphan) = Ok true
  /\ fst (deleteOrder "o1" world_batch_orphan) = Ok false
  /\ tables (snd (deleteTempOrder "inv7" world_batch_orphan)) ORDERS_COLLECTION = []
  /\ filter (transaction_of "o1")
       (tables (snd (deleteTempOrder "inv7" world_batch_orphan))
          TRANSACTIONS_COLLECTION) = [].
Proof.
  destruct (deleteTempOrder_takes_the_main_order_along world_batch_orphan
              "inv7" "o1" "u1" _ _
              eq_refl ltac:(discriminate) eq_refl eq_refl ltac:(discriminate)
              eq_refl eq_refl ltac:(discriminate))
    as (H1 & _ & _ & H4 & H5 & _).
  - right. exists "r9". repeat split. discriminate.
  - intros r [<-|[]]. eexists. reflexivity.
  - split; [exact H1|]. split; [reflexivity|]. split; [exact H4|exact H5].
Defined.

(* ------------------------------------------------------------------ *)
(** ** Deleting orders in bulk *)

Lemma set_add_in (x v : value) (s : list value) :
  In v (set_add x s) -> v = x \/ In v s.
Proof.
  unfold set_add. destruct (existsb (strict_eqb x) s); [now right|].
  intros H. apply in_app_or in H. destruct H as [H|[<-|[]]]; auto.
Qed.

Lemma set_add_keeps (x v : value) (s : list value) : In v s -> In v (set_add x s).
Proof.
  unfold set_add. destruct (existsb (strict_eqb x) s); [auto|].
  intros H. apply in_or_app. now left.
Qed.

Lemma set_add_has (U : string) (s : list value) : In (VStr U) (set_add (VStr U) s).
Proof.
  unfold set_add. destruct (existsb (strict_eqb (VStr U)) s) eqn:E.
  - apply existsb_exists in E. destruct E as (v & Hin & Hv).
    destruct v; try discriminate. cbn in Hv. apply String.eqb_eq in Hv. now subst.
  - apply in_or_app. right. now left.
Qed.

Lemma filter_subset_nil {A} (p : A -> bool) (l l' : list A) :
  (forall x, In x l' -> In x l) -> filter p l = [] -> filter p l' = [].
Proof.
  intros Hsub Hnil. apply filter_none. intros x Hin.
  destruct (p x) eqn:E; [|reflexivity].
  assert (H : In x (filter p l)) by (apply filter_In; auto).
  rewrite Hnil in H. destruct H.
Qed.

(** The transactions of an order, once they were deleted by their
    identifiers. *)
Lemma transactions_deleted (orderId : string) (t : table) :
  string_ids t ->
  filter (transaction_of orderId)
    (fold_left (fun t d => delete_rows (as_id (obj_get "id" d)) t)
       (filter (transaction_of orderId) t) t) = [].
Proof.
  intros Hs. apply filter_none. intros r Hin.
  destruct (in_fold_delete _ _ _ Hin) as [Hin0 Hdel].
  destruct (transaction_of orderId r) eqn:E; [|reflexivity]. exfalso.
  destruct (Hs r Hin0) as [s Hsid].
  assert (Hrow : In r (filter (transaction_of orderId) t)) by (apply filter_In; auto).
  specialize (Hdel r Hrow). rewrite Hsid in Hdel. cbn [as_id] in Hdel.
  apply has_id_iff in Hsid. congruence.
Qed.

(** A turn of the loop for an identifier without an order. *)
Lemma bulk_delete_one_missing (users0 : list value) (id0 : string) (w : world) :
  reliable w -> id0 <> "" ->
  (forall o, rows_with_id w ORDERS_COLLECTION id0 <> [o]) ->
  bulk_delete_one (users0, writeBatch) id0 w = (Ok (users0, writeBatch), w).
Proof.
  intros Hr Hid0 Hnone. unfold bulk_delete_one.
  rewrite (bind_ok _ (doc_ok ORDERS_COLLECTION id0 w ltac:(discriminate) Hid0)).
  unfold getDoc. rewrite (bind_ok _ (doc_get_reliable _ w Hr)).
  cbn [ref_collection ref_id].
  destruct (rows_with_id w ORDERS_COLLECTION id0) as [|o0 [|o1 more]];
    [reflexivity| |reflexivity].
  now destruct (Hnone o0).
Qed.

(** A turn of the loop for an order that no representative holds. *)
Lemma bulk_delete_one_found (users0 : list value) (id0 U0 : string) (o0 : object)
    (w : world) :
  reliable w -> id0 <> "" ->
  rows_with_id w ORDERS_COLLECTION id0 = [o0] ->
  truthy (obj_get "representativeId" o0) = false ->
  obj_get "userId" o0 = VStr U0 -> U0 <> "" ->
  exists wb,
    bulk_delete_one (users0, writeBatch) id0 w
    = (Ok (set_add (VStr U0) users0, writeBatch), wb)
    /\ reliable wb
    /\ tables wb ORDERS_COLLECTION = delete_rows id0 (tables w ORDERS_COLLECTION)
    /\ tables wb TRANSACTIONS_COLLECTION
       = fold_left (fun t d => delete_rows (as_id (obj_get "id" d)) t)
           (filter (transaction_of id0) (tables w TRANSACTIONS_COLLECTION))
           (tables w TRANSACTIONS_COLLECTION)
    /\ forall c, c <> ORDERS_COLLECTION -> c <> TRANSACTIONS_COLLECTION ->
                 tables wb c = tables w c.
Proof.
  intros Hr Hid0 Hrows Hrep HU0 HU0ne. unfold bulk_delete_one.
  rewrite (bind_ok _ (doc_ok ORDERS_COLLECTION id0 w ltac:(discriminate) Hid0)).
  unfold getDoc. rewrite (bind_ok _ (doc_get_reliable _ w Hr)).
  cbn [ref_collection ref_id]. rewrite Hrows, Hrep, HU0.
  assert (HUt : truthy (VStr U0) = true).
  { cbn [truthy]. destruct (String.eqb_spec U0 ""); [contradiction|reflexivity]. }
  rewrite HUt. rewrite (bind_ok _ (ret_run writeBatch w)).
  unfold batch_delete at 1.
  rewrite (bind_ok _ (batch_push_ok writeBatch _ w _ (doc_delete_reliable _ w Hr))).
  cbn [ref_collection ref_id].
  set (wa := set_table ORDERS_COLLECTION
               (delete_rows id0 (tables w ORDERS_COLLECTION)) w).
  assert (Hra : reliable wa) by exact Hr.
  unfold getDocs, query.
  rewrite (bind_ok _ (adapter_query_reliable _ _ wa Hra)).
  rewrite transactions_query_filter.
  destruct (delete_loop TRANSACTIONS_COLLECTION
              (filter (transaction_of id0) (tables wa TRANSACTIONS_COLLECTION))
              writeBatch wa Hra)
    as (wb & Hrunb & Hrb & Htb & Hfrb).
  rewrite (bind_ok _ Hrunb).
  assert (Htxa : tables wa TRANSACTIONS_COLLECTION = tables w TRANSACTIONS_COLLECTION).
  { unfold wa. now apply tables_set_table_neq. }
  exists wb. split; [reflexivity|]. split; [exact Hrb|]. split.
  { rewrite Hfrb by discriminate. unfold wa. apply tables_set_table_eq. }
  split; [now rewrite Htb, Htxa|].
  intros c H1 H2. rewrite (Hfrb c H2). unfold wa. now apply tables_set_table_neq.
Qed.

(** The loop over the listed orders, on a reliable store. *)
Lemma bulk_delete_loop (orderIds : list string) :
  forall (users0 : list value) (w : world),
    reliable w -> Forall (fun id => id <> "") orderIds ->
    free_owned_orders w orderIds ->
    (forall v, In v users0 -> exists U, v = VStr U /\ U <> "") ->
    exists users w1,
      foldM bulk_delete_one (users0, writeBatch) orderIds w
      = (Ok (users, writeBatch), w1)
      /\ reliable w1
      /\ (forall r, In r (tables w1 ORDERS_COLLECTION) -> In r (tables w ORDERS_COLLECTION))
      /\ (forall r, In r (tables w1 TRANSACTIONS_COLLECTION) ->
                    In r (tables w TRANSACTIONS_COLLECTION))
      /\ (forall c, c <> ORDERS_COLLECTION -> c <> TRANSACTIONS_COLLECTION ->
                    tables w1 c = tables w c)
      /\ (forall v, In v users -> exists U, v = VStr U /\ U <> "")
      /\ (forall v, In v users0 -> In v users)
      /\ (forall id, ~ In id orderIds ->
            rows_with_id w1 ORDERS_COLLECTION id = rows_with_id w ORDERS_COLLECTION id)
      /\ (forall id o, In id orderIds -> rows_with_id w ORDERS_COLLECTION id = [o] ->
            In (obj_get "userId" o) users
            /\ rows_with_id w1 ORDERS_COLLECTION id = []
            /\ (string_ids (tables w TRANSACTIONS_COLLECTION) ->
                filter (transaction_of id) (tables w1 TRANSACTIONS_COLLECTION) = [])).
Proof.
  induction orderIds as [|id0 rest IH]; intros users0 w Hr Hne Hfree Hnamed.
  - exists users0, w. split; [reflexivity|]. repeat split; auto; destruct H.
  - inversion Hne as [|? ? Hid0 Hrest]; subst.
    destruct (rows_with_id w ORDERS_COLLECTION id0) as [|o0 [|o1 more]] eqn:Hrows.
    2: {
      (* the order exists *)
      destruct (Hfree id0 o0 (or_introl eq_refl) Hrows) as (Hrep & U0 & HU0 & HU0ne).
      destruct (bulk_delete_one_found users0 id0 U0 o0 w Hr Hid0 Hrows Hrep HU0 HU0ne)
        as (wb & Hstep & Hrb & Hob & Htb & Hfrb).
      assert (Hrowsb : forall id, id <> id0 ->
                rows_with_id wb ORDERS_COLLECTION id = rows_with_id w ORDERS_COLLECTION id).
      { intros id Hne'. unfold rows_with_id. rewrite Hob.
        now apply filter_delete_rows_other. }
      assert (Hgone : rows_with_id wb ORDERS_COLLECTION id0 = []).
      { unfold rows_with_id. rewrite Hob. apply filter_delete_rows_same. }
      assert (Htxsub : forall r, In r (tables wb TRANSACTIONS_COLLECTION) ->
                                 In r (tables w TRANSACTIONS_COLLECTION)).
      { intros r Hin. rewrite Htb in Hin. now apply in_fold_delete in Hin. }
      destruct (IH (set_add (VStr U0) users0) wb Hrb Hrest)
        as (users & w1 & Hrun & Hr1 & Hso & Hst & Hfr & Hnm & Hsub & Hoth & Hin).
      { intros id o Hi Hro.
        destruct (string_dec id id0) as [->|Hne']; [congruence|].
        rewrite (Hrowsb id Hne') in Hro. apply (Hfree id o); [now right|exact Hro]. }
      { intros v Hv. apply set_add_in in Hv. destruct Hv as [->|Hv]; [|now apply Hnamed].
        now exists U0. }
      exists users, w1. split.
      { cbn [foldM]. now rewrite (bind_ok _ Hstep). }
      split; [exact Hr1|]. split.
      { intros r Hin'. apply Hso in Hin'. rewrite Hob in Hin'.
        unfold delete_rows in Hin'. now apply filter_In in Hin'. }
      split; [intros r Hin'; now apply Htxsub, Hst|]. split.
      { intros c H1 H2. now rewrite (Hfr c H1 H2), (Hfrb c H1 H2). }
      split; [exact Hnm|]. split.
      { intros v Hv. now apply Hsub, set_add_keeps. }
      split.
      { intros id Hni. rewrite Hoth by (intros H; apply Hni; now right).
        apply Hrowsb. intros ->. apply Hni. now left. }
      intros id o Hi Hro.
      destruct (string_dec id id0) as [->|Hne'].
      * assert (o = o0) by congruence. subst o. split; [|split].
        -- rewrite HU0. apply Hsub, set_add_has.
        -- unfold rows_with_id.
           apply (filter_subset_nil _ (tables wb ORDERS_COLLECTION)); [exact Hso|exact Hgone].
        -- intros Hs.
           apply (filter_subset_nil _ (tables wb TRANSACTIONS_COLLECTION)); [exact Hst|].
           rewrite Htb. now apply transactions_deleted.
      * destruct Hi as [Hi|Hi]; [congruence|].
        rewrite <- (Hrowsb id Hne') in Hro.
        destruct (Hin id o Hi Hro) as (H1 & H2 & H3).
        split; [exact H1|]. split; [exact H2|].
        intros Hs. apply H3. intros r Hr'. apply Hs. now apply Htxsub. }
    all: assert (Hstep : bulk_delete_one (users0, writeBatch) id0 w
                         = (Ok (users0, writeBatch), w))
           by (apply bulk_delete_one_missing; auto; rewrite Hrows; discriminate);
         destruct (IH users0 w Hr Hrest) as (users & w1 & Hrun & Hr1 & Hso & Hst & Hfr
                                             & Hnm & Hsub & Hoth & Hin);
           [intros id o Hi; apply Hfree; now right|exact Hnamed|];
         exists users, w1; (split; [cbn [foldM]; now rewrite (bind_ok _ Hstep)|]);
         repeat split; auto;
           try (intros id Hni; apply Hoth; intros H; apply Hni; now right);
           try (destruct H as [<-|H]; [congruence|]; now apply (Hin id o)).
Qed.

Lemma recalculate_values_as_rows (users : list value) (w : world) :
  foldM (fun (_ : unit) userId => recalculateUserStats (as_id userId)) tt users w
  = foldM (fun (_ : unit) user => recalculateUserStats (as_id (obj_get "id" user)))
          tt (map as_user users) w.
Proof.
  revert w. induction users as [|v users IH]; intros w; [reflexivity|].
  cbn [map foldM]. unfold bind.
  change (obj_get "id" (as_user v)) with v.
  destruct (recalculateUserStats (as_id v) w) as [[[]|e] w']; [apply IH|reflexivity].
Qed.

(** [bulkDeleteOrders] on a reliable store, for orders that no
    representative holds: it answers [true]; an identifier without an order
    is passed over; every listed order that exists is deleted with its
    transactions, and its owner carries the debt and the order count of the
    orders that are left; the orders that are not listed stay. *)
Theorem bulkDeleteOrders_recalculates_the_owners :
  forall (w : world) (orderIds : list string),
    reliable w ->
    Forall (fun id => id <> "") orderIds ->
    free_owned_orders w orderIds ->
    string_ids (tables w TRANSACTIONS_COLLECTION) ->
    string_ids (tables w USERS_COLLECTION) ->
    let w' := snd (bulkDeleteOrders orderIds w) in
    fst (bulkDeleteOrders orderIds w) = Ok true
    /\ (forall id o, In id orderIds -> rows_with_id w ORDERS_COLLECTION id = [o] ->
          rows_with_id w' ORDERS_COLLECTION id = []
          /\ filter (transaction_of id) (tables w' TRANSACTIONS_COLLECTION) = []
          /\ forall u U, obj_get "userId" o = VStr U ->
               In u (tables w' USERS_COLLECTION) -> obj_get "id" u = VStr U ->
               obj_get "debt" u = VNum (orders_debt w' U)
               /\ obj_get "orderCount" u = VNum (spec_orderCount w' U))
    /\ (forall id, ~ In id orderIds ->
          rows_with_id w' ORDERS_COLLECTION id = rows_with_id w ORDERS_COLLECTION id)
    /\ (forall c, c <> ORDERS_COLLECTION -> c <> TRANSACTIONS_COLLECTION ->
                  c <> USERS_COLLECTION -> tables w' c = tables w c).
Proof.
  intros w ids Hr Hne Hfree Hst Hsu w'. unfold w'. clear w'.
  destruct ids as [|id0 rest].
  { cbn. split; [reflexivity|]. split; [intros id o []|]. split; reflexivity. }
  set (ids := id0 :: rest) in *.
  destruct (bulk_delete_loop ids [] w Hr Hne Hfree) as
      (users & w1 & Hloop & Hr1 & Hso & Hsub & Hfr & Hnm & _ & Hoth & Hin).
  { intros v []. }
  assert (Hus : named_rows (map as_user users)).
  { intros r Hr'. apply in_map_iff in Hr'. destruct Hr' as (v & <- & Hv).
    destruct (Hnm v Hv) as (U & -> & HU). now exists U. }
  destruct (recalculate_users_loop w1 (map as_user users) w1 Hr1 Hus eq_refl)
    as (w3 & Hrun3 & Hr3 & Ht3 & Hfr3).
  rewrite <- recalculate_values_as_rows in Hrun3.
  assert (Hrun : bulkDeleteOrders ids w = (Ok true, w3)).
  { unfold bulkDeleteOrders, ids. cbn [List.length Nat.eqb]. fold ids.
    unfold try_catch. rewrite (bind_ok _ Hloop). cbn [fst snd].
    unfold writeBatch. cbn [batch_commit]. rewrite (bind_ok _ (ret_run tt w1)).
    now rewrite (bind_ok _ Hrun3). }
  rewrite Hrun. cbn [fst snd].
  rewrite update_rows_fold_map in Ht3.
  assert (Ho3 : tables w3 ORDERS_COLLECTION = tables w1 ORDERS_COLLECTION)
    by (apply Hfr3; discriminate).
  split; [reflexivity|]. split; [|split].
  - intros id o Hi Hro. destruct (Hin id o Hi Hro) as (Hown & Hgone & Htx).
    split; [|split].
    + unfold rows_with_id. rewrite Ho3. exact Hgone.
    + rewrite Hfr3 by discriminate. now apply Htx.
    + intros u U HU Hu Hid. rewrite Ht3 in Hu. apply in_map_iff in Hu.
      destruct Hu as (r & <- & Hr').
      rewrite (Hfr USERS_COLLECTION) in Hr' by discriminate.
      destruct (Hsu r Hr') as (U' & HU').
      destruct (recalculated_row_stats w1 (map as_user users) r U' HU') as [Hk Hs].
      rewrite (Hk "id") in Hid by discriminate. rewrite HU' in Hid.
      injection Hid as <-.
      destruct (spec_totals_frame w3 w1 U' Ho3) as [-> ->].
      apply Hs. left. exists (as_user (VStr U')). split; [|reflexivity].
      apply in_map. now rewrite <- HU.
  - intros id Hni. unfold rows_with_id. rewrite Ho3. now apply Hoth.
  - intros c H1 H2 H3. now rewrite Hfr3, Hfr.
Qed.

Lemma bulkDeleteOrders_recalculates_the_owners_witness :
  fst (bulkDeleteOrders ["o1"; "nope"] world_paid) = Ok true
  /\ rows_with_id (snd (bulkDeleteOrders ["o1"; "nope"] world_paid))
       ORDERS_COLLECTION "o1" = []
  /\ filter (transaction_of "o1")
       (tables (snd (bulkDeleteOrders ["o1"; "nope"] world_paid))
          TRANSACTIONS_COLLECTION) = [].
Proof.
  destruct (bulkDeleteOrders_recalculates_the_owners world_paid ["o1"; "nope"] eq_refl)
    as (H1 & H2 & _).
  - repeat constructor; discriminate.
  - intros id o [<-|[<-|[]]] Hrows; [|discriminate Hrows].
    injection Hrows as <-. split; [reflexivity|]. exists "u1".
    split; [reflexivity|discriminate].
  - intros r [<-|[]]. eexists. reflexivity.
  - intros r [<-|[]]. eexists. reflexivity.
  - split; [exact H1|].
    destruct (H2 "o1" _ (or_introl eq_refl) eq_refl) as (H3 & H4 & _).
    split; [exact H3|exact H4].
Defined.

(** The sample user after the bulk deletion of the order: no order, no
    debt. *)
Example bulkDeleteOrders_clears_the_debt :
  tables (snd (bulkDeleteOrders ["o1"; "nope"] world_paid)) USERS_COLLECTION
  = [ [("id", VStr "u1"); ("name", VStr "Salem"); ("debt", VNum 0);
       ("orderCount", VNum 0)] ].
Proof. reflexivity. Qed.
